(* ===== verification/_CoqProject ===== *)
-Q . S2P
Prelude.v
Text.v
Method.v
Goroutines.v
Memory.v
Ownership.v
Json.v
Unmarshal.v
Dot.v
K8s.v
Api.v
Controllers.v
Demo.v
DeepCopy.v
ReplicaSet.v
Converters.v
Affinity.v
DotFiles.v
JobReconciler.v
Policy.v
Context.v
OAuth.v
Jobs.v
JobRequest.v
Wire.v
Listening.v
Collection.v
RunnerReconciler.v
AzureDevOps.v
Link.v
GitHub.v
Registration.v
Metrics.v
Dind.v
Sidecar.v
Runner.v
Signals.v
Operator.v
Lifecycle.v
Serving.v
