(* ===== verification/Prelude.v ===== *)
(** * kube-actions: a model of the program and the theorems that make it correct

    kube-actions runs GitHub Actions jobs on Kubernetes.  It is three programs:
    the operator ([src/operator]), which registers runners with GitHub and Azure
    DevOps, listens for their jobs and makes a Pod of each job; the entry point
    of a job's container ([src/runner]); and the sidecar that runs a Docker
    daemon next to it ([src/dind]).

    ** The program's parts

    - A user writes an ActionsRunner, or an ActionsRunnerReplicaSet that makes
      many of them; the admission webhooks check both.
    - The ActionsRunner controller gives each runner a wire: the facade of GitHub
      obtains a credential for the runner's repository, the facade of Azure DevOps
      registers an agent with it and opens a session, and a goroutine of the wire
      waits in that session for messages.  A job request that satisfies the
      runner's policy is handed to the controller, which makes an ActionsRunnerJob
      of it; one that does not is reported as a failed job.
    - The ActionsRunnerJob controller gives the job its volume claim and its Pod.
    - In the Pod, the entry point prepares the container and runs one job; the
      sidecar forwards the addresses of the Docker networks to the containers.

    ** How the source is modelled

    A piece of code that calls other processes (the API server, GitHub, Azure
    DevOps, the Docker daemon, the kernel, the clock) is a program tree, [prog E A]
    of this file: the calls are operations of a signature [E], an inductive type
    with the type of each operation's answer, and nothing is assumed of the
    answers unless a hypothesis of a theorem says so.  [runs p tr a] says that [p]
    may perform the events [tr] and end with [a]; [always p Q] that every run
    satisfies [Q], computed along the tree; [exec] runs a program against a
    simulated world, which is what the examples do; [interp] implements the
    operations of one program by those of another, which is how components are
    composed.  Methods that fail, panic and change their receiver are the monad of
    [Method].  Pointers are options, slices that may be nil are optional lists
    (except where sharing matters: there both are addresses in a [Memory]),
    errors keep what the program tests of them, a panic is an outcome, integers
    are in [Z] with the wrap-around of their width written out where it can occur.
    Library code without effects (the Kubernetes types' helpers, gojq, the JSON
    decoder of third-party types, ciphers) is a class of parameters; what is
    documented of it is a class of laws, and every theorem that uses one has a
    witness at a concrete instance.

    ** The files

    - [Prelude]: Go's values, errors and panics; programs, their runs and their
      composition; the tactics that walk along a run.  [Goroutines]: several
      programs at once over one shared state, as schedules of their operations.
      [Memory], [Ownership]: slices, maps and pointers as they lie in a memory,
      what a program reads of them, and which addresses it may write.
    - [Text], [Method], [Json]: functions on texts; the monad of methods; JSON
      texts, base64 and the bytes of big integers.  [Unmarshal]: the reader of
      JSON texts and the decoding of Go's scalars, pointers, slices and maps.
    - [Dot]: [dot/*.go], the runner's dot files and the RSA key in its two forms;
      [DotFiles] reads and writes their texts.
    - [K8s], [Api]: the Kubernetes types the program handles, and its own
      ([operator/api/v1alpha1/*_types.go]).
    - [Controllers]: [internal/controller/util.go], and [kube], the client of the
      API server.  [Demo] is a concrete instance of the libraries.
    - [DeepCopy]: [api/v1alpha1/zz_generated.deepcopy.go], on that memory.
    - [ReplicaSet], [JobReconciler], [RunnerReconciler]: a pass ([Reconcile]) of
      each of the three controllers ([actionsrunnerreplicaset/reconciler.go],
      [actionsrunnerjob/reconciler.go], [actionsrunner/reconciler.go]).
    - [Converters]: [actionsrunner/util/converters.go], [filters.go] and [env.go],
      the objects that are made of a runner.  [Affinity]:
      [withRuntimeAffinity] of [converters.go] on the memory, where it fills the
      affinity of the runner it is given.
    - [Policy]: the webhooks ([api/v1alpha1/*_webhook.go]) and the policy
      validator ([wire/validator.go]).  [Context]: [wire/context.go], the typed
      JSON of the jobs' contexts.
    - [OAuth]: [util/oauth2.go] and [wire/errors.go].
    - [Jobs]: [wire/message.go], [wire/pajr.go], [util/ado.go],
      [util/properties.go].  [JobRequest] decodes the text of a job request into
      the structs of [wire/pajr.go].
    - [Wire]: [wire/wire.go], one runner's link to both services, over the
      signature [wire] of what its facades and its channels do; [Listening]: the
      calls of its [Listen] and [Close] at once; [Collection]:
      [wire/collection.go], the registry of wires.
    - [AzureDevOps]: [facades/ado.go], [util/jwt.go], [util/pkcs7.go]; its
      [perform] implements the operations of [wire] on Azure DevOps.  [Link]:
      the wire over its facade.
    - [GitHub]: [facades/gh.go], its client, its caches and its tokens;
      [Registration]: the wire over that facade.
    - [Metrics]: [metrics/metrics.go], the collectors and what a scrape shows.
      [Operator]: [cmd/main.go] and [constants], the order in which the operator
      is put together.
    - [Dind]: [src/dind/*.go], the event loops of the sidecar; [Sidecar]: its two
      goroutines at once on the cache they share.
    - [Runner]: [src/runner/*.go]; [Signals]: [run] of [runner/util.go], the
      goroutines that forward signals to a command and wait for it.
    - [Lifecycle], [Serving]: the life of a job, from the request a wire hands to
      the controller to its Pod's end, as passes of the two controllers against a
      server that stores what it is told.

    ** What the theorems show

    - The replica set controller converges: against an API server that stores
      what it is told, a bounded number of passes reaches the desired runners
      ([Reconcile_converges]); [Reconcile_scales] says what one pass does, and
      [Reconcile_panics] when the count overflows.
    - The job controller creates at most one claim and one Pod, as the converters
      describe them, mirrors their phases and deletes only what is beyond repair
      ([Reconcile_creates], [Reconcile_mirrors], [Reconcile_deletes]), and returns
      exactly the errors it does not tolerate ([Reconcile_errors]).
    - The runner controller: [runner_handles_job] says what a pass makes of a job
      request, [runner_job_needs_request] that no job is made without one,
      [runner_writes_as_described] what is written of the dot files and the
      budget, [runner_forgets] what becomes of credentials beyond recovery.
    - A deep copy of an object reads as the object and shares no memory with it
      ([DeepCopyObject_separate]); hence converting a copy of a runner, which
      fills the copy's affinity in place, leaves the runner in the cache as it was
      ([cache_survives_conversion]).
    - Together: against a server that stores what it is told, the pass that finds
      a request leaves a job of it ([runner_pass_serves]), the passes of the job
      controller settle that job within four ([Job_settles]), so that a request
      is served to its end ([request_served]).
    - The objects made of one runner fit together ([converted_fit],
      [ToPod_volumes]), and secrets and privileges reach only the containers of
      runners with the capability ([ToPod_secrets]).
    - The dot files read back as they were written ([ToDotFiles_reads_back]).
    - Policies: what the webhooks admit ([webhooks_admit]), what the validator
      decides ([Validate_verdict]), and their composition: an admitted policy
      always decides ([admitted_policy_decides]).  The contexts decode to what
      their JSON means ([UnmarshalJSON_means]), and the verdict is a function of
      the text of the request ([text_to_verdict]).
    - The wire: [Init_undoes], the protocol of its message loop
      ([messageLoop_protocol]), the fate of each message ([handleMessage_fate])
      and of the listener itself ([listener_recovers]); its registry
      ([WireFor_spec]).  However calls of [Listen] and [Close] interleave, one
      goroutine listens at most ([one_listener]); two faults remain, a listener
      that cannot be started again ([deaf_forever]) and a channel closed twice
      ([closed_twice]).
    - The facade of Azure DevOps stays well formed ([perform_typed]), registers
      agents as described ([agent_registered]), opens sealed messages
      ([GetMessage_opens]) and names the errors of the token endpoint
      ([AccessToken_errors]).  It refines an abstract link
      ([facade_refines_link]), from which follow properties of the wire over its
      facade: an initialised wire can listen ([Init_readies]), the listener leaves
      no session behind ([listener_releases]), a reported violation has reached
      the job's timeline ([violation_reported]).
    - The facade of GitHub only serves allowed repositories ([Init_allows]), so that
      a wire registers runners for these only, and with GitHub's own credentials
      ([registered_rightfully]).  It renews its client in time ([initGitHubClient_renews]), hands out a token at most
      sixty times ([token_uses_bounded]) and never a credential of another runner
      event or repository ([credential_of_event]).
    - The gauge of the living jobs follows what the passes do to them
      ([gauge_shows_jobs]); the operator sets everything up before it starts
      ([main_sets_up]), and each controller watches what it writes
      ([controllers_watch_writes]).
    - The sidecar: its event loop refines a registry of networks and containers
      ([event_loop_refines]), in which the address ranges never overlap
      ([octets_separated]), also when its two goroutines interleave
      ([rules_separated]), and the textual rewriting of addresses is a translation
      ([replacement_translates]); rules are taken back and proxies killed
      ([network_undone], [proxies_killed]); waiting ends ([WaitForDockerd_ends]).
    - The entry point tells the sidecar to end whatever happens to the job
      ([main_ends]), and the Docker configuration sees the AWS account
      ([docker_config_sees_aws]).  Signals reach a running command in the order
      of their arrival, and its end reaches the caller ([signals_forwarded]); the
      forwarding goroutine outlives it ([helpers_stay]).

    ** Fuel

    Reading texts ([Runner.expand], [GitHub.strip_pem]) takes the length of the
    text, which every step shortens; the reader of JSON takes twice the length and
    one more, which [parse_fuel] proves enough.  The loops of the listener
    goroutine and of the sidecar are meant to run for ever, as is the forwarder of
    signals: their fuel is an argument of the model, the theorems about them hold
    for every amount of it, and running out of it is an ending of its own
    ([OutOfFuel]), never mistaken for one of the code's.  [Reconcile_converges]
    and [Job_settles] bound the number of passes.  Everything else is structural
    recursion.

    ** Not modelled

    - Goroutines at once, but for the three the program shares state between: the
      calls of a wire, the sidecar's loops, and the helpers of [run].  Elsewhere a
      mutex that makes a method one step is left out, and a second look at a cache
      under the lock is a second operation.  [Lifecycle] and [Serving] run the
      passes of the controllers one after the other.
    - Logging, contexts and their cancellation, HTTP transports, the flags of
      [cmd/main.go], the pipes of commands, and the unmarshalling of third-party
      JSON types.
    - The cluster's own controllers: the kubelet, the scheduler and the garbage
      collector, whose work is what a theorem's hypotheses say of the server. *)

From stdpp Require Export base tactics option list gmap strings.
From stdpp Require Export fin_maps fin_sets pretty infinite.
From Stdlib Require Ascii Eqdep_dec.

#[global] Set Default Goal Selector "!".

Declare Scope go_scope.
Delimit Scope go_scope with go.
#[global] Open Scope go_scope.
#[global] Open Scope Z_scope.

Create HintDb prog.
Create Rewrite HintDb prog.

(** ** Go values *)

(** A pointer of the source: [None] is [nil]. *)
Abbreviation ptr A := (option A) (only parsing).

(** A slice of the source; [None] is the nil slice, which [reflect.DeepEqual]
    and [reflect.Value.IsZero] tell apart from an empty one. *)
Abbreviation slice A := (option (list A)) (only parsing).

(** The elements a [range] over a slice visits. *)
Definition elems {A} (s : slice A) : list A := default [] s.

(** [append(s, xs...)]: appending nothing to a nil slice leaves it nil. *)
Definition append {A} (s : slice A) (xs : list A) : slice A :=
  match s, xs with
  | None, [] => None
  | _, _ => Some (elems s ++ xs)
  end.

(** A map of the source with string keys; [None] is the nil map. *)
Abbreviation gomap V := (option (gmap string V)) (only parsing).

(** [m[k]] with the comma-ok form: a nil map holds no key. *)
Definition mlookup {V} (m : gomap V) (k : string) : option V :=
  m ≫= fun m' => m' !! k.

(** A text between double quotes, as some error messages have it. *)
Definition quoted (s : string) : string :=
  let q := Ascii.ascii_of_nat 34 in String q (s +:+ String q EmptyString).

(** [time.Time], in nanoseconds since the zero time. *)
Definition time : Type := Z.
Definition time_IsZero (t : time) : bool := bool_decide (t = 0).
Definition Second : Z := 1000000000.
Definition Minute : Z := 60 * Second.
(** [t.After(u)] *)
Definition time_After (t u : time) : bool := bool_decide (u < t).

(** [int(u)] for a 64-bit unsigned [u]: the bits are reinterpreted. *)
Definition int_of_uint (u : Z) : Z :=
  if bool_decide (u < 2 ^ 63) then u else u - 2 ^ 64.
(** [uint(i)] for a 64-bit signed [i]. *)
Definition uint_of_int (i : Z) : Z := i mod 2 ^ 64.

Lemma int_of_uint_small u : u < 2 ^ 63 -> int_of_uint u = u.
Proof. intros H. unfold int_of_uint. by rewrite bool_decide_eq_true_2. Qed.
Lemma int_of_uint_negative u : 0 <= u < 2 ^ 64 -> int_of_uint u < 0 <-> 2 ^ 63 <= u.
Proof. intros H. unfold int_of_uint. case_bool_decide; lia. Qed.
Lemma uint_of_int_small i : 0 <= i < 2 ^ 64 -> uint_of_int i = i.
Proof. apply Z.mod_small. Qed.
#[export] Hint Rewrite int_of_uint_small uint_of_int_small using lia : prog.

Lemma filter_all {A} (P : A -> Prop) `{!forall x, Decision (P x)} (l : list A) :
  Forall P l -> filter P l = l.
Proof. induction 1 as [|x l Hx _ IH]; [done|]. by rewrite filter_cons_True, IH. Qed.

(** ** Go errors *)

(** The errors the program compares against or inspects.  [errors.New] makes a
    fresh value, so two errors with one text are only [==] when they are the
    same sentinel variable; [ENew] errors are equal to no sentinel. *)
Inductive sentinel : Type :=
| ErrOAuth2InvalidRequest
| ErrOAuth2InvalidClient
| ErrOAuth2InvalidGrant
| ErrOAuth2UnauthorizedClient
| ErrOAuth2UnsupportedGrantType
| ErrOAuth2InvalidScope
| ErrEOF.

(** The reasons of an API server's [StatusError] the program tells apart. *)
Inductive status_reason : Type :=
| ReasonNotFound
| ReasonAlreadyExists
| ReasonOther (reason : string).

Inductive error : Type :=
| ENew (msg : string)                    (* errors.New, fmt.Errorf without %w *)
| ESentinel (s : sentinel)               (* a package variable *)
| EWrap (msg : string) (inner : error)   (* fmt.Errorf("...: %w", inner) *)
| EStatus (reason : status_reason)       (* apierrors.StatusError *)
| EWrappedError (typeKey : ptr string)   (* azuredevops.WrappedError *)
| EUnmarshalType (struct_ field value : string) (* json.UnmarshalTypeError *)
| EOther (what : string).                (* any other error of a library *)

#[export] Instance sentinel_eq_dec : EqDecision sentinel.
Proof. solve_decision. Defined.
#[export] Instance status_reason_eq_dec : EqDecision status_reason.
Proof. solve_decision. Defined.
#[export] Instance error_eq_dec : EqDecision error.
Proof. solve_decision. Defined.

(** A result of type [error]: [None] is [nil]. *)
Abbreviation goerr := (option error) (only parsing).

(** A result of type [(T, error)] whose value is only used when the error is nil. *)
Inductive result (A : Type) : Type :=
| Ok (a : A)
| Err (e : error).
Arguments Ok {_} a.
Arguments Err {_} e.

#[export] Instance result_eq_dec `{EqDecision A} : EqDecision (result A).
Proof. solve_decision. Defined.

(** The error component of such a result. *)
Definition err_of {A} (r : result A) : goerr :=
  match r with Ok _ => None | Err e => Some e end.

(** The variable a call fills through a pointer: untouched when it fails. *)
Definition value_or {A} (zero : A) (r : result A) : A :=
  match r with Ok a => a | Err _ => zero end.

(** [errors.Is(err, sentinel)]: the chain of [Unwrap]s is searched. *)
Fixpoint errors_Is (e : error) (s : sentinel) : bool :=
  match e with
  | ESentinel s' => bool_decide (s' = s)
  | EWrap _ inner => errors_Is inner s
  | _ => false
  end.

Definition result_bind {A B} (r : result A) (f : A -> result B) : result B :=
  match r with Ok a => f a | Err e => Err e end.

(** [x, err := r; if err != nil { return err }] *)
Notation "'let?' x := r 'in' k" := (result_bind r (fun x => k))
  (at level 10, x pattern, r at level 100, k at level 200) : go_scope.

(** ** Panics *)

(** How a piece of code that may panic ends.  A nil dereference or an index out
    of range panics with [EOther]. *)
Inductive outcome (A : Type) : Type :=
| Done (a : A)
| Panicked (e : error).
Arguments Done {_} a.
Arguments Panicked {_} e.

Definition nil_dereference : error :=
  EOther "invalid memory address or nil pointer dereference".
Definition index_out_of_range : error := EOther "index out of range".

(** ** Effects

    Code that calls other processes (the API server, GitHub, Azure DevOps) or
    other goroutines is a finite tree: [Do o k] performs the operation [o] and
    goes on with whatever answer [o] gets.  Nothing is assumed of the answers:
    a theorem about [runs p] covers every behaviour of what is called. *)
Record signature : Type := Sig { sop : Type; sans : sop -> Type }.

Inductive prog (E : signature) (A : Type) : Type :=
| Ret (a : A)
| Do (o : sop E) (k : sans E o -> prog E A).
Arguments Ret {_ _} a.
Arguments Do {_ _} o k.

Definition call {E} (o : sop E) : prog E (sans E o) := Do o Ret.

Fixpoint bind {E A B} (p : prog E A) (f : A -> prog E B) : prog E B :=
  match p with
  | Ret a => f a
  | Do o k => Do o (fun r => bind (k r) f)
  end.

Notation "'let!' x := p 'in' q" := (bind p (fun x => q))
  (at level 10, x pattern, p at level 100, q at level 200) : go_scope.

(** One operation with the answer it got. *)
Record event (E : signature) : Type := Event { ev_op : sop E; ev_ans : sans E ev_op }.
Arguments Event {E} & ev_op ev_ans.
Arguments ev_op {E} _.
Arguments ev_ans {E} _.
Notation "o ↝ r" := (Event o r) (at level 60) : go_scope.
Abbreviation trace E := (list (event E)) (only parsing).

(** The operations of a trace, in order. *)
Definition ops {E} (tr : trace E) : list (sop E) := ev_op <$> tr.

(** [answered tr o r]: in [tr] the operation [o] got the answer [r]. *)
Definition answered {E} (tr : trace E) (o : sop E) (r : sans E o) : Prop :=
  (o ↝ r) ∈ tr.

Lemma answered_here {E} (o : sop E) (r : sans E o) tr : answered ((o ↝ r) :: tr) o r.
Proof. apply list_elem_of_here. Qed.
Lemma answered_later {E} (o : sop E) (r : sans E o) e tr :
  answered tr o r -> answered (e :: tr) o r.
Proof. apply list_elem_of_further. Qed.
Lemma answered_called {E} (o : sop E) (r : sans E o) tr : answered tr o r -> o ∈ ops tr.
Proof. apply (list_elem_of_fmap_2 ev_op tr (o ↝ r)). Qed.

(** [runs p tr a]: [p] can perform exactly the operations of [tr], get the
    answers written there, and return [a]. *)
Fixpoint runs {E A} (p : prog E A) (tr : trace E) (a : A) : Prop :=
  match p with
  | Ret a' => tr = [] /\ a = a'
  | Do o k => exists r tr', tr = (o ↝ r) :: tr' /\ runs (k r) tr' a
  end.

Lemma runs_ret {E A} (a : A) : runs (E := E) (Ret a) [] a.
Proof. done. Qed.
Lemma runs_do {E A} o (k : sans E o -> prog E A) r tr a :
  runs (k r) tr a -> runs (Do o k) ((o ↝ r) :: tr) a.
Proof. cbn. eauto. Qed.

(** [always p Q]: every run of [p] satisfies [Q]; computed along the tree, it
    is what the proofs about programs walk through. *)
Fixpoint always {E A} (p : prog E A) (Q : trace E -> A -> Prop) : Prop :=
  match p with
  | Ret a => Q [] a
  | Do o k => forall r, always (k r) (fun tr a => Q ((o ↝ r) :: tr) a)
  end.

Lemma always_runs {E A} (p : prog E A) Q :
  always p Q <-> forall tr a, runs p tr a -> Q tr a.
Proof.
  revert Q. induction p as [a|o k IH]; intros Q; cbn; split.
  - by intros H tr a' [-> ->].
  - by intros H; apply H.
  - intros H tr a (r & tr' & -> & Hk). exact (proj1 (IH r _) (H r) _ _ Hk).
  - intros H r. apply IH. intros tr a Hk. apply H. eauto.
Qed.

Lemma runs_always {E A} (p : prog E A) (Q : trace E -> A -> Prop) tr a :
  always p Q -> runs p tr a -> Q tr a.
Proof. intros H. by apply always_runs. Qed.

(** Two events of one operation are equal when their answers are. *)
Lemma event_inj {E} `{EqDecision (sop E)} (o : sop E) (r r' : sans E o) :
  (o ↝ r) = (o ↝ r') -> r = r'.
Proof.
  intros H. apply (f_equal (fun e => existT (P := sans E) (ev_op e) (ev_ans e))) in H.
  revert H. apply Eqdep_dec.inj_pair2_eq_dec. intros x y. apply (decide (x = y)).
Qed.

Lemma always_mono {E A} (p : prog E A) (Q Q' : trace E -> A -> Prop) :
  always p Q -> (forall tr a, Q tr a -> Q' tr a) -> always p Q'.
Proof.
  revert Q Q'. induction p as [a|o k IH]; cbn; intros Q Q' H HQ; [auto|].
  intros r. eapply IH; [apply H|]. auto.
Qed.

Lemma always_bind {E A B} (p : prog E A) (f : A -> prog E B) Q :
  always (bind p f) Q <->
  always p (fun tr a => always (f a) (fun tr' b => Q (tr ++ tr') b)).
Proof.
  revert Q. induction p as [a|o k IH]; intros Q; cbn; [done|].
  split; intros H r.
  - exact (proj1 (IH r (fun tr b => Q ((o ↝ r) :: tr) b)) (H r)).
  - exact (proj2 (IH r (fun tr b => Q ((o ↝ r) :: tr) b)) (H r)).
Qed.

(** A run of [bind] is a run of its first part, then one of its second. *)
Lemma runs_bind {E A B} (p : prog E A) (f : A -> prog E B) tr b :
  runs (bind p f) tr b <->
  exists tr1 a tr2, tr = tr1 ++ tr2 /\ runs p tr1 a /\ runs (f a) tr2 b.
Proof.
  split.
  - revert tr b. apply always_runs, always_bind, always_runs.
    intros tr1 a H1. apply always_runs. eauto 10.
  - intros (tr1 & a & tr2 & -> & H1 & H2).
    revert tr1 H1. induction p as [a'|o k IH]; cbn; intros tr1 H1.
    + by destruct H1 as [-> ->].
    + destruct H1 as (r & tr' & -> & Hk). eauto.
Qed.

(** Executing a program against a handler that answers from a state. *)
Section exec.
Context {E : signature} {W : Type}.
Variable handle : forall o : sop E, W -> sans E o * W.

Fixpoint exec {A} (p : prog E A) (w : W) : trace E * A * W :=
  match p with
  | Ret a => ([], a, w)
  | Do o k =>
      let '(r, w1) := handle o w in
      let '(tr, a, w2) := exec (k r) w1 in
      ((o ↝ r) :: tr, a, w2)
  end.

Lemma exec_runs {A} (p : prog E A) w :
  runs p (exec p w).1.1 (exec p w).1.2.
Proof.
  revert w. induction p as [a|o k IH]; intros w; cbn; [done|].
  destruct (handle o w) as [r w1].
  specialize (IH r w1). destruct (exec (k r) w1) as [[tr a] w2].
  eauto.
Qed.

(** The state a program leaves behind. *)
Fixpoint after {A} (p : prog E A) (w : W) : W :=
  match p with
  | Ret _ => w
  | Do o k => after (k (handle o w).1) (handle o w).2
  end.

Lemma exec_after {A} (p : prog E A) w : (exec p w).2 = after p w.
Proof.
  revert w. induction p as [a|o k IH]; intros w; cbn; [done|].
  destruct (handle o w) as [r w1]. cbn. rewrite <- IH.
  by destruct (exec (k r) w1) as [[]].
Qed.

Lemma after_do {A} o (k : sans E o -> prog E A) w r w' :
  handle o w = (r, w') -> after (Do o k) w = after (k r) w'.
Proof. cbn. by intros ->. Qed.

Lemma exec_bind {A B} (p : prog E A) (f : A -> prog E B) w :
  exec (bind p f) w =
  let '(tr1, a, w1) := exec p w in
  let '(tr2, b, w2) := exec (f a) w1 in (tr1 ++ tr2, b, w2).
Proof.
  revert w. induction p as [a|o k IH]; intros w; cbn.
  - by destruct (exec (f a) w) as [[]].
  - destruct (handle o w) as [r w1]. rewrite IH.
    destruct (exec (k r) w1) as [[tr1 a] w2].
    by destruct (exec (f a) w2) as [[]].
Qed.
End exec.

Lemma exec_always {E A} (p : prog E A) (Q : trace E -> A -> Prop)
    {W} (h : forall o, W -> sans E o * W) w :
  always p Q -> Q (exec h p w).1.1 (exec h p w).1.2.
Proof. intros H. exact (proj1 (always_runs p Q) H _ _ (exec_runs h p w)). Qed.

(** ** Composing programs

    The operations of one program implemented by another: [interp h p s] runs
    [p] with every operation replaced by what [h] does for it, over the state
    [h] keeps. *)
Section interp.
Context {E F : signature} {S : Type}.
Variable h : forall o : sop E, S -> prog F (sans E o * S).

Fixpoint interp {A} (p : prog E A) (s : S) : prog F (A * S) :=
  match p with
  | Ret a => Ret (a, s)
  | Do o k => let! r := h o s in interp (k r.1) r.2
  end.

(** [implements s tr' tr s']: performing the operations of [tr'] one after the
    other, [h] gets from [s] to [s'] by [tr] and gives the answers of [tr']. *)
Fixpoint implements (s : S) (tr' : trace E) (tr : trace F) (s' : S) : Prop :=
  match tr' with
  | [] => tr = [] /\ s' = s
  | e :: tr' => exists s1 tr1 tr2, tr = tr1 ++ tr2 /\
      runs (h (ev_op e) s) tr1 (ev_ans e, s1) /\ implements s1 tr' tr2 s'
  end.

(** Running the composed program is running the program over its operations:
    whatever holds of all runs of [p] holds of it. *)
Lemma interp_runs {A} (p : prog E A) s tr a s' :
  runs (interp p s) tr (a, s') <-> exists tr', runs p tr' a /\ implements s tr' tr s'.
Proof.
  revert s tr. induction p as [a'|o k IH]; intros s tr; cbn.
  - split.
    + intros [-> [= -> ->]]. by exists [].
    + intros (tr' & [-> ->] & [-> ->]). done.
  - rewrite runs_bind. split.
    + intros (tr1 & [r s1] & tr2 & -> & H1 & (tr' & Hk & Hi)%IH).
      exists ((o ↝ r) :: tr'). split; [eauto|]. cbn. eauto 10.
    + intros (tr' & (r & tr1' & -> & Hk) & (s1 & tr1 & tr2 & -> & H1 & H2)).
      exists tr1, (r, s1), tr2. split; [done|]. split; [done|]. apply IH. eauto.
Qed.
End interp.

(** Two signatures side by side, and a program over the second. *)
Definition both (E F : signature) : signature :=
  Sig (sop E + sop F) (fun o => match o with inl o => sans E o | inr o => sans F o end).

Fixpoint inject_r {E F A} (p : prog F A) : prog (both E F) A :=
  match p with
  | Ret a => Ret a
  | Do o k => Do (inr o : sop (both E F)) (fun r => inject_r (k r))
  end.

(** A trace of the second signature as one of both. *)
Definition lift_event {E F} (e : event F) : event (both E F) :=
  Event (E := both E F) (inr (ev_op e)) (ev_ans e).

Lemma runs_inject_r {E F A} (p : prog F A) tr (a : A) :
  runs (E := both E F) (inject_r p) tr a <-> exists tr0, tr = lift_event <$> tr0 /\ runs p tr0 a.
Proof.
  revert tr. induction p as [a'|o k IH]; intros tr; cbn; split.
  - intros [-> ->]. by exists [].
  - by intros (tr0 & -> & -> & ->).
  - intros (r & tr' & -> & (tr0 & -> & H)%IH). exists ((o ↝ r) :: tr0). eauto.
  - intros (tr0 & -> & r & tr' & -> & H). exists r, (lift_event <$> tr'). split; [done|].
    apply IH. eauto.
Qed.

Lemma always_inject_r {E F A} (p : prog F A) (Q : trace (both E F) -> A -> Prop) :
  always (inject_r p) Q <-> always p (fun tr a => Q (lift_event <$> tr) a).
Proof.
  rewrite !always_runs. setoid_rewrite runs_inject_r. naive_solver.
Qed.

(** ** Proof automation *)

(** Deciding the test a goal is stuck on. *)
Ltac split_on x :=
  lazymatch x with
  | context [match ?y with _ => _ end] => split_on y
  | _ => destruct x eqn:?
  end.

(** The test at the head of a program that starts inside a [bind]. *)
Ltac split_head p :=
  lazymatch p with
  | bind ?q _ => split_head q
  | match ?x with _ => _ end => split_on x
  | (match ?x with _ => _ end) _ => split_on x
  | _ => progress cbn [always bind call]
  end.

(** One step along a program: give an operation an arbitrary answer, or decide
    the test the program makes on the answers so far. *)
Ltac walk_step :=
  lazymatch goal with
  | |- forall _ : sans _ _, _ => let r := fresh "r" in intro r
  | |- always (Ret _) _ => cbn [always]
  | |- always (Do _ _) _ => cbn [always]
  | |- always (match ?x with _ => _ end) _ => split_on x
  | |- always ((match ?x with _ => _ end) _) _ => split_on x
  | |- always (bind ?p _) _ => first [progress cbn [always bind call] | split_head p]
  | |- always _ _ => progress cbn [always bind call]
  end.

(** Walk every path of a program to its end. *)
Ltac walk := repeat walk_step.

(** Prove a goal about a run by walking the program. *)
Ltac walking H :=
  lazymatch type of H with
  | runs ?p ?tr ?a => pattern tr, a; refine (runs_always p _ tr a _ H); clear tr a H
  end.

(** Compare two concrete events. *)
Ltac same_event H :=
  first [ apply (f_equal ev_op) in H; discriminate H
        | apply event_inj in H; simplify_eq ].

(** Compare two concrete traces. *)
Ltac same_trace H :=
  repeat (let He := fresh "He" in apply cons_eq_inj in H as [He H]; same_event He).

(** Use up a hypothesis that something is in a concrete short list. *)
Ltac in_list :=
  repeat match goal with
    | H : _ ∈ [] |- _ => by apply not_elem_of_nil in H
    | H : _ ∈ [_] |- _ => apply list_elem_of_singleton in H; subst
    | H : _ ∈ _ :: _ |- _ => apply elem_of_cons in H as [->|H]
    end.

(** Leave the existentials of a goal to unification. *)
Ltac exists_all := repeat lazymatch goal with |- exists _, _ => eexists end.

(** Find an event of a concrete trace. *)
Ltac find_event :=
  repeat first [apply answered_here | apply answered_later].

(** Reading the operations off a concrete trace. *)
Lemma ops_nil {E} : ops (E := E) [] = [].
Proof. done. Qed.
Lemma ops_cons {E} (o : sop E) r (tr : trace E) : ops ((o ↝ r) :: tr) = o :: ops tr.
Proof. done. Qed.
Lemma ops_app {E} (tr1 tr2 : trace E) : ops (tr1 ++ tr2) = ops tr1 ++ ops tr2.
Proof. apply fmap_app. Qed.

#[export] Hint Rewrite @ops_nil @ops_cons @ops_app : prog.
#[export] Hint Resolve list_elem_of_here list_elem_of_further : prog.
#[export] Hint Resolve runs_ret runs_do answered_here answered_later answered_called : prog.
