(* ===== verification/Text.v ===== *)
(** * strings, strconv and os on texts

    The functions of the standard library that the programs use to take texts
    apart, on ASCII texts, and lemmas about appending. *)

From S2P Require Import Prelude.
From Stdlib Require Import Ascii.
#[local] Open Scope string_scope.

Definition is_digit (c : ascii) : bool :=
  bool_decide (48 <= nat_of_ascii c <= 57)%nat.

(** [strings.TrimSpace], of the ASCII white space. *)
Definition is_space (c : ascii) : bool :=
  bool_decide (nat_of_ascii c = 32)%nat || bool_decide (9 <= nat_of_ascii c <= 13)%nat.
Fixpoint trim_left (s : list ascii) : list ascii :=
  match s with
  | [] => []
  | c :: s' => if is_space c then trim_left s' else s
  end.
Definition TrimSpace (s : string) : string :=
  String.string_of_list_ascii (rev (trim_left (rev (trim_left (String.list_ascii_of_string s))))).

(** [strings.Split(s, sep)] for a separator of one character. *)
Fixpoint Split (s : string) (sep : ascii) : list string :=
  match s with
  | EmptyString => [""]
  | String c s =>
      if bool_decide (c = sep) then "" :: Split s sep
      else match Split s sep with
           | [] => [String c ""]
           | word :: words => String c word :: words
           end
  end.

(** [strconv.Atoi], of a decimal that fits: an optional sign and digits. *)
Fixpoint digits_value (acc : Z) (s : string) : option Z :=
  match s with
  | EmptyString => Some acc
  | String c s =>
      if is_digit c then digits_value (acc * 10 + (Z.of_nat (nat_of_ascii c) - 48)) s else None
  end.
Definition Atoi (s : string) : result Z :=
  let checked (v : option Z) :=
    match v with
    | Some n => if bool_decide (- 2 ^ 63 <= n < 2 ^ 63) then Ok n else Err (EOther "out of range")
    | None => Err (EOther "invalid syntax")
    end in
  match s with
  | EmptyString => Err (EOther "invalid syntax")
  | String c rest =>
      if bool_decide (c = "-"%char) || bool_decide (c = "+"%char) then
        match rest with
        | EmptyString => Err (EOther "invalid syntax")
        | _ =>
            checked (if bool_decide (c = "-"%char) then Z.opp <$> digits_value 0 rest
                     else digits_value 0 rest)
        end
      else checked (digits_value 0 s)
  end.

(** ** Appending *)

Lemma string_cons_app c (s t : string) : String c s ++ t = String c (s ++ t).
Proof. done. Qed.
Lemma string_nil_app (t : string) : "" ++ t = t.
Proof. done. Qed.

Lemma string_app_assoc (s t u : string) : (s ++ t) ++ u = s ++ t ++ u.
Proof.
  induction s as [|c s IH]; [done|]. by rewrite !string_cons_app, IH.
Qed.
