(* ===== verification/Method.v ===== *)
(** * Methods: code that may fail, panic, and change the fields of its receiver

    A call of a Go method that returns an error ends in one of three ways:
    with a value, with an error, or with a panic; what it did to the fields of
    its receiver stays done in each.  [method E S A] is such a method over
    receivers of type [S], whose calls to other processes are operations of
    [E]. *)

From S2P Require Import Prelude.

(** What a call that may fail or panic gives. *)
Abbreviation attempt A := (outcome (result A)) (only parsing).

(** A call that may fail or panic, in code that returns the error. *)
Notation "'let!?' x := p 'in' k" :=
  (bind p (fun o => match o with
                    | Done (Ok x) => k
                    | Done (Err e) => Ret (Done (Err e))
                    | Panicked e => Ret (Panicked e)
                    end))
  (at level 10, x pattern, p at level 100, k at level 200) : go_scope.

(** ... and in code that panics with the error. *)
Notation "'let!!' x := p 'in' k" :=
  (bind p (fun o => match o with
                    | Done (Ok x) => k
                    | Done (Err e) => Ret (Panicked e)
                    | Panicked e => Ret (Panicked e)
                    end))
  (at level 10, x pattern, p at level 100, k at level 200) : go_scope.

(** The error or the panic an attempt ended in, if any. *)
Definition attempt_err {A} (r : attempt A) : goerr :=
  match r with Done (Err e) => Some e | _ => None end.
Definition attempt_panic {A} (r : outcome A) : goerr :=
  match r with Panicked e => Some e | Done _ => None end.

(** A method that works on the fields of its receiver, which keep what it did to
    them also when it fails or panics. *)
Definition method (E : signature) (S A : Type) : Type := S -> prog E (attempt A * S).

Section method.
Context {E : signature} {S : Type}.

(** [a, err := m; if err != nil { return err }; k] *)
Definition andThen {A B} (m : method E S A) (k : A -> method E S B) : method E S B := fun s =>
  let! r := m s in
  match r.1 with
  | Done (Ok a) => k a r.2
  | Done (Err e) => Ret (Done (Err e), r.2)
  | Panicked e => Ret (Panicked e, r.2)
  end.

(** [a, err := m; ...] in code that goes on in either case. *)
Definition trying {A B} (m : method E S A) (k : result A -> method E S B) : method E S B := fun s =>
  let! r := m s in
  match r.1 with
  | Done a => k a r.2
  | Panicked e => Ret (Panicked e, r.2)
  end.

(** A call that does not touch the fields. *)
Definition calling {A} (p : prog E (attempt A)) : method E S A := fun s =>
  let! r := p in Ret (r, s).
Definition returning {A} (r : attempt A) : method E S A := fun s => Ret (r, s).
(** An assignment to the fields. *)
Definition modify (f : S -> S) : method E S unit := fun s => Ret (Done (Ok tt), f s).
(** Code that looks at the fields first. *)
Definition reading {A} (k : S -> method E S A) : method E S A := fun s => k s s.
(** A pointer that must not be nil where it is dereferenced. *)
Definition deref {A B} (p : ptr A) (k : A -> method E S B) : method E S B :=
  match p with
  | None => returning (Panicked nil_dereference)
  | Some a => k a
  end.

(** [x.f] where it is read; [return errors.New(msg)] *)
Definition get {A B} (f : S -> A) (k : A -> method E S B) : method E S B := reading (fun s => k (f s)).
Definition failing {A} (msg : string) : method E S A := returning (Done (Err (ENew msg))).
(** A call that gives an error or nil. *)
Definition erring (p : prog E goerr) : method E S unit :=
  calling (let! e := p in Ret (Done (match e with None => Ok tt | Some e => Err e end))).
(** A call that gives a value or an error. *)
Definition resulting {A} (p : prog E (result A)) : method E S A :=
  calling (let! r := p in Ret (Done r)).

Lemma always_andThen {A B} (m : method E S A) (k : A -> method E S B) s Q :
  always (andThen m k s) Q <->
  always (m s) (fun tr r => match r.1 with
    | Done (Ok a) => always (k a r.2) (fun tr' r' => Q (tr ++ tr')%list r')
    | Done (Err e) => Q tr (Done (Err e), r.2)
    | Panicked e => Q tr (Panicked e, r.2)
    end).
Proof.
  unfold andThen. rewrite always_bind.
  split; intros H; (eapply always_mono; [exact H|]); cbn;
    intros tr [[[a|e]|e] w'] H'; cbn in *; rewrite ?app_nil_r in *; done.
Qed.

(** Taking a successful run of a sequence apart. *)
Lemma runs_andThen_ok {A B} (m : method E S A) (k : A -> method E S B) s tr b s' :
  runs (andThen m k s) tr (Done (Ok b), s') ->
  exists tr1 a s1 tr2, tr = (tr1 ++ tr2)%list /\ runs (m s) tr1 (Done (Ok a), s1) /\
    runs (k a s1) tr2 (Done (Ok b), s').
Proof.
  unfold andThen. intros (tr1 & [[[a|e]|e] w1] & tr2 & -> & Hm & Hk)%runs_bind; cbn in Hk.
  - exists tr1, a, w1, tr2. done.
  - destruct Hk as [_ [=]].
  - destruct Hk as [_ [=]].
Qed.

Lemma runs_calling_ok {A} (p : prog E (attempt A)) s tr a s' :
  runs (calling p s) tr (Done (Ok a), s') -> runs p tr (Done (Ok a)) /\ s' = s.
Proof.
  unfold calling. intros (tr1 & r & tr2 & -> & H1 & H2)%runs_bind.
  destruct H2 as [-> [= <- ->]]. by rewrite app_nil_r.
Qed.

Lemma always_trying {A B} (m : method E S A) (k : result A -> method E S B) s Q :
  always (trying m k s) Q <->
  always (m s) (fun tr r => match r.1 with
    | Done a => always (k a r.2) (fun tr' r' => Q (tr ++ tr')%list r')
    | Panicked e => Q tr (Panicked e, r.2)
    end).
Proof.
  unfold trying. rewrite always_bind.
  split; intros H; (eapply always_mono; [exact H|]); cbn;
    intros tr [[a|e] w'] H'; cbn in *; rewrite ?app_nil_r in *; done.
Qed.

Lemma runs_call (o : sop E) tr r : runs (call o) tr r -> ops tr = [o].
Proof. by intros (r' & tr' & -> & -> & _). Qed.
End method.

(** Methods in sequence. *)
Notation "'let^' x := m 'in' k" := (andThen m (fun x => k))
  (at level 10, x pattern, m at level 100, k at level 200) : go_scope.
