(* ===== verification/Goroutines.v ===== *)
(** * Goroutines that run at once

    A schedule lets the goroutines of a process take turns: in a turn one of
    them performs its next operation on what they share, or two of them meet at
    an unbuffered channel.  Every interleaving of the goroutines' operations is
    a schedule. *)

From S2P Require Import Prelude.

(** ** What is left of a program *)

(** [unfolds p tr q]: [p] can perform [tr], and [q] is what is left of it then. *)
Fixpoint unfolds {E A} (p : prog E A) (tr : trace E) (q : prog E A) : Prop :=
  (tr = [] /\ q = p) \/
  match p with
  | Ret _ => False
  | Do o k => exists r tr', tr = (o ↝ r) :: tr' /\ unfolds (k r) tr' q
  end.

(** [may p o]: [p] performs [o] in some run. *)
Fixpoint may {E A} (p : prog E A) (P : sop E -> Prop) : Prop :=
  match p with
  | Ret _ => False
  | Do o k => P o \/ exists r, may (k r) P
  end.

(** [only P p]: whatever happens, [p] performs operations of [P] alone. *)
Fixpoint only {E A} (P : sop E -> Prop) (p : prog E A) : Prop :=
  match p with
  | Ret _ => True
  | Do o k => P o /\ forall r, only P (k r)
  end.

Lemma only_bind {E A B} P (p : prog E A) (f : A -> prog E B) :
  only P p -> (forall a, only P (f a)) -> only P (bind p f).
Proof.
  intros Hp Hf. induction p as [a|o k IH]; cbn; [apply Hf|]. destruct Hp as [Ho Hk].
  split; [done|]. intros r. by apply IH.
Qed.

Lemma only_mono {E A} (P P' : sop E -> Prop) (p : prog E A) :
  (forall o, P o -> P' o) -> only P p -> only P' p.
Proof.
  intros HP. induction p as [a|o k IH]; cbn; [done|]. intros [Ho Hk]. split; [by apply HP|].
  intros r. by apply IH.
Qed.

Lemma only_inject_r {E F A} (P : sop (both E F) -> Prop) (p : prog F A) :
  only (fun o => P (inr o)) p -> only P (inject_r p).
Proof. induction p as [a|o k IH]; cbn; [done|]. intros [Ho Hk]. split; [done|]. intros r. by apply IH. Qed.

Lemma only_unfolds {E A} (P : sop E -> Prop) (p q : prog E A) tr :
  only P p -> unfolds p tr q -> only P q /\ Forall P (ops tr).
Proof.
  revert tr. induction p as [a|o k IH]; intros tr Hp; [by intros [[-> ->]|[]]|].
  destruct Hp as [Ho Hk]. intros [[-> ->]|(r & tr' & -> & Hq)]; [done|].
  destruct (IH r tr' (Hk r) Hq). split; [done|]. by constructor.
Qed.

(** Walk along a program and show that each operation is one of [P]. *)
Ltac only_step :=
  lazymatch goal with
  | |- only _ (Ret _) => exact I
  | |- only _ (Do _ _) => split; [try exact I|intros ?]
  | |- only _ (call _) => split; [try exact I|intros ?]
  | |- only _ (match ?x with _ => _ end) => destruct x
  | |- only _ (if ?x then _ else _) => destruct x
  | |- only _ (bind (call _) _) => split; [try exact I|intros ?; cbn [bind]]
  | |- only _ (bind (match ?x with _ => _ end) _) => destruct x
  | |- only _ (bind _ _) => apply only_bind; [|intros ?]
  | |- True => exact I
  | |- only _ _ => progress cbv beta zeta
  end.

Section unfolding.
Context {E : signature} {A : Type}.

Lemma unfolds_nil (p : prog E A) : unfolds p [] p.
Proof. destruct p; by left. Qed.

Lemma unfolds_app (p q r : prog E A) tr1 tr2 :
  unfolds p tr1 q -> unfolds q tr2 r -> unfolds p (tr1 ++ tr2)%list r.
Proof.
  revert tr1. induction p as [a|o k IH]; intros tr1; [by intros [[-> ->]|[]]|].
  intros [[-> ->]|(r' & tr' & -> & H1)] H2; [done|]. right. exists r', (tr' ++ tr2)%list.
  split; [done|]. by apply IH.
Qed.

Lemma unfolds_step (p : prog E A) tr o k r :
  unfolds p tr (Do o k) -> unfolds p (tr ++ [o ↝ r])%list (k r).
Proof.
  intros H. apply (unfolds_app _ _ _ _ [o ↝ r] H). right. exists r, []. split; [done|apply unfolds_nil].
Qed.

Lemma runs_unfolds (p : prog E A) tr a : runs p tr a <-> unfolds p tr (Ret a).
Proof.
  revert tr. induction p as [a'|o k IH]; intros tr; cbn.
  - split; [intros [-> ->]; by left|by intros [[-> [= ->]]|[]]].
  - split.
    + intros (r & tr' & -> & H). right. exists r, tr'. split; [done|]. by apply IH.
    + intros [[_ [=]]|(r & tr' & -> & H)]. exists r, tr'. split; [done|]. by apply IH.
Qed.
End unfolding.

(** A run performs only the operations that the program performs. *)
Lemma only_runs {E A} (P : sop E -> Prop) (p : prog E A) tr a : only P p -> runs p tr a -> Forall P (ops tr).
Proof. intros Hp Hr%runs_unfolds. by destruct (only_unfolds _ _ _ _ Hp Hr). Qed.
Lemma only_always {E A} (P : sop E -> Prop) (p : prog E A) :
  only P p -> always p (fun tr _ => Forall P (ops tr)).
Proof. intros Hp. apply always_runs. intros tr a. by apply only_runs. Qed.

(** ** Ghost states

    [abides p g Q]: while [p] runs, a ghost state that follows its operations from
    [g] on satisfies [I] at any time, and [Q] when [p] returns.  An operation that
    the ghost state cannot follow is one that is assumed not to happen. *)
Section ghost.
Context {E : signature} {G : Type}.
Variables (ghost : G -> event E -> G -> Prop) (I : G -> Prop).

Fixpoint abides {A} (p : prog E A) (g : G) (Q : A -> G -> Prop) : Prop :=
  I g /\
  match p with
  | Ret a => Q a g
  | Do o k => forall r g', ghost g (o ↝ r) g' -> abides (k r) g' Q
  end.

Fixpoint ghosts (g : G) (tr : trace E) (g' : G) : Prop :=
  match tr with
  | [] => g' = g
  | e :: tr => exists g1, ghost g e g1 /\ ghosts g1 tr g'
  end.

Lemma ghosts_app g tr1 tr2 g' :
  ghosts g (tr1 ++ tr2)%list g' <-> exists g1, ghosts g tr1 g1 /\ ghosts g1 tr2 g'.
Proof.
  clear I. revert g. induction tr1 as [|e tr1 IH]; intros g; cbn; [naive_solver|].
  setoid_rewrite IH. naive_solver.
Qed.

Lemma abides_now {A} (p : prog E A) g Q : abides p g Q -> I g.
Proof. by destruct p, 1. Qed.

Lemma abides_mono {A} (p : prog E A) g (Q Q' : A -> G -> Prop) :
  (forall a g, I g -> Q a g -> Q' a g) -> abides p g Q -> abides p g Q'.
Proof.
  intros HQ. revert g. induction p as [a|o k IH]; intros g [H1 H2]; (split; [done|]); [by apply HQ|].
  intros r g' Hg. by apply IH, H2.
Qed.

Lemma abides_bind {A B} (p : prog E A) (f : A -> prog E B) g (Q : A -> G -> Prop) Q' :
  abides p g Q -> (forall a g, Q a g -> I g -> abides (f a) g Q') -> abides (bind p f) g Q'.
Proof.
  intros Hp Hf. revert g Hp. induction p as [a|o k IH]; intros g [H1 H2]; cbn; [by apply Hf|].
  split; [done|]. intros r g' Hg. by apply IH, H2.
Qed.

Lemma abides_unfolds {A} (p q : prog E A) tr g g' Q :
  abides p g Q -> unfolds p tr q -> ghosts g tr g' -> abides q g' Q.
Proof.
  revert tr g. induction p as [a|o k IH]; intros tr g Hp.
  - by intros [[-> ->]|[]] ->.
  - intros [[-> ->]|(r & tr' & -> & Hq)] Hg; [cbn in Hg; by subst g'|].
    destruct Hg as (g1 & Hg1 & Hg). destruct Hp as [_ Hp]. exact (IH r tr' g1 (Hp r g1 Hg1) Hq Hg).
Qed.
End ghost.

(** ** Schedules *)

Section goroutines.
Context {E : signature} {A S : Type}.
(** What an operation of one goroutine does to what is shared; an operation that
    is blocked has no way to go on. *)
Variable shares : forall o : sop E, S -> sans E o -> S -> Prop.
(** The goroutines an operation starts. *)
Variable starts : sop E -> list (prog E A).
(** Two operations, and their answers, that meet at an unbuffered channel. *)
Variable meets : forall o : sop E, sans E o -> forall o' : sop E, sans E o' -> Prop.

Record process : Type := mkProcess { shared : S; threads : list (prog E A) }.

(** A turn, with what is performed in it and by whom. *)
Inductive turn : process -> list (nat * event E) -> process -> Prop :=
| turn_alone s ts i o k r s' :
    ts !! i = Some (Do o k) -> shares o s r s' ->
    turn (mkProcess s ts) [(i, o ↝ r)] (mkProcess s' (<[i := k r]> ts ++ starts o)%list)
| turn_meeting s ts i j o k r o' k' r' :
    i <> j -> ts !! i = Some (Do o k) -> ts !! j = Some (Do o' k') -> meets o r o' r' ->
    turn (mkProcess s ts) [(i, o ↝ r); (j, o' ↝ r')] (mkProcess s (<[j := k' r']> (<[i := k r]> ts))).

(** A turn, by what is left of the goroutines that take it. *)
Lemma turn_inv s ts step q : turn (mkProcess s ts) step q ->
  (exists i p, ts !! i = Some p /\
     match p with
     | Do o k => exists r s', shares o s r s' /\ step = [(i, o ↝ r)] /\
                   q = mkProcess s' (<[i := k r]> ts ++ starts o)%list
     | Ret _ => False
     end) \/
  (exists i j p p', i <> j /\ ts !! i = Some p /\ ts !! j = Some p' /\
     match p, p' with
     | Do o k, Do o' k' => exists r r', meets o r o' r' /\ step = [(i, o ↝ r); (j, o' ↝ r')] /\
                             q = mkProcess s (<[j := k' r']> (<[i := k r]> ts))
     | _, _ => False
     end).
Proof.
  intros Ht. remember (mkProcess s ts) as p eqn:Hp.
  destruct Ht as [s0 ts0 i o k r s' Hi Hs|s0 ts0 i j o k r o' k' r' Hne Hi Hj Hm]; injection Hp as -> ->.
  - left. exists i, (Do o k). split; [done|]. by exists r, s'.
  - right. exists i, j, (Do o k), (Do o' k'). split_and!; [done..|]. by exists r, r'.
Qed.

Inductive schedule (p : process) : list (nat * event E) -> process -> Prop :=
| schedule_start : schedule p [] p
| schedule_turn sched q step q' :
    schedule p sched q -> turn q step q' -> schedule p (sched ++ step)%list q'.

(** A schedule that starts with a turn. *)
Lemma schedule_cons p step q sched q' : turn p step q -> schedule q sched q' -> schedule p (step ++ sched)%list q'.
Proof.
  intros Ht. induction 1 as [|sched q1 step1 q2 _ IH Ht1].
  - rewrite app_nil_r. exact (schedule_turn p [] p step q (schedule_start p) Ht).
  - rewrite app_assoc. by eapply schedule_turn.
Qed.

(** An invariant of the turns is one of the schedules. *)
Lemma schedule_invariant (I : process -> Prop) p sched q :
  (forall p step q, I p -> turn p step q -> I q) -> I p -> schedule p sched q -> I q.
Proof. intros Hstep Hp. induction 1; eauto. Qed.

(** What one goroutine did in a schedule. *)
Fixpoint own (i : nat) (sched : list (nat * event E)) : trace E :=
  match sched with
  | [] => []
  | (j, e) :: sched => if bool_decide (j = i) then e :: own i sched else own i sched
  end.
Lemma own_app i s1 s2 : own i (s1 ++ s2)%list = (own i s1 ++ own i s2)%list.
Proof.
  induction s1 as [|[j e] s1 IH]; cbn; [done|]. case_bool_decide; cbn; by rewrite IH.
Qed.

(** It is the beginning of a run of that goroutine. *)
Lemma schedule_own p sched q i b :
  schedule p sched q -> threads p !! i = Some b ->
  exists b', threads q !! i = Some b' /\ unfolds b (own i sched) b'.
Proof.
  intros Hs Hi. induction Hs as [|sched q step q' Hs IH Hturn]; [exists b; split; [done|apply unfolds_nil]|].
  destruct IH as (b1 & Hb1 & Hu). rewrite own_app.
  destruct Hturn as [s ts j o k r s' Hj _|s ts j l o k r o' k' r' Hne Hj Hl _]; cbn in Hb1 |- *.
  - assert (i < length ts)%nat as Hlt by (by eapply lookup_lt_Some).
    case_bool_decide as Hij.
    + subst j. rewrite Hb1 in Hj. injection Hj as ->. exists (k r).
      rewrite lookup_app_l by (by rewrite length_insert). rewrite list_lookup_insert_eq by done.
      split; [done|]. by apply unfolds_step.
    + exists b1. rewrite lookup_app_l by (by rewrite length_insert). rewrite list_lookup_insert_ne by done.
      by rewrite app_nil_r.
  - assert (i < length ts)%nat as Hlt by (by eapply lookup_lt_Some).
    case_bool_decide as Hji; case_bool_decide as Hli; subst; [done| | |].
    + rewrite Hb1 in Hj. injection Hj as ->. exists (k r).
      rewrite list_lookup_insert_ne, list_lookup_insert_eq by done. split; [done|]. by apply unfolds_step.
    + rewrite Hb1 in Hl. injection Hl as ->. exists (k' r').
      rewrite list_lookup_insert_eq by (by rewrite length_insert). split; [done|]. by apply unfolds_step.
    + exists b1. rewrite !list_lookup_insert_ne by done. by rewrite app_nil_r.
Qed.
End goroutines.
