(* ===== verification/Memory.v ===== *)
(** * Memory

    Values that other values point to, for the code whose meaning is in what it
    shares: [new], [make] and [append], reading and writing through pointers,
    slices that are windows on arrays, maps.  A [reader] says what a value means
    that has its parts in memory, and which addresses it reads; [yields] is what a
    piece of code promises that only adds to the memory, and [copies] what is
    promised of a deep copy. *)

From S2P Require Export Prelude.
#[local] Open Scope nat_scope.

Definition addr : Type := positive.

(** What values of the types [*T], [map[string]T] and [[]T] are when they are not
    nil; a slice is a window on an array. *)
Record pointer (X : Type) : Type := Pointer { target : addr }.
Record hashmap (V : Type) : Type := HashMap { table : addr }.
Record window (X : Type) : Type := Window {
  base : addr;
  offset : nat;
  len : nat;
  capacity : nat;
}.
Arguments Pointer {_}.
Arguments target {_}.
Arguments HashMap {_}.
Arguments table {_}.
Arguments Window {_}.
Arguments base {_}.
Arguments offset {_}.
Arguments len {_}.
Arguments capacity {_}.

(** Objects at addresses: a cell is an object with its type. *)
Abbreviation memory cell := (gmap addr cell) (only parsing).

(** What the language leaves to its implementation: where a new object is
    placed, in which order a map is visited, how far an array grows. *)
Class Runtime (cell : Type) : Type := {
  malloc : memory cell -> addr;
  malloc_fresh m : m !! malloc m = None;
  map_order : forall {V}, gmap string V -> list (string * V);
  map_order_perm V (m : gmap string V) : map_order m ≡ₚ map_to_list m;
  growth : nat -> nat -> nat;
  growth_enough old needed : needed <= growth old needed;
}.

(** A type of the source whose arrays live in memory.  A struct that something
    points to is an array of one. *)
Class Stored (cell X : Type) : Type := {
  zero_value : X;
  array_cell : list X -> cell;
  array_of : cell -> option (list X);
  array_of_cell l : array_of (array_cell l) = Some l;
}.

(** The maps with values of a type. *)
Class StoredMap (cell V : Type) : Type := {
  map_cell : gmap string V -> cell;
  map_of : cell -> option (gmap string V);
  map_of_cell m : map_of (map_cell m) = Some m;
}.

(** ** Programs on the memory *)

Section operations.
Context {cell : Type} `{!Runtime cell}.

(** A piece of code: [None] is a fault, the use of an address that holds nothing
    of the type, or of an index out of bounds. *)
Definition action (A : Type) : Type := memory cell -> option (memory cell * A).

Definition ret {A} (a : A) : action A := fun m => Some (m, a).
Definition fault {A} : action A := fun _ => None.
Definition andAlso {A B} (c : action A) (f : A -> action B) : action B :=
  fun m => match c m with Some (m', a) => f a m' | None => None end.
Definition provided {A} (o : option A) : action A :=
  match o with Some a => ret a | None => fault end.

Definition alloc (c : cell) : action addr :=
  fun m => Some (<[malloc m := c]> m, malloc m).

Section arrays.
Context {X : Type} `{!Stored cell X}.

Definition array_at (m : memory cell) (a : addr) : option (list X) := m !! a ≫= array_of.

Definition load_array (a : addr) : action (list X) := fun m => provided (array_at m a) m.
Definition store_array (a : addr) (l : list X) : action unit :=
  fun m => match array_at m a with
           | Some _ => Some (<[a := array_cell l]> m, tt)
           | None => None
           end.

(** [new(T)], [*p] and [*p = x] *)
Definition new : action (pointer X) :=
  andAlso (alloc (array_cell [zero_value])) (fun a => ret (Pointer a)).
Definition load (p : pointer X) : action X :=
  andAlso (load_array (target p)) (fun l => match l with [x] => ret x | _ => fault end).
Definition store (p : pointer X) (x : X) : action unit := store_array (target p) [x].

(** [make([]T, n)], [s[i]] and [s[i] = x] *)
Definition make (n : nat) : action (window X) :=
  andAlso (alloc (array_cell (replicate n zero_value))) (fun a => ret (Window a 0 n n)).
Definition index (s : window X) (i : nat) : action X :=
  if bool_decide (i < len s)
  then andAlso (load_array (base s)) (fun l => provided (l !! (offset s + i)))
  else fault.
Definition assign (s : window X) (i : nat) (x : X) : action unit :=
  if bool_decide (i < len s)
  then andAlso (load_array (base s)) (fun l => store_array (base s) (<[offset s + i := x]> l))
  else fault.

(** [append(s, xs...)] with at least one element: in place when there is room,
    which whoever shares the array sees, and in a new array otherwise. *)
Definition elements (s : ptr (window X)) : action (list X) :=
  match s with
  | None => ret []
  | Some s => andAlso (load_array (base s)) (fun l => ret (take (len s) (drop (offset s) l)))
  end.
Definition appending (s : ptr (window X)) (xs : list X) : action (window X) :=
  let room := from_option capacity 0 s in
  let used := from_option len 0 s in
  let needed := used + length xs in
  match s with
  | Some w =>
      if bool_decide (needed <= room) then
        andAlso (load_array (base w)) (fun l =>
        andAlso (store_array (base w)
                   (take (offset w + used) l ++ xs ++ drop (offset w + needed) l)) (fun _ =>
        ret (Window (base w) (offset w) needed room)))
      else
        andAlso (elements s) (fun l =>
        let n := growth room needed in
        andAlso (alloc (array_cell (l ++ xs ++ replicate (n - needed) zero_value))) (fun a =>
        ret (Window a 0 needed n)))
  | None =>
      let n := growth 0 needed in
      andAlso (alloc (array_cell (xs ++ replicate (n - needed) zero_value))) (fun a =>
      ret (Window a 0 needed n))
  end.
End arrays.

Section maps.
Context {V : Type} `{!StoredMap cell V}.

Definition map_at (m : memory cell) (a : addr) : option (gmap string V) := m !! a ≫= map_of.
Definition load_map (h : hashmap V) : action (gmap string V) :=
  fun m => provided (map_at m (table h)) m.

(** [make(map[string]T)] and [m[key] = val] *)
Definition make_map : action (hashmap V) :=
  andAlso (alloc (map_cell ∅)) (fun a => ret (HashMap a)).
Definition assign_key (h : hashmap V) (key : string) (v : V) : action unit :=
  fun m => match map_at m (table h) with
           | Some kvs => Some (<[table h := map_cell (<[key := v]> kvs)]> m, tt)
           | None => None
           end.
End maps.

(** [for i := range ...], and a loop over what a [range] visits *)
Fixpoint each {A} (xs : list A) (f : A -> action unit) : action unit :=
  match xs with
  | [] => ret tt
  | x :: xs => andAlso (f x) (fun _ => each xs f)
  end.
End operations.

Arguments action : clear implicits.

Notation "'let&' x := c 'in' k" := (andAlso c (fun x => k))
  (at level 10, x pattern, c at level 100, k at level 200) : go_scope.

(** ** The three shapes of a generated copy *)

Section copying.
Context {cell : Type} `{!Runtime cell}.

(** For a field that is a slice: [make] an array as long as it is and, unless it
    was nil, copy element by element ([copy] when the elements are plain values). *)
Definition copy_slice `{!Stored cell X} (copy : X -> action cell X) (s : ptr (window X))
    : action cell (ptr (window X)) :=
  match s with
  | None => ret None
  | Some s =>
      let& out := make (len s) in
      let& _ := each (seq 0 (len s)) (fun i =>
        let& x := index s i in
        let& y := copy x in
        assign out i y) in
      ret (Some out)
  end.

(** For a field that is a map: [make] a map and assign each key in turn. *)
Definition copy_map `{!StoredMap cell V} (copy : V -> action cell V) (p : ptr (hashmap V))
    : action cell (ptr (hashmap V)) :=
  match p with
  | None => ret None
  | Some p =>
      let& out := make_map in
      let& m := load_map p in
      let& _ := each (map_order m) (fun kv =>
        let& v := copy kv.2 in
        assign_key out kv.1 v) in
      ret (Some out)
  end.

(** For a field that is a pointer, and for [DeepCopy] itself: [new], and copy
    into what it points to. *)
Definition copy_ptr `{!Stored cell X} (copy : X -> action cell X) (p : ptr (pointer X))
    : action cell (ptr (pointer X)) :=
  match p with
  | None => ret None
  | Some p =>
      let& out := new in
      let& x := load p in
      let& y := copy x in
      let& _ := store out y in
      ret (Some out)
  end.
End copying.

(** ** What values in memory mean *)

(** [reads m r a fp]: in the memory [m], the value [r] means [a], and reading it
    visits the addresses [fp]. *)
Class Reader (cell R A : Type) : Type := {
  reads : memory cell -> R -> A -> list addr -> Prop;
  reads_local m m' r a fp :
    (forall x, x ∈ fp -> m' !! x = m !! x) -> reads m r a fp -> reads m' r a fp;
  reads_alloc m r a fp x : reads m r a fp -> x ∈ fp -> is_Some (m !! x);
}.
#[export] Hint Mode Reader - ! - : typeclass_instances.

Section readers.
Context {cell : Type}.
Implicit Types (m : memory cell) (fp : list addr).

Lemma reads_mono `{Reader cell R A} m m' (r : R) (a : A) fp :
  reads m r a fp -> m ⊆ m' -> reads m' r a fp.
Proof.
  intros Hr Hm. eapply reads_local; [|done]. intros x Hx.
  destruct (reads_alloc _ _ _ _ _ Hr Hx) as [c Hc]. rewrite Hc. by eapply lookup_weaken.
Qed.

Lemma all_read_local `{Reader cell R A} m m' (rs : list R) (l : list A) fps :
  (forall x, x ∈ concat fps -> m' !! x = m !! x) ->
  Forall3 (reads m) rs l fps -> Forall3 (reads m') rs l fps.
Proof.
  intros Hm Hr. induction Hr as [|r a fp rs l fps Hr _ IH]; [constructor|]. constructor.
  - eapply reads_local; [|done]. intros x Hx. apply Hm, elem_of_app. by left.
  - apply IH. intros x Hx. apply Hm, elem_of_app. by right.
Qed.

Lemma all_read_alloc `{Reader cell R A} m (rs : list R) (l : list A) fps x :
  Forall3 (reads m) rs l fps -> x ∈ concat fps -> is_Some (m !! x).
Proof.
  induction 1 as [|r a fp rs l fps Hr _ IH]; cbn; [by intros ?%elem_of_nil|].
  intros [Hx|Hx]%elem_of_app; [by eapply reads_alloc|auto].
Qed.

Lemma array_at_alloc `{!Stored cell X} m a (l : list X) :
  array_at m a = Some l -> is_Some (m !! a).
Proof. intros (c & Hc & _)%bind_Some. eauto. Qed.
Lemma map_at_alloc `{!StoredMap cell V} m a (kvs : gmap string V) :
  map_at m a = Some kvs -> is_Some (m !! a).
Proof. intros (c & Hc & _)%bind_Some. eauto. Qed.

(** A plain value means itself. *)
Program Definition plain (A : Type) : Reader cell A A :=
  {| reads _ r a fp := r = a /\ fp = [] |}.
Next Obligation. done. Qed.
Next Obligation. by intros A m r a fp x [_ ->] ?%elem_of_nil. Qed.
#[global] Instance string_reader : Reader cell string string := plain string.

#[global] Program Instance pair_reader `{Reader cell R A, Reader cell R' A'}
    : Reader cell (R * R') (A * A') :=
  {| reads m r a fp := exists fp1 fp2,
       reads m r.1 a.1 fp1 /\ reads m r.2 a.2 fp2 /\ fp = fp1 ++ fp2 |}.
Next Obligation.
  intros * Hm (fp1 & fp2 & H1 & H2 & ->). exists fp1, fp2.
  split_and!; [eapply reads_local, H1|eapply reads_local, H2|done]; intros x Hx;
    apply Hm, elem_of_app; auto.
Qed.
Next Obligation.
  intros * (fp1 & fp2 & H1 & H2 & ->) [Hx|Hx]%elem_of_app;
    [exact (reads_alloc _ _ _ _ _ H1 Hx)|exact (reads_alloc _ _ _ _ _ H2 Hx)].
Qed.

(** A struct: what is plain in it agrees, the rest is read. *)
Program Definition struct {R A R' A'} (same : R -> A -> Prop) (parts : R -> R') (parts' : A -> A')
    `{Reader cell R' A'} : Reader cell R A :=
  {| reads m r a fp := same r a /\ reads m (parts r) (parts' a) fp |}.
Next Obligation. intros * Hm [Hs Hr]. split; [done|]. by eapply reads_local. Qed.
Next Obligation. intros * [_ Hr] Hx. exact (reads_alloc _ _ _ _ _ Hr Hx). Qed.

Section shapes.
Context `{Reader cell R A}.

Definition reads_pointer `{!Stored cell R} m (p : ptr (pointer R)) (o : ptr A) fp : Prop :=
  match p, o with
  | None, None => fp = []
  | Some p, Some a => exists x fp', array_at m (target p) = Some [x] /\
      reads m x a fp' /\ fp = target p :: fp'
  | _, _ => False
  end.
#[global] Program Instance pointer_reader `{!Stored cell R}
    : Reader cell (ptr (pointer R)) (ptr A) :=
  {| reads := reads_pointer |}.
Next Obligation.
  intros ? m m' [p|] [a|] fp Hm; [|done..]. intros (x & fp' & Hp & Hx & ->). exists x, fp'.
  unfold array_at in *. rewrite Hm by left. split_and!; [done| |done].
  eapply reads_local; [|done]. intros y Hy. apply Hm. by right.
Qed.
Next Obligation.
  intros ? m [p|] [a|] fp x; cbn; [|done|done|by intros -> ?%elem_of_nil].
  intros (y & fp' & Hp & Hy & ->) [->|Hx]%elem_of_cons;
    [|exact (reads_alloc _ _ _ _ _ Hy Hx)].
  by eapply array_at_alloc.
Qed.

Definition reads_slice `{!Stored cell R} m (s : ptr (window R)) (o : slice A) fp : Prop :=
  match s, o with
  | None, None => fp = []
  | Some s, Some l => exists cells fps, array_at m (base s) = Some cells /\
      len s <= capacity s /\ offset s + capacity s <= length cells /\
      Forall3 (reads m) (take (len s) (drop (offset s) cells)) l fps /\
      fp = base s :: concat fps
  | _, _ => False
  end.
#[global] Program Instance slice_reader `{!Stored cell R}
    : Reader cell (ptr (window R)) (slice A) :=
  {| reads := reads_slice |}.
Next Obligation.
  intros ? m m' [s|] [l|] fp Hm; [|done..]. intros (cells & fps & Hp & H1 & H2 & Hx & ->).
  exists cells, fps. unfold array_at in *. rewrite Hm by left. split_and!; [done..| |done].
  eapply all_read_local; [|done]. intros y Hy. apply Hm. by right.
Qed.
Next Obligation.
  intros ? m [s|] [l|] fp x; cbn; [|done|done|by intros -> ?%elem_of_nil].
  intros (cells & fps & Hp & _ & _ & Hy & ->) [->|Hx]%elem_of_cons;
    [|exact (all_read_alloc _ _ _ _ _ Hy Hx)].
  by eapply array_at_alloc.
Qed.

Lemma all_read_diagonal m {I} (f : I -> R) (g : I -> A) (h : I -> list addr) l :
  Forall3 (reads m) (f <$> l) (g <$> l) (h <$> l) <-> Forall (fun e => reads m (f e) (g e) (h e)) l.
Proof.
  induction l as [|e l IH]; [split; constructor|]. cbn. rewrite Forall_cons, <- IH. split.
  - by inversion 1.
  - intros [??]. by constructor.
Qed.

(** The entries of a map in memory: key, value, meaning and footprint. *)
Definition entry : Type := string * (R * (A * list addr)).
Definition entry_value (e : entry) : string * R := (e.1, e.2.1).
Definition entry_meaning (e : entry) : string * A := (e.1, e.2.2.1).
Definition entry_footprint (e : entry) : list addr := e.2.2.2.

Definition reads_map `{!StoredMap cell R} m (h : ptr (hashmap R)) (o : gomap A) fp : Prop :=
  match h, o with
  | None, None => fp = []
  | Some h, Some kvs => exists es : list entry, NoDup es.*1 /\
      map_at m (table h) = Some (list_to_map (entry_value <$> es)) /\
      kvs = list_to_map (entry_meaning <$> es) /\
      Forall (fun e => reads m e.2.1 e.2.2.1 e.2.2.2) es /\
      fp = table h :: concat (entry_footprint <$> es)
  | _, _ => False
  end.
#[global] Program Instance map_reader `{!StoredMap cell R}
    : Reader cell (ptr (hashmap R)) (gomap A) :=
  {| reads := reads_map |}.
Next Obligation.
  intros ? m m' [h|] [l|] fp Hm; [|done..]. intros (es & Hes & Hp & Hl & Hx & ->).
  exists es. unfold map_at in *. rewrite Hm by left. split_and!; [done..| |done].
  revert Hx. rewrite <- !(all_read_diagonal _ (fun e => e.2.1) (fun e => e.2.2.1) (fun e => e.2.2.2)).
  apply all_read_local. intros y Hy. apply Hm. by right.
Qed.
Next Obligation.
  intros ? m [h|] [l|] fp x; cbn; [|done|done|by intros -> ?%elem_of_nil].
  intros (es & _ & Hp & _ & Hx & ->) [->|Hy]%elem_of_cons;
    [|exact (all_read_alloc _ _ _ _ _ (proj2 (all_read_diagonal _ _ _ _ _) Hx) Hy)].
  by eapply map_at_alloc.
Qed.
End shapes.
End readers.

(** ** Adding to the memory *)

Section yielding.
Context {cell : Type} `{!Runtime cell}.
Implicit Types (m : memory cell) (fp : list addr).

(** [m'] is [m] with more in it, the addresses [fp] among what is new. *)
Definition extends m m' fp : Prop :=
  m ⊆ m' /\ NoDup fp /\ forall x, x ∈ fp -> m !! x = None /\ is_Some (m' !! x).

(** The code runs without a fault, changes nothing that was there, and ends in a
    memory, with a result and new addresses, as described. *)
Definition yields {A} (c : action cell A) m (Q : memory cell -> A -> list addr -> Prop) : Prop :=
  exists m' a fp, c m = Some (m', a) /\ extends m m' fp /\ Q m' a fp.

Lemma extends_refl m : extends m m [].
Proof. split_and!; [done|constructor|]. by intros x ?%elem_of_nil. Qed.

Lemma extends_trans m1 m2 m3 fp fp' :
  extends m1 m2 fp -> extends m2 m3 fp' -> extends m1 m3 (fp ++ fp').
Proof.
  intros (H12 & Hfp & Ha) (H23 & Hfp' & Ha'). split_and!; [by etrans| |].
  - apply NoDup_app. split_and!; [done| |done]. intros x Hx Hx'.
    destruct (Ha x Hx) as (_ & c & Hc). destruct (Ha' x Hx'). congruence.
  - intros x [Hx|Hx]%elem_of_app.
    + destruct (Ha x Hx) as (Hn & c & Hc). split; [done|]. exists c. by eapply lookup_weaken.
    + destruct (Ha' x Hx) as (Hn & Hs). split; [|done]. by eapply lookup_weaken_None.
Qed.

Lemma yields_ret {A} m (a : A) (Q : _ -> _ -> _ -> Prop) : Q m a [] -> yields (ret a) m Q.
Proof. intros HQ. exists m, a, []. split_and!; [done|apply extends_refl|done]. Qed.

Lemma yields_bind {A B} (c : action cell A) (f : A -> action cell B) m Q (Q' : _ -> _ -> _ -> Prop) :
  yields c m Q ->
  (forall m1 a fp, m ⊆ m1 -> Q m1 a fp -> yields (f a) m1 (fun m2 b fp' => Q' m2 b (fp ++ fp'))) ->
  yields (andAlso c f) m Q'.
Proof.
  intros (m1 & a & fp & Hc & He & HQ) Hf.
  destruct (Hf m1 a fp (proj1 He) HQ) as (m2 & b & fp' & Hfa & He' & HQ').
  exists m2, b, (fp ++ fp'). unfold andAlso. rewrite Hc. split_and!; [done| |done].
  by eapply extends_trans.
Qed.

Lemma yields_mono {A} (c : action cell A) m (Q Q' : _ -> _ -> _ -> Prop) :
  yields c m Q -> (forall m' a fp, m ⊆ m' -> Q m' a fp -> Q' m' a fp) -> yields c m Q'.
Proof. intros (m' & a & fp & Hc & He & HQ) HQ'. exists m', a, fp. split_and!; [done..|]. apply HQ', HQ. apply He. Qed.

(** What is read at addresses that were there is still read. *)
Lemma extends_reads `{Reader cell R A} m m' fp' (r : R) (a : A) fp :
  reads m r a fp -> extends m m' fp' -> reads m' r a fp.
Proof. intros Hr (Hm & _). by eapply reads_mono. Qed.

(** ** Deep copies *)

(** A copy of a value means what the value means, in memory of its own. *)
Definition copies `{Reader cell R A} (copy : R -> action cell R) : Prop :=
  forall m r a fp, reads m r a fp -> yields (copy r) m (fun m' r' fp' => reads m' r' a fp').

Lemma ret_copies {A} : @copies A A (plain A) ret.
Proof. intros m r a fp [-> ->]. by apply yields_ret. Qed.
Lemma copy_string : copies (R := string) ret.
Proof. apply ret_copies. Qed.

Lemma alloc_extends m c :
  alloc c m = Some (<[malloc m := c]> m, malloc m) /\ m !! malloc m = None /\
  m ⊆ <[malloc m := c]> m.
Proof.
  split_and!; [done|apply malloc_fresh|]. apply insert_subseteq, malloc_fresh.
Qed.

Lemma array_at_insert `{!Stored cell X} m a (l : list X) :
  array_at (<[a := array_cell l]> m) a = Some l.
Proof. unfold array_at. rewrite lookup_insert_eq. apply array_of_cell. Qed.
Lemma map_at_insert `{!StoredMap cell V} m a (kvs : gmap string V) :
  map_at (<[a := map_cell kvs]> m) a = Some kvs.
Proof. unfold map_at. rewrite lookup_insert_eq. apply map_of_cell. Qed.
Lemma array_at_mono `{!Stored cell X} m m' a (l : list X) :
  array_at m a = Some l -> m ⊆ m' -> array_at m' a = Some l.
Proof.
  intros (c & Hc & Hl)%bind_Some Hm. unfold array_at. by rewrite (lookup_weaken _ _ _ _ Hc Hm).
Qed.
Lemma map_at_mono `{!StoredMap cell V} m m' a (kvs : gmap string V) :
  map_at m a = Some kvs -> m ⊆ m' -> map_at m' a = Some kvs.
Proof.
  intros (c & Hc & Hl)%bind_Some Hm. unfold map_at. by rewrite (lookup_weaken _ _ _ _ Hc Hm).
Qed.

Lemma each_app {I} (xs ys : list I) (f : I -> action cell unit) m :
  each (xs ++ ys) f m = andAlso (each xs f) (fun _ => each ys f) m.
Proof.
  revert m. induction xs as [|x xs IH]; intros m; [done|]. cbn. unfold andAlso at 1 2 3.
  destruct (f x m) as [[m1 []]|]; [|done]. rewrite IH. done.
Qed.

(** The loop of a copy: one object, at [b], is filled with the copies of what the
    loop visits. *)
Section loop.
Context `{Reader cell R A} {I J : Type}.
Context (b : addr) (hold : list R -> cell) (f : J -> action cell unit).
Context (arg : I -> J) (meaning : I -> A) (m0 : memory cell) (items : list I).

(** A step from a memory where [b] holds the copies so far. *)
Hypothesis Hstep : forall pre it suf done m,
  items = pre ++ it :: suf -> length done = length pre -> m0 ⊆ m -> m !! b = Some (hold done) ->
  exists m1 r fp, f (arg it) m = Some (<[b := hold (done ++ [r])]> m1, tt) /\
    extends m m1 fp /\ reads m1 r (meaning it) fp.

Lemma each_copies pre suf m :
  items = pre ++ suf -> m0 !! b = None -> m0 ⊆ m -> m !! b = Some (hold []) ->
  exists m' rs fps, each (arg <$> pre) f m = Some (m', tt) /\ m0 ⊆ m' /\
    m' !! b = Some (hold rs) /\ Forall3 (reads m') rs (meaning <$> pre) fps /\
    NoDup (concat fps) /\ (forall x, x ∈ concat fps -> m !! x = None) /\
    (forall x c, x <> b -> m !! x = Some c -> m' !! x = Some c).
Proof.
  intros Hi Hb0 Hm0 Hb. revert suf Hi. induction pre as [|it pre IH] using rev_ind; intros suf Hi.
  { exists m, [], []. split_and!; try done; [constructor|constructor|by intros x ?%elem_of_nil]. }
  rewrite <- app_assoc in Hi.
  destruct (IH _ Hi) as (m1 & rs & fps & He & Hm1 & Hb1 & Hr & Hnd & Hfr & Hk).
  assert (length rs = length pre) as Hlen.
  { apply Forall3_length_lm in Hr. by rewrite length_fmap in Hr. }
  destruct (Hstep pre it suf rs m1 Hi Hlen Hm1 Hb1) as (m2 & r & fp & Hf & Hext & Hread).
  pose proof Hext as (Hm12 & Hndfp & Hfp).
  assert (forall x, x ∈ fp \/ x ∈ concat fps -> x <> b) as Hnb.
  { intros x [Hx|Hx] ->; [destruct (Hfp b Hx); congruence|].
    specialize (Hfr b Hx). congruence. }
  exists (<[b := hold (rs ++ [r])]> m2), (rs ++ [r]), (fps ++ [fp]).
  rewrite fmap_app, each_app, fmap_app, concat_app. cbn [fmap list_fmap concat each].
  unfold andAlso. rewrite He. cbn. rewrite Hf, app_nil_r. split_and!; [done| | | | | |].
  - apply insert_subseteq_r; [done|]. by etrans.
  - by rewrite lookup_insert_eq.
  - apply Forall3_app; [|constructor; [|constructor]].
    + eapply all_read_local; [|exact Hr]. intros x Hx. rewrite lookup_insert_ne by (symmetry; auto).
      destruct (all_read_alloc _ _ _ _ _ Hr Hx) as [c Hc]. rewrite Hc. by eapply lookup_weaken.
    + eapply reads_local; [|exact Hread]. intros x Hx. by rewrite lookup_insert_ne by (symmetry; auto).
  - apply NoDup_app. split_and!; [done| |done]. intros x Hx Hx'.
    destruct (all_read_alloc _ _ _ _ _ Hr Hx) as [c Hc]. destruct (Hfp x Hx'). congruence.
  - intros x [Hx|Hx]%elem_of_app; [auto|]. destruct (Hfp x Hx) as [Hn _].
    destruct (m !! x) as [c|] eqn:Hx0; [|done]. destruct (decide (x = b)) as [->|Hxb]; [congruence|].
    specialize (Hk x c Hxb Hx0). congruence.
  - intros x c Hx Hc. rewrite lookup_insert_ne by done. eapply lookup_weaken; [|done]. auto.
Qed.
End loop.

(** What the loop has filled, once it has visited everything, with the object
    that it fills. *)
Lemma filled m m1 m' b fp :
  m !! b = None -> is_Some (m1 !! b) -> m ⊆ m1 -> m ⊆ m' -> is_Some (m' !! b) -> NoDup fp ->
  (forall x, x ∈ fp -> m1 !! x = None /\ is_Some (m' !! x)) ->
  extends m m' (b :: fp).
Proof.
  intros Hb [c Hb1] Hm1 Hm' Hb' Hnd Hfr. split_and!; [done| |].
  - constructor; [|done]. intros Hx. destruct (Hfr _ Hx). congruence.
  - intros x [->|Hx]%elem_of_cons; [done|]. destruct (Hfr x Hx) as [Hn Hs]. split; [|done].
    eapply lookup_weaken_None; eauto.
Qed.

Section shapes.
Context `{Reader cell R A}.

Lemma assign_next `{!Stored cell R} m b n (done : list R) y :
  length done < n ->
  m !! b = Some (array_cell (done ++ replicate (n - length done) zero_value)) ->
  assign (Window b 0 n n) (length done) y m =
    Some (<[b := array_cell ((done ++ [y]) ++ replicate (n - length (done ++ [y])) zero_value)]> m, tt).
Proof.
  intros Hn Hb. unfold assign. rewrite bool_decide_eq_true_2 by done.
  unfold andAlso, load_array, store_array, provided, array_at. cbn. rewrite Hb. cbn.
  rewrite array_of_cell. cbn. rewrite Hb. cbn. rewrite array_of_cell. do 4 f_equal.
  rewrite length_app. cbn. replace (n - length done) with (S (n - (length done + 1))) by lia.
  cbn. rewrite insert_app_r_alt by lia. by rewrite Nat.sub_diag, <- app_assoc.
Qed.

Lemma index_read `{!Stored cell R} m s (cells : list R) i r :
  array_at m (base s) = Some cells -> take (len s) (drop (offset s) cells) !! i = Some r ->
  index s i m = Some (m, r).
Proof.
  intros Hc [Hr Hi]%lookup_take_Some. unfold index. rewrite lookup_drop in Hr.
  rewrite bool_decide_eq_true_2 by done. unfold andAlso, load_array. rewrite Hc. cbn.
  by rewrite Hr.
Qed.

Lemma copy_slice_copies `{!Stored cell R} copy :
  copies (R := R) copy -> copies (A := slice A) (copy_slice copy).
Proof.
  intros Hcopy m [s|] [l|] fp Hs; try done.
  2: { cbn in Hs. subst fp. by apply yields_ret. }
  destruct Hs as (cells & fps & Hc & Hcap & Hlen & Hr & ->).
  set (rs := take (len s) (drop (offset s) cells)) in *.
  assert (length rs = len s) as Hrs by (unfold rs; rewrite length_take, length_drop; lia).
  pose proof (Forall3_length_lm _ _ _ _ Hr) as Hl. rewrite Hrs in Hl.
  destruct (alloc_extends m (array_cell (replicate (len s) zero_value : list R))) as (Ha & Hb & Hm1).
  set (b := malloc m) in *. set (m1 := <[b := _]> m) in *.
  set (w := Window b 0 (len s) (len s) : window R).
  destruct (each_copies b
    (fun done => array_cell (done ++ replicate (len s - length done) zero_value))
    (fun i => let& x := index s i in let& y := copy x in assign w i y)
    fst snd m (zip (seq 0 (len s)) l)) with (pre := zip (seq 0 (len s)) l) (suf := @nil (nat * A))
    (m := m1) as (m' & rs' & fps' & He & Hm' & Hb' & Hr' & Hnd & Hfr & _).
  - intros pre [i a] suf done m2 Hi Hdone Hm2 Hb2.
    assert (zip (seq 0 (len s)) l !! length done = Some (i, a)) as Hia.
    { rewrite Hi, Hdone. by apply list_lookup_middle. }
    apply lookup_zip_Some in Hia as [[-> Hlt]%lookup_seq Hla]. cbn [Nat.add fst snd].
    destruct (Forall3_lookup_m _ _ _ _ _ _ Hr Hla) as (r & fp & Hri & _ & Hra).
    unfold andAlso at 1. rewrite (index_read m2 s cells (length done) r); [|by eapply array_at_mono|done].
    destruct (Hcopy m2 r a fp (reads_mono _ _ _ _ _ Hra Hm2)) as (m3 & r' & fp' & Hcr & Hext & Hr').
    exists m3, r', fp'. unfold andAlso. rewrite Hcr. split_and!; [|done..].
    apply assign_next; [done|]. eapply lookup_weaken; [done|apply Hext].
  - by rewrite app_nil_r.
  - done.
  - done.
  - cbn. rewrite Nat.sub_0_r. apply lookup_insert_eq.
  - rewrite fst_zip in He by (rewrite length_seq; lia).
    rewrite snd_zip in Hr' by (rewrite length_seq; lia).
    pose proof (Forall3_length_lm _ _ _ _ Hr') as Hl'. rewrite <- Hl in Hl'.
    rewrite Hl', Nat.sub_diag, app_nil_r in Hb'.
    exists m', (Some w), (b :: concat fps'). split_and!.
    + unfold copy_slice, make, andAlso at 1 2 3. rewrite Ha. cbn. fold b w.
      by rewrite He.
    + apply (filled m m1 m'); [done| |done..|by eexists|done|].
      * unfold m1. rewrite lookup_insert_eq. eauto.
      * intros x Hx. split; [auto|]. exact (all_read_alloc _ _ _ _ _ Hr' Hx).
    + exists rs', fps'. cbn. split_and!; [|lia..| |done].
      * unfold array_at. rewrite Hb'. apply array_of_cell.
      * by rewrite drop_0, take_ge by lia.
Qed.

Lemma copy_ptr_copies `{!Stored cell R} copy :
  copies (R := R) copy -> copies (A := ptr A) (copy_ptr copy).
Proof.
  intros Hcopy m [p|] [a|] fp Hp; try done.
  2: { cbn in Hp. subst fp. by apply yields_ret. }
  destruct Hp as (x & fp0 & Hp & Hx & ->).
  destruct (alloc_extends m (array_cell [zero_value : R])) as (Ha & Hb & Hm1).
  set (b := malloc m) in *. set (m1 := <[b := _]> m) in *.
  destruct (Hcopy m1 x a fp0 (reads_mono _ _ _ _ _ Hx Hm1)) as (m2 & y & fp' & Hc & Hext & Hy).
  pose proof Hext as (Hm2 & Hnd & Hfp).
  assert (m1 !! b = Some (array_cell [zero_value])) as Hb1 by apply lookup_insert_eq.
  assert (forall z, z ∈ fp' -> b <> z) as Hne.
  { intros z Hz <-. destruct (Hfp _ Hz). congruence. }
  set (m3 := <[b := array_cell [y]]> m2).
  assert (reads m3 y a fp') as Hy3.
  { eapply reads_local; [|exact Hy]. intros z Hz. unfold m3. by rewrite lookup_insert_ne by auto. }
  exists m3, (Some (Pointer b)), (b :: fp'). split_and!.
  - unfold copy_ptr, new, andAlso. rewrite Ha. cbn. fold b m1. unfold load, andAlso, load_array.
    rewrite (array_at_mono _ _ _ _ Hp Hm1). cbn. rewrite Hc.
    unfold store, store_array, array_at. cbn. rewrite (lookup_weaken _ _ _ _ Hb1 Hm2). cbn.
    by rewrite array_of_cell.
  - apply (filled m m1 m3); [done|by eexists|done| | |done|].
    + apply insert_subseteq_r; [done|]. by etrans.
    + unfold m3. rewrite lookup_insert_eq. eauto.
    + intros z Hz. split; [apply (Hfp z Hz)|]. exact (reads_alloc _ _ _ _ _ Hy3 Hz).
  - exists y, fp'. split_and!; [|done..]. apply array_at_insert.
Qed.

(** The entries of a map, in the order in which a [range] visits it. *)
Lemma map_order_entries (kvs : gmap string R) (es : list (entry (R := R) (A := A))) :
  NoDup es.*1 -> kvs = list_to_map (entry_value <$> es) ->
  exists es', map_order kvs = entry_value <$> es' /\ es ≡ₚ es'.
Proof.
  intros Hnd ->. apply Permutation_map_inv. etrans; [apply map_order_perm|].
  apply map_to_list_to_map. by rewrite <- list_fmap_compose.
Qed.

Lemma assign_key_next `{!StoredMap cell R} m b (ks : list string) (done : list R) k y suf :
  NoDup ks -> ks = take (length done) ks ++ k :: suf ->
  m !! b = Some (map_cell (list_to_map (zip ks done))) ->
  assign_key (HashMap b) k y m = Some (<[b := map_cell (list_to_map (zip ks (done ++ [y])))]> m, tt).
Proof.
  intros Hnd Hks Hb. unfold assign_key, map_at. cbn. rewrite Hb. cbn. rewrite map_of_cell.
  do 4 f_equal. set (pre := take (length done) ks) in *.
  assert (length pre = length done) as Hlen.
  { unfold pre. rewrite length_take. apply (f_equal length) in Hks.
    rewrite length_app in Hks. unfold pre in Hks. rewrite length_take in Hks. cbn in Hks. lia. }
  rewrite Hks. rewrite !zip_with_app_l, Hlen, take_app_length, drop_app_length.
  rewrite take_ge, drop_ge by done. cbn. rewrite app_nil_r.
  destruct suf; cbn; rewrite list_to_map_snoc; try done.
  all: rewrite fst_zip by lia; intros Hk; rewrite Hks in Hnd.
  all: apply NoDup_app in Hnd as (_ & Hd & _); apply (Hd k Hk); by left.
Qed.

(** The entries of the copy: other values with other footprints, for the same
    keys and meanings. *)
Definition replaced (es : list (entry (R := R) (A := A))) (rs : list R) (fps : list (list addr))
    : list (entry (R := R) (A := A)) :=
  zip_with (fun e p => (e.1, (p.1, (e.2.2.1, p.2)))) es (zip rs fps).

Lemma replaced_reads m es rs fps :
  Forall3 (reads m) rs ((fun e : entry => e.2.2.1) <$> es) fps ->
  let es' := replaced es rs fps in
  es'.*1 = es.*1 /\ entry_meaning <$> es' = entry_meaning <$> es /\
  entry_value <$> es' = zip es.*1 rs /\ entry_footprint <$> es' = fps /\
  Forall (fun e => reads m e.2.1 e.2.2.1 e.2.2.2) es'.
Proof.
  revert rs fps. induction es as [|[k [v [a fp0]]] es IH]; intros rs fps Hr.
  { by inversion Hr. }
  apply Forall3_cons_inv_m in Hr as (r & rs' & fp & fps' & -> & -> & Hr & Hrs).
  destruct (IH _ _ Hrs) as (H1 & H2 & H3 & H4 & H5). cbn.
  split_and!; try (f_equal; assumption). by constructor.
Qed.

Lemma copy_map_copies `{!StoredMap cell R} copy :
  copies (R := R) copy -> copies (A := gomap A) (copy_map copy).
Proof.
  intros Hcopy m [h|] [kvs|] fp Hh; try done.
  2: { cbn in Hh. subst fp. by apply yields_ret. }
  destruct Hh as (es0 & Hnd0 & Hh & -> & Hr & ->).
  destruct (map_order_entries _ es0 Hnd0 eq_refl) as (es & Hes & Hperm).
  assert (NoDup es.*1) as Hnd by by rewrite <- Hperm. rewrite Hperm in Hr.
  destruct (alloc_extends m (map_cell (∅ : gmap string R))) as (Ha & Hb & Hm1).
  set (b := malloc m) in *. set (m1 := <[b := _]> m) in *.
  destruct (each_copies b (fun done => map_cell (list_to_map (zip es.*1 done)))
    (fun kv => let& v := copy kv.2 in assign_key (HashMap b) kv.1 v)
    entry_value (fun e => e.2.2.1) m es) with (pre := es) (suf := @nil (entry (R := R) (A := A)))
    (m := m1) as (m' & rs & fps & He & Hm' & Hb' & Hr' & Hndf & Hfr & _).
  - intros pre e suf done m2 Hi Hdone Hm2 Hb2.
    assert (reads m e.2.1 e.2.2.1 e.2.2.2) as He.
    { rewrite Hi, Forall_app, Forall_cons in Hr. apply Hr. }
    destruct (Hcopy m2 _ _ _ (reads_mono _ _ _ _ _ He Hm2)) as (m3 & r' & fp' & Hcr & Hext & Hr').
    exists m3, r', fp'. unfold andAlso. cbn [entry_value fst snd]. rewrite Hcr. split_and!; [|done..].
    apply (assign_key_next m3 b es.*1 done e.1 r' suf.*1); [done| |].
    + rewrite Hi, fmap_app, Hdone. cbn. rewrite take_app_length'; [done|by rewrite length_fmap].
    + eapply lookup_weaken; [done|apply Hext].
  - by rewrite app_nil_r.
  - done.
  - done.
  - destruct es; apply lookup_insert_eq.
  - destruct (replaced_reads m' es rs fps Hr') as (H1 & H2 & H3 & H4 & H5).
    exists m', (Some (HashMap b)), (b :: concat fps). split_and!.
    + unfold copy_map, make_map, andAlso at 1 2 3. rewrite Ha. cbn. fold b m1.
      unfold load_map at 1. rewrite (map_at_mono _ _ _ _ Hh Hm1). cbn. rewrite Hes.
      unfold andAlso at 1. by rewrite He.
    + apply (filled m m1 m'); [done| |done..|by eexists|done|].
      * unfold m1. rewrite lookup_insert_eq. eauto.
      * intros x Hx. split; [auto|]. exact (all_read_alloc _ _ _ _ _ Hr' Hx).
    + exists (replaced es rs fps). rewrite H1, H2, H3, H4. split_and!; try done.
      * unfold map_at. cbn. rewrite Hb'. apply map_of_cell.
      * apply list_to_map_proper; [by rewrite <- list_fmap_compose|]. by rewrite Hperm.
Qed.
End shapes.
End yielding.
