(* ===== verification/Ownership.v ===== *)
(** * Writing to what one owns

    Code that changes the memory, and only what it owns there: [transforms] is what
    it promises, [within] how the memory is afterwards.  [append], loops over
    slices and fields that are made when they are nil are shown to keep to it. *)

From S2P Require Export Memory.
#[local] Open Scope nat_scope.

Section updating.
Context {cell : Type} `{!Runtime cell}.
Implicit Types (m : memory cell) (fp : list addr).

(** What was in memory outside of [fp] is there still; what [fp'] has that [fp]
    had not is new. *)
Definition within m m' fp fp' : Prop :=
  NoDup fp' /\ (forall x, x ∈ fp' -> x ∈ fp \/ m !! x = None) /\
  (forall x, x ∉ fp -> is_Some (m !! x) -> m' !! x = m !! x).

(** The code, which owns the addresses [fp], runs without a fault, changes nothing
    else, and ends owning other addresses, as described. *)
Definition transforms {A} (c : action cell A) m fp (Q : memory cell -> A -> list addr -> Prop) : Prop :=
  exists m' a fp', c m = Some (m', a) /\ within m m' fp fp' /\ Q m' a fp'.

Lemma within_refl m fp : NoDup fp -> within m m fp fp.
Proof. intros Hnd. split_and!; auto. Qed.

Lemma within_trans m1 m2 m3 fp1 fp2 fp3 :
  within m1 m2 fp1 fp2 -> within m2 m3 fp2 fp3 -> within m1 m3 fp1 fp3.
Proof.
  intros (_ & Hi & Hk) (Hnd & Hi' & Hk'). split_and!; [done| |].
  - intros x [Hx|Hx]%Hi'; [auto|]. destruct (decide (x ∈ fp1)) as [|Hn]; [auto|]. right.
    destruct (m1 !! x) as [c|] eqn:E; [|done]. specialize (Hk x Hn ltac:(eauto)). congruence.
  - intros x Hx [c Hc]. rewrite Hk', Hk; eauto.
    + intros [?|?]%Hi; [done|congruence].
    + rewrite Hk; eauto.
Qed.

Lemma transforms_ret {A} m fp (a : A) (Q : _ -> _ -> _ -> Prop) :
  NoDup fp -> Q m a fp -> transforms (ret a) m fp Q.
Proof. intros Hnd HQ. exists m, a, fp. split_and!; [done|by apply within_refl|done]. Qed.

Lemma transforms_bind {A B} (c : action cell A) (f : A -> action cell B) m fp Q (Q' : _ -> _ -> _ -> Prop) :
  transforms c m fp Q ->
  (forall m1 a fp1, within m m1 fp fp1 -> Q m1 a fp1 -> transforms (f a) m1 fp1 Q') ->
  transforms (andAlso c f) m fp Q'.
Proof.
  intros (m1 & a & fp1 & Hc & Hw & HQ) Hf.
  destruct (Hf m1 a fp1 Hw HQ) as (m2 & b & fp2 & Hfa & Hw' & HQ').
  exists m2, b, fp2. unfold andAlso. rewrite Hc. split_and!; [done| |done].
  by eapply within_trans.
Qed.

Lemma transforms_mono {A} (c : action cell A) m fp (Q Q' : _ -> _ -> _ -> Prop) :
  transforms c m fp Q -> (forall m' a fp', within m m' fp fp' -> Q m' a fp' -> Q' m' a fp') ->
  transforms c m fp Q'.
Proof. intros (m' & a & fp' & Hc & Hw & HQ) HQ'. exists m', a, fp'. auto. Qed.

(** Reading changes nothing. *)
Lemma transforms_reading {A B} (c : action cell A) (f : A -> action cell B) m fp a (Q : _ -> _ -> _ -> Prop) :
  c m = Some (m, a) -> transforms (f a) m fp Q -> transforms (andAlso c f) m fp Q.
Proof.
  intros Hc (m' & b & fp' & Hf & Hw & HQ). exists m', b, fp'. unfold andAlso. by rewrite Hc.
Qed.

(** The code that only needs a part of what one owns leaves the rest. *)
Lemma within_frame m m' fp fp' rest :
  NoDup (fp ++ rest) -> (forall x, x ∈ rest -> is_Some (m !! x)) -> within m m' fp fp' ->
  within m m' (fp ++ rest) (fp' ++ rest) /\ (forall x, x ∈ rest -> m' !! x = m !! x).
Proof.
  intros (Hnd & Hd & Hnd')%NoDup_app Hal (Hnd'' & Hi & Hk).
  assert (forall x, x ∈ rest -> x ∉ fp) as Hdr by (intros x Hx Hx'; by apply (Hd x)).
  split; [|intros x Hx; apply Hk; auto]. split_and!.
  - apply NoDup_app. split_and!; [done| |done]. intros x [Hx|Hx]%Hi Hr; [by apply (Hd x)|].
    destruct (Hal x Hr). congruence.
  - intros x [[Hx|Hx]%Hi|Hx]%elem_of_app; rewrite ?elem_of_app; auto.
  - intros x Hx Hs. apply Hk; [|done]. intros Hx'. apply Hx, elem_of_app. by left.
Qed.

Lemma within_perm m m' fp1 fp2 fp1' fp2' :
  fp1 ≡ₚ fp2 -> fp1' ≡ₚ fp2' -> within m m' fp1 fp1' -> within m m' fp2 fp2'.
Proof.
  intros H1 H2 (Hnd & Hi & Hk). split_and!.
  - by rewrite <- H2.
  - intros x. rewrite <- H1, <- H2. apply Hi.
  - intros x. rewrite <- H1. apply Hk.
Qed.

Lemma transforms_frame {A} (c : action cell A) m fp rest F (Q : _ -> _ -> _ -> Prop) :
  transforms c m fp Q -> F ≡ₚ fp ++ rest -> NoDup F -> (forall x, x ∈ rest -> is_Some (m !! x)) ->
  transforms c m F (fun m' a F' => exists fp', F' = fp' ++ rest /\ Q m' a fp' /\
    forall x, x ∈ rest -> m' !! x = m !! x).
Proof.
  intros (m' & a & fp' & Hc & Hw & HQ) HF Hnd Hal.
  destruct (within_frame m m' fp fp' rest) as [Hw' Hk]; [by rewrite <- HF|done..|].
  exists m', a, (fp' ++ rest). split_and!; [done| |eauto]. by eapply within_perm; [symmetry| |].
Qed.

(** [reads] of what the code has left alone. *)
Lemma kept_reads `{Reader cell R A} m m' (r : R) (a : A) fp (rest : list addr) :
  reads m r a fp -> (forall x, x ∈ rest -> m' !! x = m !! x) -> (forall x, x ∈ fp -> x ∈ rest) ->
  reads m' r a fp.
Proof. intros Hr Hk Hi. eapply reads_local; [|exact Hr]. auto. Qed.

(** A new object is one's own. *)
Lemma transforms_alloc c m fp :
  NoDup fp -> (forall x, x ∈ fp -> is_Some (m !! x)) ->
  transforms (alloc c) m fp (fun m' a fp' =>
    m' = <[a := c]> m /\ m !! a = None /\ fp' = a :: fp).
Proof.
  intros Hnd Hal. destruct (alloc_extends m c) as (Ha & Hb & Hm).
  exists (<[malloc m := c]> m), (malloc m), (malloc m :: fp). split_and!; [done| |done..].
  split_and!.
  - constructor; [|done]. intros [c' Hc]%Hal. congruence.
  - intros x [->|Hx]%elem_of_cons; auto.
  - intros x Hx [c' Hc]. rewrite lookup_insert_ne; [done|congruence].
Qed.

(** Writing to an object of one's own; what is read elsewhere is read still. *)
Lemma transforms_store `{!Stored cell X} m (p : pointer X) (l : list X) x fp :
  array_at m (target p) = Some l -> NoDup (target p :: fp) ->
  transforms (store p x) m (target p :: fp) (fun m' _ F =>
    F = target p :: fp /\ array_at m' (target p) = Some [x] /\
    forall y, y ∈ fp -> m' !! y = m !! y).
Proof.
  intros Hp Hnd. apply NoDup_cons in Hnd as [Hpf Hnd].
  exists (<[target p := array_cell [x]]> m), tt, (target p :: fp). split_and!.
  - unfold store, store_array. by rewrite Hp.
  - split_and!; [by constructor|auto|]. intros y Hy _. rewrite lookup_insert_ne; [done|].
    intros <-. apply Hy. by left.
  - done.
  - apply array_at_insert.
  - intros y Hy. rewrite lookup_insert_ne; [done|]. by intros <-.
Qed.

(** *** append *)

Section append.
Context `{Reader cell R A, !Stored cell R}.

(** A new array, of which the slice is a window that begins where it begins. *)
Lemma reads_new_array m a (rs spare : list R) (l : list A) fps n :
  m !! a = None -> Forall3 (reads m) rs l fps -> n = length spare ->
  reads (<[a := array_cell (rs ++ spare)]> m) (Some (Window a 0 (length rs) (length rs + n) : window R))
    (Some l) (a :: concat fps).
Proof.
  intros Ha Hr ->. exists (rs ++ spare), fps. cbn. rewrite drop_0, take_app_length, length_app.
  split_and!; [apply array_at_insert|lia|lia| |done]. eapply all_read_local; [|exact Hr].
  intros x Hx. destruct (all_read_alloc _ _ _ _ _ Hr Hx). rewrite lookup_insert_ne; [done|congruence].
Qed.

(** [append] in a new array *)
Lemma append_elsewhere m fp (rs xs : list R) (l ys : list A) fps fps' n :
  Forall3 (reads m) rs l fps -> Forall3 (reads m) xs ys fps' ->
  NoDup (concat (fps ++ fps')) -> (forall x, x ∈ concat (fps ++ fps') -> x ∈ fp) ->
  length rs + length xs <= n ->
  transforms (andAlso (alloc (array_cell (rs ++ xs ++ replicate (n - (length rs + length xs)) zero_value)))
             (fun a => ret (Window a 0 (length rs + length xs) n : window R))) m fp
    (fun m' (w : window R) fp' => reads m' (Some w) (Some (l ++ ys)) fp').
Proof.
  intros Hr Hx Hnd Hfp Hn. pose proof (Forall3_app _ _ _ _ _ _ _ Hr Hx) as Hrx.
  destruct (transforms_alloc (array_cell (rs ++ xs ++ replicate (n - (length rs + length xs)) zero_value)) m
              (concat (fps ++ fps')) Hnd) as (m1 & a & fp1 & Ha & Hw & -> & Hn1 & ->).
  { intros x Hx'. exact (all_read_alloc _ _ _ _ _ Hrx Hx'). }
  exists (<[a := array_cell (rs ++ xs ++ replicate (n - (length rs + length xs)) zero_value)]> m),
    (Window a 0 (length rs + length xs) n : window R), (a :: concat (fps ++ fps')).
  unfold andAlso. rewrite Ha. split_and!; [done| |].
  - destruct Hw as (Hnd1 & Hi & Hk). split_and!; [done| |].
    + intros x [Hx'|Hx']%Hi; auto.
    + intros x Hx' Hs. apply Hk; auto.
  - pose proof (reads_new_array m a (rs ++ xs) (replicate (n - (length rs + length xs)) zero_value) _ _ _
      Hn1 Hrx eq_refl) as Hread.
    rewrite length_replicate, length_app, <- app_assoc in Hread.
    by replace (length rs + length xs + (n - (length rs + length xs))) with n in Hread by lia.
Qed.

Lemma window_appended {X} off n (cells xs rest : list X) : off + n <= length cells ->
  take (n + length xs) (drop off (take (off + n) cells ++ xs ++ rest)) = take n (drop off cells) ++ xs.
Proof.
  intros Hn. rewrite drop_app_le by (rewrite length_take; lia). rewrite <- take_drop_commute, app_assoc.
  apply take_app_length'. rewrite length_app, length_take, length_drop. lia.
Qed.

(** [append] where there is room *)
Lemma append_in_place m (w : window R) (cells xs : list R) (l ys : list A) fps fps' :
  array_at m (base w) = Some cells -> offset w + capacity w <= length cells ->
  len w + length xs <= capacity w ->
  Forall3 (reads m) (take (len w) (drop (offset w) cells)) l fps -> Forall3 (reads m) xs ys fps' ->
  NoDup (base w :: concat (fps ++ fps')) ->
  transforms (andAlso (load_array (base w)) (fun l =>
           andAlso (store_array (base w)
             (take (offset w + len w) l ++ xs ++ drop (offset w + (len w + length xs)) l)) (fun _ =>
           ret (Window (base w) (offset w) (len w + length xs) (capacity w) : window R))))
    m (base w :: concat (fps ++ fps'))
    (fun m' (w : window R) fp' => reads m' (Some w) (Some (l ++ ys)) fp').
Proof.
  intros Hc Hcap Hroom Hr Hx Hnd. pose proof (Forall3_app _ _ _ _ _ _ _ Hr Hx) as Hrx.
  apply (transforms_reading _ _ _ _ cells); [unfold load_array; by rewrite Hc|].
  set (cells' := take (offset w + len w) cells ++ xs ++ drop (offset w + (len w + length xs)) cells).
  exists (<[base w := array_cell cells']> m),
    (Window (base w) (offset w) (len w + length xs) (capacity w) : window R), (base w :: concat (fps ++ fps')).
  unfold andAlso, store_array. rewrite Hc. split_and!; [done| |].
  - split_and!; [done|auto|]. intros x Hx' _. rewrite lookup_insert_ne; [done|]. set_solver.
  - exists cells', (fps ++ fps'). cbn. split_and!; [apply array_at_insert|done| | |done].
    + unfold cells'. rewrite !length_app, length_take, length_drop. lia.
    + assert (take (len w + length xs) (drop (offset w) cells') =
              take (len w) (drop (offset w) cells) ++ xs) as ->.
      { apply window_appended. lia. }
      eapply all_read_local; [|exact Hrx]. intros x Hx'. apply NoDup_cons in Hnd as [Hn _].
      rewrite lookup_insert_ne; [done|]. intros <-. done.
Qed.

(** What is appended to a slice that one owns ends in a slice that one owns. *)
Lemma appending_transforms m s fp (l : slice A) (xs : list R) ys fps :
  reads m s l fp -> Forall3 (reads m) xs ys fps -> xs <> [] -> NoDup (fp ++ concat fps) ->
  transforms (appending s xs) m (fp ++ concat fps)
    (fun m' (w : window R) fp' => reads m' (Some w) (append l ys) fp').
Proof.
  intros Hs Hx Hne Hnd.
  assert (append l ys = Some (elems l ++ ys)) as ->.
  { destruct l; [done|]. destruct ys; [|done]. by inversion Hx; subst. }
  destruct s as [w|], l as [l|]; try done.
  - destruct Hs as (cells & fpl & Hc & Hlen & Hcap & Hr & ->). cbn in Hnd.
    rewrite <- concat_app in Hnd. unfold appending. cbn [from_option].
    case_bool_decide as Hroom; cbn [app]; rewrite <- concat_app.
    + by eapply append_in_place.
    + apply (transforms_reading _ _ _ _ (take (len w) (drop (offset w) cells))).
      { unfold elements, andAlso, load_array. by rewrite Hc. }
      set (rs := take (len w) (drop (offset w) cells)) in *.
      assert (len w = length rs) as -> by (unfold rs; rewrite length_take, length_drop; lia).
      apply append_elsewhere with (fps := fpl) (fps' := fps); try done.
      * apply NoDup_cons in Hnd. apply Hnd.
      * intros x Hx'. by right.
      * apply growth_enough.
  - cbn in Hs. subst fp. cbn [app] in *. unfold appending. cbn [from_option].
    apply (append_elsewhere m _ [] xs [] ys [] fps); [constructor|done..|]. apply growth_enough.
Qed.
End append.

(** *** A loop over a slice that replaces its elements *)

Section elements.
Context `{Reader cell R A, !Stored cell R}.
Context (w : window R) (g : R -> action cell R) (h : A -> A).
Hypothesis Hg : forall m r a fp, reads m r a fp -> NoDup fp ->
  transforms (g r) m fp (fun m' y fp' => reads m' y (h a) fp').

Definition replace_element (i : nat) : action cell unit :=
  let& r := index w i in let& y := g r in assign w i y.

(** The elements of the window, in the array [cells]. *)
Definition seen (cells : list R) : list R := take (len w) (drop (offset w) cells).

Lemma seen_assign cells i y : i < len w ->
  seen (<[offset w + i := y]> cells) = <[i := y]> (seen cells).
Proof.
  intros Hi. unfold seen. rewrite drop_insert_ge by lia. rewrite Nat.add_comm, Nat.add_sub.
  by rewrite take_insert_lt.
Qed.

Lemma element_transforms m cells r1 r r2 t1 a t2 f1 fp f2 :
  array_at m (base w) = Some cells -> seen cells = r1 ++ r :: r2 ->
  Forall3 (reads m) r1 t1 f1 -> reads m r a fp -> Forall3 (reads m) r2 t2 f2 ->
  NoDup (base w :: concat (f1 ++ fp :: f2)) ->
  transforms (replace_element (length r1)) m (base w :: concat (f1 ++ fp :: f2)) (fun m' _ F' =>
    exists cells' y fp', F' = base w :: concat (f1 ++ fp' :: f2) /\
      array_at m' (base w) = Some cells' /\ length cells' = length cells /\
      seen cells' = r1 ++ y :: r2 /\
      Forall3 (reads m') r1 t1 f1 /\ reads m' y (h a) fp' /\ Forall3 (reads m') r2 t2 f2).
Proof.
  intros Hc Hs H1 Hr H2 Hnd.
  assert (length r1 < len w) as Hi.
  { apply (f_equal length) in Hs. unfold seen in Hs. rewrite length_take, length_app in Hs.
    cbn in Hs. lia. }
  unfold replace_element. apply (transforms_reading _ _ _ _ r).
  { eapply index_read; [exact Hc|]. unfold seen in Hs. rewrite Hs. by apply list_lookup_middle. }
  assert (forall fp, base w :: concat (f1 ++ fp :: f2) ≡ₚ fp ++ (base w :: concat f1 ++ concat f2)) as Hperm.
  { intros fp0. rewrite concat_app, <- Permutation_middle. constructor. apply Permutation_app_swap_app. }
  assert (NoDup (fp ++ (base w :: concat f1 ++ concat f2))) as Hnd' by by rewrite <- Hperm.
  destruct (Hg m r a fp Hr) as (m1 & y & fp' & Hgr & Hw & Hy); [by apply NoDup_app in Hnd' as [? _]|].
  destruct (within_frame m m1 fp fp' (base w :: concat f1 ++ concat f2) Hnd') as [Hw' Hk]; [|done|].
  { intros x [->|[Hx|Hx]%elem_of_app]%elem_of_cons; [by eapply array_at_alloc| |].
    - exact (all_read_alloc _ _ _ _ _ H1 Hx).
    - exact (all_read_alloc _ _ _ _ _ H2 Hx). }
  apply (within_perm _ _ _ (base w :: concat (f1 ++ fp :: f2)) _ (base w :: concat (f1 ++ fp' :: f2)))
    in Hw'; [|by rewrite Hperm..].
  assert (array_at m1 (base w) = Some cells) as Hc1.
  { unfold array_at. rewrite Hk by left. exact Hc. }
  pose proof Hw' as (Hnd1 & _ & _). rewrite Hperm in Hnd1.
  apply NoDup_app in Hnd1 as (_ & Hd & [Hb _]%NoDup_cons).
  assert (forall x, x ∈ fp' \/ x ∈ concat f1 \/ x ∈ concat f2 -> base w <> x) as Hne.
  { intros x Hx <-. destruct Hx as [Hx|[Hx|Hx]].
    - apply (Hd _ Hx). by left.
    - apply Hb, elem_of_app. by left.
    - apply Hb, elem_of_app. by right. }
  exists (<[base w := array_cell (<[offset w + length r1 := y]> cells)]> m1), tt,
    (base w :: concat (f1 ++ fp' :: f2)).
  split_and!.
  - unfold andAlso at 1. rewrite Hgr. unfold assign. rewrite bool_decide_eq_true_2 by done.
    unfold andAlso, load_array, store_array. rewrite Hc1. cbn. by rewrite Hc1.
  - eapply within_trans; [exact Hw'|]. split_and!; [apply Hw'|auto|].
    intros x Hx _. rewrite lookup_insert_ne; [done|]. intros <-. apply Hx. by left.
  - eexists _, y, fp'. split_and!; [done|apply array_at_insert|by rewrite length_insert| | | |].
    + rewrite seen_assign, Hs by done. by rewrite insert_app_r_alt, Nat.sub_diag by lia.
    + eapply all_read_local; [|exact H1]. intros x Hx. rewrite lookup_insert_ne by (apply Hne; auto).
      apply Hk. right. apply elem_of_app. by left.
    + eapply reads_local; [|exact Hy]. intros x Hx. by rewrite lookup_insert_ne by (apply Hne; auto).
    + eapply all_read_local; [|exact H2]. intros x Hx. rewrite lookup_insert_ne by (apply Hne; auto).
      apply Hk. right. apply elem_of_app. by right.
Qed.

Lemma each_transforms_from r2 : forall t2 f2 r1 t1 f1 m cells,
  array_at m (base w) = Some cells -> len w <= capacity w ->
  offset w + capacity w <= length cells -> seen cells = r1 ++ r2 ->
  Forall3 (reads m) r1 t1 f1 -> Forall3 (reads m) r2 t2 f2 -> NoDup (base w :: concat (f1 ++ f2)) ->
  transforms (each (seq (length r1) (length r2)) replace_element) m (base w :: concat (f1 ++ f2))
    (fun m' _ fp' => reads m' (Some w) (Some (t1 ++ (h <$> t2))) fp').
Proof.
  induction r2 as [|r r2 IH]; intros t2 f2 r1 t1 f1 m cells Hc Hlen Hcap Hs H1 H2 Hnd.
  - inversion H2; subst. rewrite !app_nil_r in *. apply transforms_ret; [done|]. exists cells, f1. rewrite <- Hs in H1. split_and!; done.
  - apply Forall3_cons_inv_l in H2 as (a & t2' & fp & f2' & -> & -> & Hr & H2). cbn [length seq each].
    eapply transforms_bind; [by eapply element_transforms|].
    intros m1 [] F1 [Hnd1 _] (cells' & y & fp' & -> & Hc' & Hl' & Hs' & H1' & Hy & H2').
    specialize (IH t2' f2' (r1 ++ [y]) (t1 ++ [h a]) (f1 ++ [fp']) m1 cells').
    rewrite length_app, Nat.add_1_r, <- !app_assoc in IH. apply IH; try done; [by rewrite Hl'|].
    apply Forall3_app; [done|]. by repeat constructor.
Qed.

Lemma each_transforms m fp l :
  reads m (Some w) (Some l) fp -> NoDup fp ->
  transforms (each (seq 0 (len w)) replace_element) m fp
    (fun m' _ fp' => reads m' (Some w) (Some (h <$> l)) fp').
Proof.
  intros (cells & fps & Hc & Hlen & Hcap & Hr & ->) Hnd.
  assert (len w = length (seen cells)) as ->
    by (unfold seen; rewrite length_take, length_drop; lia).
  by apply (each_transforms_from (seen cells) l fps [] [] [] m cells); [..|constructor| |].
Qed.
End elements.

(** *** A field that points to a struct, made when it is nil *)

Section field.
Context `{Reader cell R A, !Stored cell R, Reader cell X V, !Stored cell X}.
Context (get : R -> ptr (pointer X)) (put : R -> pointer X -> R).
Context (get' : A -> ptr V) (put' : A -> V -> A) (zero' : V).

(** A struct is read by reading the field and, at other addresses, the rest. *)
Hypothesis Hfield : forall m r a fp, reads m r a fp ->
  exists fp1 fp2, fp = fp1 ++ fp2 /\ reads m (get r) (get' a) fp1 /\
    forall m' x v fp1', (forall y, y ∈ fp2 -> m' !! y = m !! y) ->
      reads m' (Some x) (Some v) fp1' -> reads m' (put r x) (put' a v) (fp1' ++ fp2).
Hypothesis Hput : forall r x, get r = Some x -> put r x = r.
Hypothesis Hzero : forall m, reads m (zero_value : X) zero' [].

(** [if p.field == nil { p.field = &T{} }; p.field] *)
Definition field_of (p : pointer R) : action cell (pointer X) :=
  let& r := load p in
  match get r with
  | Some x => ret x
  | None => let& x := new in let& _ := store p (put r x) in ret x
  end.

Lemma load_read m (p : pointer R) r : array_at m (target p) = Some [r] -> load p m = Some (m, r).
Proof. intros Hp. unfold load, andAlso, load_array. by rewrite Hp. Qed.

Lemma field_of_transforms m p r a fp1 fp2 :
  array_at m (target p) = Some [r] -> reads m (get r) (get' a) fp1 ->
  (forall y, y ∈ fp2 -> is_Some (m !! y)) -> NoDup (target p :: fp1 ++ fp2) ->
  transforms (field_of p) m (target p :: fp1 ++ fp2) (fun m1 x F => exists fpx,
    F = target p :: fpx ++ fp2 /\ array_at m1 (target p) = Some [put r x] /\
    (forall y, y ∈ fp2 -> m1 !! y = m !! y) /\
    reads m1 (Some x) (Some (default zero' (get' a))) fpx).
Proof.
  intros Hp Hg Hal Hnd. unfold field_of. apply (transforms_reading _ _ _ _ r); [by apply load_read|].
  destruct (get r) as [x|] eqn:Hx, (get' a) as [v|]; try done.
  - apply transforms_ret; [done|]. exists fp1. by rewrite Hput.
  - cbn in Hg. subst fp1. cbn [app] in *.
    destruct (array_at_alloc m (target p) [r] Hp) as [cp Hcp].
    destruct (alloc_extends m (array_cell [zero_value : X])) as (Ha & Hb & Hm1).
    set (b := malloc m) in *. set (m1 := <[b := _]> m) in *.
    assert (target p <> b) as Hpb by congruence.
    assert (forall y, y ∈ fp2 -> y <> b) as Hfb by (intros y [c Hc]%Hal ->; congruence).
    apply NoDup_cons in Hnd as [Hpf Hnd].
    exists (<[target p := array_cell [put r (Pointer b)]]> m1), (Pointer b), (target p :: b :: fp2).
    split_and!.
    + unfold new, andAlso. rewrite Ha. cbn. unfold store, store_array.
      by rewrite (array_at_mono _ _ _ _ Hp Hm1).
    + split_and!.
      * constructor; [|constructor; [|done]].
        -- by intros [?|?]%elem_of_cons.
        -- intros Hbf. by apply (Hfb b Hbf).
      * intros y [->|[->|Hy]%elem_of_cons]%elem_of_cons; [left; left|by right|left; by right].
      * intros y Hy [c Hc]. rewrite lookup_insert_ne by (intros <-; apply Hy; left).
        unfold m1. rewrite lookup_insert_ne; [done|congruence].
    + exists [b]. split_and!; [done|apply array_at_insert| |].
      * intros y Hy. rewrite lookup_insert_ne by (by intros <-). unfold m1.
        rewrite lookup_insert_ne; [done|]. intros Hyb. by apply (Hfb y Hy).
      * exists zero_value, []. split_and!; [|apply Hzero|done]. unfold array_at, m1. cbn.
        rewrite lookup_insert_ne by done. rewrite lookup_insert_eq. apply array_of_cell.
Qed.

Lemma field_transforms {B} (k : pointer X -> action cell B) (b : B) (h : V -> V) :
  (forall m x v fp, reads m (Some x) (Some v) fp -> NoDup fp ->
     transforms (k x) m fp (fun m' r fp' => r = b /\ reads m' (Some x) (Some (h v)) fp')) ->
  forall m p a fp, reads m (Some p) (Some a) fp -> NoDup fp ->
    transforms (let& x := field_of p in k x) m fp (fun m' r fp' =>
      r = b /\ reads m' (Some p) (Some (put' a (h (default zero' (get' a))))) fp').
Proof.
  intros Hk m p a fp (r & fp0 & Hp & Hr & ->) Hnd.
  destruct (Hfield _ _ _ _ Hr) as (fp1 & fp2 & -> & Hg & Hclose).
  eapply transforms_bind.
  { apply (field_of_transforms m p r a); try done. intros y Hy.
    apply (reads_alloc _ _ _ _ _ Hr), elem_of_app. by right. }
  intros m1 x F (Hnd1 & Hi1 & Hk1) (fpx & -> & Hp1 & Hf2 & Hx).
  assert (forall l : list addr, target p :: l ++ fp2 ≡ₚ l ++ (target p :: fp2)) as Hperm.
  { intros l. apply Permutation_middle. }
  rewrite Hperm in Hnd1. pose proof (proj1 (proj1 (NoDup_app _ _) Hnd1)) as Hndx.
  destruct (Hk m1 x _ fpx Hx Hndx) as (m2 & b' & fpx' & Hkx & Hw & -> & Hx').
  destruct (within_frame m1 m2 fpx fpx' (target p :: fp2) Hnd1) as [Hw' Hkept]; [|done|].
  { intros y [->|Hy]%elem_of_cons; [exact (array_at_alloc _ _ _ Hp1)|]. rewrite Hf2 by done.
    apply (reads_alloc _ _ _ _ _ Hr), elem_of_app. by right. }
  exists m2, b, (target p :: fpx' ++ fp2). split_and!; [done| |done|].
  - eapply within_perm; [symmetry; apply Hperm..|exact Hw'].
  - exists (put r x), (fpx' ++ fp2). split_and!; [| |done].
    + unfold array_at. rewrite Hkept by left. exact Hp1.
    + apply Hclose; [|done]. intros y Hy. rewrite Hkept by (by right). auto.
Qed.
End field.
End updating.
