(* ===== verification/Json.v ===== *)
(** * encoding/json, encoding/base64 and the bytes of math/big

    What the source uses of three packages of the Go standard library: JSON
    values and how [json.Marshal] prints them, the base64 text of a byte slice,
    and the big-endian bytes of a big integer. *)

From S2P Require Export Prelude.
From Stdlib Require Export Ascii.

(** ** Bytes of big integers *)

(** A byte slice: numbers in [0, 256). *)
Definition bytes : Type := list Z.

(** [new(big.Int).SetBytes(b)]: the big-endian value of [b]. *)
Definition SetBytes (b : bytes) : Z := fold_left (fun n x => n * 256 + x) b 0.

(** [n.Bytes()], least significant byte last; the fuel counts bytes. *)
Fixpoint Bytes_go (fuel : nat) (n : Z) (acc : bytes) : bytes :=
  match fuel with
  | O => acc
  | S fuel => if n =? 0 then acc else Bytes_go fuel (n / 256) (n mod 256 :: acc)
  end.
Definition Bytes (n : Z) : bytes := Bytes_go (S (Z.to_nat (Z.log2 n))) n [].

Lemma SetBytes_app b1 b2 : SetBytes (b1 ++ b2) = SetBytes b1 * 256 ^ Z.of_nat (length b2) + SetBytes b2.
Proof.
  unfold SetBytes. rewrite fold_left_app. generalize (fold_left (fun n x => n * 256 + x) b1 0).
  induction b2 as [|x b2 IH] using rev_ind; intros n; cbn; [lia|].
  rewrite !fold_left_app, (IH n), length_app. cbn [fold_left length].
  rewrite Nat2Z.inj_add, Z.pow_add_r by lia. change (256 ^ Z.of_nat 1) with 256. ring.
Qed.

Lemma SetBytes_cons x b : SetBytes (x :: b) = x * 256 ^ Z.of_nat (length b) + SetBytes b.
Proof. change (x :: b) with ([x] ++ b). by rewrite SetBytes_app. Qed.

(** Each byte of fuel covers eight bits of the number. *)
Lemma Bytes_go_value fuel n acc :
  0 <= n < 256 ^ Z.of_nat fuel ->
  SetBytes (Bytes_go fuel n acc) = n * 256 ^ Z.of_nat (length acc) + SetBytes acc.
Proof.
  revert n acc. induction fuel as [|fuel IH]; intros n acc Hn; cbn [Bytes_go].
  - replace n with 0 by (cbn in Hn; lia). lia.
  - destruct (Z.eqb_spec n 0) as [->|Hne]; [lia|].
    rewrite IH.
    + rewrite SetBytes_cons. cbn [length]. rewrite Nat2Z.inj_succ, Z.pow_succ_r by lia.
      pose proof (Z.div_mod n 256 ltac:(lia)). nia.
    + rewrite Nat2Z.inj_succ, Z.pow_succ_r in Hn by lia. split; [apply Z.div_pos; lia|].
      apply Z.div_lt_upper_bound; lia.
Qed.

(** [SetBytes] reads back what [Bytes] writes. *)
Lemma SetBytes_Bytes n : 0 <= n -> SetBytes (Bytes n) = n.
Proof.
  intros Hn. unfold Bytes. rewrite Bytes_go_value; [cbn; lia|]. split; [done|].
  destruct (Z.eq_dec n 0) as [->|Hne]; [done|].
  eapply Z.lt_le_trans; [apply (Z.log2_spec n); lia|].
  rewrite Nat2Z.inj_succ, Z2Nat.id by apply Z.log2_nonneg.
  apply Z.pow_le_mono_l. lia.
Qed.

(** ** Base64 *)

#[local] Open Scope string_scope.

Definition base64_alphabet : string :=
  "ABCDEFGHIJKLMNOPQRSTUVWXYZabcdefghijklmnopqrstuvwxyz0123456789+/".
Definition base64_char (i : Z) : string :=
  match String.get (Z.to_nat i) base64_alphabet with
  | Some c => String c ""
  | None => ""
  end.

(** [base64.StdEncoding.EncodeToString] *)
Fixpoint base64 (b : bytes) : string :=
  match b with
  | [] => ""
  | [x] => base64_char (x / 4) ++ base64_char (x mod 4 * 16) ++ "=="
  | [x; y] =>
      base64_char (x / 4) ++ base64_char (x mod 4 * 16 + y / 16) ++
      base64_char (y mod 16 * 4) ++ "="
  | x :: y :: z :: b =>
      base64_char (x / 4) ++ base64_char (x mod 4 * 16 + y / 16) ++
      base64_char (y mod 16 * 4 + z / 64) ++ base64_char (z mod 64) ++ base64 b
  end.

(** The number a character of the alphabet stands for. *)
Fixpoint index_of (c : ascii) (s : string) : option Z :=
  match s with
  | EmptyString => None
  | String c' s => if bool_decide (c = c') then Some 0 else Z.succ <$> index_of c s
  end.
Definition base64_value (c : ascii) : option Z := index_of c base64_alphabet.

(** [base64.StdEncoding.DecodeString]: line ends are skipped, and the padding is
    required; the bits a padded quantum leaves over are not looked at. *)
Fixpoint decode_quanta (s : string) : option bytes :=
  match s with
  | EmptyString => Some []
  | String a (String b (String c (String d s))) =>
      i ← base64_value a; j ← base64_value b;
      match base64_value c, base64_value d with
      | Some k, Some l =>
          rest ← decode_quanta s;
          Some (i * 4 + j / 16 :: j mod 16 * 16 + k / 4 :: k mod 4 * 64 + l :: rest)
      | Some k, None =>
          if bool_decide (String d s = "=") then Some [i * 4 + j / 16; j mod 16 * 16 + k / 4]
          else None
      | None, _ =>
          if bool_decide (String c (String d s) = "==") then Some [i * 4 + j / 16] else None
      end
  | _ => None
  end.
Fixpoint skip_line_ends (s : string) : string :=
  match s with
  | EmptyString => ""
  | String c s =>
      if bool_decide (nat_of_ascii c = 10%nat) || bool_decide (nat_of_ascii c = 13%nat)
      then skip_line_ends s else String c (skip_line_ends s)
  end.
Definition base64_DecodeString (s : string) : result bytes :=
  match decode_quanta (skip_line_ends s) with
  | Some b => Ok b
  | None => Err (EOther "illegal base64 data")
  end.

(** What is encoded is decoded again. *)
Lemma base64_char_value i : 0 <= i < 64 ->
  exists c, base64_char i = String c "" /\ base64_value c = Some i /\
    skip_line_ends (String c "") = String c "".
Proof.
  intros Hi.
  pose (ok := fun i => match base64_char i with
    | String c EmptyString => bool_decide (base64_value c = Some i) &&
        String.eqb (skip_line_ends (String c "")) (String c "")
    | _ => false
    end).
  assert (forallb (fun n => ok (Z.of_nat n)) (seq 0 64) = true) as Hall by (by vm_compute).
  rewrite forallb_forall in Hall. specialize (Hall (Z.to_nat i)). rewrite in_seq, Z2Nat.id in Hall by lia.
  specialize (Hall ltac:(lia)). unfold ok in Hall. destruct (base64_char i) as [|c [|]]; try done.
  apply andb_true_iff in Hall as [H1%bool_decide_eq_true H2%String.eqb_eq]. eauto.
Qed.

Lemma skip_line_ends_app s1 s2 : skip_line_ends (s1 ++ s2) = skip_line_ends s1 ++ skip_line_ends s2.
Proof.
  induction s1 as [|c s1 IH]; [done|]. change (String c s1 ++ s2) with (String c (s1 ++ s2)).
  cbn [skip_line_ends]. rewrite IH. by destruct (_ || _).
Qed.

Lemma skip_line_ends_char c s :
  skip_line_ends (String c "") = String c "" -> skip_line_ends (String c s) = String c (skip_line_ends s).
Proof. cbn [skip_line_ends]. by destruct (_ || _). Qed.

Lemma base64_value_pad : base64_value "=" = None.
Proof. reflexivity. Qed.

Lemma string_app_char c s : String c "" ++ s = String c s.
Proof. done. Qed.

#[local] Arguments base64_value : simpl never.
#[local] Arguments skip_line_ends : simpl never.

(** The next character of an encoded text. *)
Ltac next_char i Hi :=
  let c := fresh "c" in let E := fresh "E" in let V := fresh "V" in let K := fresh "K" in
  destruct (base64_char_value i Hi) as (c & E & V & K); rewrite E; clear E.

Lemma decode_base64 (b : bytes) :
  Forall (fun x => 0 <= x < 256) b ->
  decode_quanta (base64 b) = Some b /\ skip_line_ends (base64 b) = base64 b.
Proof.
  induction b as [b IH] using (induction_ltof1 _ (@length Z)); intros Hb. unfold ltof in IH.
  assert (forall x, 0 <= x < 256 -> 0 <= x / 4 < 64 /\ 0 <= x mod 4 * 16 < 64 /\ 0 <= x mod 64 < 64 /\
    forall y, 0 <= y < 256 -> 0 <= x mod 4 * 16 + y / 16 < 64 /\ 0 <= x mod 16 * 4 < 64 /\
      0 <= x mod 16 * 4 + y / 64 < 64) as Hr.
  { intros x Hx. split_and!; try (intros y Hy; split_and!); Z.to_euclidean_division_equations; lia. }
  destruct b as [|x [|y [|z b]]]; [done|..];
    repeat (match goal with H : Forall _ (_ :: _) |- _ => apply Forall_cons in H as [? H] end);
    cbn [base64].
  - destruct (Hr x) as (A1 & A2 & _); [done|]. next_char (x / 4) A1. next_char (x mod 4 * 16) A2.
    rewrite !string_app_char. cbn [decode_quanta]. rewrite V, V0, base64_value_pad. cbn.
    rewrite !skip_line_ends_char by done. split; [|done]. do 2 f_equal.
    Z.to_euclidean_division_equations; lia.
  - destruct (Hr x) as (A1 & _ & _ & A2); [done|]. destruct (A2 y) as (A3 & _); [done|].
    destruct (Hr y) as (_ & _ & _ & A4); [done|]. destruct (A4 y) as (_ & A5 & _); [done|].
    next_char (x / 4) A1. next_char (x mod 4 * 16 + y / 16) A3. next_char (y mod 16 * 4) A5.
    rewrite !string_app_char. cbn [decode_quanta]. rewrite V, V0, V1, base64_value_pad. cbn.
    rewrite !skip_line_ends_char by done. split; [|done].
    repeat f_equal; Z.to_euclidean_division_equations; lia.
  - destruct (Hr x) as (A1 & _ & _ & A2); [done|]. destruct (A2 y) as (A3 & _); [done|].
    destruct (Hr y) as (_ & _ & _ & A4); [done|]. destruct (A4 z) as (_ & _ & A5); [done|].
    destruct (Hr z) as (_ & _ & A6 & _); [done|].
    next_char (x / 4) A1. next_char (x mod 4 * 16 + y / 16) A3.
    next_char (y mod 16 * 4 + z / 64) A5. next_char (z mod 64) A6.
    destruct (IH b) as [IH1 IH2]; [cbn; lia|done|].
    rewrite !string_app_char. cbn [decode_quanta]. rewrite V, V0, V1, V2, IH1. cbn.
    rewrite !skip_line_ends_char, IH2 by done. split; [|done].
    repeat f_equal; Z.to_euclidean_division_equations; lia.
Qed.

Lemma base64_roundtrip (b : bytes) :
  Forall (fun x => 0 <= x < 256) b -> base64_DecodeString (base64 b) = Ok b.
Proof.
  intros [H1 H2]%decode_base64. unfold base64_DecodeString. by rewrite H2, H1.
Qed.

(** ** JSON *)

(** A number keeps its literal text. *)
Inductive json : Type :=
| JNull
| JBool (b : bool)
| JNumber (literal : string)
| JString (s : string)
| JArray (l : list json)
| JObject (l : list (string * json)).

Definition hex_digit (n : nat) : string :=
  match String.get n "0123456789abcdef" with Some c => String c "" | None => "" end.

(** A character inside a string: the encoder escapes quotes, backslashes,
    control characters and, as it does by default, the HTML characters.  Bytes
    above 127 are copied: the text is taken to be valid UTF-8 without the line
    separators U+2028 and U+2029, which Go would escape. *)
Definition json_escape (c : ascii) : string :=
  let n := nat_of_ascii c in
  if bool_decide (n = 34)%nat then String "\" (String c "")
  else if bool_decide (n = 92)%nat then String "\" (String c "")
  else if bool_decide (n = 10)%nat then "\n"
  else if bool_decide (n = 13)%nat then "\r"
  else if bool_decide (n = 9)%nat then "\t"
  else if bool_decide (n < 32)%nat || bool_decide (n = 60)%nat || bool_decide (n = 62)%nat
          || bool_decide (n = 38)%nat
  then "\u00" ++ hex_digit (n / 16) ++ hex_digit (n mod 16)
  else String c "".

Fixpoint json_escape_all (s : string) : string :=
  match s with
  | EmptyString => ""
  | String c s => json_escape c ++ json_escape_all s
  end.

Definition quote : string := String (ascii_of_nat 34) "".
Definition print_string (s : string) : string := quote ++ json_escape_all s ++ quote.

(** [strings.Join] *)
Fixpoint join (sep : string) (l : list string) : string :=
  match l with
  | [] => ""
  | [x] => x
  | x :: l => x ++ sep ++ join sep l
  end.

(** The compact text [json.Marshal] writes. *)
Fixpoint print_json (j : json) : string :=
  match j with
  | JNull => "null"
  | JBool b => if b then "true" else "false"
  | JNumber s => s
  | JString s => print_string s
  | JArray l => "[" ++ join "," (map print_json l) ++ "]"
  | JObject l =>
      "{" ++ join "," (map (fun kv => print_string kv.1 ++ ":" ++ print_json kv.2) l) ++ "}"
  end.

(** The struct tags' [omitempty]: a field with a zero value is left out. *)
Definition omitempty_string (k v : string) : list (string * json) :=
  if bool_decide (v = "") then [] else [(k, JString v)].
Definition omitempty_int (k : string) (v : Z) : list (string * json) :=
  if bool_decide (v = 0) then [] else [(k, JNumber (pretty v))].
Definition omitempty_bool (k : string) (v : bool) : list (string * json) :=
  if v then [(k, JBool true)] else [].
(** A byte slice is a base64 string, a nil one [null]. *)
Definition json_bytes (b : slice Z) : json :=
  match b with None => JNull | Some b => JString (base64 b) end.
