(* ===== verification/Unmarshal.v ===== *)
(** * encoding/json, reading

    How [json.Unmarshal] reads a text: the scanner's grammar, the escapes of
    strings, and the rules by which a value is stored in strings, numbers,
    booleans, byte slices and structs.  The text is taken to be valid UTF-8, and
    to be nested less than 10000 deep, beyond which Go gives up. *)

From S2P Require Export Json Text.
#[local] Open Scope string_scope.

(** ** The grammar *)

Definition is_ws (c : ascii) : bool :=
  bool_decide (nat_of_ascii c = 32)%nat || bool_decide (nat_of_ascii c = 9)%nat ||
  bool_decide (nat_of_ascii c = 10)%nat || bool_decide (nat_of_ascii c = 13)%nat.
Fixpoint skip_ws (s : string) : string :=
  match s with
  | EmptyString => ""
  | String c s' => if is_ws c then skip_ws s' else s
  end.

Fixpoint strip (prefix s : string) : option string :=
  match prefix, s with
  | EmptyString, _ => Some s
  | String c prefix, String c' s => if bool_decide (c = c') then strip prefix s else None
  | String _ _, EmptyString => None
  end.

(** Numbers: the literal and what is left. *)
Fixpoint digits (s : string) : string * string :=
  match s with
  | EmptyString => ("", "")
  | String c s' => if is_digit c then let '(d, t) := digits s' in (String c d, t) else ("", s)
  end.
Definition some_digits (s : string) : option (string * string) :=
  let '(d, t) := digits s in if bool_decide (d = "") then None else Some (d, t).
Definition optional_sign (chars : list ascii) (s : string) : string * string :=
  match s with
  | String c s' => if bool_decide (c ∈ chars) then (String c "", s') else ("", s)
  | EmptyString => ("", "")
  end.
Definition integer_part (s : string) : option (string * string) :=
  match s with
  | String c s' => if bool_decide (c = "0"%char) then Some ("0", s') else some_digits s
  | EmptyString => None
  end.
Definition fraction_part (s : string) : option (string * string) :=
  match s with
  | String c s' =>
      if bool_decide (c = "."%char) then '(d, t) ← some_digits s'; Some (String c d, t) else Some ("", s)
  | EmptyString => Some ("", "")
  end.
Definition exponent_part (s : string) : option (string * string) :=
  match s with
  | String c s' =>
      if bool_decide (c ∈ ["e"%char; "E"%char]) then
        let '(sign, s') := optional_sign ["+"%char; "-"%char] s' in
        '(d, t) ← some_digits s'; Some (String c (sign ++ d), t)
      else Some ("", s)
  | EmptyString => Some ("", "")
  end.
Definition number (s : string) : option (string * string) :=
  let '(sign, s) := optional_sign ["-"%char] s in
  '(i, s) ← integer_part s;
  '(f, s) ← fraction_part s;
  '(e, s) ← exponent_part s;
  Some (sign ++ i ++ f ++ e, s).

(** ** Strings *)

Definition hex_value (c : ascii) : option Z :=
  let n := Z.of_nat (nat_of_ascii c) in
  if bool_decide (48 <= n <= 57) then Some (n - 48)
  else if bool_decide (97 <= n <= 102) then Some (n - 87)
  else if bool_decide (65 <= n <= 70) then Some (n - 55)
  else None.
(** [getu4], of the digits. *)
Definition getu4 (a b c d : ascii) : option Z :=
  a ← hex_value a; b ← hex_value b; c ← hex_value c; d ← hex_value d;
  Some (((a * 16 + b) * 16 + c) * 16 + d).

(** [utf8.EncodeRune] *)
Definition byte (n : Z) : string := String (ascii_of_nat (Z.to_nat n)) "".
Definition EncodeRune (r : Z) : string :=
  if (r <? 128)%Z then byte r
  else if (r <? 2048)%Z then byte (192 + r / 64) ++ byte (128 + r mod 64)
  else if (r <? 65536)%Z then byte (224 + r / 4096) ++ byte (128 + r / 64 mod 64) ++ byte (128 + r mod 64)
  else byte (240 + r / 262144) ++ byte (128 + r / 4096 mod 64) ++ byte (128 + r / 64 mod 64) ++
       byte (128 + r mod 64).

(** [utf16.IsSurrogate] and [utf16.DecodeRune] *)
Definition ReplacementChar : Z := 65533.
Definition IsSurrogate (r : Z) : bool := bool_decide (55296 <= r < 57344).
Definition DecodeRune (r1 r2 : Z) : Z :=
  if bool_decide (55296 <= r1 < 56320) && bool_decide (56320 <= r2 < 57344)
  then (r1 - 55296) * 1024 + (r2 - 56320) + 65536 else ReplacementChar.

(** The character a backslash and a letter stand for. *)
Definition escaped (c : ascii) : option string :=
  if bool_decide (nat_of_ascii c = 34)%nat || bool_decide (nat_of_ascii c = 92)%nat ||
     bool_decide (nat_of_ascii c = 47)%nat then Some (String c "")
  else if bool_decide (c = "b"%char) then Some (byte 8)
  else if bool_decide (c = "f"%char) then Some (byte 12)
  else if bool_decide (c = "n"%char) then Some (byte 10)
  else if bool_decide (c = "r"%char) then Some (byte 13)
  else if bool_decide (c = "t"%char) then Some (byte 9)
  else None.

Definition prepend (s : string) (o : option (string * string)) : option (string * string) :=
  '(u, rest) ← o; Some (s ++ u, rest).

(** A string, from behind its first quote on; a surrogate without its half is
    replaced. *)
Fixpoint unquote (s : string) : option (string * string) :=
  match s with
  | EmptyString => None
  | String c s =>
      if bool_decide (nat_of_ascii c = 34)%nat then Some ("", s)
      else if bool_decide (nat_of_ascii c = 92)%nat then
        match s with
        | String c s =>
            if bool_decide (c = "u"%char) then
              match s with
              | String a (String b (String c (String d s))) =>
                  r ← getu4 a b c d;
                  if IsSurrogate r then
                    match s with
                    | String x (String y (String a (String b (String c (String d s'))))) =>
                        match getu4 a b c d with
                        | Some r' =>
                            if bool_decide (nat_of_ascii x = 92)%nat && bool_decide (y = "u"%char) &&
                               negb (bool_decide (DecodeRune r r' = ReplacementChar))
                            then prepend (EncodeRune (DecodeRune r r')) (unquote s')
                            else prepend (EncodeRune ReplacementChar) (unquote s)
                        | None => prepend (EncodeRune ReplacementChar) (unquote s)
                        end
                    | _ => prepend (EncodeRune ReplacementChar) (unquote s)
                    end
                  else prepend (EncodeRune r) (unquote s)
              | _ => None
              end
            else u ← escaped c; prepend u (unquote s)
        | EmptyString => None
        end
      else if bool_decide (nat_of_ascii c < 32)%nat then None
      else prepend (String c "") (unquote s)
  end.

(** ** Values *)

(** A value, the elements of an array and the members of an object, from their
    first one on; the fuel is spent on every call. *)
Fixpoint parse_value (fuel : nat) (s : string) : option (json * string) :=
  match fuel with
  | O => None
  | S fuel =>
      match skip_ws s with
      | EmptyString => None
      | String c s =>
          if bool_decide (nat_of_ascii c = 34)%nat then '(u, s) ← unquote s; Some (JString u, s)
          else if bool_decide (c = "["%char) then
            match strip "]" (skip_ws s) with
            | Some s => Some (JArray [], s)
            | None => '(l, s) ← parse_elements fuel s; Some (JArray l, s)
            end
          else if bool_decide (c = "{"%char) then
            match strip "}" (skip_ws s) with
            | Some s => Some (JObject [], s)
            | None => '(l, s) ← parse_members fuel s; Some (JObject l, s)
            end
          else if bool_decide (c = "n"%char) then s ← strip "ull" s; Some (JNull, s)
          else if bool_decide (c = "t"%char) then s ← strip "rue" s; Some (JBool true, s)
          else if bool_decide (c = "f"%char) then s ← strip "alse" s; Some (JBool false, s)
          else '(n, s) ← number (String c s); Some (JNumber n, s)
      end
  end
with parse_elements (fuel : nat) (s : string) : option (list json * string) :=
  match fuel with
  | O => None
  | S fuel =>
      '(j, s) ← parse_value fuel s;
      let s := skip_ws s in
      match strip "," s with
      | Some s => '(l, s) ← parse_elements fuel s; Some (j :: l, s)
      | None => s ← strip "]" s; Some ([j], s)
      end
  end
with parse_members (fuel : nat) (s : string) : option (list (string * json) * string) :=
  match fuel with
  | O => None
  | S fuel =>
      s ← strip quote (skip_ws s);
      '(k, s) ← unquote s;
      s ← strip ":" (skip_ws s);
      '(j, s) ← parse_value fuel s;
      let s := skip_ws s in
      match strip "," s with
      | Some s => '(l, s) ← parse_members fuel s; Some ((k, j) :: l, s)
      | None => s ← strip "}" s; Some ([(k, j)], s)
      end
  end.

(** A whole text: one value and white space around it. *)
Definition parse_json (s : string) : option json :=
  '(j, rest) ← parse_value (2 * String.length s + 1) s;
  if bool_decide (skip_ws rest = "") then Some j else None.

(** ** The fuel is enough *)

Lemma string_length_app (s t : string) : String.length (s ++ t) = (String.length s + String.length t)%nat.
Proof. induction s as [|c s IH]; [done|]. rewrite string_cons_app. cbn. by rewrite IH. Qed.

Lemma skip_ws_length s : (String.length (skip_ws s) <= String.length s)%nat.
Proof. induction s as [|c s IH]; cbn; [done|]. destruct (is_ws c); cbn; lia. Qed.

Lemma strip_app prefix s t : strip prefix s = Some t -> s = prefix ++ t.
Proof.
  revert s. induction prefix as [|c prefix IH]; intros s; [by intros [= ->]|].
  destruct s as [|c' s]; cbn; [done|]. case_bool_decide; [|done]. subst c'. by intros ->%IH.
Qed.
Lemma strip_length prefix s t :
  strip prefix s = Some t -> String.length s = (String.length prefix + String.length t)%nat.
Proof. intros ->%strip_app. apply string_length_app. Qed.

Lemma digits_app s d t : digits s = (d, t) -> s = d ++ t.
Proof.
  revert d t. induction s as [|c s IH]; intros d t; cbn; [by intros [= <- <-]|].
  destruct (is_digit c); [|by intros [= <- <-]]. destruct (digits s) as [d' t'].
  intros [= <- <-]. rewrite string_cons_app. by rewrite <- (IH d' t').
Qed.
Lemma some_digits_app s d t : some_digits s = Some (d, t) -> s = d ++ t /\ d <> "".
Proof.
  unfold some_digits. destruct (digits s) as [d' t'] eqn:Hd. case_bool_decide; [done|].
  intros [= <- <-]. split; [by apply digits_app|done].
Qed.
Lemma optional_sign_app chars s sign t : optional_sign chars s = (sign, t) -> s = sign ++ t.
Proof.
  destruct s as [|c s]; cbn; [by intros [= <- <-]|]. case_bool_decide; by intros [= <- <-].
Qed.

(** Destruct the steps of a parser that has succeeded. *)
Ltac parsed H :=
  repeat match type of H with
  | mbind _ ?o = Some _ => let E := fresh "E" in destruct o eqn:E; cbn [mbind option_bind] in H; [|discriminate H]
  | (let '(_, _) := ?p in _) = Some _ => let E := fresh "E" in destruct p eqn:E
  | match ?o with _ => _ end = Some _ => let E := fresh "E" in destruct o eqn:E; try discriminate H
  end.

Lemma integer_part_app s i t : integer_part s = Some (i, t) -> s = i ++ t /\ i <> "".
Proof.
  destruct s as [|c s]; cbn [integer_part]; [done|]. case_bool_decide; [|apply some_digits_app].
  subst c. by intros [= <- <-].
Qed.
Lemma fraction_part_app s f t : fraction_part s = Some (f, t) -> s = f ++ t.
Proof.
  destruct s as [|c s]; cbn [fraction_part]; [by intros [= <- <-]|].
  case_bool_decide as Hc; [|by intros [= <- <-]].
  intros H. parsed H. apply some_digits_app in E as [-> _]. by injection H as <- <-.
Qed.
Lemma exponent_part_app s e t : exponent_part s = Some (e, t) -> s = e ++ t.
Proof.
  destruct s as [|c s]; cbn [exponent_part]; [by intros [= <- <-]|].
  case_bool_decide as Hc; [|by intros [= <- <-]].
  intros H. parsed H. apply optional_sign_app in E as ->. apply some_digits_app in E0 as [-> _].
  injection H as <- <-. by rewrite string_cons_app, string_app_assoc.
Qed.
Lemma number_app s n t : number s = Some (n, t) -> s = n ++ t /\ n <> "".
Proof.
  unfold number. intros H. parsed H. injection H as <- <-.
  apply optional_sign_app in E as ->. apply integer_part_app in E0 as [-> Hi].
  apply fraction_part_app in E2 as ->. apply exponent_part_app in E4 as ->.
  rewrite !string_app_assoc. split; [done|]. intros H. destruct Hi.
  by destruct s0, s2.
Qed.

Lemma prepend_some u o v rest : prepend u o = Some (v, rest) -> exists w, o = Some (w, rest).
Proof. destruct o as [[w r]|]; cbn; [|done]. intros [= <- <-]. by exists w. Qed.

Lemma unquote_length s u rest : unquote s = Some (u, rest) -> (String.length rest < String.length s)%nat.
Proof.
  remember (String.length s) as n eqn:Hn. revert s u rest Hn.
  induction n as [n IH] using lt_wf_ind. intros s u rest ->.
  assert (forall v t w, (String.length t < String.length s)%nat ->
    prepend v (unquote t) = Some (w, rest) -> (String.length rest < String.length s)%nat) as Hnext.
  { intros v t w Ht (w' & H)%prepend_some. specialize (IH _ Ht t w' rest eq_refl H). lia. }
  destruct s as [|c s]; cbn [unquote]; [done|].
  case_bool_decide; [intros [= <- <-]; cbn; lia|].
  case_bool_decide; [|case_bool_decide; [done|apply Hnext; cbn; lia]].
  destruct s as [|e s]; [done|]. case_bool_decide.
  - destruct s as [|a [|b [|c' [|d s]]]]; try done.
    destruct (getu4 a b c' d) as [r|]; cbn [mbind option_bind]; [|done].
    destruct (IsSurrogate r); [|apply Hnext; cbn; lia].
    destruct s as [|x [|y [|a' [|b' [|c'' [|d' s]]]]]]; try (apply Hnext; cbn; lia).
    destruct (getu4 a' b' c'' d'); [|apply Hnext; cbn; lia].
    destruct (_ && _ && _); apply Hnext; cbn; lia.
  - destruct (escaped e); cbn [mbind option_bind]; [|done]. apply Hnext. cbn. lia.
Qed.

#[local] Arguments strip : simpl never.

(** Every parser consumes something. *)
Lemma parse_shorter fuel :
  (forall s j r, parse_value fuel s = Some (j, r) -> (String.length r < String.length s)%nat) /\
  (forall s l r, parse_elements fuel s = Some (l, r) -> (String.length r < String.length s)%nat) /\
  (forall s l r, parse_members fuel s = Some (l, r) -> (String.length r < String.length s)%nat).
Proof.
  induction fuel as [|fuel (IHv & IHe & IHm)]; [done|]. split_and!; intros s j r H; cbn in H.
  - pose proof (skip_ws_length s) as Hw. destruct (skip_ws s) as [|c s1]; [done|]. cbn in Hw.
    repeat case_bool_decide.
    + parsed H. injection H as <- <-. apply unquote_length in E. lia.
    + pose proof (skip_ws_length s1) as Hw1. parsed H.
      * injection H as <- <-. apply strip_length in E. cbn in E. lia.
      * injection H as <- <-. apply IHe in E0. lia.
    + pose proof (skip_ws_length s1) as Hw1. parsed H.
      * injection H as <- <-. apply strip_length in E. cbn in E. lia.
      * injection H as <- <-. apply IHm in E0. lia.
    + parsed H. injection H as <- <-. apply strip_length in E. cbn in E. lia.
    + parsed H. injection H as <- <-. apply strip_length in E. cbn in E. lia.
    + parsed H. injection H as <- <-. apply strip_length in E. cbn in E. lia.
    + parsed H. injection H as <- <-. apply number_app in E as [E Hn].
      destruct s0 as [|c' s0]; [done|]. rewrite string_cons_app in E. injection E as _ ->.
      rewrite string_length_app in Hw. lia.
  - destruct (parse_value fuel s) as [[j1 r1]|] eqn:E1; cbn in H; [|done]. apply IHv in E1.
    pose proof (skip_ws_length r1). destruct (strip "," (skip_ws r1)) as [t|] eqn:E2.
    + apply strip_length in E2. cbn in E2. parsed H. injection H as <- <-. apply IHe in E. lia.
    + parsed H. injection H as <- <-. apply strip_length in E. cbn in E. lia.
  - pose proof (skip_ws_length s). destruct (strip quote (skip_ws s)) as [t|] eqn:E1; cbn in H; [|done].
    apply strip_length in E1. destruct (unquote t) as [[k t1]|] eqn:E2; cbn in H; [|done].
    apply unquote_length in E2. pose proof (skip_ws_length t1).
    destruct (strip ":" (skip_ws t1)) as [t2|] eqn:E3; cbn in H; [|done]. apply strip_length in E3.
    destruct (parse_value fuel t2) as [[j1 r1]|] eqn:E4; cbn in H; [|done]. apply IHv in E4.
    pose proof (skip_ws_length r1). destruct (strip "," (skip_ws r1)) as [t3|] eqn:E5.
    + apply strip_length in E5. cbn in *. parsed H. injection H as <- <-. apply IHm in E. lia.
    + parsed H. injection H as <- <-. apply strip_length in E. cbn in *. lia.
Qed.

(** More fuel changes nothing. *)
Lemma parse_fuel n m :
  (forall s, 2 * String.length s + 1 <= n -> 2 * String.length s + 1 <= m ->
     parse_value n s = parse_value m s)%nat /\
  (forall s, 2 * String.length s + 2 <= n -> 2 * String.length s + 2 <= m ->
     parse_elements n s = parse_elements m s)%nat /\
  (forall s, 2 * String.length s + 2 <= n -> 2 * String.length s + 2 <= m ->
     parse_members n s = parse_members m s)%nat.
Proof.
  revert m. induction n as [|n IH]; intros m; [split_and!; intros; lia|].
  destruct m as [|m]; [split_and!; intros; lia|]. destruct (IH m) as (IHv & IHe & IHm).
  split_and!; intros s Hn Hm; cbn.
  - pose proof (skip_ws_length s) as Hw. destruct (skip_ws s) as [|c s1]; [done|]. cbn in Hw.
    rewrite IHe, IHm by lia. done.
  - rewrite (IHv s) by lia. destruct (parse_value m s) as [[j r]|] eqn:E; cbn; [|done].
    apply parse_shorter in E. pose proof (skip_ws_length r).
    destruct (strip "," (skip_ws r)) as [t|] eqn:E2; [|done]. apply strip_length in E2.
    cbn in E2. by rewrite IHe by lia.
  - pose proof (skip_ws_length s). destruct (strip quote (skip_ws s)) as [t|] eqn:E1; cbn; [|done].
    apply strip_length in E1. destruct (unquote t) as [[k t1]|] eqn:E2; cbn; [|done].
    apply unquote_length in E2. pose proof (skip_ws_length t1).
    destruct (strip ":" (skip_ws t1)) as [t2|] eqn:E3; cbn; [|done]. apply strip_length in E3.
    cbn in E1, E3. rewrite (IHv t2) by lia.
    destruct (parse_value m t2) as [[j r]|] eqn:E; cbn; [|done]. apply parse_shorter in E.
    pose proof (skip_ws_length r). destruct (strip "," (skip_ws r)) as [t3|] eqn:E5; [|done].
    apply strip_length in E5. cbn in E5. by rewrite IHm by lia.
Qed.

(** ** Reading back what is printed *)

(** The literals and the values that are printed as JSON. *)
Definition literal (n : string) : Prop := number n = Some (n, "").
Inductive wf_json : json -> Prop :=
| wf_null : wf_json JNull
| wf_bool b : wf_json (JBool b)
| wf_number n : literal n -> wf_json (JNumber n)
| wf_string s : wf_json (JString s)
| wf_array l : Forall wf_json l -> wf_json (JArray l)
| wf_object l : Forall (fun kv => wf_json kv.2) l -> wf_json (JObject l).

Section json_children.
Variable P : json -> Prop.
Hypotheses (Hnull : P JNull) (Hbool : forall b, P (JBool b)) (Hnumber : forall n, P (JNumber n))
  (Hstring : forall s, P (JString s)) (Harray : forall l, Forall P l -> P (JArray l))
  (Hobject : forall l, Forall (fun kv => P kv.2) l -> P (JObject l)).
Fixpoint json_children (j : json) : P j :=
  match j with
  | JNull => Hnull
  | JBool b => Hbool b
  | JNumber n => Hnumber n
  | JString s => Hstring s
  | JArray l => Harray l ((fix go l : Forall P l :=
      match l with
      | [] => Forall_nil_2 _
      | x :: l => Forall_cons_2 _ _ _ (json_children x) (go l)
      end) l)
  | JObject l => Hobject l ((fix go l : Forall (fun kv => P kv.2) l :=
      match l with
      | [] => Forall_nil_2 _
      | (k, x) :: l => Forall_cons_2 _ (k, x) _ (json_children x) (go l)
      end) l)
  end.
End json_children.

(** What may come behind a value. *)
Definition closes (rest : string) : Prop :=
  match rest with
  | EmptyString => True
  | String c _ => c = ","%char \/ c = "]"%char \/ c = "}"%char
  end.

Ltac closing rest Hr := destruct rest as [|? rest]; [|destruct Hr as [->|[->| ->]]].

Lemma digits_closes s d t rest : closes rest -> digits s = (d, t) -> digits (s ++ rest) = (d, t ++ rest).
Proof.
  intros Hr. revert d t. induction s as [|c s IH]; intros d t; cbn.
  - intros [= <- <-]. by closing rest Hr.
  - rewrite string_cons_app. cbn [digits]. destruct (is_digit c); [|by intros [= <- <-]].
    destruct (digits s) as [d' t']. rewrite (IH d' t') by done. by intros [= <- <-].
Qed.
Lemma some_digits_closes s d t rest :
  closes rest -> some_digits s = Some (d, t) -> some_digits (s ++ rest) = Some (d, t ++ rest).
Proof.
  intros Hr. unfold some_digits. destruct (digits s) as [d' t'] eqn:Hd.
  rewrite (digits_closes _ _ _ _ Hr Hd). case_bool_decide; [done|]. by intros [= <- <-].
Qed.
Lemma optional_sign_closes chars s sign t rest :
  s <> "" -> optional_sign chars s = (sign, t) -> optional_sign chars (s ++ rest) = (sign, t ++ rest).
Proof.
  destruct s as [|c s]; [done|]. intros _. rewrite string_cons_app. cbn [optional_sign].
  case_bool_decide; by intros [= <- <-].
Qed.

Lemma number_closes n rest : closes rest -> literal n -> number (n ++ rest) = Some (n, rest).
Proof.
  intros Hr. unfold literal, number. destruct (optional_sign ["-"%char] n) as [sign s1] eqn:Hs.
  assert (n <> "" \/ n = "") as [Hn| ->] by (destruct n; auto); [|cbn in Hs; by injection Hs as <- <-].
  rewrite (optional_sign_closes _ _ _ _ rest Hn Hs). clear Hn.
  assert (forall i s2, integer_part s1 = Some (i, s2) -> integer_part (s1 ++ rest) = Some (i, s2 ++ rest)) as Hi.
  { intros i s2. destruct s1 as [|c s1]; [done|]. rewrite string_cons_app. cbn [integer_part].
    case_bool_decide; [by intros [= <- <-]|]. intros H2. by apply (some_digits_closes _ _ _ rest Hr) in H2. }
  destruct (integer_part s1) as [[i s2]|]; [|done]. rewrite (Hi _ _ eq_refl). cbn [mbind option_bind].
  assert (forall f s3, fraction_part s2 = Some (f, s3) -> fraction_part (s2 ++ rest) = Some (f, s3 ++ rest)) as Hf.
  { intros f s3. destruct s2 as [|c s2].
    - intros [= <- <-]. by closing rest Hr.
    - rewrite string_cons_app. cbn [fraction_part]. case_bool_decide; [|by intros [= <- <-]].
      destruct (some_digits s2) as [[d t]|] eqn:Hd; [|done]. rewrite (some_digits_closes _ _ _ _ Hr Hd).
      by intros [= <- <-]. }
  destruct (fraction_part s2) as [[f s3]|]; [|done]. rewrite (Hf _ _ eq_refl). cbn [mbind option_bind].
  assert (forall e s4, exponent_part s3 = Some (e, s4) -> exponent_part (s3 ++ rest) = Some (e, s4 ++ rest)) as He.
  { intros e s4. destruct s3 as [|c s3].
    - intros [= <- <-]. by closing rest Hr.
    - rewrite string_cons_app. cbn [exponent_part]. case_bool_decide; [|by intros [= <- <-]].
      destruct (optional_sign _ s3) as [sign' s3'] eqn:Hs'.
      assert (s3 <> "" \/ s3 = "") as [Hn| ->] by (destruct s3; auto); [|cbn in Hs'; by injection Hs' as <- <-].
      rewrite (optional_sign_closes _ _ _ _ rest Hn Hs').
      destruct (some_digits s3') as [[d t]|] eqn:Hd; [|done]. rewrite (some_digits_closes _ _ _ _ Hr Hd).
      by intros [= <- <-]. }
  destruct (exponent_part s3) as [[e s4]|]; [|done]. rewrite (He _ _ eq_refl). cbn [mbind option_bind].
  by intros [= -> ->].
Qed.

(** The first character tells a number from the other values. *)
Lemma literal_first n : literal n -> exists c t, n = String c t /\ (c = "-"%char \/ is_digit c = true).
Proof.
  destruct n as [|c n]; [by intros [=]|]. intros H. exists c, n. split; [done|].
  unfold literal, number in H. cbn [optional_sign] in H. case_bool_decide as Hc.
  - left. by apply list_elem_of_singleton in Hc.
  - right. cbn [integer_part] in H. case_bool_decide; [by subst c|].
    unfold some_digits in H. cbn [digits] in H. by destruct (is_digit c).
Qed.

Lemma strip_prefix prefix s : strip prefix (prefix ++ s) = Some s.
Proof.
  induction prefix as [|c prefix IH]; [done|]. rewrite string_cons_app. cbn. unfold strip. fold strip.
  by rewrite bool_decide_eq_true_2.
Qed.

Lemma unquote_escape c t : unquote (json_escape c ++ t) = prepend (String c "") (unquote t).
Proof. by destruct c as [[] [] [] [] [] [] [] []]. Qed.

Lemma unquote_escaped s rest : unquote (json_escape_all s ++ quote ++ rest) = Some (s, rest).
Proof.
  induction s as [|c s IH]; [done|]. cbn [json_escape_all]. rewrite string_app_assoc, unquote_escape, IH.
  done.
Qed.

(** The first character of a printed value is not one of those. *)
Definition begins (s : string) : Prop :=
  match s with
  | EmptyString => False
  | String c _ => is_ws c = false /\ c <> "]"%char /\ c <> "}"%char
  end.
Lemma print_begins j : wf_json j -> begins (print_json j).
Proof.
  intros Hj. destruct Hj as [|b|n Hn|s|l Hl|l Hl]; cbn; try done; [by destruct b|].
  apply literal_first in Hn as (c & t & -> & H).
  destruct H as [->|H]; [done|]. cbn. revert H. by destruct c as [[] [] [] [] [] [] [] []].
Qed.
Lemma begins_app s t : begins s -> begins (s ++ t).
Proof. by destruct s. Qed.
Lemma begins_skip s : begins s -> skip_ws s = s.
Proof. destruct s as [|c s]; [done|]. intros (H & _). cbn. by rewrite H. Qed.
Lemma begins_strip s c : begins s -> c = "]"%char \/ c = "}"%char -> strip (String c "") s = None.
Proof.
  destruct s as [|c' s]; [done|]. intros (_ & H1 & H2) Hc. unfold strip.
  rewrite bool_decide_eq_false_2; [done|]. intros <-. by destruct Hc.
Qed.

Lemma closes_comma t : closes ("," ++ t).
Proof. by left. Qed.
Lemma closes_bracket t : closes ("]" ++ t).
Proof. by right; left. Qed.
Lemma closes_brace t : closes ("}" ++ t).
Proof. by right; right. Qed.
#[local] Hint Resolve closes_comma closes_bracket closes_brace : core.

(** With enough fuel, whatever follows. *)
Definition parses (j : json) : Prop :=
  exists n0, forall n rest, (n0 <= n)%nat -> closes rest -> parse_value n (print_json j ++ rest) = Some (j, rest).

Lemma join_cons sep x y l : join sep (x :: y :: l) = x ++ sep ++ join sep (y :: l).
Proof. done. Qed.

Lemma parses_elements l : l <> [] -> Forall parses l ->
  exists n0, forall n rest, (n0 <= n)%nat ->
    parse_elements n (join "," (map print_json l) ++ "]" ++ rest) = Some (l, rest).
Proof.
  induction l as [|j l IH]; [done|]. intros _ [[n1 H1] Hl]%Forall_cons.
  destruct l as [|j' l].
  - exists (S n1). intros [|n] rest Hn; [lia|]. cbn [map join parse_elements].
    rewrite H1 by (auto; lia). cbn [mbind option_bind].
    change (skip_ws ("]" ++ rest)) with ("]" ++ rest). by rewrite strip_prefix.
  - destruct IH as [n2 H2]; [done|done|]. exists (S (n1 `max` n2)). intros [|n] rest Hn; [lia|].
    cbn [map parse_elements]. rewrite join_cons, !string_app_assoc.
    rewrite H1 by (auto; lia). cbn [mbind option_bind].
    change (skip_ws ("," ++ ?s)) with ("," ++ s). rewrite strip_prefix.
    cbn [map] in H2. by rewrite H2 by lia.
Qed.

Definition print_member (kv : string * json) : string := print_string kv.1 ++ ":" ++ print_json kv.2.
Lemma parses_members l : l <> [] -> Forall (fun kv => parses kv.2 /\ begins (print_json kv.2)) l ->
  exists n0, forall n rest, (n0 <= n)%nat ->
    parse_members n (join "," (map print_member l) ++ "}" ++ rest) = Some (l, rest).
Proof.
  induction l as [|[k j] l IH]; [done|]. intros _ [[[n1 H1] _] Hl]%Forall_cons. cbn [snd] in H1.
  assert (forall n t, (n1 <= n)%nat -> closes t -> parse_members (S n) (print_member (k, j) ++ t) =
    match strip "," (skip_ws t) with
    | Some s => '(l, s) ← parse_members n s; Some ((k, j) :: l, s)
    | None => s ← strip "}" (skip_ws t); Some ([(k, j)], s)
    end) as Hmember.
  { intros n t Hn Ht. unfold print_member, print_string. cbn [fst snd parse_members].
    rewrite !string_app_assoc. change (skip_ws (quote ++ ?s)) with (quote ++ s).
    rewrite strip_prefix. cbn [mbind option_bind]. rewrite unquote_escaped. cbn [mbind option_bind].
    change (skip_ws (":" ++ ?s)) with (":" ++ s). rewrite strip_prefix. cbn [mbind option_bind].
    by rewrite H1. }
  destruct l as [|j' l].
  - exists (S n1). intros [|n] rest Hn; [lia|]. cbn [map join].
    rewrite Hmember by (auto; lia).
    change (skip_ws ("}" ++ rest)) with ("}" ++ rest). by rewrite strip_prefix.
  - destruct IH as [n2 H2]; [done|done|]. exists (S (n1 `max` n2)). intros [|n] rest Hn; [lia|].
    cbn [map]. rewrite join_cons, !string_app_assoc.
    rewrite Hmember by (auto; lia).
    change (skip_ws ("," ++ ?s)) with ("," ++ s). rewrite strip_prefix.
    cbn [map] in H2. by rewrite H2 by lia.
Qed.

Lemma parses_array l : Forall parses l -> Forall wf_json l -> parses (JArray l).
Proof.
  intros Hl Hw.
  destruct l as [|x l]; [exists 1%nat; intros [|n] rest Hn _; [lia|done]|].
  assert (begins (print_json x)) as Hx by (apply Forall_cons in Hw as [Hx _]; by apply print_begins).
  destruct (parses_elements (x :: l)) as [n0 H0]; [done..|].
  exists (S n0). intros [|n] rest Hn Hr; [lia|]. specialize (H0 n rest ltac:(lia)).
  remember (join "," (map print_json (x :: l))) as body eqn:Hbody.
  assert (begins body) as Hbegins.
  { subst body. destruct l; cbn [map]; [done|]. rewrite join_cons. by apply begins_app. }
  cbn [print_json]. rewrite <- Hbody, !string_app_assoc, string_cons_app, string_nil_app.
  cbn [parse_value]. change (skip_ws (String "[" ?s)) with (String "[" s). cbn.
  rewrite begins_skip by (by apply begins_app). rewrite !begins_strip by (auto using begins_app).
  rewrite H0. done.
Qed.
Lemma parses_object l :
  Forall (fun kv => parses kv.2) l -> Forall (fun kv => wf_json kv.2) l -> parses (JObject l).
Proof.
  intros Hl Hw.
  destruct l as [|x l]; [exists 1%nat; intros [|n] rest Hn _; [lia|done]|].
  destruct (parses_members (x :: l)) as [n0 H0]; [done| |].
  { rewrite Forall_forall in *. intros y Hy. split; [|apply print_begins]; by auto. }
  exists (S n0). intros [|n] rest Hn Hr; [lia|]. specialize (H0 n rest ltac:(lia)).
  change (map (fun kv => print_string kv.1 ++ ":" ++ print_json kv.2)) with (map print_member) in *.
  remember (join "," (map print_member (x :: l))) as body eqn:Hbody.
  assert (begins body) as Hbegins.
  { subst body. assert (begins (print_member x)) as Hx by (split_and!; done).
    destruct l; cbn [map]; [done|]. rewrite join_cons. by apply begins_app. }
  cbn [print_json]. change (map (fun kv => print_string kv.1 ++ ":" ++ print_json kv.2)) with (map print_member).
  rewrite <- Hbody, !string_app_assoc, string_cons_app, string_nil_app.
  cbn [parse_value]. change (skip_ws (String "{" ?s)) with (String "{" s). cbn.
  rewrite begins_skip by (by apply begins_app). rewrite !begins_strip by (auto using begins_app).
  rewrite H0. done.
Qed.

Lemma print_parses j : wf_json j -> parses j.
Proof.
  induction j as [|b|lit|s|l IH|l IH] using json_children; intros Hj.
  - exists 1%nat. intros [|n] rest Hn _; [lia|done].
  - exists 1%nat. intros [|n] rest Hn _; [lia|]. by destruct b.
  - inversion_clear Hj as [| |? Hlit| | |]. exists 1%nat. intros [|n] rest Hn Hr; [lia|].
    pose proof (number_closes _ _ Hr Hlit) as Hnum.
    destruct (literal_first _ Hlit) as (c & t & -> & Hc). cbn [print_json] in *.
    rewrite string_cons_app in *. cbn [parse_value].
    assert (skip_ws (String c (t ++ rest)) = String c (t ++ rest) /\ (nat_of_ascii c =? 34)%nat = false /\
      c <> "["%char /\ c <> "{"%char /\ c <> "n"%char /\ c <> "t"%char /\ c <> "f"%char) as (-> & H1 & H2 & H3 & H4 & H5 & H6).
    { destruct Hc as [->|Hc]; [done|]. revert Hc. by destruct c as [[] [] [] [] [] [] [] []]. }
    apply Nat.eqb_neq in H1. rewrite !bool_decide_eq_false_2 by done. by rewrite Hnum.
  - exists 1%nat. intros [|n] rest Hn _; [lia|]. cbn [print_json parse_value]. unfold print_string.
    rewrite !string_app_assoc. change (skip_ws (quote ++ ?s)) with (quote ++ s).
    unfold quote at 1. rewrite string_cons_app, string_nil_app.
    rewrite bool_decide_eq_true_2 by done. by rewrite unquote_escaped.
  - inversion_clear Hj as [| | | |? Hl|].
    apply parses_array; [|done]. rewrite Forall_forall in *. intros y Hy. by apply IH, Hl.
  - inversion_clear Hj as [| | | | |? Hl].
    apply parses_object; [|done]. rewrite Forall_forall in *. intros y Hy. by apply IH, Hl.
Qed.

Lemma string_app_nil_r (s : string) : s ++ "" = s.
Proof. induction s as [|c s IH]; [done|]. by rewrite string_cons_app, IH. Qed.

(** Every value that is printed is read back. *)
Theorem parse_print j : wf_json j -> parse_json (print_json j) = Some j.
Proof.
  intros (n0 & H)%print_parses. unfold parse_json.
  set (s := print_json j) in *. set (n := (2 * String.length s + 1)%nat).
  specialize (H (n `max` n0)%nat "" ltac:(lia) I). rewrite string_app_nil_r in H.
  destruct (parse_fuel n (n `max` n0)%nat) as [Hf _]. rewrite Hf by lia. by rewrite H.
Qed.

(** ** Storing values *)

(** The error for a value of another type; of several, Go returns the first, after
    storing what it can.  The programs drop the result along with the error. *)
Definition unmarshal_type : error := EOther "json: cannot unmarshal".
Definition syntax_error : error := EOther "invalid JSON".

Definition decode_string (j : json) (old : string) : result string :=
  match j with JNull => Ok old | JString s => Ok s | _ => Err unmarshal_type end.
Definition decode_bool (j : json) (old : bool) : result bool :=
  match j with JNull => Ok old | JBool b => Ok b | _ => Err unmarshal_type end.
(** Numbers of an integer type with these bounds. *)
Definition decode_integer (lo hi : Z) (j : json) (old : Z) : result Z :=
  match j with
  | JNull => Ok old
  | JNumber n =>
      match Atoi n with
      | Ok v => if bool_decide (lo <= v < hi) then Ok v else Err unmarshal_type
      | Err _ => Err unmarshal_type
      end
  | _ => Err unmarshal_type
  end.
Definition decode_int : json -> Z -> result Z := decode_integer (- 2 ^ 63) (2 ^ 63).
Definition decode_int32 : json -> Z -> result Z := decode_integer (- 2 ^ 31) (2 ^ 31).
(** Unsigned ones: [strconv.ParseUint] takes no sign. *)
Definition decode_unsigned (hi : Z) (j : json) (old : Z) : result Z :=
  match j with
  | JNull => Ok old
  | JNumber n =>
      match digits_value 0 n with
      | Some v => if bool_decide (v < hi) then Ok v else Err unmarshal_type
      | None => Err unmarshal_type
      end
  | _ => Err unmarshal_type
  end.
Definition decode_uint8 : json -> Z -> result Z := decode_unsigned 256.
Definition decode_uint64 : json -> Z -> result Z := decode_unsigned (2 ^ 64).

(** The elements of a slice are stored over the old ones. *)
Section slices.
Context {A : Type}.
Variables (decode : json -> A -> result A) (zero : A).
Fixpoint decode_elements (l : list json) (old : list A) : result (list A) :=
  match l with
  | [] => Ok []
  | j :: l =>
      let? x := decode j (default zero (head old)) in
      let? xs := decode_elements l (tail old) in
      Ok (x :: xs)
  end.
Definition decode_slice (j : json) (old : slice A) : result (slice A) :=
  match j with
  | JNull => Ok None
  | JArray l => let? xs := decode_elements l (default [] old) in Ok (Some xs)
  | _ => Err unmarshal_type
  end.
End slices.

(** A pointer: null makes it nil, a value is stored in what it points to. *)
Definition decode_ptr {A} (decode : json -> A -> result A) (zero : A) (j : json) (old : ptr A) : result (ptr A) :=
  match j with
  | JNull => Ok None
  | _ => let? x := decode j (default zero old) in Ok (Some x)
  end.

(** The map a pointer leads to: each member is stored as a new value. *)
Section maps.
Context {A : Type}.
Variables (decode : json -> A -> result A) (zero : A).
Fixpoint decode_members (l : list (string * json)) (m : gmap string A) : result (gmap string A) :=
  match l with
  | [] => Ok m
  | (k, j) :: l =>
      let? x := decode j zero in
      decode_members l (<[k := x]> m)
  end.
Definition decode_map (j : json) (old : gmap string A) : result (gmap string A) :=
  match j with
  | JNull => Ok ∅
  | JObject l => decode_members l old
  | _ => Err unmarshal_type
  end.
End maps.

(** A byte slice is written as base64, or as an array of numbers. *)
Definition decode_bytes (j : json) (old : slice Z) : result (slice Z) :=
  match j with
  | JString s => let? b := base64_DecodeString s in Ok (Some b)
  | _ => decode_slice decode_uint8 0 j old
  end.

(** A member is stored in the field of its name, whatever the case of its letters,
    and dropped when there is none; the names are ASCII.  No two fields of one
    struct here differ by case alone. *)
Definition to_lower (c : ascii) : ascii :=
  let n := nat_of_ascii c in if bool_decide (65 <= n <= 90)%nat then ascii_of_nat (n + 32) else c.
Fixpoint fold_name (s : string) : string :=
  match s with EmptyString => "" | String c s => String (to_lower c) (fold_name s) end.
Definition names (k name : string) : bool := String.eqb (fold_name k) (fold_name name).
#[global] Arguments names : simpl never.

Section fields.
Context {A : Type}.
Variables (decode : json -> A -> result A) (name : string).
Fixpoint field (l : list (string * json)) (x : A) : result A :=
  match l with
  | [] => Ok x
  | (k, j) :: l =>
      if names k name then let? x := decode j x in field l x else field l x
  end.

Lemma field_app l1 l2 x : field (l1 ++ l2) x = let? x := field l1 x in field l2 x.
Proof.
  revert x. induction l1 as [|[k j] l1 IH]; intros x; cbn; [done|].
  destruct (names k name); [|done]. destruct (decode j x); [apply IH|done].
Qed.
End fields.

Definition decode_struct {A} (fields : list (string * json) -> A -> result A) (j : json) (old : A) : result A :=
  match j with
  | JNull => Ok old
  | JObject l => fields l old
  | _ => Err unmarshal_type
  end.

Definition json_Unmarshal {A} (decode : json -> A -> result A) (data : string) (v : A) : result A :=
  match parse_json data with
  | None => Err syntax_error
  | Some j => decode j v
  end.

(** [json.NewDecoder(r).Decode(v)], of a stream that gives [data]: the first value
    is read, and what follows it is left. *)
Definition Decoder_Decode {A} (decode : json -> A -> result A) (data : string) (v : A) : result A :=
  match parse_value (2 * String.length data + 1) data with
  | None => Err syntax_error
  | Some (j, _) => decode j v
  end.
(** A text that is one value is read alike by both. *)
Lemma Decode_whole {A} (decode : json -> A -> result A) data j v :
  parse_json data = Some j -> Decoder_Decode decode data v = decode j v.
Proof.
  unfold parse_json, Decoder_Decode. destruct (parse_value _ data) as [[j' rest]|]; cbn; [|done].
  case_bool_decide; [|done]. by intros [= ->].
Qed.

(** ** Numbers that are printed *)

Lemma digits_value_app acc s t :
  digits_value acc (s ++ t) = a ← digits_value acc s; digits_value a t.
Proof.
  revert acc. induction s as [|c s IH]; intros acc; [done|]. rewrite string_cons_app. cbn [digits_value].
  by destruct (is_digit c).
Qed.

Lemma pretty_N_char_digit x : (x < 10)%N ->
  is_digit (pretty_N_char x) = true /\ Z.of_nat (nat_of_ascii (pretty_N_char x)) = 48 + Z.of_N x /\
  (x <> 0 -> pretty_N_char x <> "0"%char)%N.
Proof.
  intros H. assert (x ∈ [0;1;2;3;4;5;6;7;8;9]%N) as Hin.
  { repeat (rewrite elem_of_cons). lia. }
  repeat (apply elem_of_cons in Hin as [->|Hin]; [split_and!; [done|done|by intros Hx; vm_compute; congruence]|]). by apply not_elem_of_nil in Hin.
Qed.

(** The digits of a number that is not zero. *)
Record decimal (x : N) (d : string) : Prop := mkDecimal {
  dec_value : forall acc, exists k, 0 <= k /\ digits_value acc d = Some (acc * 10 ^ k + Z.of_N x);
  dec_digits : forall t, digits (d ++ t) = let '(d', t') := digits t in (d ++ d', t');
  dec_first : exists c t, d = String c t /\ is_digit c = true /\ c <> "0"%char;
}.

Lemma pretty_decimal x s : (0 < x)%N -> exists d, pretty_N_go x s = d ++ s /\ decimal x d.
Proof.
  revert s. induction x as [x IH] using (well_founded_induction N.lt_wf_0). intros s Hx.
  rewrite pretty_N_go_step by done.
  assert (x `mod` 10 < 10)%N as Hlt by (apply N.mod_lt; lia).
  pose proof (N.div_mod x 10 ltac:(lia)) as Hdm.
  destruct (pretty_N_char_digit (x `mod` 10) Hlt) as (Hd & Hv & Hne).
  set (c := pretty_N_char (x `mod` 10)) in *.
  assert (x `div` 10 = 0 \/ 0 < x `div` 10)%N as [H0|H0] by lia.
  - rewrite H0, pretty_N_go_0. exists (String c ""). split; [done|]. split.
    + intros acc. exists 1. split; [done|]. cbn. rewrite Hd. f_equal. lia.
    + intros t. rewrite string_cons_app, string_nil_app. cbn [digits]. rewrite Hd. by destruct (digits t).
    + exists c, "". split_and!; [done|done|]. apply Hne. lia.
  - destruct (IH (x `div` 10)%N ltac:(apply N.div_lt; lia) (String c s) H0) as (d & -> & [H1 H2 (c0 & t0 & -> & H3)]).
    exists (String c0 t0 ++ String c ""). split; [by rewrite string_app_assoc|]. split.
    + intros acc. destruct (H1 acc) as (k & Hk0 & Hk). rewrite digits_value_app, Hk. cbn. rewrite Hd.
      exists (k + 1). split; [lia|]. f_equal. rewrite Z.pow_add_r by lia. lia.
    + intros t. rewrite string_app_assoc, H2, string_cons_app, string_nil_app. cbn [digits]. rewrite Hd.
      destruct (digits t) as [d' t']. by rewrite string_app_assoc.
    + exists c0, (t0 ++ String c ""). by rewrite string_cons_app.
Qed.

Lemma decimal_value x d : decimal x d -> digits_value 0 d = Some (Z.of_N x).
Proof. intros [H _ _]. destruct (H 0) as (k & _ & ->). f_equal. Qed.

Lemma decimal_integer x d : decimal x d -> integer_part d = Some (d, "").
Proof.
  intros [_ Hd (c & t & -> & Hc & Hne)]. cbn [integer_part]. rewrite bool_decide_eq_false_2 by done.
  unfold some_digits. specialize (Hd ""). rewrite string_app_nil_r in Hd. rewrite Hd. cbn.
  by rewrite string_app_nil_r.
Qed.

(** The three forms of a number's text. *)
Lemma pretty_cases z : (z = 0 /\ pretty z = "0") \/
  (0 < z /\ exists d, pretty z = d /\ decimal (Z.to_N z) d) \/
  (z < 0 /\ exists d, pretty z = String "-" d /\ decimal (Z.to_N (- z)) d).
Proof.
  destruct z as [|p|p]; [by left|right; left|right; right]; (split; [done|]).
  - destruct (pretty_decimal (N.pos p) "") as (d & Hd & H); [done|]. exists d. split; [|done].
    rewrite string_app_nil_r in Hd. exact Hd.
  - destruct (pretty_decimal (N.pos p) "") as (d & Hd & H); [done|]. exists d. split; [|done].
    rewrite string_app_nil_r in Hd. change (pretty (Z.neg p)) with (String "-" (pretty_N_go (N.pos p) "")).
    by rewrite Hd.
Qed.

Lemma decimal_unsigned x d : decimal x d ->
  exists c t, d = String c t /\ c <> "-"%char /\ c <> "+"%char /\ is_digit c = true.
Proof.
  intros [_ _ (c & t & -> & Hc & _)]. exists c, t. split; [done|]. revert Hc.
  by destruct c as [[] [] [] [] [] [] [] []].
Qed.

(** [strconv.Itoa] and [strconv.Atoi]. *)
Lemma pretty_Atoi z : - 2 ^ 63 <= z < 2 ^ 63 -> Atoi (pretty z) = Ok z.
Proof.
  intros Hz. destruct (pretty_cases z) as [[-> ->]|[(Hp & d & -> & Hd)|(Hp & d & -> & Hd)]]; [done| |].
  - pose proof (decimal_value _ _ Hd) as Hv. rewrite Z2N.id in Hv by lia.
    destruct (decimal_unsigned _ _ Hd) as (c & t & -> & H1 & H2 & _). unfold Atoi.
    rewrite !bool_decide_eq_false_2 by done. cbn [orb]. rewrite Hv. by rewrite bool_decide_eq_true_2.
  - pose proof (decimal_value _ _ Hd) as Hv. rewrite Z2N.id in Hv by lia.
    destruct (decimal_unsigned _ _ Hd) as (c & t & -> & _). unfold Atoi.
    rewrite bool_decide_eq_true_2 by done. cbn [orb]. rewrite Hv. cbn [fmap option_fmap option_map].
    rewrite Z.opp_involutive. by rewrite bool_decide_eq_true_2.
Qed.

Lemma pretty_literal (z : Z) : literal (pretty z).
Proof.
  destruct (pretty_cases z) as [[-> ->]|[(Hp & d & -> & Hd)|(Hp & d & -> & Hd)]]; [done| |];
    unfold literal, number; pose proof (decimal_integer _ _ Hd) as Hi.
  - assert (optional_sign ["-"%char] d = ("", d)) as ->; [|by rewrite Hi; cbn; rewrite string_app_nil_r].
    destruct (decimal_unsigned _ _ Hd) as (c & t & -> & H & _). cbn [optional_sign].
    rewrite bool_decide_eq_false_2; [done|]. by intros ->%list_elem_of_singleton.
  - cbn [optional_sign]. rewrite bool_decide_eq_true_2 by (by left). rewrite Hi. cbn.
    by rewrite string_app_nil_r.
Qed.
#[export] Hint Resolve pretty_literal : core.

(** ** Fields that are printed *)

(** Members with another name are dropped. *)
Definition others (name : string) (l : list (string * json)) : bool :=
  forallb (fun kv => negb (names kv.1 name)) l.
Lemma field_others {A} (decode : json -> A -> result A) name l x : others name l = true -> field decode name l x = Ok x.
Proof.
  induction l as [|[k j] l IH]; [done|]. intros [H1%negb_true_iff H2]%andb_true_iff. cbn [field fst] in *.
  rewrite H1. by apply IH.
Qed.

Lemma others_omit_string k v name : names k name = false -> others name (omitempty_string k v) = true.
Proof. intros H. unfold omitempty_string. case_bool_decide; cbn; [done|]. by rewrite H. Qed.
Lemma others_omit_int k v name : names k name = false -> others name (omitempty_int k v) = true.
Proof. intros H. unfold omitempty_int. case_bool_decide; cbn; [done|]. by rewrite H. Qed.
Lemma others_omit_bool k v name : names k name = false -> others name (omitempty_bool k v) = true.
Proof. intros H. destruct v; cbn; [|done]. by rewrite H. Qed.
Lemma others_app name l1 l2 : others name l1 = true -> others name l2 = true -> others name (l1 ++ l2) = true.
Proof. unfold others. rewrite forallb_app. by intros -> ->. Qed.

(** A field that is left out is read as its zero value. *)
Lemma field_omit_string k v : names k k = true -> field decode_string k (omitempty_string k v) "" = Ok v.
Proof. intros H. unfold omitempty_string. case_bool_decide; cbn; [by subst v|]. by rewrite H. Qed.
Lemma field_omit_bool k v : names k k = true -> field decode_bool k (omitempty_bool k v) false = Ok v.
Proof. intros H. destruct v; cbn; [|done]. by rewrite H. Qed.
Lemma field_omit_int k v : names k k = true -> - 2 ^ 63 <= v < 2 ^ 63 ->
  field decode_int k (omitempty_int k v) 0 = Ok v.
Proof.
  intros H Hv. unfold omitempty_int. case_bool_decide; cbn [field]; [by subst v|]. rewrite H.
  unfold decode_int, decode_integer. rewrite pretty_Atoi by done. by rewrite bool_decide_eq_true_2.
Qed.
Lemma decode_json_bytes b old :
  (forall l, b = Some l -> Forall (fun x => 0 <= x < 256) l) -> decode_bytes (json_bytes b) old = Ok b.
Proof.
  intros H. destruct b as [l|]; [|done]. cbn. by rewrite base64_roundtrip by (by apply H).
Qed.

Lemma Unmarshal_print {A} (decode : json -> A -> result A) j old v :
  wf_json j -> decode j old = Ok v -> json_Unmarshal decode (print_json j) old = Ok v.
Proof. intros Hj H. unfold json_Unmarshal. by rewrite parse_print. Qed.
