(* ===== verification/Dot.v ===== *)
(** * internal/controller/actionsrunner/dot: the runner's dot files

    The contents of [.runner], [.credentials] and [.credentials_rsaparams], the
    JSON [json.Marshal] makes of them, and the RSA key in its two forms. *)

From S2P Require Export Json.
#[local] Open Scope string_scope.

Record Runner : Type := mkRunner {
  AgentId : Z;
  AgentName : string;
  SkipSessionRecover : bool;
  PoolId : Z;
  PoolName : string;
  DisableUpdate : bool;
  Ephemeral : bool;
  ServerUrl : string;
  GitHubUrl : string;
  WorkFolder : string;
  MonitorSocketAddress : string;
  IsHostedServer : bool;
}.

Record CredentialsData : Type := mkCredentialsData {
  ClientId : string;
  AuthorizationURL : string;
  OAuthEndpointURL : string;
  RequireFipsCryptography : string;
}.

Record Credentials : Type := mkCredentials {
  cred_Scheme : string;
  cred_Data : CredentialsData;
}.

Record RSAParameters : Type := mkRSAParameters {
  rsa_D : slice Z;
  rsa_DP : slice Z;
  rsa_DQ : slice Z;
  rsa_Exponent : slice Z;
  rsa_InverseQ : slice Z;
  rsa_Modulus : slice Z;
  rsa_P : slice Z;
  rsa_Q : slice Z;
}.

(** [Files] embeds the three. *)
Record Files : Type := mkFiles {
  files_Runner : Runner;
  files_Credentials : Credentials;
  files_RSAParameters : RSAParameters;
}.

(** ** JSON *)

Definition Runner_json (r : Runner) : json :=
  JObject (omitempty_int "agentId" (AgentId r)
    ++ omitempty_string "agentNameTemplate" (AgentName r)
    ++ omitempty_bool "skipSessionRecover" (SkipSessionRecover r)
    ++ omitempty_int "poolId" (PoolId r)
    ++ omitempty_string "poolName" (PoolName r)
    ++ omitempty_bool "disableUpdate" (DisableUpdate r)
    ++ omitempty_bool "ephemeral" (Ephemeral r)
    ++ omitempty_string "serverUrl" (ServerUrl r)
    ++ omitempty_string "gitHubUrl" (GitHubUrl r)
    ++ omitempty_string "workFolder" (WorkFolder r)
    ++ omitempty_string "monitorSocketAddress" (MonitorSocketAddress r)
    ++ omitempty_bool "isHostedServer" (IsHostedServer r))%list.

Definition Credentials_json (c : Credentials) : json :=
  JObject [
    ("scheme", JString (cred_Scheme c));
    ("data", JObject [
      ("clientId", JString (ClientId (cred_Data c)));
      ("authorizationUrl", JString (AuthorizationURL (cred_Data c)));
      ("oauthEndpointUrl", JString (OAuthEndpointURL (cred_Data c)));
      ("requireFipsCryptography", JString (RequireFipsCryptography (cred_Data c)))])].

Definition RSAParameters_json (p : RSAParameters) : json :=
  JObject [
    ("d", json_bytes (rsa_D p)); ("dp", json_bytes (rsa_DP p)); ("dq", json_bytes (rsa_DQ p));
    ("exponent", json_bytes (rsa_Exponent p)); ("inverseQ", json_bytes (rsa_InverseQ p));
    ("modulus", json_bytes (rsa_Modulus p)); ("p", json_bytes (rsa_P p)); ("q", json_bytes (rsa_Q p))].

(** ** RSA keys *)

(** The parts of [rsa.PrivateKey] the program uses. *)
Record PrivateKey : Type := mkPrivateKey {
  key_N : Z;
  key_E : Z;
  key_D : Z;
  key_Primes : list Z;
  key_Dp : Z;
  key_Dq : Z;
  key_Qinv : Z;
}.

(** [NewRSAParameters], given what [rsa.GenerateKey] returns.  A key with fewer
    than two primes is indexed out of range. *)
Definition NewRSAParameters (generated : result PrivateKey) : outcome (result RSAParameters) :=
  match generated with
  | Err e => Done (Err e)
  | Ok key =>
      match key_Primes key with
      | p :: q :: _ =>
          Done (Ok (mkRSAParameters
            (Some (Bytes (key_D key))) (Some (Bytes (key_Dp key))) (Some (Bytes (key_Dq key)))
            (Some (Bytes (key_E key))) (Some (Bytes (key_Qinv key))) (Some (Bytes (key_N key)))
            (Some (Bytes p)) (Some (Bytes q))))
      | _ => Panicked index_out_of_range
      end
  end.

(** [int(x.Int64())]: the low 64 bits, as a signed number. *)
Definition Int64 (x : Z) : Z := int_of_uint (x mod 2 ^ 64).

Definition required {A} (name : string) (b : slice A) : result (list A) :=
  match b with
  | None => Err (ENew ("." ++ name ++ " == nil"))
  | Some b => Ok b
  end.

Definition ToRSAPrivateKey (p : RSAParameters) : result PrivateKey :=
  let? d := required "D" (rsa_D p) in
  let? dp := required "DP" (rsa_DP p) in
  let? dq := required "DQ" (rsa_DQ p) in
  let? exponent := required "Exponent" (rsa_Exponent p) in
  let? inverseQ := required "InverseQ" (rsa_InverseQ p) in
  let? modulus := required "Modulus" (rsa_Modulus p) in
  let? prime := required "P" (rsa_P p) in
  let? prime' := required "Q" (rsa_Q p) in
  Ok (mkPrivateKey (SetBytes modulus) (Int64 (SetBytes exponent)) (SetBytes d)
        [SetBytes prime; SetBytes prime'] (SetBytes dp) (SetBytes dq) (SetBytes inverseQ)).

(** ** Round trip *)

(** What [rsa.GenerateKey] guarantees of a two-prime key, and more than enough
    here: no part is negative and the exponent fits 63 bits. *)
Definition key_wf (k : PrivateKey) : Prop :=
  0 <= key_N k /\ 0 <= key_D k /\ 0 <= key_Dp k /\ 0 <= key_Dq k /\ 0 <= key_Qinv k /\
  0 <= key_E k < 2 ^ 63 /\
  match key_Primes k with [p; q] => 0 <= p /\ 0 <= q | _ => False end.

Lemma Int64_small x : 0 <= x < 2 ^ 63 -> Int64 x = x.
Proof. intros H. unfold Int64. rewrite Z.mod_small by lia. apply int_of_uint_small. lia. Qed.

#[local] Opaque Bytes SetBytes Int64.

(** A generated key survives the parameters' byte form: what is written to
    the secret and read back is the same private key. *)
Theorem ToRSAPrivateKey_NewRSAParameters k :
  key_wf k ->
  exists p, NewRSAParameters (Ok k) = Done (Ok p) /\ ToRSAPrivateKey p = Ok k.
Proof.
  destruct k as [n e d primes dp dq qinv]. intros (? & ? & ? & ? & ? & ? & Hp). cbn in *.
  destruct primes as [|p [|q [|? ?]]]; try done. destruct Hp.
  eexists. split; [reflexivity|]. cbn.
  rewrite !SetBytes_Bytes by lia. by rewrite Int64_small.
Qed.

(** RSA with the primes 61 and 53. *)
Lemma ToRSAPrivateKey_NewRSAParameters_witness :
  exists p, NewRSAParameters (Ok (mkPrivateKey 3233 65537 2753 [61; 53] 53 49 38)) = Done (Ok p) /\
    ToRSAPrivateKey p = Ok (mkPrivateKey 3233 65537 2753 [61; 53] 53 49 38).
Proof. apply ToRSAPrivateKey_NewRSAParameters. by vm_compute. Defined.
