(* ===== verification/K8s.v ===== *)
(** * The Kubernetes types the program handles

    The records keep the fields the source reads or writes, under the names of
    the Go structs; what it only carries along is a value of [Opaque].  The
    library code the source calls is the class [K8sLib], a parameter of every
    definition that uses it, and what is documented of that code is the class
    [K8sLibSpec], assumed by the theorems that need it. *)

From S2P Require Export Prelude.
#[local] Open Scope string_scope.

Record TypeMeta : Type := mkTypeMeta { APIVersion : string; Kind : string }.

(** [client.ObjectKey], [types.NamespacedName]. *)
Record ObjectKey : Type := mkKey { key_Namespace : string; key_Name : string }.

#[export] Instance TypeMeta_eq_dec : EqDecision TypeMeta.
Proof. solve_decision. Defined.
#[export] Instance ObjectKey_eq_dec : EqDecision ObjectKey.
Proof. solve_decision. Defined.
#[export] Instance ObjectKey_countable : Countable ObjectKey.
Proof.
  refine (inj_countable' (fun k => (key_Namespace k, key_Name k))
            (fun p => mkKey p.1 p.2) _).
  by intros [].
Defined.

(** What the program carries without looking into it. *)
Class K8sTypes : Type := {
  Opaque : Type;
  Opaque_eq_dec :: EqDecision Opaque;
  opaque_zero : Opaque;
  (** [resource.Quantity] *)
  Quantity : Type;
  Quantity_eq_dec :: EqDecision Quantity;
  (** [*runtime.Scheme] *)
  Scheme : Type;
}.

Section types.
Context {T : K8sTypes}.

Record ObjectMeta : Type := mkObjectMeta {
  Name : string;
  GenerateName : string;
  Namespace : string;
  UID : string;
  ResourceVersion : string;
  DeletionTimestamp : ptr time;
  Labels : gomap string;
  Annotations : gomap string;
  OwnerReferences : slice Opaque;
  ManagedFields : slice Opaque;
}.

Definition ObjectMeta_zero : ObjectMeta :=
  mkObjectMeta "" "" "" "" "" None None None None None.

(** [ObjectMeta{Name: name, Namespace: namespace, Labels: labels}] *)
Definition meta_named (name namespace : string) (labels : gomap string) : ObjectMeta :=
  mkObjectMeta name "" namespace "" "" None labels None None None.

Definition SetManagedFields (m : ObjectMeta) (f : slice Opaque) : ObjectMeta :=
  mkObjectMeta (Name m) (GenerateName m) (Namespace m) (UID m) (ResourceVersion m)
    (DeletionTimestamp m) (Labels m) (Annotations m) (OwnerReferences m) f.

Definition SetOwnerReferences (m : ObjectMeta) (r : slice Opaque) : ObjectMeta :=
  mkObjectMeta (Name m) (GenerateName m) (Namespace m) (UID m) (ResourceVersion m)
    (DeletionTimestamp m) (Labels m) (Annotations m) r (ManagedFields m).

(** ** core/v1 *)

(** A volume's source: the three the program builds, or one a user gave. *)
Inductive VolumeSource : Type :=
| VolumeConfigMap (name : string)
| VolumeSecret (secretName : string)
| VolumePersistentVolumeClaim (claimName : string)
| VolumeOther (source : Opaque).

Record Volume : Type := mkVolume { vol_Name : string; vol_Source : VolumeSource }.

Record VolumeMount : Type := mkVolumeMount {
  MountPath : string;
  vm_Name : string;
  SubPath : string;
  vm_rest : Opaque;
}.

Record EnvFromSource : Type := mkEnvFromSource {
  efs_Prefix : string;
  ConfigMapRef : ptr string;
  SecretRef : ptr string;
}.

(** [SecretKeyRef] selects a key of a secret; the other references are opaque. *)
Record EnvVarSource : Type := mkEnvVarSource {
  SecretKeyRef : ptr (string * string);
  evs_rest : Opaque;
}.

Record EnvVar : Type := mkEnvVar {
  env_Name : string;
  env_Value : string;
  ValueFrom : ptr EnvVarSource;
}.

Record ResourceRequirements : Type := mkResourceRequirements {
  Limits : gomap Quantity;
  Requests : gomap Quantity;
  Claims : slice Opaque;
}.

Definition ResourceCPU := "cpu".
Definition ResourceMemory := "memory".
Definition ResourceStorage := "storage".
Definition ResourceEphemeralStorage := "ephemeral-storage".

Record NodeSelectorRequirement : Type := mkNodeSelectorRequirement {
  nsr_Key : string;
  nsr_Operator : string;
  nsr_Values : slice string;
}.

Record NodeSelectorTerm : Type := mkNodeSelectorTerm {
  MatchExpressions : slice NodeSelectorRequirement;
  nst_rest : Opaque;
}.

Record NodeAffinity : Type := mkNodeAffinity {
  (** [RequiredDuringSchedulingIgnoredDuringExecution.NodeSelectorTerms] *)
  RequiredTerms : ptr (slice NodeSelectorTerm);
  na_rest : Opaque;
}.

Record Affinity : Type := mkAffinity {
  aff_NodeAffinity : ptr NodeAffinity;
  aff_rest : Opaque;
}.

Record Toleration : Type := mkToleration {
  tol_Key : string;
  tol_Operator : string;
  tol_Value : string;
  tol_Effect : string;
}.

(** The program's only probes run a command. *)
Record Probe : Type := mkProbe {
  Exec_Command : list string;
  InitialDelaySeconds : Z;
}.

Record Container : Type := mkContainer {
  con_Name : string;
  con_Image : string;
  con_EnvFrom : slice EnvFromSource;
  con_Env : slice EnvVar;
  con_Resources : ResourceRequirements;
  con_VolumeMounts : slice VolumeMount;
  LivenessProbe : ptr Probe;
  Privileged : ptr bool;
}.

Record PodSecurityContext : Type := mkPodSecurityContext {
  RunAsUser : ptr Z;
  RunAsGroup : ptr Z;
  RunAsNonRoot : ptr bool;
  FSGroup : ptr Z;
  Sysctls : slice (string * string);
}.

Record PodSpec : Type := mkPodSpec {
  ActiveDeadlineSeconds : ptr Z;
  pod_Volumes : slice Volume;
  Containers : list Container;
  RestartPolicy : string;
  pod_ServiceAccountName : string;
  AutomountServiceAccountToken : ptr bool;
  pod_SecurityContext : ptr PodSecurityContext;
  pod_Affinity : ptr Affinity;
  pod_Tolerations : slice Toleration;
  pod_NodeSelector : gomap string;
}.

Record Pod : Type := mkPod {
  pod_TypeMeta : TypeMeta;
  pod_ObjectMeta : ObjectMeta;
  pod_Spec : PodSpec;
  (** [Status.Phase]; the empty string before the server sets it *)
  pod_Phase : string;
}.

Definition PodSucceeded := "Succeeded".
Definition PodFailed := "Failed".
Definition PodUnknown := "Unknown".

Record PersistentVolumeClaim : Type := mkPersistentVolumeClaim {
  pvc_TypeMeta : TypeMeta;
  pvc_ObjectMeta : ObjectMeta;
  AccessModes : slice string;
  pvc_Resources : ResourceRequirements;
  (** [Status.Phase] *)
  pvc_Phase : string;
}.

Definition ClaimLost := "Lost".

Record ConfigMap : Type := mkConfigMap {
  cm_TypeMeta : TypeMeta;
  cm_ObjectMeta : ObjectMeta;
  BinaryData : gomap string;
  cm_rest : Opaque;
}.

Record Secret : Type := mkSecret {
  sec_TypeMeta : TypeMeta;
  sec_ObjectMeta : ObjectMeta;
  Data : gomap string;
  sec_rest : Opaque;
}.

(** ** policy/v1 *)

Record PodDisruptionBudgetSpec : Type := mkPodDisruptionBudgetSpec {
  MaxUnavailable_IntVal : ptr Z;
  Selector_MatchLabels : ptr (gomap string);
  pdbs_rest : Opaque;
}.

Record PodDisruptionBudget : Type := mkPodDisruptionBudget {
  pdb_TypeMeta : TypeMeta;
  pdb_ObjectMeta : ObjectMeta;
  pdb_Spec : PodDisruptionBudgetSpec;
  pdb_rest : Opaque;
}.

(** ** Zero values *)

Definition TypeMeta_zero : TypeMeta := mkTypeMeta "" "".
Definition ResourceRequirements_zero : ResourceRequirements :=
  mkResourceRequirements None None None.
Definition ConfigMap_zero : ConfigMap :=
  mkConfigMap TypeMeta_zero ObjectMeta_zero None opaque_zero.
Definition Secret_zero : Secret :=
  mkSecret TypeMeta_zero ObjectMeta_zero None opaque_zero.
Definition PersistentVolumeClaim_zero : PersistentVolumeClaim :=
  mkPersistentVolumeClaim TypeMeta_zero ObjectMeta_zero None ResourceRequirements_zero "".
Definition PodSpec_zero : PodSpec :=
  mkPodSpec None None [] "" "" None None None None None.
Definition Pod_zero : Pod := mkPod TypeMeta_zero ObjectMeta_zero PodSpec_zero "".
Definition PodDisruptionBudget_zero : PodDisruptionBudget :=
  mkPodDisruptionBudget TypeMeta_zero ObjectMeta_zero
    (mkPodDisruptionBudgetSpec None None opaque_zero) opaque_zero.
End types.

(** ** Decidable equality: what [reflect.DeepEqual] and [IsZero] compute *)

Section decisions.
Context {T : K8sTypes}.
#[global] Instance ObjectMeta_eq_dec : EqDecision ObjectMeta.
Proof. solve_decision. Defined.
#[global] Instance VolumeSource_eq_dec : EqDecision VolumeSource.
Proof. solve_decision. Defined.
#[global] Instance Volume_eq_dec : EqDecision Volume.
Proof. solve_decision. Defined.
#[global] Instance VolumeMount_eq_dec : EqDecision VolumeMount.
Proof. solve_decision. Defined.
#[global] Instance EnvFromSource_eq_dec : EqDecision EnvFromSource.
Proof. solve_decision. Defined.
#[global] Instance EnvVarSource_eq_dec : EqDecision EnvVarSource.
Proof. solve_decision. Defined.
#[global] Instance EnvVar_eq_dec : EqDecision EnvVar.
Proof. solve_decision. Defined.
#[global] Instance ResourceRequirements_eq_dec : EqDecision ResourceRequirements.
Proof. solve_decision. Defined.
#[global] Instance NodeSelectorRequirement_eq_dec : EqDecision NodeSelectorRequirement.
Proof. solve_decision. Defined.
#[global] Instance NodeSelectorTerm_eq_dec : EqDecision NodeSelectorTerm.
Proof. solve_decision. Defined.
#[global] Instance NodeAffinity_eq_dec : EqDecision NodeAffinity.
Proof. solve_decision. Defined.
#[global] Instance Affinity_eq_dec : EqDecision Affinity.
Proof. solve_decision. Defined.
#[global] Instance Toleration_eq_dec : EqDecision Toleration.
Proof. solve_decision. Defined.
#[global] Instance Probe_eq_dec : EqDecision Probe.
Proof. solve_decision. Defined.
#[global] Instance Container_eq_dec : EqDecision Container.
Proof. solve_decision. Defined.
#[global] Instance PodSecurityContext_eq_dec : EqDecision PodSecurityContext.
Proof. solve_decision. Defined.
#[global] Instance PodSpec_eq_dec : EqDecision PodSpec.
Proof. solve_decision. Defined.
#[global] Instance Pod_eq_dec : EqDecision Pod.
Proof. solve_decision. Defined.
#[global] Instance PersistentVolumeClaim_eq_dec : EqDecision PersistentVolumeClaim.
Proof. solve_decision. Defined.
#[global] Instance ConfigMap_eq_dec : EqDecision ConfigMap.
Proof. solve_decision. Defined.
#[global] Instance Secret_eq_dec : EqDecision Secret.
Proof. solve_decision. Defined.
#[global] Instance PodDisruptionBudgetSpec_eq_dec : EqDecision PodDisruptionBudgetSpec.
Proof. solve_decision. Defined.
#[global] Instance PodDisruptionBudget_eq_dec : EqDecision PodDisruptionBudget.
Proof. solve_decision. Defined.
End decisions.

(** ** Library code *)

(** The library functions the program calls on these types. *)
Class K8sLib {T : K8sTypes} : Type := {
  (** [Quantity.IsZero] *)
  Quantity_IsZero : Quantity -> bool;
  (** [ResourceList.Storage] *)
  ResourceList_Storage : gmap string Quantity -> ptr Quantity;
  (** [ctrl.SetControllerReference(owner, controlled, scheme)], given the kind
      and the metadata of the owner and the metadata of the controlled: its
      metadata with the reference added, or an error *)
  SetControllerReference : string -> ObjectMeta -> ObjectMeta -> Scheme -> result ObjectMeta;
  (** [LabelSelectorAsSelector(&LabelSelector{MatchLabels: l})], then [String] *)
  LabelSelectorAsSelector : gmap string string -> result string;
  (** The order a [range] over a map visits its entries in: Go leaves it open. *)
  map_range : forall {V}, gmap string V -> list (string * V);
}.

(** What their documentation promises. *)
Class K8sLibSpec {T : K8sTypes} (L : K8sLib) : Prop := {
  (** [Storage] is the quantity stored under ["storage"], or a zero one. *)
  ResourceList_Storage_spec (l : gmap string Quantity) :
    exists q, ResourceList_Storage l = Some q /\
      match l !! ResourceStorage with
      | Some q' => q = q'
      | None => Quantity_IsZero q = true
      end;
  (** Adding a controller reference changes the owner references only. *)
  SetControllerReference_spec k o m s m' :
    SetControllerReference k o m s = Ok m' ->
    exists r, m' = SetOwnerReferences m r;
  (** A [range] visits every entry once. *)
  map_range_spec V (m : gmap string V) : map_range m ≡ₚ map_to_list m;
}.
