(* ===== verification/Api.v ===== *)
(** * api/v1alpha1: the program's own resources

    The types of [operator/api/v1alpha1/*_types.go], the sum of all the object
    kinds the controllers handle, and what [reflect] computes on them. *)

From S2P Require Export K8s.
#[local] Open Scope string_scope.

(** ** ActionsRunner *)

Record ActionsRunnerRepository : Type := mkActionsRunnerRepository {
  Owner : string;
  repo_Name : string;
  APIEndpoint : string;
}.

(** A jq filter. *)
Definition ActionsRunnerPolicyRule : Type := string.

Record ActionsRunnerPolicy : Type := mkActionsRunnerPolicy {
  Must : slice ActionsRunnerPolicyRule;
  MustNot : slice ActionsRunnerPolicyRule;
}.

Definition ActionsRunnerCapability : Type := string.
Definition ActionsRunnerCapabilitySecret : ActionsRunnerCapability := "secret".
Definition ActionsRunnerCapabilityDocker : ActionsRunnerCapability := "docker".

Section types.
Context {T : K8sTypes}.

Record ActionsRunnerSpec : Type := mkActionsRunnerSpec {
  Repository : ActionsRunnerRepository;
  Policy : ActionsRunnerPolicy;
  Capabilities : slice ActionsRunnerCapability;
  spec_Annotations : gomap string;
  spec_Labels : slice string;
  Version : string;
  Volumes : slice Volume;
  VolumeMounts : slice VolumeMount;
  EnvFrom : slice EnvFromSource;
  Env : slice EnvVar;
  Resources : gomap ResourceRequirements;
  ServiceAccountName : string;
  spec_Affinity : ptr Affinity;
  Tolerations : slice Toleration;
  NodeSelector : gomap string;
}.

(** [ActionsRunnerStatus] has no field. *)
Record ActionsRunner : Type := mkActionsRunner {
  ar_TypeMeta : TypeMeta;
  ar_ObjectMeta : ObjectMeta;
  Spec : ActionsRunnerSpec;
}.

(** ** ActionsRunnerJob *)

Record ActionsRunnerJobStatus : Type := mkActionsRunnerJobStatus {
  PersistentVolumeClaimPhase : string;
  PodPhase : string;
}.

(** [ActionsRunnerJobSpec] has no field. *)
Record ActionsRunnerJob : Type := mkActionsRunnerJob {
  arj_TypeMeta : TypeMeta;
  arj_ObjectMeta : ObjectMeta;
  arj_Status : ActionsRunnerJobStatus;
}.

(** ** ActionsRunnerReplicaSet *)

(** [Replicas] is a Go [uint]: 64 bits wide. *)
Record ActionsRunnerReplicaSetSpec : Type := mkActionsRunnerReplicaSetSpec {
  Replicas : Z;
  Template : ActionsRunnerSpec;
}.

Record ActionsRunnerReplicaSetStatus : Type := mkActionsRunnerReplicaSetStatus {
  status_Replicas : Z;
  status_Selector : string;
}.

Record ActionsRunnerReplicaSet : Type := mkActionsRunnerReplicaSet {
  arrs_TypeMeta : TypeMeta;
  arrs_ObjectMeta : ObjectMeta;
  arrs_Spec : ActionsRunnerReplicaSetSpec;
  arrs_Status : ActionsRunnerReplicaSetStatus;
}.

(** ** Zero values *)

Definition ActionsRunnerSpec_zero : ActionsRunnerSpec :=
  mkActionsRunnerSpec (mkActionsRunnerRepository "" "" "")
    (mkActionsRunnerPolicy None None) None None None "" None None None None None
    "" None None None.
Definition ActionsRunner_zero : ActionsRunner :=
  mkActionsRunner TypeMeta_zero ObjectMeta_zero ActionsRunnerSpec_zero.
Definition ActionsRunnerJob_zero : ActionsRunnerJob :=
  mkActionsRunnerJob TypeMeta_zero ObjectMeta_zero (mkActionsRunnerJobStatus "" "").
Definition ActionsRunnerReplicaSet_zero : ActionsRunnerReplicaSet :=
  mkActionsRunnerReplicaSet TypeMeta_zero ObjectMeta_zero
    (mkActionsRunnerReplicaSetSpec 0 ActionsRunnerSpec_zero)
    (mkActionsRunnerReplicaSetStatus 0 "").

(** [o.SetManagedFields(nil)], the status assignments *)
Definition ar_clear_managed (o : ActionsRunner) : ActionsRunner :=
  mkActionsRunner (ar_TypeMeta o) (SetManagedFields (ar_ObjectMeta o) None) (Spec o).
Definition arj_clear_managed (o : ActionsRunnerJob) : ActionsRunnerJob :=
  mkActionsRunnerJob (arj_TypeMeta o) (SetManagedFields (arj_ObjectMeta o) None) (arj_Status o).
Definition arrs_clear_managed (o : ActionsRunnerReplicaSet) : ActionsRunnerReplicaSet :=
  mkActionsRunnerReplicaSet (arrs_TypeMeta o) (SetManagedFields (arrs_ObjectMeta o) None)
    (arrs_Spec o) (arrs_Status o).
Definition arj_set_status (o : ActionsRunnerJob) (s : ActionsRunnerJobStatus) : ActionsRunnerJob :=
  mkActionsRunnerJob (arj_TypeMeta o) (arj_ObjectMeta o) s.
Definition arrs_set_status (o : ActionsRunnerReplicaSet) (s : ActionsRunnerReplicaSetStatus)
    : ActionsRunnerReplicaSet :=
  mkActionsRunnerReplicaSet (arrs_TypeMeta o) (arrs_ObjectMeta o) (arrs_Spec o) s.
Definition ar_set_spec (o : ActionsRunner) (s : ActionsRunnerSpec) : ActionsRunner :=
  mkActionsRunner (ar_TypeMeta o) (ar_ObjectMeta o) s.
End types.

(** [GroupVersion.String()] *)
Definition GroupVersion : string := "inloco.com.br/v1alpha1".

Section decisions.
Context {T : K8sTypes}.
#[global] Instance ActionsRunnerRepository_eq_dec : EqDecision ActionsRunnerRepository.
Proof. solve_decision. Defined.
#[global] Instance ActionsRunnerPolicy_eq_dec : EqDecision ActionsRunnerPolicy.
Proof. unfold EqDecision, Decision. unfold ActionsRunnerPolicyRule. solve_decision. Defined.
#[global] Instance ActionsRunnerSpec_eq_dec : EqDecision ActionsRunnerSpec.
Proof. unfold ActionsRunnerCapability. solve_decision. Defined.
#[global] Instance ActionsRunner_eq_dec : EqDecision ActionsRunner.
Proof. solve_decision. Defined.
#[global] Instance ActionsRunnerJobStatus_eq_dec : EqDecision ActionsRunnerJobStatus.
Proof. solve_decision. Defined.
#[global] Instance ActionsRunnerJob_eq_dec : EqDecision ActionsRunnerJob.
Proof. solve_decision. Defined.
#[global] Instance ActionsRunnerReplicaSetSpec_eq_dec : EqDecision ActionsRunnerReplicaSetSpec.
Proof. solve_decision. Defined.
#[global] Instance ActionsRunnerReplicaSetStatus_eq_dec : EqDecision ActionsRunnerReplicaSetStatus.
Proof. solve_decision. Defined.
#[global] Instance ActionsRunnerReplicaSet_eq_dec : EqDecision ActionsRunnerReplicaSet.
Proof. solve_decision. Defined.
End decisions.

(** ** All kinds *)

Inductive kind : Type :=
| KActionsRunner
| KActionsRunnerJob
| KActionsRunnerReplicaSet
| KConfigMap
| KSecret
| KPodDisruptionBudget
| KPersistentVolumeClaim
| KPod.

#[export] Instance kind_eq_dec : EqDecision kind.
Proof. solve_decision. Defined.

Section objects.
Context {T : K8sTypes}.

(** [client.Object]: what the API server's operations take. *)
Inductive object : Type :=
| OActionsRunner (o : ActionsRunner)
| OActionsRunnerJob (o : ActionsRunnerJob)
| OActionsRunnerReplicaSet (o : ActionsRunnerReplicaSet)
| OConfigMap (o : ConfigMap)
| OSecret (o : Secret)
| OPodDisruptionBudget (o : PodDisruptionBudget)
| OPersistentVolumeClaim (o : PersistentVolumeClaim)
| OPod (o : Pod).

#[global] Instance object_eq_dec : EqDecision object.
Proof. solve_decision. Defined.

Definition kind_of (o : object) : kind :=
  match o with
  | OActionsRunner _ => KActionsRunner
  | OActionsRunnerJob _ => KActionsRunnerJob
  | OActionsRunnerReplicaSet _ => KActionsRunnerReplicaSet
  | OConfigMap _ => KConfigMap
  | OSecret _ => KSecret
  | OPodDisruptionBudget _ => KPodDisruptionBudget
  | OPersistentVolumeClaim _ => KPersistentVolumeClaim
  | OPod _ => KPod
  end.

Definition meta_of (o : object) : ObjectMeta :=
  match o with
  | OActionsRunner o => ar_ObjectMeta o
  | OActionsRunnerJob o => arj_ObjectMeta o
  | OActionsRunnerReplicaSet o => arrs_ObjectMeta o
  | OConfigMap o => cm_ObjectMeta o
  | OSecret o => sec_ObjectMeta o
  | OPodDisruptionBudget o => pdb_ObjectMeta o
  | OPersistentVolumeClaim o => pvc_ObjectMeta o
  | OPod o => pod_ObjectMeta o
  end.

(** The type of the objects of a kind. *)
Definition obj (k : kind) : Type :=
  match k with
  | KActionsRunner => ActionsRunner
  | KActionsRunnerJob => ActionsRunnerJob
  | KActionsRunnerReplicaSet => ActionsRunnerReplicaSet
  | KConfigMap => ConfigMap
  | KSecret => Secret
  | KPodDisruptionBudget => PodDisruptionBudget
  | KPersistentVolumeClaim => PersistentVolumeClaim
  | KPod => Pod
  end.

Definition zero_of (k : kind) : object :=
  match k with
  | KActionsRunner => OActionsRunner ActionsRunner_zero
  | KActionsRunnerJob => OActionsRunnerJob ActionsRunnerJob_zero
  | KActionsRunnerReplicaSet => OActionsRunnerReplicaSet ActionsRunnerReplicaSet_zero
  | KConfigMap => OConfigMap ConfigMap_zero
  | KSecret => OSecret Secret_zero
  | KPodDisruptionBudget => OPodDisruptionBudget PodDisruptionBudget_zero
  | KPersistentVolumeClaim => OPersistentVolumeClaim PersistentVolumeClaim_zero
  | KPod => OPod Pod_zero
  end.
End objects.
