(* ===== verification/Controllers.v ===== *)
(** * internal/controller/util.go: what the three controllers share

    The helpers on objects, events and errors, and [kube], the signature of the
    API server's client: its operations are performed by the controllers'
    programs and answered by the server. *)

From S2P Require Export Api.
#[local] Open Scope string_scope.

(** ** The API client *)

Section client.
Context {T : K8sTypes}.

(** [client.Client].  The options are constants ([CreateOpts], [UpdateOpts],
    [DeleteOpts]) and are not repeated at each call; [List] is only used for
    ActionsRunners, by namespace and labels. *)
Inductive kube_op : Type :=
| Get (k : kind) (n : ObjectKey)
| List (namespace : string) (labels : gmap string string)
| Create (o : object)
| Update (o : object)
| StatusUpdate (o : object)
| Delete (o : object).

Definition kube_ans (o : kube_op) : Type :=
  match o with
  | Get k _ => result (obj k)
  | List _ _ => result (list ActionsRunner)
  | Create _ | Update _ | StatusUpdate _ | Delete _ => option error
  end.

Canonical kube : signature := Sig kube_op kube_ans.

#[global] Instance kube_op_eq_dec : EqDecision kube_op.
Proof. solve_decision. Defined.
#[global] Instance kube_eq_dec : EqDecision (sop kube) := kube_op_eq_dec.

(** The objects a trace asked the server to write, by kind of request. *)
Definition creates (tr : trace kube) : list object :=
  omap (fun o => match o with Create x => Some x | _ => None end) (ops tr).
Definition updates (tr : trace kube) : list object :=
  omap (fun o => match o with Update x => Some x | _ => None end) (ops tr).
Definition statusUpdates (tr : trace kube) : list object :=
  omap (fun o => match o with StatusUpdate x => Some x | _ => None end) (ops tr).
Definition deletes (tr : trace kube) : list object :=
  omap (fun o => match o with Delete x => Some x | _ => None end) (ops tr).

(** Reading the writes off a trace, event by event. *)
Lemma creates_cons o r tr :
  creates ((o ↝ r) :: tr) = match o with Create x => x :: creates tr | _ => creates tr end.
Proof. by destruct o. Qed.
Lemma updates_cons o r tr :
  updates ((o ↝ r) :: tr) = match o with Update x => x :: updates tr | _ => updates tr end.
Proof. by destruct o. Qed.
Lemma statusUpdates_cons o r tr :
  statusUpdates ((o ↝ r) :: tr) =
  match o with StatusUpdate x => x :: statusUpdates tr | _ => statusUpdates tr end.
Proof. by destruct o. Qed.
Lemma deletes_cons o r tr :
  deletes ((o ↝ r) :: tr) = match o with Delete x => x :: deletes tr | _ => deletes tr end.
Proof. by destruct o. Qed.
Lemma writes_nil :
  creates [] = [] /\ updates [] = [] /\ statusUpdates [] = [] /\ deletes [] = [].
Proof. done. Qed.
End client.

Arguments creates {_} : simpl never.
Arguments updates {_} : simpl never.
Arguments statusUpdates {_} : simpl never.
Arguments deletes {_} : simpl never.
#[export] Hint Rewrite @creates_cons @updates_cons @statusUpdates_cons @deletes_cons : prog.

(** Compute which objects a trace wrote. *)
Ltac read_writes :=
  autorewrite with prog in *; cbv beta iota in *;
  rewrite ?(proj1 writes_nil), ?(proj1 (proj2 writes_nil)),
    ?(proj1 (proj2 (proj2 writes_nil))), ?(proj2 (proj2 (proj2 writes_nil))) in *.

(** [apierrors.IsNotFound], [apierrors.IsAlreadyExists], [client.IgnoreNotFound] *)
Fixpoint IsNotFound (e : error) : bool :=
  match e with
  | EStatus ReasonNotFound => true
  | EWrap _ inner => IsNotFound inner
  | _ => false
  end.
Fixpoint IsAlreadyExists (e : error) : bool :=
  match e with
  | EStatus ReasonAlreadyExists => true
  | EWrap _ inner => IsAlreadyExists inner
  | _ => false
  end.
Definition IgnoreNotFound (err : goerr) : goerr :=
  match err with
  | Some e => if IsNotFound e then None else Some e
  | None => None
  end.

Definition IgnoreAlreadyExists (err : goerr) : goerr :=
  match err with
  | Some e => if IsAlreadyExists e then None else err
  | None => err
  end.

(** ** Events *)

Section controllers.
Context {T : K8sTypes} {L : K8sLib}.

(** [Event] is an [interface{}]: the four kinds of [event.*Event] or anything. *)
Inductive Event : Type :=
| CreateEvent (Object : ptr object)
| UpdateEvent (ObjectOld ObjectNew : ptr object)
| DeleteEvent (Object : ptr object)
| GenericEvent (Object : ptr object)
| NotAnEvent.

Definition EventObject (e : Event) : ptr object :=
  match e with
  | CreateEvent o => o
  | UpdateEvent _ o => o
  | DeleteEvent o => o
  | GenericEvent o => o
  | NotAnEvent => None
  end.

(** [EventPredicate] implements [predicate.Predicate] by one function. *)
Definition EventPredicate : Type := Event -> bool.
Definition EventPredicate_Create (ep : EventPredicate) (o : ptr object) : bool :=
  ep (CreateEvent o).
Definition EventPredicate_Update (ep : EventPredicate) (old new : ptr object) : bool :=
  ep (UpdateEvent old new).
Definition EventPredicate_Delete (ep : EventPredicate) (o : ptr object) : bool :=
  ep (DeleteEvent o).
Definition EventPredicate_Generic (ep : EventPredicate) (o : ptr object) : bool :=
  ep (GenericEvent o).

(** ** Objects *)

(** [reflect]'s zero test through a pointer; [None] is the nil interface or a
    nil pointer. *)
Definition IsZero (i : ptr object) : bool :=
  match i with
  | None => true
  | Some o => bool_decide (o = zero_of (kind_of o))
  end.

Inductive ReconciliationAction : Type :=
| ReconciliationActionNothing
| ReconciliationActionCreate
| ReconciliationActionUpdate
| ReconciliationActionDelete.

Definition CalculateReconciliationAction (actual desired : ptr object) : ReconciliationAction :=
  let actualIsZero := IsZero actual in
  let desiredIsZero := IsZero desired in
  if actualIsZero && negb desiredIsZero then ReconciliationActionCreate
  else if negb actualIsZero && negb desiredIsZero then ReconciliationActionUpdate
  else if negb actualIsZero && desiredIsZero then ReconciliationActionDelete
  else ReconciliationActionNothing.

Definition IsBeingDeleted (o : ptr object) : bool :=
  match o with
  | None => true
  | Some o =>
      match DeletionTimestamp (meta_of o) with
      | Some t => negb (time_IsZero t)
      | None => false
      end
  end.

Definition HasActionsRunnerRequestedStorage (actionsRunner : ptr ActionsRunner) : bool :=
  match actionsRunner with
  | None => false
  | Some ar =>
      match mlookup (Resources (Spec ar)) "runner" with
      | None => false
      | Some res =>
          match Requests res with
          | None => false
          | Some req =>
              match ResourceList_Storage req with
              | None => false
              | Some s => negb (Quantity_IsZero s)
              end
          end
      end
  end.

(** ** Lemmas *)

Lemma IsBeingDeleted_zero k : IsBeingDeleted (Some (zero_of k)) = false.
Proof. by destruct k. Qed.

Lemma IsZero_zero k : IsZero (Some (zero_of k)) = true.
Proof. destruct k; by apply bool_decide_eq_true. Qed.

(** An object with a name is not zero. *)
Lemma IsZero_named o : Name (meta_of o) <> "" -> IsZero (Some o) = false.
Proof.
  intros Hn. apply bool_decide_eq_false. intros Ho. apply Hn. rewrite Ho.
  by destruct o.
Qed.

Lemma IgnoreNotFound_None err :
  IgnoreNotFound err = None <-> match err with Some e => IsNotFound e = true | None => True end.
Proof. unfold IgnoreNotFound. repeat case_match; naive_solver. Qed.

(** The storage request decides, whatever zero quantity stands for no request. *)
Lemma HasActionsRunnerRequestedStorage_spec `{!K8sLibSpec L} ar :
  HasActionsRunnerRequestedStorage (Some ar) = true <->
  exists res req q,
    mlookup (Resources (Spec ar)) "runner" = Some res /\
    Requests res = Some req /\ req !! ResourceStorage = Some q /\
    Quantity_IsZero q = false.
Proof.
  unfold HasActionsRunnerRequestedStorage.
  destruct (mlookup _ _) as [res|] eqn:Hres; [|naive_solver].
  destruct (Requests res) as [req|] eqn:Hreq; [|naive_solver].
  destruct (ResourceList_Storage_spec req) as (q & -> & Hq).
  destruct (req !! ResourceStorage) as [q'|] eqn:Hl.
  - subst q'. rewrite negb_true_iff. naive_solver.
  - rewrite Hq. naive_solver.
Qed.
End controllers.
