(* ===== verification/Demo.v ===== *)
(** * A concrete instance of the Kubernetes library

    Quantities are integers, opaque values strings, there is one scheme, an
    owner reference is the owner's UID and a map is visited in the order of its
    list of entries.  The examples that evaluate the model run on it. *)

From S2P Require Export Controllers.
#[local] Open Scope string_scope.

Module Demo.
#[export] Instance types : K8sTypes := {|
  Opaque := string;
  Opaque_eq_dec := _;
  opaque_zero := "";
  Quantity := Z;
  Quantity_eq_dec := _;
  Scheme := unit;
|}.

#[export] Instance lib : @K8sLib types :=
  Build_K8sLib types
    (fun q : Z => bool_decide (q = 0))
    (fun l : gmap string Z => Some (default 0 (l !! ResourceStorage)))
    (fun _ owner m _ => Ok (SetOwnerReferences m (Some [UID owner])))
    (fun l => Ok (foldr (fun kv s => kv.1 ++ "=" ++ kv.2 ++ s) "" (map_to_list l)))
    (fun V m => map_to_list m).

#[export] Instance lib_spec : K8sLibSpec lib.
Proof.
  split.
  - intros l. exists (default 0 (l !! ResourceStorage)). split; [done|].
    case_match eqn:E.
    + by apply (f_equal (default (0 : Z))) in E.
    + by apply (f_equal (fun o : option Z => bool_decide (default 0 o = 0))) in E.
  - intros k o m s m' [= <-]. eauto.
  - done.
Qed.

Definition scheme : @Scheme types := tt.
Definition meta (name : string) : ObjectMeta := meta_named name "ci" None.
Definition meta_deleted (name : string) : ObjectMeta :=
  mkObjectMeta name "" "ci" "" "" (Some 1) None None None None.
Definition key (name : string) : ObjectKey := mkKey "ci" name.

(** A spec told apart from others by its version. *)
Definition spec (version : string) : ActionsRunnerSpec :=
  mkActionsRunnerSpec (mkActionsRunnerRepository "inloco" "kube-actions" "")
    (mkActionsRunnerPolicy None None) None None None version None None None None None
    "" None None None.
Definition runner (name version : string) : ActionsRunner :=
  mkActionsRunner TypeMeta_zero (meta name) (spec version).
Definition runner_deleted (name version : string) : ActionsRunner :=
  mkActionsRunner TypeMeta_zero (meta_deleted name) (spec version).

(** A server that answers every read from the objects of [world] and every
    write with the same error or none. *)
Definition not_found {A} : result A := Err (EStatus ReasonNotFound).
Record world : Type := World {
  w_ActionsRunner : result ActionsRunner;
  w_ActionsRunnerJob : result ActionsRunnerJob;
  w_ActionsRunnerReplicaSet : result ActionsRunnerReplicaSet;
  w_ConfigMap : result ConfigMap;
  w_Secret : result Secret;
  w_PodDisruptionBudget : result PodDisruptionBudget;
  w_PersistentVolumeClaim : result PersistentVolumeClaim;
  w_Pod : result Pod;
  w_List : result (list ActionsRunner);
  w_write : goerr;
}.
Definition serve (o : sop kube) (w : world) : sans kube o * world :=
  (match o return sans kube o with
   | Get k _ =>
       match k return result (obj k) with
       | KActionsRunner => w_ActionsRunner w
       | KActionsRunnerJob => w_ActionsRunnerJob w
       | KActionsRunnerReplicaSet => w_ActionsRunnerReplicaSet w
       | KConfigMap => w_ConfigMap w
       | KSecret => w_Secret w
       | KPodDisruptionBudget => w_PodDisruptionBudget w
       | KPersistentVolumeClaim => w_PersistentVolumeClaim w
       | KPod => w_Pod w
       end
   | List _ _ => w_List w
   | Create _ | Update _ | StatusUpdate _ | Delete _ => w_write w
   end, w).
End Demo.
