(* ===== verification/DeepCopy.v ===== *)
(** * api/v1alpha1/zz_generated.deepcopy.go: deep copies

    The program's resources as they lie in memory, with their slices, maps and
    pointers, what they mean in terms of [Api], and the generated [DeepCopyInto],
    [DeepCopy] and [DeepCopyObject].  The types of Kubernetes that they contain
    are parameters, with what is documented of their own deep copies as laws. *)

From S2P Require Export Demo Memory.
#[local] Open Scope string_scope.

(** ** The lists of resources *)

Section lists.
Context {T : K8sTypes}.

(** [metav1.ListMeta] is only carried along. *)
Record ActionsRunnerList : Type := mkActionsRunnerList {
  arl_TypeMeta : TypeMeta;
  arl_ListMeta : Opaque;
  arl_Items : slice ActionsRunner;
}.
Record ActionsRunnerJobList : Type := mkActionsRunnerJobList {
  arjl_TypeMeta : TypeMeta;
  arjl_ListMeta : Opaque;
  arjl_Items : slice ActionsRunnerJob;
}.
Record ActionsRunnerReplicaSetList : Type := mkActionsRunnerReplicaSetList {
  arrsl_TypeMeta : TypeMeta;
  arrsl_ListMeta : Opaque;
  arrsl_Items : slice ActionsRunnerReplicaSet;
}.
End lists.

(** ** Types of Kubernetes *)

Inductive foreign : Type :=
| ForeignObjectMeta
| ForeignListMeta
| ForeignVolume
| ForeignVolumeMount
| ForeignEnvFromSource
| ForeignEnvVar
| ForeignResourceRequirements
| ForeignToleration
| ForeignRest.

#[export] Instance foreign_eq_dec : EqDecision foreign.
Proof. solve_decision. Defined.

Definition meaning {T : K8sTypes} (k : foreign) : Type :=
  match k with
  | ForeignObjectMeta => ObjectMeta
  | ForeignListMeta => Opaque
  | ForeignVolume => Volume
  | ForeignVolumeMount => VolumeMount
  | ForeignEnvFromSource => EnvFromSource
  | ForeignEnvVar => EnvVar
  | ForeignResourceRequirements => ResourceRequirements
  | ForeignToleration => Toleration
  | ForeignRest => Opaque
  end.

(** How they lie in memory, and the objects that they keep there. *)
Class ForeignTypes : Type := {
  raw : foreign -> Type;
  raw_zero : forall k, raw k;
  ForeignObject : Type;
}.

(** ** The program's types in memory *)

Section types.
Context {T : K8sTypes} {F : ForeignTypes}.

Record NodeSelectorRequirementM : Type := mkNodeSelectorRequirementM {
  m_Key : string;
  m_Operator : string;
  m_Values : ptr (window string);
}.
Record NodeSelectorTermM : Type := mkNodeSelectorTermM {
  m_MatchExpressions : ptr (window NodeSelectorRequirementM);
  m_nst_rest : raw ForeignRest;
}.
Record NodeSelectorM : Type := mkNodeSelectorM {
  m_NodeSelectorTerms : ptr (window NodeSelectorTermM);
}.
Record NodeAffinityM : Type := mkNodeAffinityM {
  m_RequiredDuringSchedulingIgnoredDuringExecution : ptr (pointer NodeSelectorM);
  m_na_rest : raw ForeignRest;
}.
Record AffinityM : Type := mkAffinityM {
  m_NodeAffinity : ptr (pointer NodeAffinityM);
  m_aff_rest : raw ForeignRest;
}.

Record ActionsRunnerPolicyM : Type := mkActionsRunnerPolicyM {
  m_Must : ptr (window ActionsRunnerPolicyRule);
  m_MustNot : ptr (window ActionsRunnerPolicyRule);
}.
Record ActionsRunnerSpecM : Type := mkActionsRunnerSpecM {
  m_Repository : ActionsRunnerRepository;
  m_Policy : ActionsRunnerPolicyM;
  m_Capabilities : ptr (window ActionsRunnerCapability);
  m_Annotations : ptr (hashmap string);
  m_Labels : ptr (window string);
  m_Version : string;
  m_Volumes : ptr (window (raw ForeignVolume));
  m_VolumeMounts : ptr (window (raw ForeignVolumeMount));
  m_EnvFrom : ptr (window (raw ForeignEnvFromSource));
  m_Env : ptr (window (raw ForeignEnvVar));
  m_Resources : ptr (hashmap (raw ForeignResourceRequirements));
  m_ServiceAccountName : string;
  m_Affinity : ptr (pointer AffinityM);
  m_Tolerations : ptr (window (raw ForeignToleration));
  m_NodeSelector : ptr (hashmap string);
}.
Record ActionsRunnerM : Type := mkActionsRunnerM {
  m_ar_TypeMeta : TypeMeta;
  m_ar_ObjectMeta : raw ForeignObjectMeta;
  m_Spec : ActionsRunnerSpecM;
}.
Record ActionsRunnerJobM : Type := mkActionsRunnerJobM {
  m_arj_TypeMeta : TypeMeta;
  m_arj_ObjectMeta : raw ForeignObjectMeta;
  m_arj_Status : ActionsRunnerJobStatus;
}.
Record ActionsRunnerReplicaSetSpecM : Type := mkActionsRunnerReplicaSetSpecM {
  m_Replicas : Z;
  m_Template : ActionsRunnerSpecM;
}.
Record ActionsRunnerReplicaSetM : Type := mkActionsRunnerReplicaSetM {
  m_arrs_TypeMeta : TypeMeta;
  m_arrs_ObjectMeta : raw ForeignObjectMeta;
  m_arrs_Spec : ActionsRunnerReplicaSetSpecM;
  m_arrs_Status : ActionsRunnerReplicaSetStatus;
}.
Record ActionsRunnerListM : Type := mkActionsRunnerListM {
  m_arl_TypeMeta : TypeMeta;
  m_arl_ListMeta : raw ForeignListMeta;
  m_arl_Items : ptr (window ActionsRunnerM);
}.
Record ActionsRunnerJobListM : Type := mkActionsRunnerJobListM {
  m_arjl_TypeMeta : TypeMeta;
  m_arjl_ListMeta : raw ForeignListMeta;
  m_arjl_Items : ptr (window ActionsRunnerJobM);
}.
Record ActionsRunnerReplicaSetListM : Type := mkActionsRunnerReplicaSetListM {
  m_arrsl_TypeMeta : TypeMeta;
  m_arrsl_ListMeta : raw ForeignListMeta;
  m_arrsl_Items : ptr (window ActionsRunnerReplicaSetM);
}.

(** [ActionsRunnerStatus] and [ActionsRunnerJobSpec] have no field. *)
Definition ActionsRunnerStatus : Type := unit.
Definition ActionsRunnerJobSpec : Type := unit.

(** The objects in memory: an array of each type, of which a struct by itself is
    one of length one, and the two kinds of maps. *)
Inductive cell : Type :=
| CStrings (l : list string)
| CStringMap (m : gmap string string)
| CResourceMap (m : gmap string (raw ForeignResourceRequirements))
| CForeign (k : foreign) (l : list (raw k))
| CForeignObject (o : ForeignObject)
| CRequirements (l : list NodeSelectorRequirementM)
| CTerms (l : list NodeSelectorTermM)
| CNodeSelectors (l : list NodeSelectorM)
| CNodeAffinities (l : list NodeAffinityM)
| CAffinities (l : list AffinityM)
| CRepositories (l : list ActionsRunnerRepository)
| CPolicies (l : list ActionsRunnerPolicyM)
| CSpecs (l : list ActionsRunnerSpecM)
| CEmpty (l : list unit)
| CJobStatuses (l : list ActionsRunnerJobStatus)
| CSetSpecs (l : list ActionsRunnerReplicaSetSpecM)
| CSetStatuses (l : list ActionsRunnerReplicaSetStatus)
| CRunners (l : list ActionsRunnerM)
| CJobs (l : list ActionsRunnerJobM)
| CSets (l : list ActionsRunnerReplicaSetM)
| CRunnerLists (l : list ActionsRunnerListM)
| CJobLists (l : list ActionsRunnerJobListM)
| CSetLists (l : list ActionsRunnerReplicaSetListM).

(** *** Zero values and arrays *)

#[global] Instance string_stored : Stored cell string := {|
  zero_value := ""; array_cell := CStrings;
  array_of c := match c with CStrings l => Some l | _ => None end;
  array_of_cell _ := eq_refl |}.
#[global] Instance string_map_stored : StoredMap cell string := {|
  map_cell := CStringMap; map_of c := match c with CStringMap m => Some m | _ => None end;
  map_of_cell _ := eq_refl |}.
#[global] Instance resource_map_stored : StoredMap cell (raw ForeignResourceRequirements) := {|
  map_cell := CResourceMap; map_of c := match c with CResourceMap m => Some m | _ => None end;
  map_of_cell _ := eq_refl |}.

Definition foreign_of (k : foreign) (c : cell) : option (list (raw k)) :=
  match c with
  | CForeign k' l =>
      match decide (k' = k) with
      | left e => Some (eq_rect k' (fun k => list (raw k)) l k e)
      | right _ => None
      end
  | _ => None
  end.
#[global] Program Instance foreign_stored k : Stored cell (raw k) := {|
  zero_value := raw_zero k; array_cell := CForeign k; array_of := foreign_of k |}.
Next Obligation.
  intros k l. cbn. destruct (decide (k = k)) as [e|]; [|done].
  by rewrite (Eqdep_dec.UIP_dec foreign_eq_dec e eq_refl).
Qed.

#[global] Instance NodeSelectorRequirementM_stored : Stored cell NodeSelectorRequirementM := {|
  zero_value := mkNodeSelectorRequirementM "" "" None; array_cell := CRequirements;
  array_of c := match c with CRequirements l => Some l | _ => None end;
  array_of_cell _ := eq_refl |}.
#[global] Instance NodeSelectorTermM_stored : Stored cell NodeSelectorTermM := {|
  zero_value := mkNodeSelectorTermM None (raw_zero _); array_cell := CTerms;
  array_of c := match c with CTerms l => Some l | _ => None end;
  array_of_cell _ := eq_refl |}.
#[global] Instance NodeSelectorM_stored : Stored cell NodeSelectorM := {|
  zero_value := mkNodeSelectorM None; array_cell := CNodeSelectors;
  array_of c := match c with CNodeSelectors l => Some l | _ => None end;
  array_of_cell _ := eq_refl |}.
#[global] Instance NodeAffinityM_stored : Stored cell NodeAffinityM := {|
  zero_value := mkNodeAffinityM None (raw_zero _); array_cell := CNodeAffinities;
  array_of c := match c with CNodeAffinities l => Some l | _ => None end;
  array_of_cell _ := eq_refl |}.
#[global] Instance AffinityM_stored : Stored cell AffinityM := {|
  zero_value := mkAffinityM None (raw_zero _); array_cell := CAffinities;
  array_of c := match c with CAffinities l => Some l | _ => None end;
  array_of_cell _ := eq_refl |}.

Definition ActionsRunnerSpecM_zero : ActionsRunnerSpecM :=
  mkActionsRunnerSpecM (mkActionsRunnerRepository "" "" "") (mkActionsRunnerPolicyM None None)
    None None None "" None None None None None "" None None None.

#[global] Instance ActionsRunnerRepository_stored : Stored cell ActionsRunnerRepository := {|
  zero_value := mkActionsRunnerRepository "" "" ""; array_cell := CRepositories;
  array_of c := match c with CRepositories l => Some l | _ => None end;
  array_of_cell _ := eq_refl |}.
#[global] Instance ActionsRunnerPolicyM_stored : Stored cell ActionsRunnerPolicyM := {|
  zero_value := mkActionsRunnerPolicyM None None; array_cell := CPolicies;
  array_of c := match c with CPolicies l => Some l | _ => None end;
  array_of_cell _ := eq_refl |}.
#[global] Instance ActionsRunnerSpecM_stored : Stored cell ActionsRunnerSpecM := {|
  zero_value := ActionsRunnerSpecM_zero; array_cell := CSpecs;
  array_of c := match c with CSpecs l => Some l | _ => None end;
  array_of_cell _ := eq_refl |}.
#[global] Instance unit_stored : Stored cell unit := {|
  zero_value := tt; array_cell := CEmpty;
  array_of c := match c with CEmpty l => Some l | _ => None end;
  array_of_cell _ := eq_refl |}.
#[global] Instance ActionsRunnerJobStatus_stored : Stored cell ActionsRunnerJobStatus := {|
  zero_value := mkActionsRunnerJobStatus "" ""; array_cell := CJobStatuses;
  array_of c := match c with CJobStatuses l => Some l | _ => None end;
  array_of_cell _ := eq_refl |}.
#[global] Instance ActionsRunnerReplicaSetSpecM_stored : Stored cell ActionsRunnerReplicaSetSpecM := {|
  zero_value := mkActionsRunnerReplicaSetSpecM 0 ActionsRunnerSpecM_zero; array_cell := CSetSpecs;
  array_of c := match c with CSetSpecs l => Some l | _ => None end;
  array_of_cell _ := eq_refl |}.
#[global] Instance ActionsRunnerReplicaSetStatus_stored : Stored cell ActionsRunnerReplicaSetStatus := {|
  zero_value := mkActionsRunnerReplicaSetStatus 0 ""; array_cell := CSetStatuses;
  array_of c := match c with CSetStatuses l => Some l | _ => None end;
  array_of_cell _ := eq_refl |}.
#[global] Instance ActionsRunnerM_stored : Stored cell ActionsRunnerM := {|
  zero_value := mkActionsRunnerM TypeMeta_zero (raw_zero _) ActionsRunnerSpecM_zero; array_cell := CRunners;
  array_of c := match c with CRunners l => Some l | _ => None end;
  array_of_cell _ := eq_refl |}.
#[global] Instance ActionsRunnerJobM_stored : Stored cell ActionsRunnerJobM := {|
  zero_value := mkActionsRunnerJobM TypeMeta_zero (raw_zero _) (mkActionsRunnerJobStatus "" "");
  array_cell := CJobs; array_of c := match c with CJobs l => Some l | _ => None end;
  array_of_cell _ := eq_refl |}.
#[global] Instance ActionsRunnerReplicaSetM_stored : Stored cell ActionsRunnerReplicaSetM := {|
  zero_value := mkActionsRunnerReplicaSetM TypeMeta_zero (raw_zero _)
            (mkActionsRunnerReplicaSetSpecM 0 ActionsRunnerSpecM_zero)
            (mkActionsRunnerReplicaSetStatus 0 "");
  array_cell := CSets; array_of c := match c with CSets l => Some l | _ => None end;
  array_of_cell _ := eq_refl |}.
#[global] Instance ActionsRunnerListM_stored : Stored cell ActionsRunnerListM := {|
  zero_value := mkActionsRunnerListM TypeMeta_zero (raw_zero _) None; array_cell := CRunnerLists;
  array_of c := match c with CRunnerLists l => Some l | _ => None end;
  array_of_cell _ := eq_refl |}.
#[global] Instance ActionsRunnerJobListM_stored : Stored cell ActionsRunnerJobListM := {|
  zero_value := mkActionsRunnerJobListM TypeMeta_zero (raw_zero _) None; array_cell := CJobLists;
  array_of c := match c with CJobLists l => Some l | _ => None end;
  array_of_cell _ := eq_refl |}.
#[global] Instance ActionsRunnerReplicaSetListM_stored : Stored cell ActionsRunnerReplicaSetListM := {|
  zero_value := mkActionsRunnerReplicaSetListM TypeMeta_zero (raw_zero _) None; array_cell := CSetLists;
  array_of c := match c with CSetLists l => Some l | _ => None end;
  array_of_cell _ := eq_refl |}.
End types.

(** ** The library's deep copies *)

Class ForeignLib {T : K8sTypes} {F : ForeignTypes} : Type := {
  (** what the types of Kubernetes mean *)
  foreign_reader k : Reader cell (raw k) (meaning k);
  (** what their [DeepCopyInto] writes *)
  foreign_copy k : raw k -> action cell (raw k);
  Affinity_DeepCopyInto : AffinityM -> action cell AffinityM;
}.

(** ** What the program's types mean *)

Section readers.
Context {T : K8sTypes} {F : ForeignTypes} {L : ForeignLib}.

#[global] Instance meta_reader : Reader cell (raw ForeignObjectMeta) ObjectMeta := foreign_reader ForeignObjectMeta.
#[global] Instance list_meta_reader : Reader cell (raw ForeignListMeta) Opaque := foreign_reader ForeignListMeta.
#[global] Instance volume_reader : Reader cell (raw ForeignVolume) Volume := foreign_reader ForeignVolume.
#[global] Instance mount_reader : Reader cell (raw ForeignVolumeMount) VolumeMount := foreign_reader ForeignVolumeMount.
#[global] Instance env_from_reader : Reader cell (raw ForeignEnvFromSource) EnvFromSource := foreign_reader ForeignEnvFromSource.
#[global] Instance env_reader : Reader cell (raw ForeignEnvVar) EnvVar := foreign_reader ForeignEnvVar.
#[global] Instance resources_reader : Reader cell (raw ForeignResourceRequirements) ResourceRequirements := foreign_reader ForeignResourceRequirements.
#[global] Instance toleration_reader : Reader cell (raw ForeignToleration) Toleration := foreign_reader ForeignToleration.
#[global] Instance rest_reader : Reader cell (raw ForeignRest) Opaque := foreign_reader ForeignRest.

#[global] Instance requirement_reader : Reader cell NodeSelectorRequirementM NodeSelectorRequirement :=
  struct (fun r a => m_Key r = nsr_Key a /\ m_Operator r = nsr_Operator a) m_Values nsr_Values.
#[global] Instance term_reader : Reader cell NodeSelectorTermM NodeSelectorTerm :=
  struct (fun _ _ => True)
    (fun r => (m_MatchExpressions r, m_nst_rest r)) (fun a => (MatchExpressions a, nst_rest a)).
#[global] Instance selector_reader : Reader cell NodeSelectorM (slice NodeSelectorTerm) :=
  struct (fun _ _ => True) m_NodeSelectorTerms id.
#[global] Instance node_affinity_reader : Reader cell NodeAffinityM NodeAffinity :=
  struct (fun _ _ => True)
    (fun r => (m_RequiredDuringSchedulingIgnoredDuringExecution r, m_na_rest r))
    (fun a => (RequiredTerms a, na_rest a)).
#[global] Instance affinity_reader : Reader cell AffinityM Affinity :=
  struct (fun _ _ => True)
    (fun r => (m_NodeAffinity r, m_aff_rest r)) (fun a => (aff_NodeAffinity a, aff_rest a)).

#[global] Instance repository_reader : Reader cell ActionsRunnerRepository ActionsRunnerRepository :=
  plain _.
#[global] Instance policy_reader : Reader cell ActionsRunnerPolicyM ActionsRunnerPolicy :=
  struct (fun _ _ => True) (fun r => (m_Must r, m_MustNot r)) (fun a => (Must a, MustNot a)).
#[global] Instance spec_reader : Reader cell ActionsRunnerSpecM ActionsRunnerSpec :=
  struct (fun r a => m_Repository r = Repository a /\ m_Version r = Version a /\
                     m_ServiceAccountName r = ServiceAccountName a)
    (fun r => (m_Policy r, (m_Capabilities r, (m_Annotations r, (m_Labels r, (m_Volumes r,
       (m_VolumeMounts r, (m_EnvFrom r, (m_Env r, (m_Resources r, (m_Affinity r,
       (m_Tolerations r, m_NodeSelector r))))))))))))
    (fun a => (Policy a, (Capabilities a, (spec_Annotations a, (spec_Labels a,
       (Volumes a,
       (VolumeMounts a, (EnvFrom a, (Env a, (Resources a, (spec_Affinity a,
       (Tolerations a, NodeSelector a)))))))))))).
#[global] Instance runner_reader : Reader cell ActionsRunnerM ActionsRunner :=
  struct (fun r a => m_ar_TypeMeta r = ar_TypeMeta a)
    (fun r => (m_ar_ObjectMeta r, m_Spec r)) (fun a => (ar_ObjectMeta a, Spec a)).
#[global] Instance job_reader : Reader cell ActionsRunnerJobM ActionsRunnerJob :=
  struct (fun r a => m_arj_TypeMeta r = arj_TypeMeta a /\ m_arj_Status r = arj_Status a)
    m_arj_ObjectMeta arj_ObjectMeta.
#[global] Instance set_spec_reader : Reader cell ActionsRunnerReplicaSetSpecM ActionsRunnerReplicaSetSpec :=
  struct (fun r a => m_Replicas r = Replicas a) m_Template Template.
#[global] Instance set_reader : Reader cell ActionsRunnerReplicaSetM ActionsRunnerReplicaSet :=
  struct (fun r a => m_arrs_TypeMeta r = arrs_TypeMeta a /\ m_arrs_Status r = arrs_Status a)
    (fun r => (m_arrs_ObjectMeta r, m_arrs_Spec r)) (fun a => (arrs_ObjectMeta a, arrs_Spec a)).
#[global] Instance runner_list_reader : Reader cell ActionsRunnerListM ActionsRunnerList :=
  struct (fun r a => m_arl_TypeMeta r = arl_TypeMeta a)
    (fun r => (m_arl_ListMeta r, m_arl_Items r)) (fun a => (arl_ListMeta a, arl_Items a)).
#[global] Instance job_list_reader : Reader cell ActionsRunnerJobListM ActionsRunnerJobList :=
  struct (fun r a => m_arjl_TypeMeta r = arjl_TypeMeta a)
    (fun r => (m_arjl_ListMeta r, m_arjl_Items r)) (fun a => (arjl_ListMeta a, arjl_Items a)).
#[global] Instance set_list_reader : Reader cell ActionsRunnerReplicaSetListM ActionsRunnerReplicaSetList :=
  struct (fun r a => m_arrsl_TypeMeta r = arrsl_TypeMeta a)
    (fun r => (m_arrsl_ListMeta r, m_arrsl_Items r)) (fun a => (arrsl_ListMeta a, arrsl_Items a)).
End readers.

(** What is documented of the library's: its copies are deep, and the zero value
    of what is only carried along keeps nothing in memory. *)
Class ForeignLaws {T : K8sTypes} {F : ForeignTypes} (L : ForeignLib) : Prop := {
  foreign_copies k : @copies _ _ _ (foreign_reader k) (foreign_copy k);
  Affinity_copies : copies Affinity_DeepCopyInto;
  zero_rest m : reads m (raw_zero ForeignRest) opaque_zero [];
}.

(** ** The generated code *)

Section generated.
Context {T : K8sTypes} {F : ForeignTypes} {L : ForeignLib} {Rt : Runtime cell}.

(** [DeepCopyInto] reads the struct behind [in] and says what it leaves in the one
    behind [out]: [in]'s fields, replaced by what is assigned to them. *)

Definition ActionsRunnerRepository_DeepCopyInto (in_ : ActionsRunnerRepository)
    : action cell ActionsRunnerRepository := ret in_.

Definition ActionsRunnerPolicy_DeepCopyInto (in_ : ActionsRunnerPolicyM)
    : action cell ActionsRunnerPolicyM :=
  let& must := copy_slice ret (m_Must in_) in
  let& mustNot := copy_slice ret (m_MustNot in_) in
  ret (mkActionsRunnerPolicyM must mustNot).

(** [new(ResourceRequirements)] of the value's own [DeepCopy] is part of the
    library's copy. *)
Definition ActionsRunnerSpec_DeepCopyInto (in_ : ActionsRunnerSpecM) : action cell ActionsRunnerSpecM :=
  let& policy := ActionsRunnerPolicy_DeepCopyInto (m_Policy in_) in
  let& capabilities := copy_slice ret (m_Capabilities in_) in
  let& annotations := copy_map ret (m_Annotations in_) in
  let& labels := copy_slice ret (m_Labels in_) in
  let& volumes := copy_slice (foreign_copy ForeignVolume) (m_Volumes in_) in
  let& volumeMounts := copy_slice (foreign_copy ForeignVolumeMount) (m_VolumeMounts in_) in
  let& envFrom := copy_slice (foreign_copy ForeignEnvFromSource) (m_EnvFrom in_) in
  let& env := copy_slice (foreign_copy ForeignEnvVar) (m_Env in_) in
  let& resources := copy_map (foreign_copy ForeignResourceRequirements) (m_Resources in_) in
  let& affinity := copy_ptr Affinity_DeepCopyInto (m_Affinity in_) in
  let& tolerations := copy_slice (foreign_copy ForeignToleration) (m_Tolerations in_) in
  let& nodeSelector := copy_map ret (m_NodeSelector in_) in
  ret (mkActionsRunnerSpecM (m_Repository in_) policy capabilities annotations labels
         (m_Version in_) volumes volumeMounts envFrom env resources (m_ServiceAccountName in_)
         affinity tolerations nodeSelector).

Definition ActionsRunnerStatus_DeepCopyInto (in_ : ActionsRunnerStatus)
    : action cell ActionsRunnerStatus := ret in_.

Definition ActionsRunner_DeepCopyInto (in_ : ActionsRunnerM) : action cell ActionsRunnerM :=
  let& objectMeta := foreign_copy ForeignObjectMeta (m_ar_ObjectMeta in_) in
  let& spec := ActionsRunnerSpec_DeepCopyInto (m_Spec in_) in
  ret (mkActionsRunnerM (m_ar_TypeMeta in_) objectMeta spec).

Definition ActionsRunnerJobSpec_DeepCopyInto (in_ : ActionsRunnerJobSpec)
    : action cell ActionsRunnerJobSpec := ret in_.
Definition ActionsRunnerJobStatus_DeepCopyInto (in_ : ActionsRunnerJobStatus)
    : action cell ActionsRunnerJobStatus := ret in_.

Definition ActionsRunnerJob_DeepCopyInto (in_ : ActionsRunnerJobM) : action cell ActionsRunnerJobM :=
  let& objectMeta := foreign_copy ForeignObjectMeta (m_arj_ObjectMeta in_) in
  ret (mkActionsRunnerJobM (m_arj_TypeMeta in_) objectMeta (m_arj_Status in_)).

Definition ActionsRunnerReplicaSetSpec_DeepCopyInto (in_ : ActionsRunnerReplicaSetSpecM)
    : action cell ActionsRunnerReplicaSetSpecM :=
  let& template := ActionsRunnerSpec_DeepCopyInto (m_Template in_) in
  ret (mkActionsRunnerReplicaSetSpecM (m_Replicas in_) template).
Definition ActionsRunnerReplicaSetStatus_DeepCopyInto (in_ : ActionsRunnerReplicaSetStatus)
    : action cell ActionsRunnerReplicaSetStatus := ret in_.

Definition ActionsRunnerReplicaSet_DeepCopyInto (in_ : ActionsRunnerReplicaSetM)
    : action cell ActionsRunnerReplicaSetM :=
  let& objectMeta := foreign_copy ForeignObjectMeta (m_arrs_ObjectMeta in_) in
  let& spec := ActionsRunnerReplicaSetSpec_DeepCopyInto (m_arrs_Spec in_) in
  ret (mkActionsRunnerReplicaSetM (m_arrs_TypeMeta in_) objectMeta spec (m_arrs_Status in_)).

Definition ActionsRunnerList_DeepCopyInto (in_ : ActionsRunnerListM) : action cell ActionsRunnerListM :=
  let& listMeta := foreign_copy ForeignListMeta (m_arl_ListMeta in_) in
  let& items := copy_slice ActionsRunner_DeepCopyInto (m_arl_Items in_) in
  ret (mkActionsRunnerListM (m_arl_TypeMeta in_) listMeta items).
Definition ActionsRunnerJobList_DeepCopyInto (in_ : ActionsRunnerJobListM)
    : action cell ActionsRunnerJobListM :=
  let& listMeta := foreign_copy ForeignListMeta (m_arjl_ListMeta in_) in
  let& items := copy_slice ActionsRunnerJob_DeepCopyInto (m_arjl_Items in_) in
  ret (mkActionsRunnerJobListM (m_arjl_TypeMeta in_) listMeta items).
Definition ActionsRunnerReplicaSetList_DeepCopyInto (in_ : ActionsRunnerReplicaSetListM)
    : action cell ActionsRunnerReplicaSetListM :=
  let& listMeta := foreign_copy ForeignListMeta (m_arrsl_ListMeta in_) in
  let& items := copy_slice ActionsRunnerReplicaSet_DeepCopyInto (m_arrsl_Items in_) in
  ret (mkActionsRunnerReplicaSetListM (m_arrsl_TypeMeta in_) listMeta items).

(** [DeepCopy]: nil for nil, and otherwise what [new] gives, copied into. *)

Definition ActionsRunnerRepository_DeepCopy := copy_ptr ActionsRunnerRepository_DeepCopyInto.
Definition ActionsRunnerPolicy_DeepCopy := copy_ptr ActionsRunnerPolicy_DeepCopyInto.
Definition ActionsRunnerSpec_DeepCopy := copy_ptr ActionsRunnerSpec_DeepCopyInto.
Definition ActionsRunnerStatus_DeepCopy := copy_ptr ActionsRunnerStatus_DeepCopyInto.
Definition ActionsRunner_DeepCopy := copy_ptr ActionsRunner_DeepCopyInto.
Definition ActionsRunnerJobSpec_DeepCopy := copy_ptr ActionsRunnerJobSpec_DeepCopyInto.
Definition ActionsRunnerJobStatus_DeepCopy := copy_ptr ActionsRunnerJobStatus_DeepCopyInto.
Definition ActionsRunnerJob_DeepCopy := copy_ptr ActionsRunnerJob_DeepCopyInto.
Definition ActionsRunnerReplicaSetSpec_DeepCopy := copy_ptr ActionsRunnerReplicaSetSpec_DeepCopyInto.
Definition ActionsRunnerReplicaSetStatus_DeepCopy :=
  copy_ptr ActionsRunnerReplicaSetStatus_DeepCopyInto.
Definition ActionsRunnerReplicaSet_DeepCopy := copy_ptr ActionsRunnerReplicaSet_DeepCopyInto.
Definition ActionsRunnerList_DeepCopy := copy_ptr ActionsRunnerList_DeepCopyInto.
Definition ActionsRunnerJobList_DeepCopy := copy_ptr ActionsRunnerJobList_DeepCopyInto.
Definition ActionsRunnerReplicaSetList_DeepCopy := copy_ptr ActionsRunnerReplicaSetList_DeepCopyInto.

(** A [runtime.Object] that is not nil; the pointer in it may be. *)
Inductive Object : Type :=
| RunnerObject (p : ptr (pointer ActionsRunnerM))
| JobObject (p : ptr (pointer ActionsRunnerJobM))
| SetObject (p : ptr (pointer ActionsRunnerReplicaSetM))
| RunnerListObject (p : ptr (pointer ActionsRunnerListM))
| JobListObject (p : ptr (pointer ActionsRunnerJobListM))
| SetListObject (p : ptr (pointer ActionsRunnerReplicaSetListM)).

(** [if c := in.DeepCopy(); c != nil { return c }; return nil]: the nil that is
    returned is a nil interface. *)
Definition unless_nil {X} (wrap : ptr (pointer X) -> Object) (c : ptr (pointer X)) : ptr Object :=
  match c with Some _ => Some (wrap c) | None => None end.

Definition ActionsRunner_DeepCopyObject in_ :=
  let& c := ActionsRunner_DeepCopy in_ in ret (unless_nil RunnerObject c).
Definition ActionsRunnerJob_DeepCopyObject in_ :=
  let& c := ActionsRunnerJob_DeepCopy in_ in ret (unless_nil JobObject c).
Definition ActionsRunnerReplicaSet_DeepCopyObject in_ :=
  let& c := ActionsRunnerReplicaSet_DeepCopy in_ in ret (unless_nil SetObject c).
Definition ActionsRunnerList_DeepCopyObject in_ :=
  let& c := ActionsRunnerList_DeepCopy in_ in ret (unless_nil RunnerListObject c).
Definition ActionsRunnerJobList_DeepCopyObject in_ :=
  let& c := ActionsRunnerJobList_DeepCopy in_ in ret (unless_nil JobListObject c).
Definition ActionsRunnerReplicaSetList_DeepCopyObject in_ :=
  let& c := ActionsRunnerReplicaSetList_DeepCopy in_ in ret (unless_nil SetListObject c).

(** [o.DeepCopyObject()] of the interface *)
Definition DeepCopyObject (o : Object) : action cell (ptr Object) :=
  match o with
  | RunnerObject p => ActionsRunner_DeepCopyObject p
  | JobObject p => ActionsRunnerJob_DeepCopyObject p
  | SetObject p => ActionsRunnerReplicaSet_DeepCopyObject p
  | RunnerListObject p => ActionsRunnerList_DeepCopyObject p
  | JobListObject p => ActionsRunnerJobList_DeepCopyObject p
  | SetListObject p => ActionsRunnerReplicaSetList_DeepCopyObject p
  end.
End generated.

(** ** Deep copies are deep *)

Section shape_copies.
Context {T : K8sTypes} {F : ForeignTypes} {Rt : Runtime cell}.
Implicit Types (m : memory cell) (fp : list addr).

Class Copies `{Reader cell R A} (copy : R -> action cell R) : Prop := copies_hold : copies copy.
Lemma copies_reads `{Reader cell R A} (copy : R -> action cell R) m r (a : A) fp :
  Copies copy -> reads m r a fp -> yields (copy r) m (fun m' r' fp' => reads m' r' a fp').
Proof. intros Hc. apply Hc. Qed.

#[global] Instance slice_copies `{Reader cell R A, !Stored cell R} (copy : R -> action cell R) :
  Copies (A := A) copy -> Copies (A := slice A) (copy_slice copy).
Proof. apply copy_slice_copies. Qed.
#[global] Instance map_copies `{Reader cell R A, !StoredMap cell R} (copy : R -> action cell R) :
  Copies (A := A) copy -> Copies (A := gomap A) (copy_map copy).
Proof. apply copy_map_copies. Qed.
#[global] Instance ptr_copies `{Reader cell R A, !Stored cell R} (copy : R -> action cell R) :
  Copies (A := A) copy -> Copies (A := ptr A) (copy_ptr copy).
Proof. apply copy_ptr_copies. Qed.
#[global] Instance string_copies : Copies (R := string) ret.
Proof. apply copy_string. Qed.
End shape_copies.

(** The parts of a struct, read in the memory that the copy so far has ended in. *)
Ltac grown := first [reflexivity|eassumption|etransitivity; [eassumption|grown]].
Ltac still_read :=
  match goal with H : reads _ _ _ _ |- _ => eapply (reads_mono _ _ _ _ _ H); solve [grown] end.

(** One field after the other: each is read, copied, and read again. *)
Ltac copy_field :=
  eapply yields_bind; [eapply copies_reads; [typeclasses eauto|still_read]|];
  let m := fresh "m" in let x := fresh "x" in let fp := fresh "fp" in
  intros m x fp ? ?; cbn beta in *.
Ltac copied :=
  apply yields_ret; rewrite ?app_nil_r; split; [hnf; by repeat split_and|]; cbn beta;
  repeat (eexists _, _; split; [still_read|split; [|reflexivity]]); still_read.

Section copies.
Context {T : K8sTypes} {F : ForeignTypes} {L : ForeignLib} {Rt : Runtime cell} {Laws : ForeignLaws L}.
Implicit Types (m : memory cell) (fp : list addr).

#[global] Instance meta_copies : Copies (foreign_copy ForeignObjectMeta).
Proof. apply (foreign_copies ForeignObjectMeta). Qed.
#[global] Instance list_meta_copies : Copies (foreign_copy ForeignListMeta).
Proof. apply (foreign_copies ForeignListMeta). Qed.
#[global] Instance volume_copies : Copies (foreign_copy ForeignVolume).
Proof. apply (foreign_copies ForeignVolume). Qed.
#[global] Instance mount_copies : Copies (foreign_copy ForeignVolumeMount).
Proof. apply (foreign_copies ForeignVolumeMount). Qed.
#[global] Instance env_from_copies : Copies (foreign_copy ForeignEnvFromSource).
Proof. apply (foreign_copies ForeignEnvFromSource). Qed.
#[global] Instance env_copies : Copies (foreign_copy ForeignEnvVar).
Proof. apply (foreign_copies ForeignEnvVar). Qed.
#[global] Instance resources_copies : Copies (foreign_copy ForeignResourceRequirements).
Proof. apply (foreign_copies ForeignResourceRequirements). Qed.
#[global] Instance toleration_copies : Copies (foreign_copy ForeignToleration).
Proof. apply (foreign_copies ForeignToleration). Qed.
#[global] Instance affinity_copies : Copies Affinity_DeepCopyInto.
Proof. apply Affinity_copies. Qed.

#[global] Instance policy_copies : Copies ActionsRunnerPolicy_DeepCopyInto.
Proof.
  intros m r a fp [_ (fp1 & fp2 & H1 & H2 & ->)]. cbn [fst snd] in *.
  unfold ActionsRunnerPolicy_DeepCopyInto. copy_field. copy_field. copied.
Qed.
#[global] Instance spec_copies : Copies ActionsRunnerSpec_DeepCopyInto.
Proof.
  intros m r a fp [(Hr & Hv & Hs) (fp1 & ? & ? & (fp2 & ? & ? & (fp3 & ? & ? & (fp4 & ? & ? &
    (fp5 & ? & ? & (fp6 & ? & ? & (fp7 & ? & ? & (fp8 & ? & ? & (fp9 & ? & ? & (fp10 & ? & ? &
    (fp11 & fp12 & ? & ? & ?) & ?) & ?) & ?) & ?) & ?) & ?) & ?) & ?) & ?) & ?)]. cbn [fst snd] in *.
  unfold ActionsRunnerSpec_DeepCopyInto. do 12 copy_field. copied.
Qed.
#[global] Instance runner_copies : Copies ActionsRunner_DeepCopyInto.
Proof.
  intros m r a fp [? (fp1 & fp2 & ? & ? & ?)]. cbn [fst snd] in *.
  unfold ActionsRunner_DeepCopyInto. do 2 copy_field. copied.
Qed.
#[global] Instance job_copies : Copies ActionsRunnerJob_DeepCopyInto.
Proof.
  intros m r a fp [[??] ?]. unfold ActionsRunnerJob_DeepCopyInto. copy_field. copied.
Qed.
#[global] Instance set_spec_copies : Copies ActionsRunnerReplicaSetSpec_DeepCopyInto.
Proof.
  intros m r a fp [??]. unfold ActionsRunnerReplicaSetSpec_DeepCopyInto. copy_field. copied.
Qed.
#[global] Instance set_copies : Copies ActionsRunnerReplicaSet_DeepCopyInto.
Proof.
  intros m r a fp [[??] (fp1 & fp2 & ? & ? & ?)]. cbn [fst snd] in *.
  unfold ActionsRunnerReplicaSet_DeepCopyInto. do 2 copy_field. copied.
Qed.
#[global] Instance runner_list_copies : Copies ActionsRunnerList_DeepCopyInto.
Proof.
  intros m r a fp [? (fp1 & fp2 & ? & ? & ?)]. cbn [fst snd] in *.
  unfold ActionsRunnerList_DeepCopyInto. do 2 copy_field. copied.
Qed.
#[global] Instance job_list_copies : Copies ActionsRunnerJobList_DeepCopyInto.
Proof.
  intros m r a fp [? (fp1 & fp2 & ? & ? & ?)]. cbn [fst snd] in *.
  unfold ActionsRunnerJobList_DeepCopyInto. do 2 copy_field. copied.
Qed.
#[global] Instance set_list_copies : Copies ActionsRunnerReplicaSetList_DeepCopyInto.
Proof.
  intros m r a fp [? (fp1 & fp2 & ? & ? & ?)]. cbn [fst snd] in *.
  unfold ActionsRunnerReplicaSetList_DeepCopyInto. do 2 copy_field. copied.
Qed.

(** What an [Object] means. *)
Inductive resource : Type :=
| Runner_ (a : ActionsRunner)
| Job_ (a : ActionsRunnerJob)
| Set_ (a : ActionsRunnerReplicaSet)
| RunnerList_ (a : ActionsRunnerList)
| JobList_ (a : ActionsRunnerJobList)
| SetList_ (a : ActionsRunnerReplicaSetList).

Definition reads_object m (o : Object) (x : resource) fp : Prop :=
  match o, x with
  | RunnerObject p, Runner_ a => reads m p (Some a) fp
  | JobObject p, Job_ a => reads m p (Some a) fp
  | SetObject p, Set_ a => reads m p (Some a) fp
  | RunnerListObject p, RunnerList_ a => reads m p (Some a) fp
  | JobListObject p, JobList_ a => reads m p (Some a) fp
  | SetListObject p, SetList_ a => reads m p (Some a) fp
  | _, _ => False
  end.
#[global] Program Instance object_reader : Reader cell Object resource := {| reads := reads_object |}.
Next Obligation. intros m m' [] [] fp Hm Hr; try done; exact (reads_local _ _ _ _ _ Hm Hr). Qed.
Next Obligation. intros m [] [] fp x Hr Hx; try done; exact (reads_alloc _ _ _ _ _ Hr Hx). Qed.

(** An object copied through its own [DeepCopy]. *)
Lemma object_copied `{Reader cell R A, !Stored cell R} (copy : R -> action cell R)
    (wrap : ptr (pointer R) -> Object) (name : A -> resource) m p a fp :
  (forall m p a fp, reads_object m (wrap p) (name a) fp <-> reads m p (Some a) fp) ->
  Copies (A := A) copy -> reads m p (Some a) fp ->
  yields (let& c := copy_ptr copy p in ret (unless_nil wrap c)) m
    (fun m' o fp' => exists o', o = Some o' /\ reads m' o' (name a) fp').
Proof.
  intros Hw Hc Hp. eapply yields_bind; [exact (ptr_copies (A := A) copy Hc _ _ _ _ Hp)|].
  intros m1 c fp1 _ Hr. apply yields_ret. rewrite app_nil_r. destruct c as [c|]; [|done].
  exists (wrap (Some c)). split; [done|]. by apply Hw.
Qed.

(** [C10] A deep copy of any of the program's six resources, whatever its slices,
    maps and pointers share: the copy means what the original means; it lies in
    addresses none of which was in use before, each of them its own; nothing that
    was in memory has changed; so that whatever is later written to the copy's
    addresses leaves the original as it is, and whatever is written anywhere else
    leaves the copy. *)
Theorem DeepCopyObject_separate m o x fp :
  reads m o x fp ->
  exists m' o' fp', DeepCopyObject o m = Some (m', Some o') /\
    reads m' o' x fp' /\ NoDup fp' /\ (forall a, a ∈ fp' -> m !! a = None) /\ m ⊆ m' /\
    (forall m'', (forall a, a ∉ fp' -> m'' !! a = m' !! a) -> reads m'' o x fp) /\
    (forall m'', (forall a, a ∈ fp' -> m'' !! a = m' !! a) -> reads m'' o' x fp').
Proof.
  intros Ho.
  assert (yields (DeepCopyObject o) m (fun m' o' fp' => exists o'', o' = Some o'' /\ reads m' o'' x fp'))
    as (m' & c & fp' & Hc & (Hm & Hnd & Hfp) & o' & -> & Ho').
  { destruct o, x; try done; (eapply object_copied; [|typeclasses eauto|exact Ho]; done). }
  exists m', o', fp'. split_and!; [done..|by intros a Ha; apply Hfp|done| |].
  - intros m'' Hm''. eapply reads_local, (reads_mono _ _ _ _ _ Ho Hm). intros a Ha. apply Hm''.
    intros [Hn _]%Hfp. destruct (reads_alloc _ _ _ _ _ Ho Ha). congruence.
  - intros m'' Hm''. by eapply reads_local.
Qed.
End copies.

(** ** Examples *)

Module DeepCopyExamples.
Import Demo.

(** The next address after all in use; nothing of Kubernetes keeps anything in
    memory but the affinity, whose copy follows its pointers. *)
Definition next_address {cell} (m : memory cell) : addr :=
  map_fold (fun a _ n => Pos.max (Pos.succ a) n) 1%positive m.
Lemma next_address_above {cell} (m : memory cell) a : is_Some (m !! a) -> (a < next_address m)%positive.
Proof.
  revert a. unfold next_address. apply (map_fold_weak_ind (fun n m => forall a, is_Some (m !! a) -> (a < n)%positive)).
  - intros a [c Hc]. by rewrite lookup_empty in Hc.
  - intros b c m' n Hb IH a. destruct (decide (a = b)) as [->|Hne]; [lia|].
    rewrite lookup_insert_ne by done. intros Ha. specialize (IH a Ha). lia.
Qed.

#[export] Instance runtime {cell} : Runtime cell.
Proof.
  refine {| malloc := next_address; map_order V m := map_to_list m;
            growth _ needed := (needed + needed)%nat |}.
  - intros m. destruct (m !! next_address m) eqn:E; [|done].
    pose proof (next_address_above m (next_address m) (mk_is_Some _ _ E)). lia.
  - done.
  - lia.
Defined.

#[export] Instance foreign_types : ForeignTypes := {|
  raw := meaning;
  raw_zero k := match k with
                | ForeignObjectMeta => ObjectMeta_zero
                | ForeignVolume => mkVolume "" (VolumeOther "")
                | ForeignVolumeMount => mkVolumeMount "" "" "" ""
                | ForeignEnvFromSource => mkEnvFromSource "" None None
                | ForeignEnvVar => mkEnvVar "" "" None
                | ForeignResourceRequirements => ResourceRequirements_zero
                | ForeignToleration => mkToleration "" "" "" ""
                | ForeignListMeta | ForeignRest => ""
                end;
  ForeignObject := Empty_set |}.

Definition requirement_copy (in_ : NodeSelectorRequirementM) : action cell NodeSelectorRequirementM :=
  let& values := copy_slice ret (m_Values in_) in
  ret (mkNodeSelectorRequirementM (m_Key in_) (m_Operator in_) values).
Definition term_copy (in_ : NodeSelectorTermM) : action cell NodeSelectorTermM :=
  let& expressions := copy_slice requirement_copy (m_MatchExpressions in_) in
  ret (mkNodeSelectorTermM expressions (m_nst_rest in_)).
Definition selector_copy (in_ : NodeSelectorM) : action cell NodeSelectorM :=
  let& terms := copy_slice term_copy (m_NodeSelectorTerms in_) in ret (mkNodeSelectorM terms).
Definition node_affinity_copy (in_ : NodeAffinityM) : action cell NodeAffinityM :=
  let& required := copy_ptr selector_copy (m_RequiredDuringSchedulingIgnoredDuringExecution in_) in
  ret (mkNodeAffinityM required (m_na_rest in_)).
Definition affinity_copy (in_ : AffinityM) : action cell AffinityM :=
  let& nodeAffinity := copy_ptr node_affinity_copy (m_NodeAffinity in_) in
  ret (mkAffinityM nodeAffinity (m_aff_rest in_)).

#[export] Instance foreign_lib : ForeignLib := {|
  foreign_reader k := plain (meaning k);
  foreign_copy k := ret;
  Affinity_DeepCopyInto := affinity_copy |}.

#[export] Instance requirement_copies : Copies requirement_copy.
Proof. intros m r a fp [[??] ?]. unfold requirement_copy. copy_field. copied. Qed.
#[export] Instance term_copies : Copies term_copy.
Proof.
  intros m r a fp [_ (fp1 & fp2 & ? & [? ->] & ->)]. cbn [fst snd] in *. unfold term_copy.
  copy_field. apply yields_ret. rewrite !app_nil_r. split; [done|]. eexists _, []. split; [still_read|].
  split; [by split|]. by rewrite app_nil_r.
Qed.
#[export] Instance selector_copies : Copies (A := slice NodeSelectorTerm) selector_copy.
Proof. intros m r a fp [_ ?]. unfold selector_copy, id in *. copy_field. copied. Qed.
#[export] Instance node_affinity_copies : Copies node_affinity_copy.
Proof.
  intros m r a fp [_ (fp1 & fp2 & ? & [? ->] & ->)]. cbn [fst snd] in *. unfold node_affinity_copy.
  copy_field. apply yields_ret. rewrite !app_nil_r. split; [done|]. eexists _, []. split; [still_read|].
  split; [by split|]. by rewrite app_nil_r.
Qed.
#[export] Instance foreign_laws : ForeignLaws foreign_lib.
Proof.
  split.
  - intros k. apply ret_copies.
  - intros m r a fp [_ (fp1 & fp2 & ? & [? ->] & ->)]. cbn [fst snd] in *.
    cbn [Affinity_DeepCopyInto foreign_lib]. unfold affinity_copy.
    copy_field. apply yields_ret. rewrite !app_nil_r. split; [done|]. eexists _, []. split; [still_read|].
    split; [by split|]. by rewrite app_nil_r.
  - by intros m.
Qed.

(** A runner at 1, whose rules of both kinds are windows on the array at 2, and
    whose affinity, at 3, is required: the terms of its selector, at 6, are an
    array with room for another. *)
Definition shared_rules : window string := Window 2%positive 0 1 2.
Definition affine_spec : ActionsRunnerSpecM :=
  mkActionsRunnerSpecM (mkActionsRunnerRepository "inloco" "kube-actions" "")
    (mkActionsRunnerPolicyM (Some shared_rules) (Some shared_rules)) None None None "1.2.3"
    None None None None None "builder" (Some (Pointer 3%positive)) None None.
Definition affine_memory : memory cell := list_to_map [
  (1%positive, CRunners [mkActionsRunnerM TypeMeta_zero (meta "r") affine_spec]);
  (2%positive, CStrings [".github.actor"; ".github.repository"]);
  (3%positive, CAffinities [mkAffinityM (Some (Pointer 4%positive)) ""]);
  (4%positive, CNodeAffinities [mkNodeAffinityM (Some (Pointer 5%positive)) ""]);
  (5%positive, CNodeSelectors [mkNodeSelectorM (Some (Window 6%positive 0 1 2))]);
  (6%positive, CTerms [mkNodeSelectorTermM None "zone"; mkNodeSelectorTermM None ""])].
Definition affine : ActionsRunner :=
  mkActionsRunner TypeMeta_zero (meta "r")
    (mkActionsRunnerSpec (mkActionsRunnerRepository "inloco" "kube-actions" "")
       (mkActionsRunnerPolicy (Some [".github.actor"]) (Some [".github.actor"])) None None None "1.2.3"
       None None None None None "builder"
       (Some (mkAffinity (Some (mkNodeAffinity (Some (Some [mkNodeSelectorTerm None "zone"])) "")) ""))
       None None).

(** Reads a value whose parts are where they are said to be. *)
Ltac read_it :=
  lazymatch goal with
  | |- ?x = ?y => reflexivity
  | |- True => exact I
  | |- _ <= _ => lia
  | |- (_ <= _)%nat => cbn; lia
  | |- Forall3 _ _ _ _ => cbn; repeat (apply Forall3_cons; [read_it|]); apply Forall3_nil
  | |- _ /\ _ => split; read_it
  | |- exists _, _ => eexists; read_it
  | |- _ => progress hnf; read_it
  end.
Lemma affine_reads : reads affine_memory (RunnerObject (Some (Pointer 1%positive))) (Runner_ affine)
  [1; 2; 2; 3; 4; 5; 6]%positive.
Proof. read_it. Qed.

Lemma DeepCopyObject_separate_witness :
  exists m' o' fp', DeepCopyObject (RunnerObject (Some (Pointer 1%positive))) affine_memory =
      Some (m', Some o') /\ reads m' o' (Runner_ affine) fp' /\ NoDup fp'.
Proof.
  destruct (DeepCopyObject_separate _ _ _ _ affine_reads) as (m' & o' & fp' & H & Hr & Hnd & _).
  exists m', o', fp'. split; [exact H|]. split; [exact Hr|exact Hnd].
Defined.

(** The copy is at 7, and has two arrays for the rules where the original has one. *)
Example affine_copied :
  match DeepCopyObject (RunnerObject (Some (Pointer 1%positive))) affine_memory with
  | Some (m', Some (RunnerObject (Some p))) =>
      (fun l : list ActionsRunnerM => (fun r => (base <$> m_Must (m_Policy (m_Spec r)),
                              base <$> m_MustNot (m_Policy (m_Spec r)), target <$> m_Affinity (m_Spec r))) <$> l)
        <$> array_at m' (target p)
  | _ => None
  end = Some [(Some 8, Some 9, Some 10)]%positive.
Proof. vm_compute. reflexivity. Qed.
End DeepCopyExamples.
