(* ===== verification/ReplicaSet.v ===== *)
(** * internal/controller/actionsrunnerreplicaset/reconciler.go

    One pass of the controller that keeps an ActionsRunnerReplicaSet's
    ActionsRunners at the desired number and spec, the shape of what a pass
    may do, and its convergence against an API server that keeps its promises
    ([ReplicaSetServer]). *)

From S2P Require Export Controllers Demo.
#[local] Open Scope string_scope.

(** ** The reconciler *)

Section replicaset.
Context {T : K8sTypes} {L : K8sLib}.

Definition matchingLabels (arrs : ActionsRunnerReplicaSet) : gmap string string :=
  {[ "kube-actions.inloco.com.br/actions-runner-replica-set" := Name (arrs_ObjectMeta arrs) ]}.

Definition listOpts (arrs : ActionsRunnerReplicaSet) : string * gmap string string :=
  (Namespace (arrs_ObjectMeta arrs), matchingLabels arrs).

Definition desiredActionsRunner (arrs : ptr ActionsRunnerReplicaSet) (scheme : ptr Scheme)
    : result ActionsRunner :=
  match arrs with
  | None => Err (ENew "actionsRunnerReplicaSet == nil")
  | Some arrs =>
      match scheme with
      | None => Err (ENew "scheme == nil")
      | Some scheme =>
          let meta := mkObjectMeta "" (Name (arrs_ObjectMeta arrs) ++ "-")
                        (Namespace (arrs_ObjectMeta arrs)) "" "" None
                        (Some (matchingLabels arrs)) None None None in
          let? meta := SetControllerReference "ActionsRunnerReplicaSet"
                         (arrs_ObjectMeta arrs) meta scheme in
          Ok (mkActionsRunner (mkTypeMeta GroupVersion "ActionsRunner") meta
                (Template (arrs_Spec arrs)))
      end
  end.

Definition desiredSelector (arrs : ptr ActionsRunnerReplicaSet) : result string :=
  match arrs with
  | None => Err (ENew "actionsRunnerReplicaSet == nil")
  | Some arrs => LabelSelectorAsSelector (matchingLabels arrs)
  end.

(** The runners of the list that are not being deleted. *)
Definition notBeingDeleted (items : list ActionsRunner) : list ActionsRunner :=
  filter (fun ar => IsBeingDeleted (Some (OActionsRunner ar)) = false) items.

(** [r.Status().Update] after [Status.Replicas = replicas], ignoring NotFound. *)
Definition updateReplicas (arrs : ActionsRunnerReplicaSet) (replicas : Z)
    : prog kube (outcome goerr) :=
  let arrs := arrs_set_status arrs
                (mkActionsRunnerReplicaSetStatus (uint_of_int replicas)
                   (status_Selector (arrs_Status arrs))) in
  let! err := call (StatusUpdate (OActionsRunnerReplicaSet arrs)) in
  Ret (Done (IgnoreNotFound err)).

(** The last loop: runners whose spec differs from the template get it. *)
Fixpoint updateSpecs (template : ActionsRunnerSpec) (actionsRunners : list ActionsRunner)
    : prog kube (outcome goerr) :=
  match actionsRunners with
  | [] => Ret (Done None)
  | ar :: ars =>
      if bool_decide (Spec ar = template) then updateSpecs template ars
      else
        let ar := ar_set_spec (ar_clear_managed ar) template in
        let! err := call (Update (OActionsRunner ar)) in
        match IgnoreNotFound err with
        | Some e => Ret (Done (Some e))
        | None => updateSpecs template ars
        end
  end.

(** The pass once the status carries the selector. *)
Definition reconcileReplicas (scheme : ptr Scheme) (arrs : ActionsRunnerReplicaSet)
    : prog kube (outcome goerr) :=
  let! r := call (List (listOpts arrs).1 (listOpts arrs).2) in
  match r with
  | Err e => Ret (Done (Some e))
  | Ok items =>
      let actionsRunners := notBeingDeleted items in
      let actual := Z.of_nat (length actionsRunners) in
      let desired := int_of_uint (Replicas (arrs_Spec arrs)) in
      if bool_decide (actual < desired) then
        match desiredActionsRunner (Some arrs) scheme with
        | Err e => Ret (Done (Some e))
        | Ok actionsRunner =>
            let! err := call (Create (OActionsRunner actionsRunner)) in
            match err with
            | Some e => Ret (Done (Some e))
            | None => updateReplicas arrs (actual + 1)
            end
        end
      else if bool_decide (desired < actual) then
        match items with
        | [] => Ret (Panicked index_out_of_range)
        | actionsRunner :: _ =>
            let! err := call (Delete (OActionsRunner actionsRunner)) in
            match err with
            | Some e => Ret (Done (Some e))
            | None => updateReplicas arrs (actual - 1)
            end
        end
      else updateSpecs (Template (arrs_Spec arrs)) actionsRunners
  end.

(** [(r *Reconciler) Reconcile(ctx, req)]: the [ctrl.Result] is always zero. *)
Definition Reconcile (scheme : ptr Scheme) (req : ObjectKey) : prog kube (outcome goerr) :=
  let! r := call (Get KActionsRunnerReplicaSet req) in
  match r with
  | Err e => if IsNotFound e then Ret (Done None) else Ret (Done (Some e))
  | Ok arrs =>
      let arrs := arrs_clear_managed arrs in
      if IsBeingDeleted (Some (OActionsRunnerReplicaSet arrs)) then Ret (Done None)
      else
        match desiredSelector (Some arrs) with
        | Err e => Ret (Done (Some e))
        | Ok selector =>
            if bool_decide (status_Selector (arrs_Status arrs) <> selector) then
              let arrs := arrs_set_status arrs
                            (mkActionsRunnerReplicaSetStatus
                               (status_Replicas (arrs_Status arrs)) selector) in
              let! err := call (StatusUpdate (OActionsRunnerReplicaSet arrs)) in
              Ret (Done (IgnoreNotFound err))
            else reconcileReplicas scheme arrs
        end
  end.
End replicaset.

Arguments desiredActionsRunner : simpl never.
Arguments desiredSelector : simpl never.

(** ** What a pass does *)

Section passes.
Context {T : K8sTypes} {L : K8sLib}.

(** The runners counted against the desired number. *)
Definition live (items : list ActionsRunner) : Z := Z.of_nat (length (notBeingDeleted items)).
Definition desired (arrs : ActionsRunnerReplicaSet) : Z := int_of_uint (Replicas (arrs_Spec arrs)).

Lemma updateSpecs_writes template ars :
  always (updateSpecs template ars)
    (fun tr out => creates tr = [] /\ deletes tr = [] /\ statusUpdates tr = [] /\
       (exists e, out = Done e) /\
       Forall (fun o => exists ar, ar ∈ ars /\ Spec ar <> template /\
                 o = OActionsRunner (ar_set_spec (ar_clear_managed ar) template)) (updates tr)).
Proof.
  induction ars as [|ar ars IH]; cbn [updateSpecs]; [cbn; eauto 10|].
  case_bool_decide as Hspec.
  - eapply always_mono; [exact IH|]. cbn. intros tr out (? & ? & ? & ? & Hu).
    split_and!; try done. eapply Forall_impl; [exact Hu|]. set_solver.
  - cbn. intros err. destruct (IgnoreNotFound err) as [e|].
    + cbn. split_and!; eauto. repeat constructor. set_solver.
    + eapply always_mono; [exact IH|]. intros tr out (? & ? & ? & ? & Hu).
      split_and!; try done. constructor; [set_solver|].
      eapply Forall_impl; [exact Hu|]. set_solver.
Qed.

(** [C19] In every run, whatever the API server answers: a pass creates or
    deletes at most one runner, never both; it creates one, the one built from
    the template, only when the listed runners that are not being deleted are
    fewer than desired; it deletes one, the first listed, only when they are
    more; and it rewrites specs only when they are as many as desired. *)
Theorem Reconcile_scales scheme req tr out :
  runs (Reconcile scheme req) tr out ->
  (length (creates tr ++ deletes tr) <= 1)%nat /\
  (forall o, o ∈ creates tr ->
     exists arrs items ar,
       answered tr (Get KActionsRunnerReplicaSet req) (Ok arrs) /\
       answered tr (List (listOpts arrs).1 (listOpts arrs).2) (Ok items) /\
       live items < desired arrs /\
       desiredActionsRunner (Some (arrs_clear_managed arrs)) scheme = Ok ar /\
       o = OActionsRunner ar) /\
  (forall o, o ∈ deletes tr ->
     exists arrs ar items,
       answered tr (Get KActionsRunnerReplicaSet req) (Ok arrs) /\
       answered tr (List (listOpts arrs).1 (listOpts arrs).2) (Ok (ar :: items)) /\
       desired arrs < live (ar :: items) /\
       o = OActionsRunner ar) /\
  (forall o, o ∈ updates tr ->
     exists arrs items,
       answered tr (Get KActionsRunnerReplicaSet req) (Ok arrs) /\
       answered tr (List (listOpts arrs).1 (listOpts arrs).2) (Ok items) /\
       live items = desired arrs).
Proof.
  intros Hrun. walking Hrun. unfold Reconcile, reconcileReplicas, updateReplicas.
  walk; try (eapply always_mono; [apply updateSpecs_writes|];
             intros tr out (Hc & Hd & _ & _ & Hu)).
  all: split_and!; try intros o Ho; read_writes; rewrite ?Hc, ?Hd in *; cbn [app length] in *;
    try lia; in_list; repeat case_bool_decide; try done.
  all: exists_all; split_and!; [find_event | find_event | ..];
    first [done | unfold live, desired; cbn [arrs_Spec arrs_clear_managed] in *; lia].
Qed.

(** A pass over a set of fewer than 2^63 replicas never panics; with 2^63
    replicas or more the desired number reads as negative, and a pass that finds
    no runner at all then indexes an empty list. *)
Theorem Reconcile_panics scheme req tr out :
  runs (Reconcile scheme req) tr out ->
  (forall arrs, answered tr (Get KActionsRunnerReplicaSet req) (Ok arrs) ->
     0 <= Replicas (arrs_Spec arrs) < 2 ^ 64) ->
  (exists e, out = Panicked e) <->
  exists arrs,
    tr = [Get KActionsRunnerReplicaSet req ↝ Ok arrs;
          List (listOpts arrs).1 (listOpts arrs).2 ↝ Ok []] /\
    2 ^ 63 <= Replicas (arrs_Spec arrs).
Proof.
  intros Hrun. walking Hrun. unfold Reconcile, reconcileReplicas, updateReplicas.
  walk; try (eapply always_mono; [apply updateSpecs_writes|];
             intros tr out (Hc & Hd & _ & [e ->] & Hu)).
  all: intros Hr; try specialize (Hr _ (answered_here _ _ _)); split;
    [intros [e' He]; try discriminate He | intros (arrs & Htr & Hlen); try discriminate Htr].
  all: try same_trace Htr; try (by eauto).
  2: { exists a. split; [done|]. apply int_of_uint_negative; [done|].
       repeat case_bool_decide; done. }
  all: same_event H; exfalso; apply (int_of_uint_negative _ Hr) in Hlen;
    repeat case_bool_decide; cbn in *; try done; lia.
Qed.

(** Steady state: a pass over a set whose status carries the selector, and
    whose live runners are as many as desired and all have the template, writes
    nothing. *)
Theorem Reconcile_steady scheme req tr out :
  runs (Reconcile scheme req) tr out ->
  (forall arrs, answered tr (Get KActionsRunnerReplicaSet req) (Ok arrs) ->
     desiredSelector (Some arrs) = Ok (status_Selector (arrs_Status arrs)) /\
     forall items, answered tr (List (listOpts arrs).1 (listOpts arrs).2) (Ok items) ->
       live items = desired arrs /\
       Forall (fun ar => Spec ar = Template (arrs_Spec arrs)) (notBeingDeleted items)) ->
  creates tr = [] /\ updates tr = [] /\ statusUpdates tr = [] /\ deletes tr = [].
Proof.
  intros Hrun. walking Hrun. unfold Reconcile, reconcileReplicas, updateReplicas.
  walk; try (eapply always_mono; [apply updateSpecs_writes|]; intros tr out (Hc & Hd & Hs & _ & Hu));
    intros Hset; read_writes; rewrite ?Hc, ?Hd, ?Hs; try done;
    specialize (Hset _ (answered_here _ _ _)) as [Hsel Hitems]; repeat case_bool_decide; try done.
  { by rewrite (Heqr0 : desiredSelector (Some a) = _) in Hsel; simplify_eq. }
  all: edestruct Hitems as [Hlive Hspec]; [find_event|]; unfold live, desired in Hlive;
    cbn [arrs_Spec arrs_clear_managed] in *; try lia.
  split_and!; try done. destruct (updates tr) as [|o os]; [done|].
  apply Forall_cons in Hu as [(ar & Hin & Hne & _) _]. rewrite Forall_forall in Hspec.
  by apply Hspec in Hin.
Qed.

(** Scaling down removes the first runner of the list even when that one
    is already being deleted: no live runner goes, yet the status is written
    with one replica less. *)
Theorem reconcileReplicas_deletes_terminating scheme arrs ar items :
  IsBeingDeleted (Some (OActionsRunner ar)) = true ->
  desired arrs < live (ar :: items) ->
  live (ar :: items) = live items /\
  runs (reconcileReplicas scheme arrs)
    [List (listOpts arrs).1 (listOpts arrs).2 ↝ Ok (ar :: items);
     Delete (OActionsRunner ar) ↝ None;
     StatusUpdate (OActionsRunnerReplicaSet
       (arrs_set_status arrs
          (mkActionsRunnerReplicaSetStatus (uint_of_int (live items - 1))
             (status_Selector (arrs_Status arrs))))) ↝ None]
    (Done None).
Proof.
  intros Hdel Hlt. assert (Hsame : notBeingDeleted (ar :: items) = notBeingDeleted items).
  { unfold notBeingDeleted. rewrite filter_cons_False; congruence. }
  unfold desired, live in *. rewrite Hsame in Hlt |- *. split; [done|].
  unfold reconcileReplicas. cbn [bind call]. apply runs_do. cbn [bind].
  rewrite Hsame, bool_decide_eq_false_2, bool_decide_eq_true_2 by lia.
  apply runs_do. cbn [bind]. apply runs_do. by split.
Qed.
End passes.

(** ** Convergence *)

Definition key_of {T : K8sTypes} (m : ObjectMeta) : ObjectKey := mkKey (Namespace m) (Name m).

(** An API server that answers without faults, to which nobody else writes, and
    where a deletion has completed by the next pass.  [arrs_of w] is the replica
    set stored in the state [w], [runners w] the ActionsRunners its list
    options select. *)
Class ReplicaSetServer {T : K8sTypes} {W : Type}
    (handle : forall o : sop kube, W -> sans kube o * W)
    (arrs_of : W -> ActionsRunnerReplicaSet)
    (runners : W -> gmap ObjectKey ActionsRunner) : Prop := {
  srv_get w : handle (Get KActionsRunnerReplicaSet (key_of (arrs_ObjectMeta (arrs_of w)))) w
              = (Ok (arrs_of w), w);
  srv_list w : exists items,
    handle (List (Namespace (arrs_ObjectMeta (arrs_of w))) (matchingLabels (arrs_of w))) w
      = (Ok items, w) /\
    items ≡ₚ (map_to_list (runners w)).*2;
  srv_live w k ar : runners w !! k = Some ar ->
    key_of (ar_ObjectMeta ar) = k /\ DeletionTimestamp (ar_ObjectMeta ar) = None;
  srv_create w ar :
    Namespace (ar_ObjectMeta ar) = Namespace (arrs_ObjectMeta (arrs_of w)) ->
    Labels (ar_ObjectMeta ar) = Some (matchingLabels (arrs_of w)) ->
    exists k ar' w', handle (Create (OActionsRunner ar)) w = (None, w') /\
      runners w !! k = None /\ runners w' = <[k:=ar']> (runners w) /\
      Spec ar' = Spec ar /\ arrs_of w' = arrs_of w;
  srv_delete w k ar : runners w !! k = Some ar ->
    exists w', handle (Delete (OActionsRunner ar)) w = (None, w') /\
      runners w' = delete k (runners w) /\ arrs_of w' = arrs_of w;
  srv_update w k ar : is_Some (runners w !! k) -> key_of (ar_ObjectMeta ar) = k ->
    exists ar' w', handle (Update (OActionsRunner ar)) w = (None, w') /\
      runners w' = <[k:=ar']> (runners w) /\ Spec ar' = Spec ar /\ arrs_of w' = arrs_of w;
  srv_status w arrs :
    key_of (arrs_ObjectMeta arrs) = key_of (arrs_ObjectMeta (arrs_of w)) ->
    exists w', handle (StatusUpdate (OActionsRunnerReplicaSet arrs)) w = (None, w') /\
      runners w' = runners w /\ arrs_of w' = arrs_set_status (arrs_of w) (arrs_Status arrs);
}.

Section convergence.
Context {T : K8sTypes} {L : K8sLib} `{!K8sLibSpec L}.
Context {W : Type} (handle : forall o : sop kube, W -> sans kube o * W).
Context (arrs_of : W -> ActionsRunnerReplicaSet) (runners : W -> gmap ObjectKey ActionsRunner).
Context `{!ReplicaSetServer handle arrs_of runners}.
Context (scheme : Scheme) (meta : ObjectMeta) (spec : ActionsRunnerReplicaSetSpec).

(** The state one pass of the reconciler leaves behind. *)
Definition pass (w : W) : W :=
  after handle (Reconcile (Some scheme) (key_of meta)) w.

Definition selector_set (w : W) : Prop :=
  desiredSelector (Some (arrs_of w)) = Ok (status_Selector (arrs_Status (arrs_of w))).

#[local] Instance selector_set_dec w : Decision (selector_set w).
Proof. unfold selector_set. apply _. Defined.

(** [w] stores the replica set with this metadata and spec. *)
Definition stores (w : W) : Prop :=
  arrs_ObjectMeta (arrs_of w) = meta /\ arrs_Spec (arrs_of w) = spec.

(** How many creations or deletions [w] is away from the desired number. *)
Definition distance (w : W) : nat :=
  Z.to_nat (Z.abs (Z.of_nat (size (runners w)) - Replicas spec)).

Definition converged (w : W) : Prop :=
  stores w /\ Z.of_nat (size (runners w)) = Replicas spec /\
  forall k ar, runners w !! k = Some ar -> Spec ar = Template spec.

Hypothesis replicas_small : 0 <= Replicas spec < 2 ^ 63.
Hypothesis not_deleted : DeletionTimestamp meta = None.
Hypothesis selectable : forall l, exists s, LabelSelectorAsSelector l = Ok s.
Hypothesis referable : forall m, exists m',
  SetControllerReference "ActionsRunnerReplicaSet" (SetManagedFields meta None) m scheme = Ok m'.

Lemma listed_live w items :
  items ≡ₚ (map_to_list (runners w)).*2 ->
  notBeingDeleted items = items /\ length items = size (runners w).
Proof.
  intros Hi. split.
  - apply filter_all, Forall_forall. intros ar Har.
    rewrite Hi in Har. apply list_elem_of_fmap in Har as ([k ar'] & -> & Har).
    apply elem_of_map_to_list in Har. apply srv_live in Har as [_ Hd].
    cbn. by rewrite Hd.
  - by rewrite Hi, length_fmap, length_map_to_list.
Qed.

(** A pass up to the selector test. *)
Lemma pass_unfold w selector :
  stores w -> desiredSelector (Some (arrs_of w)) = Ok selector ->
  pass w =
  if bool_decide (status_Selector (arrs_Status (arrs_of w)) = selector)
  then after handle (reconcileReplicas (Some scheme) (arrs_clear_managed (arrs_of w))) w
  else (handle (StatusUpdate (OActionsRunnerReplicaSet
         (arrs_set_status (arrs_clear_managed (arrs_of w))
            (mkActionsRunnerReplicaSetStatus (status_Replicas (arrs_Status (arrs_of w))) selector)))) w).2.
Proof.
  intros [Hm Hs] Hsel. unfold pass, Reconcile. cbn [bind call].
  rewrite <- Hm. rewrite (after_do _ _ _ _ _ _ (srv_get w)). cbn -[reconcileReplicas after].
  rewrite Hm, not_deleted.
  change (desiredSelector (Some (arrs_clear_managed (arrs_of w))))
    with (desiredSelector (Some (arrs_of w))).
  rewrite Hsel. repeat case_bool_decide; done.
Qed.

Lemma pass_selector w :
  stores w -> ~ selector_set w ->
  stores (pass w) /\ selector_set (pass w) /\ runners (pass w) = runners w.
Proof.
  intros Hst Hns. destruct (selectable (matchingLabels (arrs_of w))) as [sel Hsel].
  rewrite (pass_unfold w sel Hst Hsel). case_bool_decide as Heq.
  - destruct Hns. unfold selector_set. unfold desiredSelector. by rewrite Hsel, Heq.
  - edestruct (srv_status w) as (w' & Hw & Hr & Ha); [|rewrite Hw].
    2: { unfold stores, selector_set in *. cbn. rewrite Hr, Ha. naive_solver. }
    done.
Qed.

Lemma pass_status w n :
  stores w -> selector_set w ->
  let w' := after handle (updateReplicas (arrs_clear_managed (arrs_of w)) n) w in
  stores w' /\ selector_set w' /\ runners w' = runners w.
Proof.
  intros Hst Hs. unfold updateReplicas. cbn [bind call].
  edestruct (srv_status w) as (w' & Hw & Hr & Ha); [|rewrite (after_do _ _ _ _ _ _ Hw)].
  2: { cbn. unfold stores, selector_set in *. rewrite Hr, Ha. naive_solver. }
  done.
Qed.

(** The specs loop against the server: every runner it visits ends up with the
    template, none appears or goes, and the others are as they were. *)
Lemma updateSpecs_after template ars w :
  Forall (fun ar => is_Some (runners w !! key_of (ar_ObjectMeta ar))) ars ->
  let w' := after handle (updateSpecs template ars) w in
  arrs_of w' = arrs_of w /\ dom (runners w') = dom (runners w) /\
  forall k ar', runners w' !! k = Some ar' ->
    Spec ar' = template \/
    (runners w !! k = Some ar' /\
     Forall (fun ar => key_of (ar_ObjectMeta ar) = k -> Spec ar = template) ars).
Proof.
  revert w. induction ars as [|ar ars IH]; intros w Hin; cbn [updateSpecs]; [cbn; auto 6|].
  apply Forall_cons in Hin as [Har Hin].
  case_bool_decide as Hspec.
  { destruct (IH w Hin) as (Ha & Hd & Hl). split_and!; [done..|].
    intros k a [Hk|[Hk Hf]]%Hl; [by left|]. right. split; [done|]. by constructor. }
  destruct (srv_update w _ (ar_set_spec (ar_clear_managed ar) template) Har eq_refl)
    as (ar' & w' & Hw & Hr & Hs & Ha).
  cbn [bind call]. rewrite (after_do _ _ _ _ _ _ Hw). cbn [IgnoreNotFound].
  destruct (IH w') as (Ha' & Hd & Hl).
  - eapply Forall_impl; [exact Hin|]. intros a [x Hx]. rewrite Hr.
    destruct (decide (key_of (ar_ObjectMeta a) = key_of (ar_ObjectMeta ar))) as [->|Hne].
    + rewrite lookup_insert_eq. eauto.
    + rewrite lookup_insert_ne by done. eauto.
  - split_and!; [congruence| |].
    + rewrite Hd, Hr, dom_insert_L.
      assert (key_of (ar_ObjectMeta ar) ∈ dom (runners w)) by (by apply elem_of_dom). set_solver.
    + intros k a [Hk|[Hk Hf]]%Hl; [by left|].
      rewrite Hr in Hk. apply lookup_insert_Some in Hk as [[_ <-]|[Hne Hk]]; [by left|].
      right. split; [done|]. by constructor.
Qed.

(** Where a pass goes once the selector is set and the runners are listed. *)
Lemma pass_listed w :
  stores w -> selector_set w ->
  exists items,
    items ≡ₚ (map_to_list (runners w)).*2 /\ notBeingDeleted items = items /\
    length items = size (runners w) /\
    pass w =
    let arrs := arrs_clear_managed (arrs_of w) in
    let actual := Z.of_nat (size (runners w)) in
    if bool_decide (actual < Replicas spec) then
      match desiredActionsRunner (Some arrs) (Some scheme) with
      | Err e => w
      | Ok ar =>
          after handle (let! err := call (Create (OActionsRunner ar)) in
            match err with Some e => Ret (Done (Some e)) | None => updateReplicas arrs (actual + 1) end) w
      end
    else if bool_decide (Replicas spec < actual) then
      match items with
      | [] => w
      | ar :: _ =>
          after handle (let! err := call (Delete (OActionsRunner ar)) in
            match err with Some e => Ret (Done (Some e)) | None => updateReplicas arrs (actual - 1) end) w
      end
    else after handle (updateSpecs (Template spec) items) w.
Proof.
  intros Hst Hsel. destruct (srv_list w) as (items & Hl & Hp). exists items.
  destruct (listed_live w items Hp) as [Hnd Hlen]. split_and!; [done..|].
  rewrite (pass_unfold w _ Hst Hsel), bool_decide_eq_true_2 by done.
  unfold reconcileReplicas. cbn [bind call]. rewrite (after_do _ _ _ _ _ _ Hl).
  destruct Hst as [_ Hs]. rewrite Hnd, Hlen.
  assert (Hd : int_of_uint (Replicas (arrs_Spec (arrs_clear_managed (arrs_of w)))) = Replicas spec).
  { cbn. rewrite Hs. apply int_of_uint_small. lia. }
  rewrite Hd. cbn [arrs_clear_managed arrs_Spec]. rewrite Hs.
  repeat case_bool_decide; repeat case_match; done.
Qed.


Lemma desiredActionsRunner_ok w :
  stores w ->
  exists ar, desiredActionsRunner (Some (arrs_clear_managed (arrs_of w))) (Some scheme) = Ok ar /\
    Namespace (ar_ObjectMeta ar) = Namespace (arrs_ObjectMeta (arrs_of w)) /\
    Labels (ar_ObjectMeta ar) = Some (matchingLabels (arrs_of w)).
Proof.
  intros [Hm _]. unfold desiredActionsRunner. cbn [arrs_clear_managed arrs_ObjectMeta].
  rewrite Hm. edestruct referable as [m' Hm']. rewrite Hm'. cbn.
  apply SetControllerReference_spec in Hm' as [r ->]. eexists. split; [done|].
  split; [done|]. unfold matchingLabels. cbn. by rewrite Hm.
Qed.

(** Each pass that finds a wrong number brings it one nearer. *)
Lemma pass_scales w :
  stores w -> selector_set w -> (0 < distance w)%nat ->
  stores (pass w) /\ selector_set (pass w) /\ S (distance (pass w)) = distance w.
Proof.
  intros Hst Hsel Hd. destruct (pass_listed w Hst Hsel) as (items & Hp & _ & Hlen & ->).
  unfold distance in *. cbn zeta. case_bool_decide as Hlt.
  - destruct (desiredActionsRunner_ok w Hst) as (ar & -> & Hns & Hlb).
    destruct (srv_create w ar Hns Hlb) as (k & ar' & w' & Hw & Hk & Hr & _ & Ha).
    cbn [bind call]. rewrite (after_do _ _ _ _ _ _ Hw).
    rewrite <- Ha. edestruct (pass_status w') as (Hst' & Hsel' & Hr');
      [by unfold stores; rewrite Ha | by unfold selector_set; rewrite Ha |].
    split_and!; [done..|]. rewrite Hr', Hr, map_size_insert_None by done. lia.
  - case_bool_decide as Hgt; [|lia].
    destruct items as [|ar items]; [cbn in Hlen; lia|].
    assert (exists k, runners w !! k = Some ar) as [k Hk].
    { assert (ar ∈ (map_to_list (runners w)).*2) as Hin by (rewrite <- Hp; set_solver).
      apply list_elem_of_fmap in Hin as ([k ar'] & -> & Hin).
      apply elem_of_map_to_list in Hin. eauto. }
    destruct (srv_delete w k ar Hk) as (w' & Hw & Hr & Ha).
    cbn [bind call]. rewrite (after_do _ _ _ _ _ _ Hw).
    rewrite <- Ha. edestruct (pass_status w') as (Hst' & Hsel' & Hr');
      [by unfold stores; rewrite Ha | by unfold selector_set; rewrite Ha |].
    split_and!; [done..|]. rewrite Hr', Hr, map_size_delete_Some by eauto. lia.
Qed.

(** A pass that finds the right number leaves every runner with the template. *)
Lemma pass_specs w :
  stores w -> selector_set w -> distance w = 0%nat ->
  converged (pass w) /\ selector_set (pass w).
Proof.
  intros Hst Hsel Hd. destruct (pass_listed w Hst Hsel) as (items & Hp & _ & _ & ->).
  unfold distance in Hd. cbn zeta. rewrite !bool_decide_eq_false_2 by lia.
  destruct (updateSpecs_after (Template spec) items w) as (Ha & Hdom & Hl).
  - apply Forall_forall. intros ar Hin. rewrite Hp in Hin.
    apply list_elem_of_fmap in Hin as ([k ar'] & -> & Hin). apply elem_of_map_to_list in Hin.
    cbn. destruct (srv_live w k ar' Hin) as [-> _]. eauto.
  - unfold converged, stores, selector_set. rewrite Ha. split_and!; [apply Hst|apply Hst| | |done].
    + rewrite <- !size_dom, Hdom, size_dom. lia.
    + intros k ar [Hk|[Hk Hf]]%Hl; [done|]. rewrite Forall_forall in Hf. apply Hf.
      * rewrite Hp. apply list_elem_of_fmap. exists (k, ar).
        split; [done|]. by apply elem_of_map_to_list.
      * by apply srv_live in Hk as [-> _].
Qed.

Lemma passes_scale n w :
  stores w -> selector_set w -> (distance w <= n)%nat ->
  exists m, (m <= n)%nat /\ stores (Nat.iter m pass w) /\ selector_set (Nat.iter m pass w) /\
    distance (Nat.iter m pass w) = 0%nat.
Proof.
  revert w. induction n as [|n IH]; intros w Hst Hsel Hn.
  { exists 0%nat. cbn. split_and!; try done. lia. }
  destruct (decide (distance w = 0%nat)) as [H0|H0]; [exists 0%nat; cbn; split_and!; try done; lia|].
  destruct (pass_scales w) as (Hst' & Hsel' & Hd'); [done..|lia|].
  destruct (IH (pass w)) as (m & Hm & ?); [done..|lia|].
  exists (S m). rewrite Nat.iter_succ_r. split; [lia|done].
Qed.

End convergence.

(** ** An API server that keeps these promises

    The runners are stored by key with their specs; a created runner gets a
    name no other has. *)
Module MemoryServer.
Import Demo.

Record state : Type := State {
  stored_arrs : ActionsRunnerReplicaSet;
  stored_specs : gmap ObjectKey ActionsRunnerSpec;
}.

Definition runners (w : state) : gmap ObjectKey ActionsRunner :=
  map_imap (fun k s => Some (mkActionsRunner TypeMeta_zero
              (meta_named (key_Name k) (key_Namespace k) (Some (matchingLabels (stored_arrs w)))) s))
    (stored_specs w).

Definition fresh_key (namespace : string) (w : state) : ObjectKey :=
  mkKey namespace (fresh (set_map (D := gset string) key_Name (dom (stored_specs w)))).

Definition handle (o : sop kube) (w : state) : sans kube o * state :=
  match o return sans kube o * state with
  | Get KActionsRunnerReplicaSet n =>
      (if decide (n = key_of (arrs_ObjectMeta (stored_arrs w)))
       then Ok (stored_arrs w) else Err (EStatus ReasonNotFound), w)
  | Get _ _ => (Err (EStatus ReasonNotFound), w)
  | List _ _ => (Ok (map_to_list (runners w)).*2, w)
  | Create (OActionsRunner ar) =>
      (None, State (stored_arrs w)
               (<[fresh_key (Namespace (ar_ObjectMeta ar)) w := Spec ar]> (stored_specs w)))
  | Delete (OActionsRunner ar) =>
      (None, State (stored_arrs w) (delete (key_of (ar_ObjectMeta ar)) (stored_specs w)))
  | Update (OActionsRunner ar) =>
      (None, State (stored_arrs w) (<[key_of (ar_ObjectMeta ar) := Spec ar]> (stored_specs w)))
  | StatusUpdate (OActionsRunnerReplicaSet arrs) =>
      (None, State (arrs_set_status (stored_arrs w) (arrs_Status arrs)) (stored_specs w))
  | Create _ | Update _ | StatusUpdate _ | Delete _ => (Some (EOther "unsupported"), w)
  end.

Lemma fresh_key_fresh ns w : stored_specs w !! fresh_key ns w = None.
Proof.
  apply not_elem_of_dom. intros Hin.
  apply (is_fresh (set_map (D := gset string) key_Name (dom (stored_specs w)))).
  apply elem_of_map. by exists (fresh_key ns w).
Qed.

Lemma runners_lookup w k ar :
  runners w !! k = Some ar <->
  exists s, stored_specs w !! k = Some s /\
    ar = mkActionsRunner TypeMeta_zero
           (meta_named (key_Name k) (key_Namespace k) (Some (matchingLabels (stored_arrs w)))) s.
Proof. unfold runners. rewrite map_lookup_imap. destruct (stored_specs w !! k); naive_solver. Qed.

#[export] Instance server : ReplicaSetServer handle stored_arrs runners.
Proof.
  split.
  - intros w. cbn. by rewrite decide_True.
  - intros w. by eexists.
  - intros w k ar (s & _ & ->)%runners_lookup. by destruct k.
  - intros w ar Hns Hl. do 3 eexists. split; [done|]. unfold runners.
    split_and!; [|cbn; by rewrite map_imap_insert|done..].
    by rewrite map_lookup_imap, fresh_key_fresh.
  - intros w k ar (s & _ & ->)%runners_lookup. eexists. split; [done|].
    unfold runners. split; [|done]. cbn. rewrite map_imap_delete. by destruct k.
  - intros w k ar _ <-. do 2 eexists. split; [done|]. unfold runners.
    split_and!; [cbn; by rewrite map_imap_insert|done..].
  - intros w arrs _. by eexists.
Qed.

(** A set asking for three runners of version 2 that has one of version 1. *)
Definition example_spec : ActionsRunnerReplicaSetSpec :=
  mkActionsRunnerReplicaSetSpec 3 (spec "2").
Definition example : state :=
  State (mkActionsRunnerReplicaSet TypeMeta_zero (meta "set") example_spec
           (mkActionsRunnerReplicaSetStatus 0 ""))
    {[ key "a" := spec "1" ]}.

Example example_converges :
  let w := Nat.iter 4 (pass handle scheme (meta "set")) example in
  size (stored_specs w) = 3%nat /\ status_Replicas (arrs_Status (stored_arrs w)) = 3 /\
  Forall (fun kv => kv.2 = spec "2") (map_to_list (stored_specs w)).
Proof. vm_compute. split_and!; repeat constructor. Qed.
End MemoryServer.

(** ** The theorems at concrete inputs *)
Module Witnesses.
Import Demo MemoryServer.

(** The second pass over [example] and its trace. *)
Abbreviation second := (Reconcile (Some scheme) (key "set")).
Definition second_state : state := pass handle scheme (meta "set") example.
Definition second_trace : trace kube := (exec handle second second_state).1.1.

Lemma second_runs : runs second second_trace (Done None).
Proof. exact (exec_runs handle second second_state). Qed.

Lemma Reconcile_scales_witness :
  length (creates second_trace) = 1%nat /\
  (length (creates second_trace ++ deletes second_trace) <= 1)%nat.
Proof.
  split; [by vm_compute|].
  exact (proj1 (Reconcile_scales (Some scheme) (key "set") second_trace (Done None) second_runs)).
Defined.

(** A set of 2^63 replicas and no runner. *)
Definition huge : state :=
  State (mkActionsRunnerReplicaSet TypeMeta_zero (meta "set")
           (mkActionsRunnerReplicaSetSpec (2 ^ 63) (spec "2"))
           (mkActionsRunnerReplicaSetStatus 0
              "kube-actions.inloco.com.br/actions-runner-replica-set=set")) ∅.
Definition huge_trace : trace kube := (exec handle second huge).1.1.

Lemma huge_runs : runs second huge_trace (exec handle second huge).1.2.
Proof. exact (exec_runs handle second huge). Qed.

Lemma Reconcile_panics_witness : exists e, (exec handle second huge).1.2 = Panicked e.
Proof.
  apply (Reconcile_panics _ _ _ _ huge_runs).
  - intros arrs Ha. unfold answered in Ha.
    change huge_trace with
      [Get KActionsRunnerReplicaSet (key "set") ↝ Ok (stored_arrs huge);
       List "ci" (matchingLabels (stored_arrs huge)) ↝ Ok []] in Ha.
    apply elem_of_cons in Ha as [Ha|Ha]; [|apply list_elem_of_singleton in Ha]; same_event Ha.
    done.
  - exists (stored_arrs huge). by vm_compute.
Defined.


(** A set of one runner that has its runner and its selector. *)
Definition settled : ActionsRunnerReplicaSet :=
  mkActionsRunnerReplicaSet TypeMeta_zero (meta "set")
    (mkActionsRunnerReplicaSetSpec 1 (spec "2"))
    (mkActionsRunnerReplicaSetStatus 1
       "kube-actions.inloco.com.br/actions-runner-replica-set=set").
Definition settled_world : world :=
  World not_found not_found (Ok settled) not_found not_found not_found not_found not_found
    (Ok [runner "a" "2"]) None.
Definition settled_trace : trace kube :=
  [Get KActionsRunnerReplicaSet (key "set") ↝ Ok settled;
   List "ci" (matchingLabels settled) ↝ Ok [runner "a" "2"]].

Lemma settled_runs : runs second settled_trace (Done None).
Proof. exact (exec_runs serve second settled_world). Qed.

Lemma reconcileReplicas_deletes_terminating_witness :
  live [runner_deleted "old" "2"; runner "a" "2"; runner "b" "2"] = 2.
Proof.
  exact (proj1 (reconcileReplicas_deletes_terminating (Some scheme)
    (mkActionsRunnerReplicaSet TypeMeta_zero (meta "set")
       (mkActionsRunnerReplicaSetSpec 1 (spec "2")) (mkActionsRunnerReplicaSetStatus 2 ""))
    (runner_deleted "old" "2") [runner "a" "2"; runner "b" "2"] eq_refl eq_refl)).
Defined.

Lemma Reconcile_steady_witness :
  creates settled_trace = [] /\ updates settled_trace = [] /\
  statusUpdates settled_trace = [] /\ deletes settled_trace = [].
Proof.
  apply (Reconcile_steady _ _ _ _ settled_runs).
  intros arrs Ha. unfold answered, settled_trace in *.
  apply elem_of_cons in Ha as [Ha|Ha]; [|apply list_elem_of_singleton in Ha]; same_event Ha.
  split; [done|]. intros items Hi.
  apply elem_of_cons in Hi as [Hi|Hi]; [|apply list_elem_of_singleton in Hi]; same_event Hi.
  split; [done|]. by repeat constructor.
Defined.
End Witnesses.
