(* ===== verification/Converters.v ===== *)
(** * internal/controller/actionsrunner/util: from a runner to its objects

    [filters.go], [env.go] and [converters.go]: the ConfigMap, Secret,
    PodDisruptionBudget, ActionsRunnerJob, PersistentVolumeClaim and Pod of an
    ActionsRunner, what of the runner's spec reaches each of them, and what
    does not. *)

From S2P Require Export Controllers Dot Demo.
#[local] Open Scope string_scope.

(** What the binary takes from its build and from its environment. *)
Class Process : Type := {
  (** [os.LookupEnv] *)
  environ : gmap string string;
  (** [constants.OS], [constants.Arch], [constants.Ver]: set when linking *)
  OS : string;
  Arch : string;
  Ver : string;
}.

(** ** filters.go *)

Section filters.
Context {T : K8sTypes}.

Definition filteredEnvFromSources (input : slice EnvFromSource)
    (predicate : EnvFromSource -> bool) : slice EnvFromSource :=
  foldl (fun out e => if negb (predicate e) then out else append out [e]) None (elems input).

Definition filteredEnvVars (input : slice EnvVar) (predicate : EnvVar -> bool) : slice EnvVar :=
  foldl (fun out e => if negb (predicate e) then out else append out [e]) None (elems input).

(** [out[name] = in[name]] when [in] has it *)
Definition copy_entry {V} (src : gomap V) (out : gmap string V) (name : string) : gmap string V :=
  match mlookup src name with Some v => <[name := v]> out | None => out end.

Definition filteredResourceRequirements (input : ResourceRequirements)
    (resourceNames : list string) : ResourceRequirements :=
  let '(limits, requests) :=
    foldl (fun out name => (copy_entry (Limits input) out.1 name,
                            copy_entry (Requests input) out.2 name)) (∅, ∅) resourceNames in
  mkResourceRequirements (Some limits) (Some requests) None.
End filters.

(** ** converters.go *)

Definition getEnv `{!Process} (key defaultValue : string) : string :=
  match environ !! key with Some value => value | None => defaultValue end.

Section images.
Context `{!Process}.
Definition runnerImageName := getEnv "KUBEACTIONS_RUNNER_IMAGE_NAME" "inloco/kube-actions".
Definition runnerImageVersion := getEnv "KUBEACTIONS_RUNNER_IMAGE_VERSION" Ver.
Definition runnerImageVariant := getEnv "KUBEACTIONS_RUNNER_IMAGE_VARIANT" "-runner".
Definition dindImageName := getEnv "KUBEACTIONS_DIND_IMAGE_NAME" "inloco/kube-actions".
Definition dindImageVersion := getEnv "KUBEACTIONS_DIND_IMAGE_VERSION" Ver.
Definition dindImageVariant := getEnv "KUBEACTIONS_DIND_IMAGE_VARIANT" "-dind".
End images.

Definition runnerContainerName := "runner".
Definition runnerResourcesKey := "runner".
Definition dindContainerName := "dind".
Definition dindResourcesKey := "docker".
Definition actionsRunnerLabel := "kube-actions.inloco.com.br/actions-runner".

Section converters.
Context {T : K8sTypes} {L : K8sLib} `{!Process}.

(** [x == nil] tests at the head of each converter *)
Definition not_nil {A} (name : string) (x : ptr A) : result A :=
  match x with None => Err (ENew (name ++ " == nil")) | Some x => Ok x end.

(** [ObjectMeta{Name: ..., Namespace: ...}] after the runner's *)
Definition meta_like (actionsRunner : ActionsRunner) (labels : gomap string) : ObjectMeta :=
  meta_named (Name (ar_ObjectMeta actionsRunner)) (Namespace (ar_ObjectMeta actionsRunner)) labels.

(** [MatchLabels] and [Labels] of what belongs to a runner *)
Definition runner_labels (actionsRunner : ActionsRunner) : gmap string string :=
  {[ actionsRunnerLabel := Name (ar_ObjectMeta actionsRunner) ]}.

Definition ToConfigMap (dotFiles : ptr Files) (actionsRunner : ptr ActionsRunner)
    (scheme : ptr Scheme) : result ConfigMap :=
  let? dotFiles := not_nil "dotFiles" dotFiles in
  let? actionsRunner := not_nil "actionsRunner" actionsRunner in
  let? scheme := not_nil "scheme" scheme in
  let runner := print_json (Runner_json (files_Runner dotFiles)) in
  let credentials := print_json (Credentials_json (files_Credentials dotFiles)) in
  let? meta := SetControllerReference "ActionsRunner" (ar_ObjectMeta actionsRunner)
                 (meta_like actionsRunner None) scheme in
  Ok (mkConfigMap (mkTypeMeta "v1" "ConfigMap") meta
        (Some {[ ".runner" := runner; ".credentials" := credentials ]}) opaque_zero).

Definition ToSecret (dotFiles : ptr Files) (actionsRunner : ptr ActionsRunner)
    (scheme : ptr Scheme) : result Secret :=
  let? dotFiles := not_nil "dotFiles" dotFiles in
  let? actionsRunner := not_nil "actionsRunner" actionsRunner in
  let? scheme := not_nil "scheme" scheme in
  let rsaparams := print_json (RSAParameters_json (files_RSAParameters dotFiles)) in
  let? meta := SetControllerReference "ActionsRunner" (ar_ObjectMeta actionsRunner)
                 (meta_like actionsRunner None) scheme in
  Ok (mkSecret (mkTypeMeta "v1" "Secret") meta
        (Some {[ ".credentials_rsaparams" := rsaparams ]}) opaque_zero).

Definition ToPodDisruptionBudget (actionsRunner : ptr ActionsRunner) (scheme : ptr Scheme)
    : result PodDisruptionBudget :=
  let? actionsRunner := not_nil "actionsRunner" actionsRunner in
  let? scheme := not_nil "scheme" scheme in
  let? meta := SetControllerReference "ActionsRunner" (ar_ObjectMeta actionsRunner)
                 (meta_like actionsRunner None) scheme in
  Ok (mkPodDisruptionBudget (mkTypeMeta "policy/v1" "PodDisruptionBudget") meta
        (mkPodDisruptionBudgetSpec (Some 0) (Some (Some (runner_labels actionsRunner))) opaque_zero)
        opaque_zero).

Definition ToActionsRunnerJob (actionsRunner : ptr ActionsRunner) (scheme : ptr Scheme)
    : result ActionsRunnerJob :=
  let? actionsRunner := not_nil "actionsRunner" actionsRunner in
  let? scheme := not_nil "scheme" scheme in
  let? meta := SetControllerReference "ActionsRunner" (ar_ObjectMeta actionsRunner)
                 (meta_like actionsRunner (Some (runner_labels actionsRunner))) scheme in
  Ok (mkActionsRunnerJob (mkTypeMeta GroupVersion "ActionsRunnerJob") meta
        (mkActionsRunnerJobStatus "" "")).

(** [actionsRunner.Spec.Resources[key]], restricted to [names] when present *)
Definition resources_of (actionsRunner : ActionsRunner) (key : string) (names : list string)
    : ResourceRequirements :=
  match mlookup (Resources (Spec actionsRunner)) key with
  | Some resources => filteredResourceRequirements resources names
  | None => ResourceRequirements_zero
  end.

(** No PersistentVolumeClaim without a storage request: [(nil, nil)]. *)
Definition ToPersistentVolumeClaim (actionsRunner : ptr ActionsRunner)
    (actionsRunnerJob : ptr ActionsRunnerJob) (scheme : ptr Scheme)
    : result (ptr PersistentVolumeClaim) :=
  let? actionsRunner := not_nil "actionsRunner" actionsRunner in
  let? actionsRunnerJob := not_nil "actionsRunnerJob" actionsRunnerJob in
  let? scheme := not_nil "scheme" scheme in
  if negb (HasActionsRunnerRequestedStorage (Some actionsRunner)) then Ok None
  else
    let resources := resources_of actionsRunner runnerResourcesKey [ResourceStorage] in
    let? meta := SetControllerReference "ActionsRunnerJob" (arj_ObjectMeta actionsRunnerJob)
                   (meta_like actionsRunner None) scheme in
    Ok (Some (mkPersistentVolumeClaim (mkTypeMeta "v1" "PersistentVolumeClaim") meta
                (Some ["ReadWriteOnce"]) resources "")).

(** *** Volumes *)

Definition pvc_volume := "persistent-volume-claim".

Definition volumeByName (actionsRunner : ActionsRunner) : gmap string Volume :=
  let name := Name (ar_ObjectMeta actionsRunner) in
  let m := foldl (fun m v => <[vol_Name v := v]> m) ∅ (elems (Volumes (Spec actionsRunner))) in
  let m := <["config-map" := mkVolume "config-map" (VolumeConfigMap name)]> m in
  let m := <["secret" := mkVolume "secret" (VolumeSecret name)]> m in
  if HasActionsRunnerRequestedStorage (Some actionsRunner)
  then <[pvc_volume := mkVolume pvc_volume (VolumePersistentVolumeClaim name)]> m
  else m.

Definition withVolumes (actionsRunner : ActionsRunner) : slice Volume :=
  Some (map_range (volumeByName actionsRunner)).*2.

(** The runner's own mounts: path, volume and path in the volume. *)
Definition own_mount (p : string * string * string) : VolumeMount :=
  mkVolumeMount p.1.1 p.1.2 p.2 opaque_zero.
Definition dot_mounts : list VolumeMount := own_mount <$> [
  ("/opt/actions-runner/.runner", "config-map", ".runner");
  ("/opt/actions-runner/.credentials", "config-map", ".credentials");
  ("/opt/actions-runner/.credentials_rsaparams", "secret", ".credentials_rsaparams")].
Definition storage_mounts : list VolumeMount := own_mount <$> [
  ("/home/linuxbrew", pvc_volume, ":home:linuxbrew");
  ("/home/runner", pvc_volume, ":home:user");
  ("/home/user", pvc_volume, ":home:user");
  ("/opt/actions-runner/_work", pvc_volume, ":opt:actions-runner:_work");
  ("/opt/hostedtoolcache", pvc_volume, ":opt:hostedtoolcache");
  ("/root", pvc_volume, ":root")].

(** [m[volumeMount.MountPath] = volumeMount] for each of a list *)
Definition insert_mounts (l : list VolumeMount) (m : gmap string VolumeMount)
    : gmap string VolumeMount := foldl (fun m v => <[MountPath v := v]> m) m l.

Definition volumeMountByPath (actionsRunner : ActionsRunner) : gmap string VolumeMount :=
  let m := insert_mounts (elems (VolumeMounts (Spec actionsRunner))) ∅ in
  let m := insert_mounts dot_mounts m in
  if HasActionsRunnerRequestedStorage (Some actionsRunner)
  then insert_mounts storage_mounts m else m.

Definition withVolumeMounts (actionsRunner : ActionsRunner) : slice VolumeMount :=
  Some (map_range (volumeMountByPath actionsRunner)).*2.

(** *** Affinity *)

Definition runtime_requirements : list NodeSelectorRequirement :=
  [mkNodeSelectorRequirement "kubernetes.io/os" "In" (Some [OS]);
   mkNodeSelectorRequirement "kubernetes.io/arch" "In" (Some [Arch])].

Definition with_requirements (t : NodeSelectorTerm) : NodeSelectorTerm :=
  mkNodeSelectorTerm (append (MatchExpressions t) runtime_requirements) (nst_rest t).

(** The source fills the affinity in place: when the argument is a pointer to a
    struct, that struct holds the result afterwards ([ToPod_argument]). *)
Definition withRuntimeAffinity (affinity : ptr Affinity) : Affinity :=
  let affinity := default (mkAffinity None opaque_zero) affinity in
  let nodeAffinity := default (mkNodeAffinity None opaque_zero) (aff_NodeAffinity affinity) in
  let terms := default None (RequiredTerms nodeAffinity) in
  let terms := match elems terms with
               | [] => append terms [mkNodeSelectorTerm None opaque_zero]
               | _ => terms
               end in
  mkAffinity
    (Some (mkNodeAffinity (Some (fmap (map with_requirements) terms)) (na_rest nodeAffinity)))
    (aff_rest affinity).

(** *** The Pod *)

Definition isSecretRef (e : EnvFromSource) : bool := bool_decide (SecretRef e <> None).
Definition isSecretKeyRef (e : EnvVar) : bool :=
  match ValueFrom e with
  | Some s => bool_decide (SecretKeyRef s <> None)
  | None => false
  end.

Definition env_var (name value : string) : EnvVar := mkEnvVar name value None.

Definition computeResources := [ResourceCPU; ResourceMemory; ResourceEphemeralStorage].

(** [if actionsRunner.Spec.Version != "" { imageVersion = ... }] *)
Definition imageVersion (actionsRunner : ActionsRunner) (default_version : string) : string :=
  if bool_decide (Version (Spec actionsRunner) <> "") then Version (Spec actionsRunner)
  else default_version.

Definition runnerContainer (actionsRunner : ActionsRunner) (actionsRunnerJob : ActionsRunnerJob)
    : Container :=
  mkContainer runnerContainerName
    (runnerImageName ++ ":" ++ imageVersion actionsRunner runnerImageVersion ++ runnerImageVariant)
    (filteredEnvFromSources (EnvFrom (Spec actionsRunner)) (fun e => negb (isSecretRef e)))
    (append (filteredEnvVars (Env (Spec actionsRunner)) (fun e => negb (isSecretKeyRef e)))
       [env_var "KUBEACTIONS_ACTIONSRUNNER_NAME" (Name (ar_ObjectMeta actionsRunner));
        env_var "KUBEACTIONS_ACTIONSRUNNER_REPOSITORY_OWNER" (Owner (Repository (Spec actionsRunner)));
        env_var "KUBEACTIONS_ACTIONSRUNNER_REPOSITORY_NAME"
          (repo_Name (Repository (Spec actionsRunner)));
        env_var "KUBEACTIONS_ACTIONSRUNNERJOB_NAME" (Name (arj_ObjectMeta actionsRunnerJob))])
    (resources_of actionsRunner runnerResourcesKey computeResources)
    (withVolumeMounts actionsRunner) None None.

Definition basePod (actionsRunner : ActionsRunner) (actionsRunnerJob : ActionsRunnerJob) : Pod :=
  mkPod (mkTypeMeta "v1" "Pod")
    (mkObjectMeta (Name (arj_ObjectMeta actionsRunnerJob)) ""
       (Namespace (ar_ObjectMeta actionsRunner)) "" "" None
       (Some (runner_labels actionsRunner)) (spec_Annotations (Spec actionsRunner)) None None)
    (mkPodSpec (Some 3000) (withVolumes actionsRunner)
       [runnerContainer actionsRunner actionsRunnerJob] "Never" "" (Some false)
       (Some (mkPodSecurityContext (Some 1000) (Some 1000) (Some true) (Some 1000)
                (Some [("net.ipv4.ping_group_range", "0 2147483647")])))
       (Some (withRuntimeAffinity (spec_Affinity (Spec actionsRunner))))
       (Some [mkToleration "node-role.incognia.com/ci" "Equal" "true" "NoSchedule"])
       (Some {[ "node-role.incognia.com/ci" := "true" ]}))
    "".

(** Assignments to a field of the pod or of its first container: indexing the
    first container of a pod without any would panic, but the pod always has
    the runner's. *)
Definition pod_set_spec (p : Pod) (s : PodSpec) : Pod :=
  mkPod (pod_TypeMeta p) (pod_ObjectMeta p) s (pod_Phase p).
Definition pod_set_containers (p : Pod) (cs : list Container) : Pod :=
  pod_set_spec p (let s := pod_Spec p in
    mkPodSpec (ActiveDeadlineSeconds s) (pod_Volumes s) cs (RestartPolicy s)
      (pod_ServiceAccountName s) (AutomountServiceAccountToken s) (pod_SecurityContext s)
      (pod_Affinity s) (pod_Tolerations s) (pod_NodeSelector s)).
Definition pod_set_account (p : Pod) (name : string) (automount : ptr bool) : Pod :=
  pod_set_spec p (let s := pod_Spec p in
    mkPodSpec (ActiveDeadlineSeconds s) (pod_Volumes s) (Containers s) (RestartPolicy s)
      name automount (pod_SecurityContext s)
      (pod_Affinity s) (pod_Tolerations s) (pod_NodeSelector s)).
Definition con_append (c : Container) (envFrom : list EnvFromSource) (env : list EnvVar)
    : Container :=
  mkContainer (con_Name c) (con_Image c) (append (con_EnvFrom c) envFrom)
    (append (con_Env c) env) (con_Resources c) (con_VolumeMounts c) (LivenessProbe c)
    (Privileged c).
Definition first_container (p : Pod) (f : Container -> Container) : Pod :=
  match Containers (pod_Spec p) with
  | [] => p
  | c :: cs => pod_set_containers p (f c :: cs)
  end.

Definition addSecretCapability (pod : Pod) (actionsRunner : ActionsRunner) : Pod :=
  let envFrom := filteredEnvFromSources (EnvFrom (Spec actionsRunner)) isSecretRef in
  let env := filteredEnvVars (Env (Spec actionsRunner)) isSecretKeyRef in
  let pod := first_container pod (fun c => con_append c (elems envFrom) (elems env)) in
  pod_set_account pod (ServiceAccountName (Spec actionsRunner)) (Some true).

Definition dind_mounts : list VolumeMount := own_mount <$> [
  ("/home/rootless", pvc_volume, ":home:rootless");
  ("/home/rootless/.local/share/docker", pvc_volume, ":home:rootless:.local:share:docker");
  ("/opt/actions-runner/_work", pvc_volume, ":opt:actions-runner:_work")].

Definition dindContainer (actionsRunner : ActionsRunner) : Container :=
  mkContainer dindContainerName
    (dindImageName ++ ":" ++ imageVersion actionsRunner dindImageVersion ++ dindImageVariant)
    None (Some [env_var "DOCKER_TLS_CERTDIR" ""])
    (resources_of actionsRunner dindResourcesKey computeResources)
    (if HasActionsRunnerRequestedStorage (Some actionsRunner) then Some dind_mounts else None)
    (Some (mkProbe ["nc"; "-z"; "127.0.0.1"; "2375"] 3)) (Some true).

Definition addDockerCapability (pod : Pod) (actionsRunner : ActionsRunner) : Pod :=
  let pod := first_container pod
               (fun c => con_append c [] [env_var "DOCKER_HOST" "tcp://localhost:2375"]) in
  pod_set_containers pod (Containers (pod_Spec pod) ++ [dindContainer actionsRunner])%list.

Definition hasCapability (actionsRunner : ActionsRunner) (c : ActionsRunnerCapability) : bool :=
  bool_decide (c ∈ elems (Capabilities (Spec actionsRunner))).

(** The pod before its owner is set. *)
Definition capablePod (actionsRunner : ActionsRunner) (actionsRunnerJob : ActionsRunnerJob) : Pod :=
  let pod := basePod actionsRunner actionsRunnerJob in
  let pod := if hasCapability actionsRunner ActionsRunnerCapabilitySecret
             then addSecretCapability pod actionsRunner else pod in
  if hasCapability actionsRunner ActionsRunnerCapabilityDocker
  then addDockerCapability pod actionsRunner else pod.

Definition ToPod (actionsRunner : ptr ActionsRunner) (actionsRunnerJob : ptr ActionsRunnerJob)
    (scheme : ptr Scheme) : result Pod :=
  let? actionsRunner := not_nil "actionsRunner" actionsRunner in
  let? actionsRunnerJob := not_nil "actionsRunnerJob" actionsRunnerJob in
  let? scheme := not_nil "scheme" scheme in
  let pod := capablePod actionsRunner actionsRunnerJob in
  let? meta := SetControllerReference "ActionsRunnerJob" (arj_ObjectMeta actionsRunnerJob)
                 (pod_ObjectMeta pod) scheme in
  Ok (mkPod (pod_TypeMeta pod) meta (pod_Spec pod) (pod_Phase pod)).

(** The runner [ToPod] was given, as it is afterwards: an affinity that was
    there has been filled in place. *)
Definition ToPod_argument (actionsRunner : ActionsRunner) : ActionsRunner :=
  let s := Spec actionsRunner in
  ar_set_spec actionsRunner
    (mkActionsRunnerSpec (Repository s) (Policy s) (Capabilities s) (spec_Annotations s)
       (spec_Labels s) (Version s) (Volumes s) (VolumeMounts s) (EnvFrom s) (Env s)
       (Resources s) (ServiceAccountName s)
       (match spec_Affinity s with
        | Some a => Some (withRuntimeAffinity (Some a))
        | None => None
        end)
       (Tolerations s) (NodeSelector s)).
End converters.

(** ** Lemmas *)

Arguments meta_like : simpl never.
Arguments withVolumes : simpl never.
Arguments withVolumeMounts : simpl never.
Arguments resources_of : simpl never.
Arguments filteredEnvFromSources : simpl never.
Arguments filteredEnvVars : simpl never.

(** A loop that appends what passes a test is a filter. *)
Lemma elems_foldl_append {A} (p : A -> bool) (l : list A) (out : slice A) :
  elems (foldl (fun out e => if negb (p e) then out else append out [e]) out l) =
  (elems out ++ filter (fun e => p e = true) l)%list.
Proof.
  revert out. induction l as [|x l IH]; intros out; cbn [foldl]; [by rewrite app_nil_r|].
  rewrite IH. destruct (p x) eqn:Hx; cbn [negb].
  - rewrite filter_cons_True by done. destruct out; cbn; [by rewrite <- app_assoc|done].
  - by rewrite filter_cons_False by congruence.
Qed.

Lemma elems_append {A} (s : slice A) xs : elems (append s xs) = (elems s ++ xs)%list.
Proof. destruct s, xs; done. Qed.
#[export] Hint Rewrite @elems_append : prog.

Lemma filter_split {A} (p : A -> bool) (l : list A) :
  (filter (fun e => negb (p e) = true) l ++ filter (fun e => p e = true) l)%list ≡ₚ l.
Proof.
  induction l as [|x l IH]; [done|]. destruct (p x) eqn:Hx.
  - rewrite filter_cons_False, filter_cons_True by (rewrite ?Hx; done).
    by rewrite <- Permutation_middle, IH.
  - rewrite filter_cons_True, filter_cons_False by (rewrite ?Hx; done). cbn. by rewrite IH.
Qed.

(** Copying entries one by one restricts the map to the names copied. *)
Lemma foldl_copy_entry {V} (src : gomap V) names (out : gmap string V) k :
  foldl (copy_entry src) out names !! k =
  if bool_decide (k ∈ names) then
    match mlookup src k with Some v => Some v | None => out !! k end
  else out !! k.
Proof.
  revert out. induction names as [|n names IH]; intros out; cbn [foldl]; [done|].
  rewrite IH. unfold copy_entry.
  destruct (decide (k = n)) as [->|Hk].
  - rewrite (bool_decide_eq_true_2 (n ∈ n :: names)) by set_solver.
    destruct (mlookup src n); [|by case_bool_decide].
    rewrite lookup_insert_eq. by case_bool_decide.
  - assert (bool_decide (k ∈ n :: names) = bool_decide (k ∈ names)) as ->
      by (apply bool_decide_ext; set_solver).
    assert (match mlookup src n with Some v => <[n:=v]> out | None => out end !! k = out !! k) as ->;
      [|done].
    destruct (mlookup src n); [by rewrite lookup_insert_ne by congruence|done].
Qed.

Lemma foldl_pair {A B C} (f : A -> C -> A) (g : B -> C -> B) a b (l : list C) :
  foldl (fun out x => (f out.1 x, g out.2 x)) (a, b) l = (foldl f a l, foldl g b l).
Proof. revert a b. induction l as [|x l IH]; intros a b; cbn [foldl]; [done|]. apply IH. Qed.

(** Inserting a list under its keys: what is found is of the list or was there. *)
Lemma foldl_insert_lookup {V} (key : V -> string) (l : list V) (m : gmap string V) k v :
  foldl (fun m v => <[key v := v]> m) m l !! k = Some v ->
  (v ∈ l /\ key v = k) \/ (m !! k = Some v /\ k ∉ key <$> l).
Proof.
  revert m. induction l as [|x l IH]; intros m; cbn [foldl].
  { intros H. right. split; [done|set_solver]. }
  intros [[Hv Hk]|[Hm Hk]]%IH; [set_solver|].
  apply lookup_insert_Some in Hm as [[<- <-]|[Hne Hm]]; set_solver.
Qed.

Lemma foldl_insert_dom {V} (key : V -> string) (l : list V) (m : gmap string V) :
  dom (foldl (fun m v => <[key v := v]> m) m l) = list_to_set (key <$> l) ∪ dom m.
Proof.
  revert m. induction l as [|x l IH]; intros m; cbn [foldl]; [set_solver|].
  rewrite IH, dom_insert_L. set_solver.
Qed.

(** A map whose entries are stored under their own key. *)
Definition keyed {V} (key : V -> string) (m : gmap string V) : Prop :=
  map_Forall (fun k v => key v = k) m.

Lemma keyed_empty {V} (key : V -> string) : keyed key ∅.
Proof. apply map_Forall_empty. Qed.
Lemma keyed_insert {V} (key : V -> string) m k v :
  key v = k -> keyed key m -> keyed key (<[k := v]> m).
Proof. intros Hk Hm. by apply map_Forall_insert_2. Qed.
Lemma keyed_foldl {V} (key : V -> string) (l : list V) m :
  keyed key m -> keyed key (foldl (fun m v => <[key v := v]> m) m l).
Proof.
  revert m. induction l as [|x l IH]; intros m Hm; cbn [foldl]; [done|].
  apply IH. by apply keyed_insert.
Qed.
#[export] Hint Resolve keyed_empty keyed_insert keyed_foldl : prog.

Section lemmas.
Context {T : K8sTypes} {L : K8sLib} `{!K8sLibSpec L} `{!Process}.

(** The values of a keyed map, in the order a [range] visits them. *)
Lemma keyed_range {V} (key : V -> string) (m : gmap string V) :
  keyed key m -> NoDup (key <$> (map_range m).*2).
Proof.
  intros Hk. rewrite map_range_spec, <- list_fmap_compose.
  assert (key ∘ snd <$> map_to_list m = (map_to_list m).*1) as ->;
    [|apply NoDup_fst_map_to_list].
  apply list_fmap_ext. intros i [k v] Hi. cbn.
  apply list_elem_of_lookup_2, elem_of_map_to_list in Hi. by apply Hk in Hi.
Qed.

Lemma elem_of_range {V} (m : gmap string V) v :
  v ∈ (map_range m).*2 <-> exists k, m !! k = Some v.
Proof.
  rewrite map_range_spec, list_elem_of_fmap. split.
  - intros ([k v'] & -> & Hin). apply elem_of_map_to_list in Hin. eauto.
  - intros [k Hk]. exists (k, v). split; [done|]. by apply elem_of_map_to_list.
Qed.

Lemma volumeByName_keyed ar : keyed vol_Name (volumeByName ar).
Proof. unfold volumeByName. case_match; auto 10 with prog. Qed.

Lemma volumeMountByPath_keyed ar : keyed MountPath (volumeMountByPath ar).
Proof. unfold volumeMountByPath, insert_mounts. case_match; auto 10 with prog. Qed.

(** The volumes the program adds. *)
Definition reserved_volumes (ar : ActionsRunner) : list Volume :=
  let name := Name (ar_ObjectMeta ar) in
  [mkVolume "config-map" (VolumeConfigMap name); mkVolume "secret" (VolumeSecret name)] ++
  (if HasActionsRunnerRequestedStorage (Some ar)
   then [mkVolume pvc_volume (VolumePersistentVolumeClaim name)] else []).

Lemma volumeByName_reserved ar v :
  v ∈ reserved_volumes ar -> volumeByName ar !! vol_Name v = Some v.
Proof.
  unfold reserved_volumes, volumeByName. intros Hv. apply elem_of_app in Hv as [Hv|Hv].
  all: destruct (HasActionsRunnerRequestedStorage _); in_list; cbn [vol_Name].
  all: by simplify_map_eq.
Qed.

Lemma volumeByName_user ar k v :
  volumeByName ar !! k = Some v ->
  v ∈ reserved_volumes ar \/
  (v ∈ elems (Volumes (Spec ar)) /\ vol_Name v ∉ vol_Name <$> reserved_volumes ar).
Proof.
  intros Hk. pose proof (volumeByName_keyed ar k v Hk : vol_Name v = k) as Hn. revert Hk.
  unfold reserved_volumes, volumeByName. subst k.
  destruct (HasActionsRunnerRequestedStorage _); intros Hk;
    repeat (apply lookup_insert_Some in Hk as [[_ <-]|[? Hk]]; [set_solver|]);
    apply foldl_insert_lookup in Hk as [[? _]|[Hk _]]; try by simplify_map_eq.
  all: right; split; [done|]; cbn; set_solver.
Qed.

(** The mounts the program adds refer to volumes it adds. *)
Definition own_mounts (ar : ActionsRunner) : list VolumeMount :=
  dot_mounts ++ (if HasActionsRunnerRequestedStorage (Some ar) then storage_mounts else []).

Lemma volumeMountByPath_user ar k v :
  volumeMountByPath ar !! k = Some v -> v ∈ own_mounts ar \/ v ∈ elems (VolumeMounts (Spec ar)).
Proof.
  unfold own_mounts, volumeMountByPath, insert_mounts.
  destruct (HasActionsRunnerRequestedStorage _); intros Hk;
    repeat (apply foldl_insert_lookup in Hk as [[? ?]|[Hk _]]; [set_solver|]); set_solver.
Qed.

Lemma volumeMountByPath_own ar v :
  v ∈ own_mounts ar -> volumeMountByPath ar !! MountPath v = Some v.
Proof.
  unfold own_mounts, volumeMountByPath. intros Hv. apply elem_of_app in Hv as [Hv|Hv].
  all: destruct (HasActionsRunnerRequestedStorage _);
    unfold dot_mounts, storage_mounts in *; cbn [fmap list_fmap] in *; in_list;
    cbn [MountPath own_mount insert_mounts foldl fst snd].
  all: repeat first [rewrite lookup_insert_eq; done | rewrite lookup_insert_ne by done].
Qed.

Lemma own_mounts_volumes ar v :
  v ∈ own_mounts ar -> vm_Name v ∈ vol_Name <$> reserved_volumes ar.
Proof.
  unfold own_mounts, reserved_volumes. intros Hv. apply elem_of_app in Hv as [Hv|Hv].
  all: destruct (HasActionsRunnerRequestedStorage _);
    unfold dot_mounts, storage_mounts in *; cbn [fmap list_fmap] in *; in_list; cbn; set_solver.
Qed.
End lemmas.

(** ** What reaches the Pod *)

Arguments elems {A} : simpl never.
Arguments append {A} : simpl never.

Section pods.
Context {T : K8sTypes} {L : K8sLib} `{!K8sLibSpec L} `{!Process}.

(** [ToPod] fails only where [SetControllerReference] does, and sets nothing
    but the owner after the capabilities. *)
Lemma ToPod_spec ar arj scheme pod :
  ToPod (Some ar) (Some arj) (Some scheme) = Ok pod ->
  pod_Spec pod = pod_Spec (capablePod ar arj) /\
  Name (pod_ObjectMeta pod) = Name (arj_ObjectMeta arj) /\
  Namespace (pod_ObjectMeta pod) = Namespace (ar_ObjectMeta ar) /\
  Labels (pod_ObjectMeta pod) = Some (runner_labels ar).
Proof.
  unfold ToPod. cbn -[capablePod runner_labels].
  destruct (SetControllerReference _ _ _ _) as [m|] eqn:Hm; [|done]. intros [= <-].
  apply SetControllerReference_spec in Hm as [r ->].
  assert (pod_ObjectMeta (capablePod ar arj) = pod_ObjectMeta (basePod ar arj)) as Hb
    by (unfold capablePod; repeat case_match; done).
  cbn [pod_Spec pod_ObjectMeta]. rewrite Hb. done.
Qed.

(** The order in which the environment is put together does not matter here. *)
Lemma env_permutation {A} (a b c d : list A) : (((a ++ b) ++ c) ++ d ≡ₚ (b ++ d) ++ a ++ c)%list.
Proof.
  rewrite <- !app_assoc, (Permutation_app_comm a), <- !app_assoc. f_equiv.
  by rewrite (Permutation_app_comm c), <- !app_assoc.
Qed.
Lemma env_permutation_secret {A} (a b c : list A) : ((a ++ b) ++ c ≡ₚ b ++ a ++ c)%list.
Proof. by rewrite (Permutation_app_comm a), <- app_assoc. Qed.
Lemma env_permutation_docker {A} (a b d : list A) : ((a ++ b) ++ d ≡ₚ (b ++ d) ++ a)%list.
Proof. by rewrite <- app_assoc, Permutation_app_comm. Qed.

(** The containers and the account, case by case. *)
Lemma capablePod_containers ar arj :
  let secret := hasCapability ar ActionsRunnerCapabilitySecret in
  let docker := hasCapability ar ActionsRunnerCapabilityDocker in
  let s := pod_Spec (capablePod ar arj) in
  exists c,
    Containers s = c :: (if docker then [dindContainer ar] else []) /\
    con_Name c = "runner" /\
    con_VolumeMounts c = withVolumeMounts ar /\
    con_Resources c = resources_of ar runnerResourcesKey computeResources /\
    elems (con_EnvFrom c) =
      (filter (fun e => negb (isSecretRef e) = true) (elems (EnvFrom (Spec ar))) ++
       if secret then filter (fun e => isSecretRef e = true) (elems (EnvFrom (Spec ar))) else [])%list /\
    (exists own,
      Forall (fun e => ValueFrom e = None) own /\
      elems (con_Env c) ≡ₚ
        (own ++ filter (fun e => negb (isSecretKeyRef e) = true) (elems (Env (Spec ar))) ++
         if secret then filter (fun e => isSecretKeyRef e = true) (elems (Env (Spec ar))) else [])%list) /\
    pod_ServiceAccountName s = (if secret then ServiceAccountName (Spec ar) else "") /\
    AutomountServiceAccountToken s = Some secret /\
    pod_Volumes s = withVolumes ar.
Proof.
  cbn zeta. unfold capablePod, addSecretCapability, addDockerCapability.
  destruct (hasCapability ar ActionsRunnerCapabilitySecret),
    (hasCapability ar ActionsRunnerCapabilityDocker);
    (eexists; split_and!; [reflexivity|cbn; try reflexivity..]).
  all: unfold filteredEnvFromSources, filteredEnvVars;
    rewrite ?elems_append, ?elems_foldl_append, ?app_nil_r; try reflexivity.
  all: eexists; split; [|first
    [apply env_permutation | apply env_permutation_secret | apply env_permutation_docker | apply Permutation_app_comm]].
  all: repeat constructor.
Qed.

Lemma resources_of_lookup ar key names name :
  let r := resources_of ar key names in
  let given := mlookup (Resources (Spec ar)) key in
  mlookup (Limits r) name =
    (if bool_decide (name ∈ names) then given ≫= fun g => mlookup (Limits g) name else None) /\
  mlookup (Requests r) name =
    (if bool_decide (name ∈ names) then given ≫= fun g => mlookup (Requests g) name else None).
Proof.
  unfold resources_of. cbn zeta. destruct (mlookup (Resources _) key) as [g|]; cbn;
    [|by case_bool_decide].
  unfold filteredResourceRequirements. rewrite foldl_pair. cbn [Limits Requests mlookup].
  unfold mlookup at 1 3. cbn. rewrite !foldl_copy_entry.
  case_bool_decide; split; try done; by destruct (mlookup _ name).
Qed.

(** [C21] Secrets stay out of the pod of a runner without the capability
    "secret": the runner's container, which always comes first, then takes the
    spec's other environment sources and variables only, the pod has no service
    account and mounts no token; with the capability it takes all of them and
    the spec's account.  The only other container, there exactly with the
    capability "docker", takes none either way. *)
Theorem ToPod_secrets ar arj scheme pod :
  ToPod (Some ar) (Some arj) (Some scheme) = Ok pod ->
  let s := pod_Spec pod in
  exists c sidecars,
    Containers s = c :: sidecars /\ con_Name c = runnerContainerName /\
    sidecars = (if hasCapability ar ActionsRunnerCapabilityDocker
                then [dindContainer ar] else []) /\
    Forall (fun d => con_EnvFrom d = None /\
              Forall (fun e => ValueFrom e = None) (elems (con_Env d))) sidecars /\
    if hasCapability ar ActionsRunnerCapabilitySecret then
      elems (con_EnvFrom c) ≡ₚ elems (EnvFrom (Spec ar)) /\
      elems (Env (Spec ar)) ⊆+ elems (con_Env c) /\
      pod_ServiceAccountName s = ServiceAccountName (Spec ar) /\
      AutomountServiceAccountToken s = Some true
    else
      elems (con_EnvFrom c) = filter (fun e => SecretRef e = None) (elems (EnvFrom (Spec ar))) /\
      Forall (fun e => forall v, ValueFrom e = Some v -> SecretKeyRef v = None)
        (elems (con_Env c)) /\
      pod_ServiceAccountName s = "" /\
      AutomountServiceAccountToken s = Some false.
Proof.
  intros Hpod. apply ToPod_spec in Hpod as (-> & _).
  destruct (capablePod_containers ar arj) as
    (c & Hcs & Hname & _ & _ & Hfrom & (own & Hown & Henv) & Hsa & Hauto & _).
  exists c. eexists. split; [exact Hcs|]. split; [done|]. split; [done|].
  split. { destruct (hasCapability ar ActionsRunnerCapabilityDocker); [|constructor].
    constructor; [|constructor]. split; [done|]. by apply Forall_singleton. }
  rewrite Hfrom, Hsa, Hauto. destruct (hasCapability ar ActionsRunnerCapabilitySecret).
  - split; [apply filter_split|]. split; [|done].
    rewrite Henv, filter_split. by apply submseteq_inserts_l.
  - rewrite !app_nil_r in *. split_and!; try done.
    + apply list_filter_iff. intros e. unfold isSecretRef. case_bool_decide; cbn; naive_solver.
    + rewrite Henv. apply Forall_app. split.
      * eapply Forall_impl; [exact Hown|]. cbn. congruence.
      * apply Forall_forall. intros e [He _]%list_elem_of_filter v Hv.
        unfold isSecretKeyRef in He. rewrite Hv in He. case_bool_decide; naive_solver.
Qed.

(** The pod's volumes have distinct names and the runner's container
    mounts distinct paths.  The program's own volumes and mounts replace the
    spec's of the same name or path, every other volume or mount comes from the
    spec, and no name the spec declares is lost.  A mount that is not the
    spec's, of either container, refers to one of the program's own volumes. *)
Theorem ToPod_volumes ar arj scheme pod :
  ToPod (Some ar) (Some arj) (Some scheme) = Ok pod ->
  let vs := elems (pod_Volumes (pod_Spec pod)) in
  NoDup (vol_Name <$> vs) /\
  (forall v, v ∈ reserved_volumes ar -> v ∈ vs) /\
  (forall v, v ∈ vs -> v ∈ reserved_volumes ar \/
     (v ∈ elems (Volumes (Spec ar)) /\ vol_Name v ∉ vol_Name <$> reserved_volumes ar)) /\
  (forall v, v ∈ elems (Volumes (Spec ar)) -> vol_Name v ∈ vol_Name <$> vs) /\
  forall c, c ∈ Containers (pod_Spec pod) ->
    NoDup (MountPath <$> elems (con_VolumeMounts c)) /\
    (con_Name c = runnerContainerName ->
     forall m, m ∈ own_mounts ar -> m ∈ elems (con_VolumeMounts c)) /\
    forall m, m ∈ elems (con_VolumeMounts c) ->
      m ∈ elems (VolumeMounts (Spec ar)) \/ vm_Name m ∈ vol_Name <$> reserved_volumes ar.
Proof.
  intros Hpod. apply ToPod_spec in Hpod as (-> & _). cbn zeta.
  destruct (capablePod_containers ar arj) as
    (c & -> & Hname & Hmounts & _ & _ & _ & _ & _ & ->).
  unfold withVolumes. change (elems (Some ?l)) with l. split_and!.
  - apply keyed_range, volumeByName_keyed.
  - intros v Hv. apply elem_of_range. eauto using volumeByName_reserved.
  - intros v [k Hk]%elem_of_range. eauto using volumeByName_user.
  - intros v Hv. apply list_elem_of_fmap.
    assert (vol_Name v ∈ dom (volumeByName ar)) as [v' Hv']%elem_of_dom.
    { unfold volumeByName. case_match; rewrite !dom_insert_L, foldl_insert_dom; set_solver. }
    exists v'. split; [symmetry; by apply (volumeByName_keyed ar _ _ Hv')|].
    apply elem_of_range. eauto.
  - intros d [->|Hd]%elem_of_cons.
    + rewrite Hmounts. unfold withVolumeMounts. change (elems (Some ?l)) with l. split_and!.
      * apply keyed_range, volumeMountByPath_keyed.
      * intros _ m Hm. apply elem_of_range. eauto using volumeMountByPath_own.
      * intros m [k [Hm|Hm]%volumeMountByPath_user]%elem_of_range; [|by left].
        right. by apply own_mounts_volumes.
    + destruct (hasCapability ar ActionsRunnerCapabilityDocker); in_list.
      unfold dindContainer, reserved_volumes. cbn [con_VolumeMounts con_Name].
      destruct (HasActionsRunnerRequestedStorage _); split_and!; try done;
        try apply NoDup_nil_2; try (intros m Hm; by apply not_elem_of_nil in Hm).
      * by apply (bool_decide_unpack _), I.
      * intros m Hm. right. change (m ∈ dind_mounts) in Hm.
        unfold dind_mounts in Hm. cbn [fmap list_fmap] in Hm. in_list; cbn; set_solver.
Qed.

(** The six objects made for one runner. *)
Definition converted (dotFiles : Files) (ar : ActionsRunner) (arj : ActionsRunnerJob)
    (scheme : Scheme) (cm : ConfigMap) (sec : Secret) (pdb : PodDisruptionBudget)
    (job : ActionsRunnerJob) (pvc : ptr PersistentVolumeClaim) (pod : Pod) : Prop :=
  ToConfigMap (Some dotFiles) (Some ar) (Some scheme) = Ok cm /\
  ToSecret (Some dotFiles) (Some ar) (Some scheme) = Ok sec /\
  ToPodDisruptionBudget (Some ar) (Some scheme) = Ok pdb /\
  ToActionsRunnerJob (Some ar) (Some scheme) = Ok job /\
  ToPersistentVolumeClaim (Some ar) (Some arj) (Some scheme) = Ok pvc /\
  ToPod (Some ar) (Some arj) (Some scheme) = Ok pod.

Lemma ToPersistentVolumeClaim_spec ar arj scheme pvc :
  ToPersistentVolumeClaim (Some ar) (Some arj) (Some scheme) = Ok pvc ->
  match pvc with
  | None => HasActionsRunnerRequestedStorage (Some ar) = false
  | Some pvc =>
      HasActionsRunnerRequestedStorage (Some ar) = true /\
      Name (pvc_ObjectMeta pvc) = Name (ar_ObjectMeta ar) /\
      Namespace (pvc_ObjectMeta pvc) = Namespace (ar_ObjectMeta ar) /\
      pvc_Resources pvc = resources_of ar runnerResourcesKey [ResourceStorage]
  end.
Proof.
  unfold ToPersistentVolumeClaim. cbn -[HasActionsRunnerRequestedStorage resources_of].
  destruct (HasActionsRunnerRequestedStorage _); cbn; [|by intros [= <-]].
  destruct (SetControllerReference _ _ _ _) eqn:Hm; [|done]. intros [= <-]. cbn.
  by apply SetControllerReference_spec in Hm as [r ->].
Qed.


(** What a runner asks for is split between the claim and the containers:
    the claim gets the storage, and nothing else, of the resources named
    "runner"; the containers get the CPU, memory and ephemeral storage, and
    nothing else, of the resources named after them. *)
Theorem resources_split ar arj scheme pvc pod :
  ToPersistentVolumeClaim (Some ar) (Some arj) (Some scheme) = Ok pvc ->
  ToPod (Some ar) (Some arj) (Some scheme) = Ok pod ->
  (forall p name, pvc = Some p ->
     mlookup (Requests (pvc_Resources p)) name =
     if bool_decide (name = ResourceStorage)
     then mlookup (Resources (Spec ar)) "runner" ≫= fun g => mlookup (Requests g) name else None) /\
  forall c name, c ∈ Containers (pod_Spec pod) ->
    exists key, key = (if bool_decide (con_Name c = "runner") then "runner" else "docker") /\
    mlookup (Requests (con_Resources c)) name =
      (if bool_decide (name ∈ computeResources)
       then mlookup (Resources (Spec ar)) key ≫= fun g => mlookup (Requests g) name else None) /\
    mlookup (Limits (con_Resources c)) name =
      (if bool_decide (name ∈ computeResources)
       then mlookup (Resources (Spec ar)) key ≫= fun g => mlookup (Limits g) name else None).
Proof.
  intros Hpvc Hpod. apply ToPersistentVolumeClaim_spec in Hpvc.
  apply ToPod_spec in Hpod as (-> & _). split.
  - intros p name ->. destruct Hpvc as (_ & _ & _ & ->).
    rewrite (proj2 (resources_of_lookup _ _ _ _)).
    by rewrite (bool_decide_ext _ (name = ResourceStorage)) by set_solver.
  - intros c name Hc. eexists. split; [done|].
    destruct (capablePod_containers ar arj) as (d & Hcs & Hname & _ & Hres & _).
    rewrite Hcs in Hc. apply elem_of_cons in Hc as [->|Hc].
    + rewrite Hname, Hres. by destruct (resources_of_lookup ar "runner" computeResources name).
    + destruct (hasCapability ar ActionsRunnerCapabilityDocker); in_list.
      by destruct (resources_of_lookup ar "docker" computeResources name).
Qed.

(** The terms of a required node affinity. *)
Definition required_terms (a : ptr Affinity) : list NodeSelectorTerm :=
  match a ≫= aff_NodeAffinity with
  | Some na => elems (default None (RequiredTerms na))
  | None => []
  end.

(** Whatever affinity the spec has, the pod's requires some node-selector
    term, and each of its terms asks for the operator's own OS and architecture
    on top of what the corresponding term of the spec asks for; nothing else of
    the affinity changes.  Filling is not idempotent: a second [ToPod] on the
    same struct states the requirements twice in each of the terms. *)
Theorem ToPod_affinity ar arj scheme pod :
  ToPod (Some ar) (Some arj) (Some scheme) = Ok pod ->
  exists a na, pod_Affinity (pod_Spec pod) = Some a /\ aff_NodeAffinity a = Some na /\
    required_terms (Some a) <> [] /\
    Forall2 (fun t' t => elems (MatchExpressions t') =
               (elems (MatchExpressions t) ++ runtime_requirements)%list /\
               nst_rest t' = nst_rest t)
      (required_terms (Some a))
      (match required_terms (spec_Affinity (Spec ar)) with
       | [] => [mkNodeSelectorTerm None opaque_zero]
       | ts => ts
       end) /\
    (forall b, spec_Affinity (Spec ar) = Some b ->
       aff_rest a = aff_rest b /\
       (forall nb, aff_NodeAffinity b = Some nb -> na_rest na = na_rest nb) /\
       forall pod', ToPod (Some (ToPod_argument ar)) (Some arj) (Some scheme) = Ok pod' ->
         required_terms (pod_Affinity (pod_Spec pod')) =
         map with_requirements (required_terms (Some a))).
Proof.
  intros Hpod. apply ToPod_spec in Hpod as (-> & _).
  assert (forall ar, pod_Affinity (pod_Spec (capablePod ar arj)) =
            Some (withRuntimeAffinity (spec_Affinity (Spec ar)))) as Haff.
  { intros ar'. unfold capablePod. by repeat case_match. }
  assert (forall a, required_terms (Some (withRuntimeAffinity a)) =
            map with_requirements match required_terms a with
              [] => [mkNodeSelectorTerm None opaque_zero] | ts => ts end) as Hterms.
  { intros [[[[[[[|t ts]|]|]]|]]|]; reflexivity. }
  rewrite Haff. eexists _, _. split; [done|]. split; [done|].
  rewrite Hterms. split; [by case_match|]. split.
  - rewrite <- (list_fmap_id (match required_terms (spec_Affinity (Spec ar)) with
      [] => _ | _ => _ end)) at 2.
    apply Forall2_fmap, Forall_Forall2_diag, Forall_forall. intros t _. cbn.
    by rewrite elems_append.
  - intros b Hb. rewrite Hb. split; [done|]. split; [by intros nb Hnb; cbn; rewrite Hnb|].
    intros pod' (-> & _)%ToPod_spec. rewrite Haff. cbn [Spec ToPod_argument ar_set_spec].
    cbn [spec_Affinity]. rewrite Hb, !Hterms. by destruct (required_terms (Some b)).
Qed.

(** The spec's own tolerations and node selector reach nothing. *)
Lemma ToPod_ignores_scheduling ar arj scheme tolerations nodeSelector :
  let s := Spec ar in
  ToPod (Some (ar_set_spec ar
    (mkActionsRunnerSpec (Repository s) (Policy s) (Capabilities s) (spec_Annotations s)
       (spec_Labels s) (Version s) (Volumes s) (VolumeMounts s) (EnvFrom s) (Env s)
       (Resources s) (ServiceAccountName s) (spec_Affinity s) tolerations nodeSelector)))
    (Some arj) (Some scheme) =
  ToPod (Some ar) (Some arj) (Some scheme).
Proof. done. Qed.
End pods.

(** ** Examples *)

Module ConverterExamples.
Import Demo.

#[export] Instance process : Process := {|
  environ := {[ "KUBEACTIONS_RUNNER_IMAGE_VERSION" := "1.2.3" ]};
  OS := "linux"; Arch := "amd64"; Ver := "0.0.0" |}.

(** A runner with both capabilities, a storage request, secrets in its
    environment, a volume that takes a reserved name and an affinity. *)
Definition rich_spec (caps : list ActionsRunnerCapability) : ActionsRunnerSpec :=
  mkActionsRunnerSpec (mkActionsRunnerRepository "inloco" "kube-actions" "")
    (mkActionsRunnerPolicy None None) (Some caps) None None ""
    (Some [mkVolume "secret" (VolumeOther "hostPath"); mkVolume "data" (VolumeOther "emptyDir")])
    (Some [mkVolumeMount "/data" "data" "" ""])
    (Some [mkEnvFromSource "" (Some "settings") None; mkEnvFromSource "" None (Some "tokens")])
    (Some [mkEnvVar "A" "1" None; mkEnvVar "B" "" (Some (mkEnvVarSource (Some ("tokens", "b")) ""))])
    (Some {[ "runner" := mkResourceRequirements None
               (Some {[ "cpu" := 2; "storage" := 10; "nvidia.com/gpu" := 1 ]}) None ]})
    "builder"
    (Some (mkAffinity (Some (mkNodeAffinity (Some (Some [mkNodeSelectorTerm None "zone"])) "")) ""))
    (Some [mkToleration "spot" "Exists" "" ""]) None.
Definition rich (caps : list ActionsRunnerCapability) : ActionsRunner :=
  mkActionsRunner TypeMeta_zero (meta "r") (rich_spec caps).
Definition job : ActionsRunnerJob :=
  mkActionsRunnerJob TypeMeta_zero (meta "r") (mkActionsRunnerJobStatus "" "").
Definition both := [ActionsRunnerCapabilitySecret; ActionsRunnerCapabilityDocker].
Definition value {A} (zero : A) (r : result A) : A := value_or zero r.
Definition pod (caps : list ActionsRunnerCapability) : Pod :=
  value Pod_zero (ToPod (Some (rich caps)) (Some job) (Some scheme)).

Lemma pod_ok caps : ToPod (Some (rich caps)) (Some job) (Some scheme) = Ok (pod caps).
Proof. reflexivity. Qed.

Lemma ToPod_secrets_witness :
  exists c sidecars, Containers (pod_Spec (pod [])) = c :: sidecars /\
    elems (con_EnvFrom c) = [mkEnvFromSource "" (Some "settings") None].
Proof.
  destruct (ToPod_secrets _ _ _ _ (pod_ok [])) as (c & cs & Hcs & _ & _ & _ & Hfrom & _).
  exists c, cs. split; [exact Hcs|]. rewrite Hfrom. reflexivity.
Defined.

Lemma ToPod_volumes_witness :
  NoDup (vol_Name <$> elems (pod_Volumes (pod_Spec (pod both)))) /\
  mkVolume "secret" (VolumeSecret "r") ∈ elems (pod_Volumes (pod_Spec (pod both))).
Proof.
  destruct (ToPod_volumes _ _ _ _ (pod_ok both)) as (H & Hr & _). split; [exact H|].
  apply Hr. by apply (bool_decide_unpack _), I.
Defined.

Definition dotFiles : Files :=
  mkFiles (mkRunner 1 "r" false 1 "Default" true true "" "" "" "" false)
    (mkCredentials "OAuth" (mkCredentialsData "id" "" "" "False"))
    (mkRSAParameters (Some [1]) (Some [1]) (Some [1]) (Some [1]) (Some [1]) (Some [1]) (Some [1])
       (Some [1])).

Definition claim : PersistentVolumeClaim :=
  default PersistentVolumeClaim_zero
    (value None (ToPersistentVolumeClaim (Some (rich both)) (Some job) (Some scheme))).


Lemma resources_split_witness :
  mlookup (Requests (pvc_Resources claim)) "storage" = Some 10 /\
  mlookup (Requests (pvc_Resources claim)) "cpu" = None.
Proof.
  split.
  - exact (proj1 (resources_split (rich both) job scheme (Some claim) _ eq_refl (pod_ok both)) _ "storage" eq_refl).
  - exact (proj1 (resources_split (rich both) job scheme (Some claim) _ eq_refl (pod_ok both)) _ "cpu" eq_refl).
Defined.

Lemma ToPod_affinity_witness :
  exists a, pod_Affinity (pod_Spec (pod both)) = Some a /\
    Forall (fun t => nst_rest t = "zone") (required_terms (Some a)).
Proof.
  destruct (ToPod_affinity _ _ _ _ (pod_ok both)) as (a & na & Ha & _ & _ & Hts & _).
  exists a. split; [exact Ha|]. inversion Hts as [|t' t l' l [_ Ht] Hl]; subst.
  inversion Hl. constructor; [exact Ht|constructor].
Defined.
End ConverterExamples.
