(* ===== verification/Affinity.v ===== *)
(** * actionsrunner/util/converters.go: the affinity that is filled in place

    [withRuntimeAffinity] on the memory that the affinity shares with the runner it
    was taken from: what it returns, what becomes of the runner, and that a runner
    of which that one is a deep copy, as the cache of the client of the API server
    hands it out, stays as it is. *)

From S2P Require Export Ownership DeepCopy Converters.
#[local] Open Scope string_scope.

Section affinity.
Context {T : K8sTypes} {F : ForeignTypes} {L : ForeignLib} {Rt : Runtime cell} {Laws : ForeignLaws L}.
Context {Pr : Process}.
Implicit Types (m : memory cell) (fp : list addr).

(** [[]T{...}]: an array of its own *)
Definition slice_literal `{!Stored cell X} (l : list X) : action cell (window X) :=
  let& a := alloc (array_cell l) in ret (Window a 0 (length l) (length l)).

Definition set_NodeAffinity (a : AffinityM) (n : pointer NodeAffinityM) : AffinityM :=
  mkAffinityM (Some n) (m_aff_rest a).
Definition set_Required (n : NodeAffinityM) (s : pointer NodeSelectorM) : NodeAffinityM :=
  mkNodeAffinityM (Some s) (m_na_rest n).

(** [if len(nodeSelector.NodeSelectorTerms) == 0 { ... = append(..., NodeSelectorTerm{}) }] *)
Definition some_terms (s : pointer NodeSelectorM) : action cell (ptr (window NodeSelectorTermM)) :=
  let& n := load s in
  let terms := m_NodeSelectorTerms n in
  if bool_decide (from_option len 0%nat terms = 0%nat) then
    let& w := appending terms [zero_value] in
    let& _ := store s (mkNodeSelectorM (Some w)) in
    ret (Some w)
  else ret terms.

(** The expressions of one term with those of the runtime appended. *)
Definition with_expressions (t : NodeSelectorTermM) : action cell NodeSelectorTermM :=
  let& os := slice_literal [OS] in
  let& arch := slice_literal [Arch] in
  let& expressions := appending (m_MatchExpressions t)
    [mkNodeSelectorRequirementM "kubernetes.io/os" "In" (Some os);
     mkNodeSelectorRequirementM "kubernetes.io/arch" "In" (Some arch)] in
  ret (mkNodeSelectorTermM (Some expressions) (m_nst_rest t)).

(** [for i, nodeSelectorTerm := range nodeSelectorTerms { nodeSelectorTerms[i].MatchExpressions = ... }];
    the other fields of the element are those of the loop's variable. *)
Definition fill_terms (terms : ptr (window NodeSelectorTermM)) : action cell unit :=
  match terms with
  | Some w => each (seq 0 (len w)) (replace_element w with_expressions)
  | None => ret tt
  end.

Definition withRuntimeAffinityM (affinity : ptr (pointer AffinityM)) : action cell (pointer AffinityM) :=
  let& affinity := match affinity with None => new | Some affinity => ret affinity end in
  let& nodeAffinity := field_of m_NodeAffinity set_NodeAffinity affinity in
  let& nodeSelector :=
    field_of m_RequiredDuringSchedulingIgnoredDuringExecution set_Required nodeAffinity in
  let& nodeSelectorTerms := some_terms nodeSelector in
  let& _ := fill_terms nodeSelectorTerms in
  ret affinity.

(** ** What it does *)

Lemma literal_transforms m fp (l : list string) : NoDup fp -> (forall x, x ∈ fp -> is_Some (m !! x)) ->
  transforms (slice_literal l) m fp (fun m1 (w : window string) F => exists a, F = a :: fp /\ m ⊆ m1 /\
    reads m1 (Some w) (Some l) [a]).
Proof.
  intros Hnd Hal. unfold slice_literal. eapply transforms_bind; [by apply transforms_alloc|].
  intros m1 a Fp (Hnd1 & _) (-> & Hn & ->). apply transforms_ret; [done|].
  exists a. split_and!; [done|by apply insert_subseteq|].
  exists l, (replicate (length l) []). cbn. split_and!; [exact (array_at_insert (X := string) m a l)|lia|lia| |].
  - rewrite firstn_all. clear. by induction l; constructor.
  - f_equal. clear. by induction l.
Qed.

Lemma with_expressions_transforms m t a fp : reads m t a fp -> NoDup fp ->
  transforms (with_expressions t) m fp (fun m' t' fp' => reads m' t' (with_requirements a) fp').
Proof.
  intros Ht Hnd. pose proof (fun x => reads_alloc _ _ _ _ x Ht) as Hal.
  unfold with_expressions. eapply transforms_bind; [by apply literal_transforms|].
  intros m1 os Fp1 (Hnd1 & _) (ao & -> & Hm1 & Hos).
  assert (forall x, x ∈ ao :: fp -> is_Some (m1 !! x)) as Hal1.
  { intros x [->|Hx]%elem_of_cons; [apply (reads_alloc _ _ _ _ _ Hos); by left|].
    destruct (Hal x Hx) as [c Hc]. exists c. by eapply lookup_weaken. }
  eapply transforms_bind; [by apply literal_transforms|].
  intros m2 arch Fp2 (Hnd2 & _) (aa & -> & Hm2 & Harch).
  pose proof (reads_mono _ _ _ _ _ (reads_mono _ _ _ _ _ Ht Hm1) Hm2) as [_ (fp1 & fp2 & He & Hrest & ->)].
  cbn [fst snd] in *. eapply transforms_bind.
  { assert (aa :: ao :: fp1 ++ fp2 ≡ₚ (fp1 ++ concat [[ao]; [aa]]) ++ fp2) as Hperm.
    { cbn. rewrite <- (app_assoc fp1). cbn. rewrite <- !Permutation_middle. constructor. }
    eapply (transforms_frame _ _ (fp1 ++ concat [[ao]; [aa]]) fp2); [|exact Hperm|done|].
    - eapply (appending_transforms (A := NodeSelectorRequirement) _ _ _ _ _ runtime_requirements
                [[ao]; [aa]] He); [|done|].
      + constructor; [|constructor; [|constructor]]; (split; [done|]).
        * exact (reads_mono _ _ _ _ _ Hos Hm2).
        * exact Harch.
      + rewrite Hperm in Hnd2. by apply NoDup_app in Hnd2 as [? _].
    - intros x Hx. exact (reads_alloc _ _ _ _ _ Hrest Hx). }
  intros m3 w Fp3 (Hnd3 & _) (fpw & -> & Hw & Hk). apply transforms_ret; [done|].
  split; [exact I|]. exists fpw, fp2. split; [exact Hw|]. split; [|done].
  eapply reads_local; [|exact Hrest]. exact Hk.
Qed.

Lemma fill_terms_transforms {B} (b : B) m (w : window NodeSelectorTermM) ts fp :
  reads m (Some w) (Some ts) fp -> NoDup fp ->
  transforms (let& _ := fill_terms (Some w) in ret b) m fp (fun m' r fp' =>
    r = b /\ reads m' (Some w) (Some (map with_requirements ts)) fp').
Proof.
  intros Hw Hnd. eapply transforms_bind.
  - apply (each_transforms w with_expressions with_requirements with_expressions_transforms _ _ ts Hw Hnd).
  - intros m1 [] fp1 [Hnd1 _] Hr. by apply transforms_ret.
Qed.

(** The terms with which the loop goes on. *)
Definition terms_or_one (ts : slice NodeSelectorTerm) : slice NodeSelectorTerm :=
  match elems ts with [] => append ts [mkNodeSelectorTerm None opaque_zero] | _ => ts end.

Lemma zero_term_reads m : reads m (zero_value : NodeSelectorTermM) (mkNodeSelectorTerm None opaque_zero) [].
Proof. split; [exact I|]. exists [], []. split; [done|]. split; [apply zero_rest|done]. Qed.

Lemma some_terms_transforms m p n ts fp :
  array_at m (target p) = Some [n] -> reads m (m_NodeSelectorTerms n) ts fp ->
  NoDup (target p :: fp) ->
  transforms (some_terms p) m (target p :: fp) (fun m1 w Fp => exists w' fpw l, w = Some w' /\
    terms_or_one ts = Some l /\ Fp = target p :: fpw /\
    array_at m1 (target p) = Some [mkNodeSelectorM (Some w')] /\ reads m1 (Some w') (Some l) fpw).
Proof.
  intros Hp Hn Hnd. unfold some_terms. apply (transforms_reading _ _ _ _ n); [by apply load_read|].
  cbn zeta. case_bool_decide as Hlen.
  - assert (terms_or_one ts = append ts [mkNodeSelectorTerm None opaque_zero]) as ->.
    { unfold terms_or_one. destruct (m_NodeSelectorTerms n) as [w|], ts as [ts|]; try done.
      destruct Hn as (cells & fps & _ & _ & _ & Hr & _). cbn in Hlen. rewrite Hlen in Hr.
      by inversion Hr. }
    assert (append ts [mkNodeSelectorTerm None opaque_zero] =
            Some (elems ts ++ [mkNodeSelectorTerm None opaque_zero])%list) as Happ by by destruct ts.
    assert (NoDup (fp ++ concat [[]] : list addr)) as Hnd0.
    { cbn. rewrite app_nil_r. by apply NoDup_cons in Hnd as [_ ?]. }
    eapply transforms_bind.
    { eapply (transforms_frame _ _ _ [target p]); [|..|exact Hnd|].
      - eapply (appending_transforms _ _ _ _ [zero_value] [mkNodeSelectorTerm None opaque_zero] [[]] Hn);
          [|done|exact Hnd0]. constructor; [apply zero_term_reads|constructor].
      - cbn. by rewrite app_nil_r, <- Permutation_cons_append.
      - intros x ->%list_elem_of_singleton. exact (array_at_alloc _ _ _ Hp). }
    intros m1 w Fp1 (Hnd1 & _) (fpw & -> & Hw & Hk). rewrite Happ in *.
    assert (array_at m1 (target p) = Some [n]) as Hp1.
    { unfold array_at. rewrite Hk by left. exact Hp. }
    rewrite <- Permutation_cons_append in Hnd1.
    destruct (transforms_store m1 p [n] (mkNodeSelectorM (Some w)) fpw Hp1 Hnd1)
      as (m2 & [] & F2 & Hst & Hwi & -> & Hp2 & Hk2).
    exists m2, (Some w), (target p :: fpw). split_and!.
    + unfold andAlso. by rewrite Hst.
    + eapply within_perm; [apply Permutation_cons_append|reflexivity|exact Hwi].
    + eexists w, fpw, _. split_and!; [done..|]. eapply reads_local; [|exact Hw]. exact Hk2.
  - destruct n as [[w|]]; [|done]. destruct ts as [ts|]; [|done]. cbn in Hlen.
    apply transforms_ret; [done|]. exists w, fp, ts. split_and!; [done| |done..].
    destruct Hn as (cells & fps & _ & Hc & Hcap & Hr & _). unfold terms_or_one. cbn.
    apply Forall3_length_lm in Hr. rewrite length_take, length_drop in Hr. by destruct ts; [cbn in Hr; lia|].
Qed.

Lemma terms_transforms {B} (b : B) m p ts fp :
  reads m (Some p) (Some ts) fp -> NoDup fp ->
  transforms (let& terms := some_terms p in let& _ := fill_terms terms in ret b) m fp
    (fun m' r fp' => r = b /\ reads m' (Some p) (Some (fmap (map with_requirements) (terms_or_one ts))) fp').
Proof.
  intros (n & fp0 & Hp & [_ Hn] & ->) Hnd. unfold id in Hn.
  eapply transforms_bind with (Q := fun m1 w Fp => exists w' fpw l, w = Some w' /\
    terms_or_one ts = Some l /\ Fp = target p :: fpw /\
    array_at m1 (target p) = Some [mkNodeSelectorM (Some w')] /\ reads m1 (Some w') (Some l) fpw).
  - by eapply some_terms_transforms.
  - intros m1 ? Fp [Hnd1 _] (w & fpw & l & -> & -> & -> & Hp1 & Hw).
    pose proof (NoDup_cons_1_2 _ _ Hnd1) as Hndw.
    destruct (transforms_frame _ _ _ [target p] (target p :: fpw) _
      (fill_terms_transforms b m1 w l fpw Hw Hndw)) as (m2 & r & Fp2 & Hf & Hwi & fpw' & -> & (-> & Hr) & Hk);
      [|done| |].
    + by rewrite <- Permutation_cons_append.
    + intros x ->%list_elem_of_singleton. exact (array_at_alloc _ _ _ Hp1).
    + exists m2, b, (target p :: fpw'). split_and!; [done| |done|].
      * eapply within_perm; [reflexivity| |exact Hwi]. by rewrite <- Permutation_cons_append.
      * exists (mkNodeSelectorM (Some w)), fpw'. split_and!; [|by split|done].
        unfold array_at. rewrite Hk by left. exact Hp1.
Qed.

(** Two parts of a struct: the first may be replaced by another that is elsewhere. *)
Lemma two_parts `{Reader cell R1 A1, Reader cell R2 A2} m (r1 : R1) (r2 : R2) (a1 : A1) (a2 : A2) fp :
  reads m (r1, r2) (a1, a2) fp ->
  exists fp1 fp2, fp = (fp1 ++ fp2)%list /\ reads m r1 a1 fp1 /\
    forall m' (r1' : R1) (a1' : A1) fp1', (forall y, y ∈ fp2 -> m' !! y = m !! y) ->
      reads m' r1' a1' fp1' -> reads m' (r1', r2) (a1', a2) (fp1' ++ fp2)%list.
Proof.
  intros (fp1 & fp2 & H1' & H2' & ->). exists fp1, fp2. split_and!; [done..|].
  intros m' r1' a1' fp1' Hm Hr. exists fp1', fp2. split_and!; [done| |done].
  eapply reads_local; [|exact H2']. exact Hm.
Qed.

Definition filled_terms (ts : slice NodeSelectorTerm) : slice NodeSelectorTerm :=
  fmap (map with_requirements) (terms_or_one ts).
Definition filled_node (na : NodeAffinity) : NodeAffinity :=
  mkNodeAffinity (Some (filled_terms (default None (RequiredTerms na)))) (na_rest na).

Lemma node_transforms {B} (b : B) m p na fp :
  reads m (Some p) (Some na) fp -> NoDup fp ->
  transforms
    (let& nodeSelector :=
       field_of m_RequiredDuringSchedulingIgnoredDuringExecution set_Required p in
     let& terms := some_terms nodeSelector in let& _ := fill_terms terms in ret b) m fp
    (fun m' r fp' => r = b /\ reads m' (Some p) (Some (filled_node na)) fp').
Proof.
  apply (field_transforms m_RequiredDuringSchedulingIgnoredDuringExecution set_Required RequiredTerms
           (fun na ts => mkNodeAffinity (Some ts) (na_rest na)) None).
  - intros m' r a fp' [_ Hr]. destruct (two_parts _ _ _ _ _ _ Hr) as (fp1 & fp2 & -> & H1 & H2).
    exists fp1, fp2. split_and!; [done..|]. intros m2 x v fp1' Hm Hx. split; [exact I|].
    exact (H2 m2 (Some x) (Some v) fp1' Hm Hx).
  - intros [] x Hx. cbn in *. by subst.
  - intros m'. by split.
  - intros m' x ts fp'. apply terms_transforms.
Qed.

(** [withRuntimeAffinity] returns an affinity as [Converters] describes it: the
    one it is given, filled in place, or a new one; nothing else in memory
    changes. *)
Lemma withRuntimeAffinity_in_place m p o fp :
  reads m p o fp -> NoDup fp ->
  transforms (withRuntimeAffinityM p) m fp (fun m' q fp' =>
    (forall p0, p = Some p0 -> q = p0) /\ reads m' (Some q) (Some (withRuntimeAffinity o)) fp').
Proof.
  intros Hp Hnd. unfold withRuntimeAffinityM.
  eapply transforms_bind with (Q := fun m1 q Fp => (forall p0, p = Some p0 -> q = p0) /\
    reads m1 (Some q) (Some (default (mkAffinity None opaque_zero) o)) Fp).
  - destruct p as [p|], o as [o|]; try done.
    + apply transforms_ret; [done|]. split; [|done]. by intros p0 [= ->].
    + cbn in Hp. subst fp. unfold new. eapply transforms_bind.
      { apply transforms_alloc; [constructor|]. by intros x ?%elem_of_nil. }
      intros m1 a Fp (Hnd1 & _) (-> & Hn & ->). apply transforms_ret; [done|]. split; [done|].
      exists zero_value, []. split_and!; [exact (array_at_insert (X := AffinityM) m a [zero_value])| |done].
      split; [exact I|]. exists [], []. split; [done|]. split; [apply zero_rest|done].
  - intros m1 q Fp [Hnd1 _] [Hq Hr]. eapply transforms_mono.
    + apply (field_transforms m_NodeAffinity set_NodeAffinity aff_NodeAffinity
               (fun a na => mkAffinity (Some na) (aff_rest a)) (mkNodeAffinity None opaque_zero))
        with (b := q) (h := filled_node) (a := default (mkAffinity None opaque_zero) o); [..|exact Hr|exact Hnd1].
      * intros m' r a fp' [_ Hr']. destruct (two_parts _ _ _ _ _ _ Hr') as (fp1 & fp2 & -> & H1 & H2).
        exists fp1, fp2. split_and!; [done..|]. intros m2 x v fp1' Hm Hx. split; [exact I|].
        exact (H2 m2 (Some x) (Some v) fp1' Hm Hx).
      * intros [] x Hx. cbn in *. by subst.
      * intros m'. split; [exact I|]. exists [], []. split; [done|]. split; [apply zero_rest|done].
      * intros m' x na fp'. apply node_transforms.
    + intros m2 ? Fp' _ [-> Hr']. split; [done|]. exact Hr'.
Qed.

(** ** What becomes of the runner *)

(** The runner with another affinity. *)
Definition with_affinity (ar : ActionsRunner) (o : ptr Affinity) : ActionsRunner :=
  let s := Spec ar in
  ar_set_spec ar
    (mkActionsRunnerSpec (Repository s) (Policy s) (Capabilities s) (spec_Annotations s)
       (spec_Labels s) (Version s) (Volumes s) (VolumeMounts s) (EnvFrom s) (Env s)
       (Resources s) (ServiceAccountName s) o (Tolerations s) (NodeSelector s)).

(** The affinity of a runner in memory is read at addresses of its own. *)
Lemma runner_affinity m p ar fp :
  reads m (Some p) (Some ar) fp ->
  exists r fa rest, load p m = Some (m, r) /\ fp ≡ₚ (fa ++ rest)%list /\
    reads m (m_Affinity (m_Spec r)) (spec_Affinity (Spec ar)) fa /\
    forall m' o fa', (forall y, y ∈ rest -> m' !! y = m !! y) ->
      reads m' (m_Affinity (m_Spec r)) o fa' ->
      exists fp', reads m' (Some p) (Some (with_affinity ar o)) fp'.
Proof.
  intros (r & fp0 & Hp & [Ht (fm & fs & Hm & [Hsame (f1 & ? & R1 & (f2 & ? & R2 & (f3 & ? & R3 &
    (f4 & ? & R4 & (f5 & ? & R5 & (f6 & ? & R6 & (f7 & ? & R7 & (f8 & ? & R8 & (f9 & ? & R9 &
    (f10 & ? & R10 & (f11 & f12 & R11 & R12 & ->) & ->) & ->) & ->) & ->) & ->) & ->) & ->) & ->) & ->)
    & ->)] & ->)] & ->).
  cbn [fst snd] in *.
  set (before := (target p :: fm ++ f1 ++ f2 ++ f3 ++ f4 ++ f5 ++ f6 ++ f7 ++ f8 ++ f9)%list).
  exists r, f10, (before ++ f11 ++ f12)%list. split_and!; [by apply load_read| |done|].
  - transitivity (before ++ f10 ++ f11 ++ f12)%list; [|apply Permutation_app_swap_app].
    unfold before. cbn. by rewrite <- !app_assoc.
  - intros m' o fa' Hk Ho. eexists.
    assert (forall R A (HR : Reader cell R A) (x : R) (a : A) f,
      (forall y, y ∈ f -> y ∈ (before ++ f11 ++ f12)%list) -> reads m x a f -> reads m' x a f) as Hkeep.
    { intros R A HR x a f Hi Hx. eapply reads_local; [|exact Hx]. auto. }
    assert (forall y, y ∈ (before ++ f11 ++ f12)%list <-> y = target p \/ y ∈ fm \/ y ∈ f1 \/ y ∈ f2 \/
      y ∈ f3 \/ y ∈ f4 \/ y ∈ f5 \/ y ∈ f6 \/ y ∈ f7 \/ y ∈ f8 \/ y ∈ f9 \/ y ∈ f11 \/ y ∈ f12) as Hin.
    { intros y. unfold before. rewrite !elem_of_app, elem_of_cons, !elem_of_app. tauto. }
    exists r. eexists. split_and!; [| |done].
    + unfold array_at. rewrite Hk by (apply Hin; by left). exact Hp.
    + split; [exact Ht|].
      repeat first
        [ eexists _, _; split; [|split; [|reflexivity]]
        | split; [exact Hsame|] ];
      first [ exact Ho | eapply Hkeep; [|eassumption]; intros y; rewrite Hin; tauto ].
Qed.

(** [ToPod] leaves of the runner what [Converters.ToPod_argument] says, and the
    Pod has the affinity that the runner then has. *)
Lemma fills_runner m p ar fp :
  reads m (Some p) (Some ar) fp -> NoDup fp ->
  exists r m' q, load p m = Some (m, r) /\
    withRuntimeAffinityM (m_Affinity (m_Spec r)) m = Some (m', q) /\
    (exists fq, reads m' (Some q) (Some (withRuntimeAffinity (spec_Affinity (Spec ar)))) fq) /\
    (exists fp', reads m' (Some p) (Some (ToPod_argument ar)) fp') /\
    (forall x, x ∉ fp -> is_Some (m !! x) -> m' !! x = m !! x).
Proof.
  intros Hp Hnd. destruct (runner_affinity m p ar fp Hp) as (r & fa & rest & Hl & Hfp & Ha & Hclose).
  assert (forall x, x ∈ rest -> is_Some (m !! x)) as Hal.
  { intros x Hx. apply (reads_alloc _ _ _ _ _ Hp). rewrite Hfp. apply elem_of_app. by right. }
  pose proof Hnd as Hnd'. rewrite Hfp in Hnd'. pose proof Hnd' as (Hnda & _)%NoDup_app.
  destruct (withRuntimeAffinity_in_place m _ _ fa Ha Hnda) as (m' & q & fq & Hrun & Hw & Hq & Hr).
  destruct (within_frame m m' fa fq rest Hnd' Hal Hw) as [Hw' Hk].
  exists r, m', q. split_and!; [done|done|eauto| |].
  - destruct (m_Affinity (m_Spec r)) as [pa|] eqn:Hpa, (spec_Affinity (Spec ar)) as [a|] eqn:Hsa; try done.
    + rewrite (Hq pa eq_refl) in Hr. unfold ToPod_argument. rewrite Hsa. exact (Hclose m' _ fq Hk Hr).
    + unfold ToPod_argument. rewrite Hsa. exact (Hclose m' None [] Hk eq_refl).
  - intros x Hx. destruct Hw' as (_ & _ & Hkeep). apply Hkeep. by rewrite <- Hfp.
Qed.

(** [C11] The Pod is made from a copy: when the cache of the client hands out a deep
    copy of a runner and [ToPod] takes the affinity of that copy, filling it in
    place, the Pod's affinity is the one that [Converters] describes, the runner the
    controller holds is left with its affinity filled, and the runner in the cache
    means what it meant, whatever they shared before. *)
Theorem cache_survives_conversion m p ar fp :
  reads m (Some p) (Some ar) fp ->
  exists m1 c r m2 q, ActionsRunner_DeepCopy (Some p) m = Some (m1, Some c) /\
    load c m1 = Some (m1, r) /\
    withRuntimeAffinityM (m_Affinity (m_Spec r)) m1 = Some (m2, q) /\
    (exists fq, reads m2 (Some q) (Some (withRuntimeAffinity (spec_Affinity (Spec ar)))) fq) /\
    (exists fc, reads m2 (Some c) (Some (ToPod_argument ar)) fc) /\
    reads m2 (Some p) (Some ar) fp.
Proof.
  intros Hp.
  destruct (ptr_copies (A := ActionsRunner) _ runner_copies m _ _ _ Hp)
    as (m1 & c & fc & Hc & (Hm1 & Hnd & Hfc) & Hr).
  destruct c as [c|]; [|done].
  destruct (fills_runner m1 c ar fc Hr Hnd) as (r & m2 & q & Hl & Hrun & Hq & Hc2 & Hk).
  exists m1, c, r, m2, q. split_and!; [done..|]. eapply reads_local, (reads_mono _ _ _ _ _ Hp Hm1).
  intros x Hx. destruct (reads_alloc _ _ _ _ _ Hp Hx) as [k Hkx]. apply Hk.
  - intros [Hn _]%Hfc. congruence.
  - exists k. by eapply lookup_weaken.
Qed.
End affinity.

(** ** Examples *)

Module AffinityExamples.
Import Demo DeepCopyExamples.
#[local] Existing Instance ConverterExamples.process.

Lemma cache_survives_conversion_witness :
  exists m1 c r m2 q, ActionsRunner_DeepCopy (Some (Pointer 1%positive)) affine_memory = Some (m1, Some c) /\
    load c m1 = Some (m1, r) /\
    withRuntimeAffinityM (m_Affinity (m_Spec r)) m1 = Some (m2, q) /\
    reads m2 (Some (Pointer 1%positive : pointer ActionsRunnerM)) (Some affine) [1; 2; 2; 3; 4; 5; 6]%positive.
Proof.
  destruct (cache_survives_conversion affine_memory (Pointer 1%positive) affine _ affine_reads)
    as (m1 & c & r & m2 & q & H1 & H2 & H3 & _ & _ & H6).
  exists m1, c, r, m2, q. split; [exact H1|]. split; [exact H2|]. split; [exact H3|exact H6].
Defined.

(** How many expressions the terms of the affinity at 3 have, in the array at 6. *)
Definition expressions (m : memory cell) : option (list nat) :=
  map (fun t : NodeSelectorTermM => from_option len 0%nat (m_MatchExpressions t)) <$>
    (array_at m 6%positive : option (list NodeSelectorTermM)).
Definition after_filling (m : memory cell) : memory cell :=
  match withRuntimeAffinityM (Some (Pointer 3%positive)) m with Some (m', _) => m' | None => ∅ end.

(** Filling the affinity of the runner itself, once and again: the first term has
    the requirements once and then twice; what the array holds beyond the slice is
    left alone. *)
Example filled_twice :
  expressions affine_memory = Some [0; 0]%nat /\
  expressions (after_filling affine_memory) = Some [2; 0]%nat /\
  expressions (after_filling (after_filling affine_memory)) = Some [4; 0]%nat.
Proof. split_and!; vm_compute; reflexivity. Qed.

(** Filling the affinity of a copy leaves the runner's. *)
Example copy_filled :
  match ActionsRunner_DeepCopy (Some (Pointer 1%positive)) affine_memory with
  | Some (m1, Some c) =>
      match (let& r := load c in withRuntimeAffinityM (m_Affinity (m_Spec r))) m1 with
      | Some (m2, q) => expressions m2
      | None => None
      end
  | _ => None
  end = Some [0; 0]%nat.
Proof. vm_compute. reflexivity. Qed.
End AffinityExamples.
