(* ===== verification/DotFiles.v ===== *)
(** * The dot files, read back

    [ToDotFiles] of [util/converters.go], which reads the files of a runner out of
    its ConfigMap and its Secret, by the decoding of [dot]'s structs; it undoes
    [ToConfigMap] and [ToSecret]. *)

From S2P Require Export Converters Unmarshal.
#[local] Open Scope string_scope.

(** ** The structs of dot *)

Definition decode_Runner : json -> Runner -> result Runner := decode_struct (fun l r =>
  let? agentId := field decode_int "agentId" l (AgentId r) in
  let? agentName := field decode_string "agentNameTemplate" l (AgentName r) in
  let? skipSessionRecover := field decode_bool "skipSessionRecover" l (SkipSessionRecover r) in
  let? poolId := field decode_int "poolId" l (PoolId r) in
  let? poolName := field decode_string "poolName" l (PoolName r) in
  let? disableUpdate := field decode_bool "disableUpdate" l (DisableUpdate r) in
  let? ephemeral := field decode_bool "ephemeral" l (Ephemeral r) in
  let? serverUrl := field decode_string "serverUrl" l (ServerUrl r) in
  let? gitHubUrl := field decode_string "gitHubUrl" l (GitHubUrl r) in
  let? workFolder := field decode_string "workFolder" l (WorkFolder r) in
  let? monitorSocketAddress := field decode_string "monitorSocketAddress" l (MonitorSocketAddress r) in
  let? isHostedServer := field decode_bool "isHostedServer" l (IsHostedServer r) in
  Ok (mkRunner agentId agentName skipSessionRecover poolId poolName disableUpdate ephemeral
        serverUrl gitHubUrl workFolder monitorSocketAddress isHostedServer)).

Definition decode_CredentialsData : json -> CredentialsData -> result CredentialsData :=
  decode_struct (fun l d =>
  let? clientId := field decode_string "clientId" l (ClientId d) in
  let? authorizationUrl := field decode_string "authorizationUrl" l (AuthorizationURL d) in
  let? oauthEndpointUrl := field decode_string "oauthEndpointUrl" l (OAuthEndpointURL d) in
  let? requireFips := field decode_string "requireFipsCryptography" l (RequireFipsCryptography d) in
  Ok (mkCredentialsData clientId authorizationUrl oauthEndpointUrl requireFips)).

Definition decode_Credentials : json -> Credentials -> result Credentials := decode_struct (fun l c =>
  let? scheme := field decode_string "scheme" l (cred_Scheme c) in
  let? data := field decode_CredentialsData "data" l (cred_Data c) in
  Ok (mkCredentials scheme data)).

Definition decode_RSAParameters : json -> RSAParameters -> result RSAParameters :=
  decode_struct (fun l p =>
  let? d := field decode_bytes "d" l (rsa_D p) in
  let? dp := field decode_bytes "dp" l (rsa_DP p) in
  let? dq := field decode_bytes "dq" l (rsa_DQ p) in
  let? exponent := field decode_bytes "exponent" l (rsa_Exponent p) in
  let? inverseQ := field decode_bytes "inverseQ" l (rsa_InverseQ p) in
  let? modulus := field decode_bytes "modulus" l (rsa_Modulus p) in
  let? prime := field decode_bytes "p" l (rsa_P p) in
  let? prime' := field decode_bytes "q" l (rsa_Q p) in
  Ok (mkRSAParameters d dp dq exponent inverseQ modulus prime prime')).

(** [dot.Files{}] *)
Definition zero_Runner : Runner := mkRunner 0 "" false 0 "" false false "" "" "" "" false.
Definition zero_Credentials : Credentials := mkCredentials "" (mkCredentialsData "" "" "" "").
Definition zero_RSAParameters : RSAParameters := mkRSAParameters None None None None None None None None.

(** ** converters.go *)

Section converters.
Context {T : K8sTypes} {L : K8sLib} `{!Process}.

(** [return nil] at an error *)
Definition or_nil {A} (r : result A) : option A := match r with Ok a => Some a | Err _ => None end.

Definition ToDotFiles (configMap : ptr ConfigMap) (secret : ptr Secret) : ptr Files :=
  configMap ← configMap;
  binaryData ← BinaryData configMap;
  runner ← binaryData !! ".runner";
  runner ← or_nil (json_Unmarshal decode_Runner runner zero_Runner);
  credentials ← binaryData !! ".credentials";
  credentials ← or_nil (json_Unmarshal decode_Credentials credentials zero_Credentials);
  secret ← secret;
  data ← Data secret;
  rsaparams ← data !! ".credentials_rsaparams";
  rsaparams ← or_nil (json_Unmarshal decode_RSAParameters rsaparams zero_RSAParameters);
  Some (mkFiles runner credentials rsaparams).

(** ** Reading back *)

(** The ids are Go ints, and the byte slices bytes. *)
Definition byte_slice (b : slice Z) : Prop := forall l, b = Some l -> Forall (fun x => 0 <= x < 256) l.
Record files_fit (f : Files) : Prop := mkFilesFit {
  fit_AgentId : - 2 ^ 63 <= AgentId (files_Runner f) < 2 ^ 63;
  fit_PoolId : - 2 ^ 63 <= PoolId (files_Runner f) < 2 ^ 63;
  fit_rsa : let p := files_RSAParameters f in
    byte_slice (rsa_D p) /\ byte_slice (rsa_DP p) /\ byte_slice (rsa_DQ p) /\ byte_slice (rsa_Exponent p) /\
    byte_slice (rsa_InverseQ p) /\ byte_slice (rsa_Modulus p) /\ byte_slice (rsa_P p) /\ byte_slice (rsa_Q p);
}.

#[local] Hint Constructors wf_json : core.
Lemma wf_omitempty_string k v : Forall (fun kv => wf_json kv.2) (omitempty_string k v).
Proof. unfold omitempty_string. case_bool_decide; repeat constructor. Qed.
Lemma wf_omitempty_int k v : Forall (fun kv => wf_json kv.2) (omitempty_int k v).
Proof. unfold omitempty_int. case_bool_decide; repeat constructor. apply pretty_literal. Qed.
Lemma wf_omitempty_bool k v : Forall (fun kv => wf_json kv.2) (omitempty_bool k v).
Proof. destruct v; repeat constructor. Qed.
Lemma wf_json_bytes b : wf_json (json_bytes b).
Proof. destruct b; constructor. Qed.

Lemma wf_Runner_json r : wf_json (Runner_json r).
Proof.
  constructor. repeat apply Forall_app_2;
    auto using wf_omitempty_string, wf_omitempty_int, wf_omitempty_bool.
Qed.
Lemma wf_Credentials_json c : wf_json (Credentials_json c).
Proof. repeat constructor. Qed.
Lemma wf_RSAParameters_json p : wf_json (RSAParameters_json p).
Proof. repeat constructor; apply wf_json_bytes. Qed.

(** A field among members that may be left out: the others have other names. *)
Lemma field_here {A} (decode : json -> A -> result A) name l1 l2 x v :
  field decode name l1 x = Ok v -> others name l2 = true -> field decode name (l1 ++ l2) x = Ok v.
Proof. intros H1 H2. rewrite field_app, H1. by apply field_others. Qed.
Lemma field_skip {A} (decode : json -> A -> result A) name l1 l2 x v :
  others name l1 = true -> field decode name l2 x = Ok v -> field decode name (l1 ++ l2) x = Ok v.
Proof. intros H1 H2. by rewrite field_app, field_others. Qed.

Ltac other_name :=
  first [apply others_omit_string|apply others_omit_int|apply others_omit_bool]; reflexivity.
Ltac own_name :=
  first [apply field_omit_string; reflexivity|apply field_omit_bool; reflexivity
        |apply field_omit_int; [reflexivity|assumption]].
Ltac find_field :=
  first [ own_name
        | eapply field_here; [own_name|repeat (apply others_app; [other_name|]); other_name]
        | eapply field_skip; [other_name|find_field] ].

Lemma decode_Runner_json r :
  - 2 ^ 63 <= AgentId r < 2 ^ 63 -> - 2 ^ 63 <= PoolId r < 2 ^ 63 ->
  decode_Runner (Runner_json r) zero_Runner = Ok r.
Proof.
  intros Ha Hp. destruct r as [a an s p pn d e su gu w m i]. cbn [AgentId PoolId] in *.
  unfold decode_Runner, decode_struct, Runner_json.
  cbn [AgentId AgentName SkipSessionRecover PoolId PoolName DisableUpdate Ephemeral ServerUrl GitHubUrl
       WorkFolder MonitorSocketAddress IsHostedServer zero_Runner].
  lazymatch goal with |- context [field decode_int "agentId" ?members] => set (l := members) end.
  assert (field decode_int "agentId" l 0 = Ok a) as -> by (unfold l; find_field).
  assert (field decode_string "agentNameTemplate" l "" = Ok an) as -> by (unfold l; find_field).
  assert (field decode_bool "skipSessionRecover" l false = Ok s) as -> by (unfold l; find_field).
  assert (field decode_int "poolId" l 0 = Ok p) as -> by (unfold l; find_field).
  assert (field decode_string "poolName" l "" = Ok pn) as -> by (unfold l; find_field).
  assert (field decode_bool "disableUpdate" l false = Ok d) as -> by (unfold l; find_field).
  assert (field decode_bool "ephemeral" l false = Ok e) as -> by (unfold l; find_field).
  assert (field decode_string "serverUrl" l "" = Ok su) as -> by (unfold l; find_field).
  assert (field decode_string "gitHubUrl" l "" = Ok gu) as -> by (unfold l; find_field).
  assert (field decode_string "workFolder" l "" = Ok w) as -> by (unfold l; find_field).
  assert (field decode_string "monitorSocketAddress" l "" = Ok m) as -> by (unfold l; find_field).
  assert (field decode_bool "isHostedServer" l false = Ok i) as -> by (unfold l; find_field).
  done.
Qed.

Lemma decode_Credentials_json c : decode_Credentials (Credentials_json c) zero_Credentials = Ok c.
Proof. by destruct c as [s [ci au oe rf]]. Qed.

Lemma decode_RSAParameters_json p :
  byte_slice (rsa_D p) -> byte_slice (rsa_DP p) -> byte_slice (rsa_DQ p) -> byte_slice (rsa_Exponent p) ->
  byte_slice (rsa_InverseQ p) -> byte_slice (rsa_Modulus p) -> byte_slice (rsa_P p) -> byte_slice (rsa_Q p) ->
  decode_RSAParameters (RSAParameters_json p) zero_RSAParameters = Ok p.
Proof.
  intros. destruct p as [d dp dq e iq m p q]. unfold decode_RSAParameters, decode_struct, RSAParameters_json.
  cbn -[decode_bytes json_bytes]. rewrite !decode_json_bytes by done. done.
Qed.

End converters.

(** ** Examples *)

Module DotFilesExamples.
Import Demo ConverterExamples.

(** A file with characters that are escaped, and with a key that is missing. *)
Definition odd_files : Files :=
  mkFiles (mkRunner 7 "a <b> & \c" true (-1) "" false true "https://x/?a=1&b=2" "" "_work" "" false)
    (mkCredentials "OAuth" (mkCredentialsData "id" "" "" "False"))
    (mkRSAParameters (Some [255; 0]) (Some []) None (Some [1; 0; 1]) (Some [1]) (Some [1]) (Some [1]) (Some [1])).

Lemma odd_files_fit : files_fit odd_files.
Proof.
  split; [by vm_compute|by vm_compute|].
  split_and!; intros l [= <-]; repeat constructor; by vm_compute.
Qed.


(** Keys in any case, white space, and a member of no field. *)
Definition quoted (s : string) : string := quote ++ s ++ quote.
Example folded_key :
  json_Unmarshal decode_Runner ("{ " ++ quoted "AGENTID" ++ " : 12 , " ++ quoted "x" ++ ": [{}, -1.5e3] }") zero_Runner =
  Ok (mkRunner 12 "" false 0 "" false false "" "" "" "" false).
Proof. by vm_compute. Qed.
Example no_integer :
  json_Unmarshal decode_Runner ("{" ++ quoted "agentId" ++ ":12.0}") zero_Runner = Err unmarshal_type.
Proof. by vm_compute. Qed.
Example cut_short : json_Unmarshal decode_Runner ("{" ++ quoted "agentId" ++ ":12") zero_Runner = Err syntax_error.
Proof. by vm_compute. Qed.
End DotFilesExamples.
