(* ===== verification/JobReconciler.v ===== *)
(** * internal/controller/actionsrunnerjob/reconciler.go

    One pass of the controller that gives an ActionsRunnerJob its
    PersistentVolumeClaim and its Pod, mirrors their phases in its status and
    deletes them when they are beyond repair. *)

From S2P Require Export Converters.
#[local] Open Scope string_scope.

(** ** The reconciler *)

Section job.
Context {T : K8sTypes} {L : K8sLib} `{!Process}.

Definition eventFilter (e : Event) : bool :=
  match EventObject e with
  | Some (OActionsRunnerJob _) =>
      match e with CreateEvent _ | UpdateEvent _ _ => true | _ => false end
  | Some (OPersistentVolumeClaim _) | Some (OPod _) =>
      match e with UpdateEvent _ _ | DeleteEvent _ => true | _ => false end
  | _ => true
  end.

(** [r.Get] of the claim, and its creation when it is not found: the variable
    then stays zero.  The left result is an error to return. *)
Definition getClaim (scheme : ptr Scheme) (req : ObjectKey) (ar : ActionsRunner)
    (arj : ActionsRunnerJob) : prog kube (result PersistentVolumeClaim) :=
  let! r := call (Get KPersistentVolumeClaim req) in
  match r with
  | Ok pvc => Ret (Ok pvc)
  | Err e =>
      if IsNotFound e then
        match ToPersistentVolumeClaim (Some ar) (Some arj) scheme with
        | Err e => Ret (Err e)
        | Ok None => Ret (Ok PersistentVolumeClaim_zero)
        | Ok (Some desired) =>
            let! err := call (Create (OPersistentVolumeClaim desired)) in
            match IgnoreAlreadyExists err with
            | Some e => Ret (Err e)
            | None => Ret (Ok PersistentVolumeClaim_zero)
            end
        end
      else Ret (Err e)
  end.

(** The same for the Pod, which is always wanted. *)
Definition getPod (scheme : ptr Scheme) (req : ObjectKey) (ar : ActionsRunner)
    (arj : ActionsRunnerJob) : prog kube (result Pod) :=
  let! r := call (Get KPod req) in
  match r with
  | Ok pod => Ret (Ok pod)
  | Err e =>
      if IsNotFound e then
        match ToPod (Some ar) (Some arj) scheme with
        | Err e => Ret (Err e)
        | Ok desired =>
            let! err := call (Create (OPod desired)) in
            match IgnoreAlreadyExists err with
            | Some e => Ret (Err e)
            | None => Ret (Ok Pod_zero)
            end
        end
      else Ret (Err e)
  end.

(** The status write and the deletions end the pass, ignoring NotFound. *)
Definition updateStatus (arj : ActionsRunnerJob) (s : ActionsRunnerJobStatus) : prog kube goerr :=
  let! err := call (StatusUpdate (OActionsRunnerJob (arj_set_status arj s))) in
  Ret (IgnoreNotFound err).
Definition deleteObject (o : object) : prog kube goerr :=
  let! err := call (Delete o) in
  Ret (IgnoreNotFound err).

(** The second half of a pass: the Pod. *)
Definition reconcilePod (scheme : ptr Scheme) (req : ObjectKey) (ar : ActionsRunner)
    (arj : ActionsRunnerJob) : prog kube goerr :=
  let! pod := getPod scheme req ar arj in
  match pod with
  | Err e => Ret (Some e)
  | Ok pod =>
      let podPhase := pod_Phase pod in
      if bool_decide (PodPhase (arj_Status arj) <> podPhase) then
        updateStatus arj (mkActionsRunnerJobStatus
                            (PersistentVolumeClaimPhase (arj_Status arj)) podPhase)
      else if IsBeingDeleted (Some (OPod pod)) then Ret None
      else if bool_decide (podPhase = PodUnknown) then deleteObject (OPod pod)
      else Ret None
  end.

(** The first half: the claim. *)
Definition reconcileClaim (scheme : ptr Scheme) (req : ObjectKey) (ar : ActionsRunner)
    (arj : ActionsRunnerJob) : prog kube goerr :=
  let! pvc := getClaim scheme req ar arj in
  match pvc with
  | Err e => Ret (Some e)
  | Ok pvc =>
      let pvcPhase := pvc_Phase pvc in
      if bool_decide (PersistentVolumeClaimPhase (arj_Status arj) <> pvcPhase) then
        updateStatus arj (mkActionsRunnerJobStatus pvcPhase (PodPhase (arj_Status arj)))
      else if IsBeingDeleted (Some (OPersistentVolumeClaim pvc)) then Ret None
      else if bool_decide (pvcPhase = ClaimLost) then deleteObject (OPersistentVolumeClaim pvc)
      else reconcilePod scheme req ar arj
  end.

Definition Reconcile (scheme : ptr Scheme) (req : ObjectKey) : prog kube goerr :=
  let! r := call (Get KActionsRunnerJob req) in
  match r with
  | Err e => if IsNotFound e then Ret None else Ret (Some e)
  | Ok arj =>
      let arj := arj_clear_managed arj in
      if IsBeingDeleted (Some (OActionsRunnerJob arj)) then Ret None
      else
        let! r := call (Get KActionsRunner req) in
        match r with
        | Err e => if IsNotFound e then Ret None else Ret (Some e)
        | Ok ar =>
            if IsBeingDeleted (Some (OActionsRunner ar)) then Ret None
            else reconcileClaim scheme req ar arj
        end
  end.
End job.

#[local] Arguments ToPod : simpl never.
#[local] Arguments ToPersistentVolumeClaim : simpl never.
#[local] Arguments arj_clear_managed : simpl never.
#[local] Arguments IsBeingDeleted : simpl never.

(** ** What a pass does *)

Section passes.
Context {T : K8sTypes} {L : K8sLib} `{!Process}.

Ltac walk_pass :=
  unfold Reconcile, reconcileClaim, reconcilePod, getClaim, getPod, updateStatus, deleteObject;
  walk.

(** The job and the runner a pass works for: both read, neither on its way out. *)
Definition works_for (tr : trace kube) (req : ObjectKey) (ar : ActionsRunner)
    (arj : ActionsRunnerJob) : Prop :=
  exists arj0, arj = arj_clear_managed arj0 /\
    answered tr (Get KActionsRunnerJob req) (Ok arj0) /\
    answered tr (Get KActionsRunner req) (Ok ar) /\
    IsBeingDeleted (Some (OActionsRunnerJob arj)) = false /\
    IsBeingDeleted (Some (OActionsRunner ar)) = false.

(** What a pass knows of the claim: as read, or a zero one when not found. *)
Definition claim_seen (tr : trace kube) (req : ObjectKey) (pvc : PersistentVolumeClaim) : Prop :=
  answered tr (Get KPersistentVolumeClaim req) (Ok pvc) \/
  exists e, answered tr (Get KPersistentVolumeClaim req) (Err e) /\ IsNotFound e = true /\
    pvc = PersistentVolumeClaim_zero.
Definition pod_seen (tr : trace kube) (req : ObjectKey) (pod : Pod) : Prop :=
  answered tr (Get KPod req) (Ok pod) \/
  exists e, answered tr (Get KPod req) (Err e) /\ IsNotFound e = true /\ pod = Pod_zero.

(** The claim is there, in the phase the status records, and not beyond repair. *)
Definition claim_usable (tr : trace kube) (req : ObjectKey) (arj : ActionsRunnerJob) : Prop :=
  exists pvc, claim_seen tr req pvc /\
    pvc_Phase pvc = PersistentVolumeClaimPhase (arj_Status arj) /\
    pvc_Phase pvc <> ClaimLost /\
    IsBeingDeleted (Some (OPersistentVolumeClaim pvc)) = false.

(** The leaves of the walk: look the events up, take the tests from the context. *)
Ltac decide_tests :=
  repeat match goal with
    | H : bool_decide _ = true |- _ => apply bool_decide_eq_true in H
    | H : bool_decide _ = false |- _ => apply bool_decide_eq_false in H
    | H : ~ (_ <> _) |- _ => apply dec_stable in H
    end.
Ltac decided := first [reflexivity | eassumption | congruence | set_solver].
Ltac seen :=
  first [ left; solve [find_event]
        | right; exists_all; split_and!; [find_event | eassumption | reflexivity] ].
Ltac usable := unfold claim_usable; exists_all; split_and!; [seen | decided..].
Ltac solve_case :=
  exists_all; split_and!; lazymatch goal with
  | |- answered _ _ _ => find_event
  | |- claim_seen _ _ _ => seen
  | |- pod_seen _ _ _ => seen
  | |- claim_usable _ _ _ => usable
  | |- _ => decided
  end.
Ltac solve_pass :=
  decide_tests;
  first [ exfalso; discriminate
        | exists_all; split;
          [eexists; split_and!; [reflexivity | find_event | find_event | eassumption | eassumption]|];
          first [left; solve [solve_case] | right; solve [solve_case] | solve [solve_case]] ].

(** [C14] In every run, whatever the API server answers, a pass creates nothing
    for a job or a runner that is gone or being deleted; the objects it creates
    are those the converters build for them, each only when the server says it
    does not exist; and the Pod only when the claim is usable. *)
Theorem Reconcile_creates scheme req tr out :
  runs (Reconcile scheme req) tr out ->
  updates tr = [] /\
  forall o, o ∈ creates tr ->
    exists ar arj, works_for tr req ar arj /\
      ((exists pvc e, o = OPersistentVolumeClaim pvc /\
          answered tr (Get KPersistentVolumeClaim req) (Err e) /\ IsNotFound e = true /\
          ToPersistentVolumeClaim (Some ar) (Some arj) scheme = Ok (Some pvc)) \/
       (exists pod e, o = OPod pod /\
          answered tr (Get KPod req) (Err e) /\ IsNotFound e = true /\
          ToPod (Some ar) (Some arj) scheme = Ok pod /\ claim_usable tr req arj)).
Proof.
  intros Hrun. walking Hrun. walk_pass.
  all: split; [by read_writes|]; intros o Ho; read_writes; in_list; solve_pass.
Qed.

(** [C29] A pass writes the status at most once, and then deletes nothing.  A
    write changes one phase, the claim's or else the Pod's, from another value
    to the one the server just reported (the empty one when there is no such
    object); the Pod's only when the claim is usable. *)
Theorem Reconcile_mirrors scheme req tr out :
  runs (Reconcile scheme req) tr out ->
  (length (statusUpdates tr ++ deletes tr) <= 1)%nat /\
  forall o, o ∈ statusUpdates tr ->
    exists ar arj, works_for tr req ar arj /\
      ((exists pvc, claim_seen tr req pvc /\
          pvc_Phase pvc <> PersistentVolumeClaimPhase (arj_Status arj) /\
          o = OActionsRunnerJob (arj_set_status arj
                (mkActionsRunnerJobStatus (pvc_Phase pvc) (PodPhase (arj_Status arj))))) \/
       (exists pod, pod_seen tr req pod /\ claim_usable tr req arj /\
          pod_Phase pod <> PodPhase (arj_Status arj) /\
          o = OActionsRunnerJob (arj_set_status arj
                (mkActionsRunnerJobStatus (PersistentVolumeClaimPhase (arj_Status arj))
                   (pod_Phase pod))))).
Proof.
  intros Hrun. walking Hrun. walk_pass.
  all: split; [by read_writes; cbn; lia|]; intros o Ho; read_writes; in_list; solve_pass.
Qed.

(** [C27] A pass deletes only a claim in phase "Lost" or a Pod in phase
    "Unknown", which is not being deleted already, and only once the status
    records that phase; with a lost claim it never goes on to the Pod. *)
Theorem Reconcile_deletes scheme req tr out :
  runs (Reconcile scheme req) tr out ->
  forall o, o ∈ deletes tr ->
    IsBeingDeleted (Some o) = false /\
    exists ar arj, works_for tr req ar arj /\
      ((exists pvc, claim_seen tr req pvc /\ o = OPersistentVolumeClaim pvc /\
          pvc_Phase pvc = ClaimLost /\ PersistentVolumeClaimPhase (arj_Status arj) = ClaimLost /\
          Get KPod req ∉ ops tr) \/
       (exists pod, pod_seen tr req pod /\ claim_usable tr req arj /\ o = OPod pod /\
          pod_Phase pod = PodUnknown /\ PodPhase (arj_Status arj) = PodUnknown)).
Proof.
  intros Hrun. walking Hrun. walk_pass.
  all: intros o Ho; read_writes; in_list.
  all: split; [eassumption | solve_pass].
Qed.

(** The error an answer makes a pass return, if any. *)
Definition untolerated (ev : event kube) : goerr :=
  match ev_op ev as o return kube_ans o -> goerr with
  | Get _ _ | List _ _ => fun r => IgnoreNotFound (err_of r)
  | Create _ => IgnoreAlreadyExists
  | Update _ | StatusUpdate _ | Delete _ => IgnoreNotFound
  end (ev_ans ev).

(** No error is lost and none stops a pass early: the pass returns the
    first answer it cannot tolerate and performs nothing after it; it tolerates
    NotFound, and AlreadyExists from a creation, and nothing else.  It returns
    an error of its own only from a converter. *)
Theorem Reconcile_errors scheme req tr out :
  runs (Reconcile scheme req) tr out ->
  omap untolerated tr = option_list out \/
  (omap untolerated tr = [] /\
   exists ar arj e, works_for tr req ar arj /\ out = Some e /\
     (ToPersistentVolumeClaim (Some ar) (Some arj) scheme = Err e \/
      ToPod (Some ar) (Some arj) scheme = Err e)).
Proof.
  intros Hrun. walking Hrun. walk_pass.
  all: unfold untolerated; cbn [omap list_omap ev_op ev_ans err_of IgnoreNotFound];
    repeat match goal with H : IsNotFound _ = _ |- _ => rewrite H end;
    repeat match goal with H : IgnoreAlreadyExists _ = _ |- _ => rewrite H end;
    try (left; cbn; by repeat case_match).
  all: right; split; [done|]; solve_pass.
Qed.
End passes.

(** ** Examples *)

Module JobExamples.
Import Demo ConverterExamples.

Abbreviation second := (Reconcile (Some scheme) (key "r")).

(** A job whose claim and Pod do not exist yet. *)
Definition fresh : world :=
  World (Ok (rich both)) (Ok job) not_found not_found not_found not_found not_found not_found
    (Ok []) None.
(** A job whose Pod has started. *)
Definition started : world :=
  World (Ok (rich both)) (Ok job) not_found not_found not_found not_found
    (Ok claim) (Ok (mkPod TypeMeta_zero (meta "r") PodSpec_zero "Running")) (Ok []) None.
(** A job whose claim was lost, and a server that rejects the deletion. *)
Definition lost_job : ActionsRunnerJob :=
  mkActionsRunnerJob TypeMeta_zero (meta "r") (mkActionsRunnerJobStatus "Lost" "").
Definition lost_claim : PersistentVolumeClaim :=
  mkPersistentVolumeClaim TypeMeta_zero (meta "r") None ResourceRequirements_zero "Lost".
Definition lost : world :=
  World (Ok (rich both)) (Ok lost_job) not_found not_found not_found not_found
    (Ok lost_claim) not_found (Ok []) (Some (EOther "forbidden")).

Definition trace_of (w : world) : trace kube := (exec serve second w).1.1.
Lemma runs_of w : runs second (trace_of w) (exec serve second w).1.2.
Proof. exact (exec_runs serve second w). Qed.

Lemma Reconcile_creates_witness :
  length (creates (trace_of fresh)) = 2%nat /\
  forall o, o ∈ creates (trace_of fresh) ->
    exists ar arj, works_for (trace_of fresh) (key "r") ar arj.
Proof.
  split; [by vm_compute|]. intros o Ho.
  destruct (proj2 (Reconcile_creates _ _ _ _ (runs_of fresh)) o Ho) as (ar & arj & H & _).
  by exists ar, arj.
Defined.

Lemma Reconcile_mirrors_witness :
  statusUpdates (trace_of started) =
    [OActionsRunnerJob (arj_set_status job (mkActionsRunnerJobStatus "" "Running"))] /\
  (length (statusUpdates (trace_of started) ++ deletes (trace_of started)) <= 1)%nat.
Proof.
  split; [by vm_compute|]. exact (proj1 (Reconcile_mirrors _ _ _ _ (runs_of started))).
Defined.

Lemma Reconcile_deletes_witness :
  deletes (trace_of lost) = [OPersistentVolumeClaim lost_claim] /\
  forall o, o ∈ deletes (trace_of lost) -> IsBeingDeleted (Some o) = false.
Proof.
  split; [by vm_compute|]. intros o Ho.
  exact (proj1 (Reconcile_deletes _ _ _ _ (runs_of lost) o Ho)).
Defined.

Lemma Reconcile_errors_witness : omap untolerated (trace_of lost) = [EOther "forbidden"].
Proof.
  destruct (Reconcile_errors _ _ _ _ (runs_of lost)) as [H|(H & _)]; [exact H|].
  exfalso. revert H. by vm_compute.
Defined.
End JobExamples.
