(* ===== verification/Policy.v ===== *)
(** * Runner policies: the webhooks and the validator

    [api/v1alpha1/*_webhook.go], which admit a runner or a replica set, and
    [wire/context.go] and [wire/validator.go], which decide whether a job may
    run: a policy is two lists of jq filters over the job's context, those that
    must and those that must not yield true. *)

From S2P Require Export Controllers Demo.
From Stdlib Require Export Ascii.
#[local] Open Scope string_scope.

(** ** Values and jq *)

(** An [interface{}] built from JSON.  Numbers keep their literal. *)
Inductive value : Type :=
| VString (s : string)
| VBool (b : bool)
| VNumber (n : string)
| VArray (l : list value)
| VObject (m : option (gmap string value)).

(** What a filter yields first: a boolean, an error, or anything else. *)
Inductive item : Type :=
| IBool (b : bool)
| IError (e : error)
| IOther.

#[export] Instance item_eq_dec : EqDecision item.
Proof. solve_decision. Defined.

(** The library gojq.  [Run] is what [Code.Run] and the first [Next] give; jq
    filters that read the clock or the environment are not considered. *)
Class GoJQ : Type := {
  Query : Type;
  Code : Type;
  Parse : string -> result Query;
  Compile : Query -> result Code;
  Run : Code -> value -> option item;
}.

(** ** wire/context.go *)

Definition PipelineContextDataTypeString := 0.
Definition PipelineContextDataTypeArray := 1.
Definition PipelineContextDataTypeDictionary := 2.
Definition PipelineContextDataTypeBoolean := 3.
Definition PipelineContextDataTypeNumber := 4.
Definition PipelineContextDataTypeCaseSensitiveDictionary := 5.

(** [pcd_Type] is an [int32]. *)
Inductive PipelineContextData : Type :=
| mkPipelineContextData
    (pcd_Type : Z) (pcd_String : string)
    (pcd_Array : list PipelineContextData)
    (pcd_Dictionary : list (string * PipelineContextData))
    (pcd_Boolean : bool) (pcd_Number : string).

(** [is[i] = f(l[i])] in order; the first error ends the loop. *)
Fixpoint result_map {A B} (f : A -> result B) (l : list A) : result (list B) :=
  match l with
  | [] => Ok []
  | x :: l =>
      let? y := f x in
      let? ys := result_map f l in
      Ok (y :: ys)
  end.

(** [m[k] = f(v)] for each pair in order *)
Fixpoint result_insert {A} (f : A -> result value) (l : list (string * A))
    (m : gmap string value) : result (gmap string value) :=
  match l with
  | [] => Ok m
  | (k, x) :: l =>
      let? v := f x in
      result_insert f l (<[k := v]> m)
  end.

Fixpoint Flattened (pcd : PipelineContextData) : result value :=
  let '(mkPipelineContextData t s a d b n) := pcd in
  if bool_decide (t = PipelineContextDataTypeString) then Ok (VString s)
  else if bool_decide (t = PipelineContextDataTypeArray) then
    let? l := result_map Flattened a in Ok (VArray l)
  else if bool_decide (t = PipelineContextDataTypeDictionary \/
                       t = PipelineContextDataTypeCaseSensitiveDictionary) then
    let? m := result_insert Flattened d ∅ in Ok (VObject (Some m))
  else if bool_decide (t = PipelineContextDataTypeBoolean) then Ok (VBool b)
  else if bool_decide (t = PipelineContextDataTypeNumber) then Ok (VNumber n)
  else Err (ENew ("unknown pipeline context data type: " ++ pretty t)).

(** ** api/v1alpha1/*_webhook.go *)

Section policy.
Context `{J : GoJQ} {T : K8sTypes} {L : K8sLib}.

(** [fmt.Errorf("unable to ... policy rule `%s`: %w", rule, err)] *)
Definition rule_error (what : string) (rule : ActionsRunnerPolicyRule) (e : error) : error :=
  EWrap ("unable to " ++ what ++ " policy rule `" ++ rule ++ "`") e.

Definition validatePolicyRule (policyRule : ActionsRunnerPolicyRule) : goerr :=
  match Parse policyRule with
  | Err e => Some (rule_error "parse" policyRule e)
  | Ok q =>
      match Compile q with
      | Err e => Some (rule_error "compile" policyRule e)
      | Ok c =>
          match Run c (VObject None) with
          | Some (IError e) => Some (rule_error "run" policyRule e)
          | _ => None
          end
      end
  end.

Fixpoint validatePolicyRules (rules : list ActionsRunnerPolicyRule) : goerr :=
  match rules with
  | [] => None
  | rule :: rules =>
      match validatePolicyRule rule with
      | Some e => Some e
      | None => validatePolicyRules rules
      end
  end.

Definition ActionsRunner_ValidateCreate (ar : ActionsRunner) : goerr :=
  match validatePolicyRules (elems (Must (Policy (Spec ar)))) with
  | Some e => Some e
  | None => validatePolicyRules (elems (MustNot (Policy (Spec ar))))
  end.

Definition ActionsRunner_ValidateUpdate (ar : ActionsRunner) (old : ptr object) : goerr :=
  match old with
  | Some (OActionsRunner oldAR) =>
      if negb (bool_decide (Repository (Spec ar) = Repository (Spec oldAR)))
      then Some (ENew ".Spec.Repository is immutable")
      else if negb (bool_decide (spec_Labels (Spec ar) = spec_Labels (Spec oldAR)))
      then Some (ENew ".Spec.Labels is immutable")
      else
        match validatePolicyRules (elems (Must (Policy (Spec ar)))) with
        | Some e => Some e
        | None => validatePolicyRules (elems (MustNot (Policy (Spec ar))))
        end
  | _ => Some (ENew "old.(*ActionsRunner) == nil")
  end.

Definition ActionsRunner_ValidateDelete (ar : ActionsRunner) : goerr := None.

(** [&ActionsRunner{Spec: arrs.Spec.Template}] *)
Definition template_runner (arrs : ActionsRunnerReplicaSet) : ActionsRunner :=
  ar_set_spec ActionsRunner_zero (Template (arrs_Spec arrs)).

Definition ActionsRunnerReplicaSet_ValidateCreate (arrs : ActionsRunnerReplicaSet) : goerr :=
  ActionsRunner_ValidateCreate (template_runner arrs).

Definition ActionsRunnerReplicaSet_ValidateUpdate (arrs : ActionsRunnerReplicaSet)
    (old : ptr object) : goerr :=
  match old with
  | Some (OActionsRunnerReplicaSet oldARRS) =>
      ActionsRunner_ValidateUpdate (template_runner arrs)
        (Some (OActionsRunner (template_runner oldARRS)))
  | _ => Some (ENew "old.(*ActionsRunnerReplicaSet) == nil")
  end.

Definition ActionsRunnerReplicaSet_ValidateDelete (arrs : ActionsRunnerReplicaSet) : goerr :=
  ActionsRunner_ValidateDelete (template_runner arrs).

(** ** wire/validator.go *)

(** The validator's state: the rules compiled so far. *)
Record PolicyValidator : Type := mkPolicyValidator { ruleCache : gmap string Code }.

Definition NewPolicyValidator : PolicyValidator := mkPolicyValidator ∅.

Definition compileRule (pv : PolicyValidator) (rule : ActionsRunnerPolicyRule)
    : result Code * PolicyValidator :=
  match ruleCache pv !! rule with
  | Some code => (Ok code, pv)
  | None =>
      match Parse rule with
      | Err e => (Err (rule_error "parse" rule e), pv)
      | Ok q =>
          match Compile q with
          | Err e => (Err (rule_error "compile" rule e), pv)
          | Ok c => (Ok c, mkPolicyValidator (<[rule := c]> (ruleCache pv)))
          end
      end
  end.

Fixpoint validateMust (pv : PolicyValidator) (rules : list ActionsRunnerPolicyRule)
    (contextData : value) : result (ptr ActionsRunnerPolicyRule) * PolicyValidator :=
  match rules with
  | [] => (Ok None, pv)
  | rule :: rules =>
      let '(code, pv) := compileRule pv rule in
      match code with
      | Err e => (Err e, pv)
      | Ok code =>
          match Run code contextData with
          | Some (IBool true) => validateMust pv rules contextData
          | _ => (Ok (Some rule), pv)
          end
      end
  end.

Fixpoint validateMustNot (pv : PolicyValidator) (rules : list ActionsRunnerPolicyRule)
    (contextData : value) : result (ptr ActionsRunnerPolicyRule) * PolicyValidator :=
  match rules with
  | [] => (Ok None, pv)
  | rule :: rules =>
      let '(code, pv) := compileRule pv rule in
      match code with
      | Err e => (Err e, pv)
      | Ok code =>
          match Run code contextData with
          | Some (IBool true) => (Ok (Some rule), pv)
          | _ => validateMustNot pv rules contextData
          end
      end
  end.

(** [Validate(ctx, policy, pajr)], which uses only [*pajr.ContextData]: the
    flattening of its entries goes in the order of a [range], and a job without
    any context data is a nil dereference. *)
Definition Validate (pv : PolicyValidator) (policy : ActionsRunnerPolicy)
    (ContextData : ptr (gmap string PipelineContextData))
    : outcome (result (ptr ActionsRunnerPolicyRule) * PolicyValidator) :=
  match ContextData with
  | None => Panicked nil_dereference
  | Some contextData =>
      Done
        match result_insert Flattened (map_range contextData) ∅ with
        | Err e => (Err e, pv)
        | Ok cd =>
            let cd := VObject (Some cd) in
            let '(must, pv) := validateMust pv (elems (Must policy)) cd in
            match must with
            | Err e => (Err e, pv)
            | Ok (Some rule) => (Ok (Some rule), pv)
            | Ok None => validateMustNot pv (elems (MustNot policy)) cd
            end
        end
  end.
End policy.

(** ** Flattening *)

(** Induction on context data goes through both kinds of children. *)
Section induction.
Variable P : PipelineContextData -> Prop.
Hypothesis step : forall t s a d b n,
  Forall P a -> Forall (fun kv => P kv.2) d -> P (mkPipelineContextData t s a d b n).

Fixpoint PipelineContextData_children (p : PipelineContextData) : P p :=
  let '(mkPipelineContextData t s a d b n) := p in
  step t s a d b n
    ((fix go l := match l return Forall P l with
       | [] => Forall_nil_2 _
       | x :: l => Forall_cons_2 _ _ _ (PipelineContextData_children x) (go l)
       end) a)
    ((fix go l := match l return Forall (fun kv => P kv.2) l with
       | [] => Forall_nil_2 _
       | (k, x) :: l => Forall_cons_2 _ (k, x) _ (PipelineContextData_children x) (go l)
       end) d).
End induction.

(** Data all of whose reachable parts have one of the six types. *)
Inductive known : PipelineContextData -> Prop :=
| known_scalar t s a d b n :
    t ∈ [PipelineContextDataTypeString; PipelineContextDataTypeBoolean;
         PipelineContextDataTypeNumber] ->
    known (mkPipelineContextData t s a d b n)
| known_array s a d b n :
    Forall known a -> known (mkPipelineContextData PipelineContextDataTypeArray s a d b n)
| known_dictionary t s a d b n :
    t ∈ [PipelineContextDataTypeDictionary; PipelineContextDataTypeCaseSensitiveDictionary] ->
    Forall (fun kv => known kv.2) d -> known (mkPipelineContextData t s a d b n).

Lemma result_map_ok {A B} (f : A -> result B) l :
  (exists ys, result_map f l = Ok ys) <-> Forall (fun x => exists y, f x = Ok y) l.
Proof.
  induction l as [|x l IH]; cbn.
  { split; [by constructor | by eexists]. }
  rewrite Forall_cons, <- IH. destruct (f x) as [y|e]; cbn; [|naive_solver].
  destruct (result_map f l); cbn; naive_solver.
Qed.

Lemma result_insert_ok {A} (f : A -> result value) l m :
  (exists m', result_insert f l m = Ok m') <-> Forall (fun kv => exists y, f kv.2 = Ok y) l.
Proof.
  revert m. induction l as [|[k x] l IH]; intros m; cbn.
  { split; [by constructor | by eexists]. }
  rewrite Forall_cons. cbn. destruct (f x) as [y|e]; cbn; [|naive_solver].
  rewrite IH. naive_solver.
Qed.

(** [last_pair l k x]: [(k, x)] is the last pair of [l] with the key [k]. *)
Definition last_pair {A} (l : list (string * A)) (k : string) (x : A) : Prop :=
  exists pre post, l = (pre ++ (k, x) :: post)%list /\ k ∉ post.*1.

Lemma last_pair_cons {A} (l : list (string * A)) k k' x x' :
  last_pair ((k', x') :: l) k x <-> last_pair l k x \/ (k' = k /\ x' = x /\ k ∉ l.*1).
Proof.
  unfold last_pair. split.
  - intros ([|p pre] & post & Heq & Hk); simplify_eq/=; naive_solver.
  - intros [(pre & post & -> & Hk)|(-> & -> & Hk)].
    + by exists ((k', x') :: pre), post.
    + by exists [], l.
Qed.

(** The last pair with a key decides what is stored under it. *)
Lemma result_insert_lookup {A} (f : A -> result value) l m m' k y :
  result_insert f l m = Ok m' ->
  m' !! k = Some y <->
  (exists x, last_pair l k x /\ f x = Ok y) \/ (k ∉ l.*1 /\ m !! k = Some y).
Proof.
  revert m. induction l as [|[k' x] l IH]; intros m; cbn [result_insert].
  { intros [= <-]. unfold last_pair. split; [set_solver|].
    intros [(x & ([|? ?] & post & Hx & _) & _)|[_ H]]; naive_solver. }
  destruct (f x) as [v|e] eqn:Hx; cbn [result_bind]; [|done].
  intros Hm. rewrite (IH _ Hm). setoid_rewrite last_pair_cons. cbn [fmap list_fmap fst].
  rewrite not_elem_of_cons, lookup_insert_Some. split.
  - intros [(x' & Hp & Hf)|(Hk & [[-> <-]|[Hne Hl]])]; [by eauto| |by eauto].
    left. exists x. eauto.
  - intros [(x' & [Hp|(-> & <- & Hk)] & Hf)|((Hne & Hk) & Hl)]; [by eauto| |by eauto 6].
    right. split; [done|]. left. split; [done|]. congruence.
Qed.

Lemma Flattened_total p : (exists v, Flattened p = Ok v) <-> known p.
Proof.
  induction p as [t s a d b n Ha Hd] using PipelineContextData_children. cbn [Flattened].
  assert (Forall (fun x => exists v, Flattened x = Ok v) a <-> Forall known a) as Hla.
  { rewrite !Forall_forall. rewrite Forall_forall in Ha. naive_solver. }
  assert (Forall (fun kv => exists v, Flattened kv.2 = Ok v) d <->
          Forall (fun kv => known kv.2) d) as Hld.
  { rewrite !Forall_forall. rewrite Forall_forall in Hd. naive_solver. }
  rewrite <- result_map_ok in Hla. rewrite <- (result_insert_ok Flattened d ∅) in Hld.
  repeat case_bool_decide; subst.
  + split; [intros _; apply known_scalar; set_solver | by eexists].
  + split; [|inversion 1; subst; [set_solver| |set_solver]].
    * intros [v Hv]. apply known_array, Hla. destruct (result_map _ _); [by eexists|done].
    * destruct (proj2 Hla) as [ys Hys]; [done|]. rewrite Hys. by eexists.
  + split; [|inversion 1; subst; [|naive_solver|]].
    * intros [v Hv]. apply known_dictionary; [set_solver|]. apply Hld.
      destruct (result_insert _ _ _); [by eexists|done].
    * destruct H1 as [->| ->]; set_solver.
    * destruct (proj2 Hld) as [m Hm]; [done|]. rewrite Hm. by eexists.
  + split; [intros _; apply known_scalar; set_solver | by eexists].
  + split; [intros _; apply known_scalar; set_solver | by eexists].
  + split; [by intros [v Hv]|]. inversion 1; subst; set_solver.
Qed.

(** [Flattened] succeeds exactly on data all of whose parts have known
    types; a list keeps its order, and a dictionary holds under each key the
    flattening of the last pair with that key, and no other key. *)
Theorem Flattened_spec p :
  ((exists v, Flattened p = Ok v) <-> known p) /\
  forall t s a d b n v, p = mkPipelineContextData t s a d b n -> Flattened p = Ok v ->
    (t = PipelineContextDataTypeArray -> exists l, v = VArray l /\
       Forall2 (fun x y => Flattened x = Ok y) a l) /\
    (t = PipelineContextDataTypeDictionary \/ t = PipelineContextDataTypeCaseSensitiveDictionary ->
     exists m, v = VObject (Some m) /\
       forall k y, m !! k = Some y <-> exists x, last_pair d k x /\ Flattened x = Ok y).
Proof.
  split.
  - apply Flattened_total.
  - intros t s a d b n v -> Hv. cbn [Flattened] in Hv. split.
    + intros ->. cbn in Hv. destruct (result_map Flattened a) as [l|] eqn:Hl; [|done].
      simplify_eq/=. exists l. split; [done|]. clear -Hl.
      revert l Hl. induction a as [|x a IH]; intros l; cbn; [by intros [= <-]|].
      destruct (Flattened x) eqn:Hx; [|done]. cbn.
      destruct (result_map Flattened a); [|done]. intros [= <-]. eauto.
    + intros Ht. assert (exists m, v = VObject (Some m) /\ result_insert Flattened d ∅ = Ok m)
        as (m & -> & Hm).
      { destruct Ht as [-> | ->]; cbn in Hv;
          destruct (result_insert Flattened d ∅); simplify_eq/=; eauto. }
      exists m. split; [done|]. intros k y. rewrite (result_insert_lookup _ _ _ _ _ _ Hm).
      rewrite lookup_empty. naive_solver.
Qed.

(** ** Admission *)

Section admission.
Context `{J : GoJQ} {T : K8sTypes} {L : K8sLib} `{!K8sLibSpec L}.

(** [rule] is a filter gojq accepts, and [c] its code. *)
Definition compiles (rule : ActionsRunnerPolicyRule) (c : Code) : Prop :=
  exists q, Parse rule = Ok q /\ Compile q = Ok c.

(** ... that does not fail on an empty input. *)
Definition rule_ok (rule : ActionsRunnerPolicyRule) : Prop :=
  exists c, compiles rule c /\ forall e, Run c (VObject None) <> Some (IError e).

Definition policy_ok (p : ActionsRunnerPolicy) : Prop :=
  Forall rule_ok (elems (Must p)) /\ Forall rule_ok (elems (MustNot p)).

Lemma compiles_unique rule c c' : compiles rule c -> compiles rule c' -> c = c'.
Proof. intros (q & Hq & Hc) (q' & Hq' & Hc'). congruence. Qed.

Lemma validatePolicyRule_ok rule : validatePolicyRule rule = None <-> rule_ok rule.
Proof.
  unfold validatePolicyRule, rule_ok, compiles. split.
  - destruct (Parse rule) as [q|e]; [|done]. destruct (Compile q) as [c|e] eqn:Hc; [|done].
    intros Hr. exists c. split; [by eauto|]. intros e He. by rewrite He in Hr.
  - intros (c & (q & -> & ->) & He). destruct (Run c (VObject None)) as [[]|]; try done.
    by destruct (He e).
Qed.

Lemma validatePolicyRules_ok rules : validatePolicyRules rules = None <-> Forall rule_ok rules.
Proof.
  induction rules as [|rule rules IH]; cbn; [done|].
  rewrite Forall_cons, <- IH, <- validatePolicyRule_ok.
  destruct (validatePolicyRule rule); naive_solver.
Qed.

Lemma validatePolicyRules_both must mustNot :
  match validatePolicyRules must with
  | Some e => Some e
  | None => validatePolicyRules mustNot
  end = None <-> Forall rule_ok must /\ Forall rule_ok mustNot.
Proof.
  rewrite <- !validatePolicyRules_ok. destruct (validatePolicyRules must); naive_solver.
Qed.

(** What an update keeps. *)
Definition immutable (new old : ActionsRunnerSpec) : Prop :=
  Repository new = Repository old /\ spec_Labels new = spec_Labels old.

Lemma ValidateUpdate_ok ar old :
  ActionsRunner_ValidateUpdate ar old = None <->
  exists oldAR, old = Some (OActionsRunner oldAR) /\
    immutable (Spec ar) (Spec oldAR) /\ policy_ok (Policy (Spec ar)).
Proof.
  unfold ActionsRunner_ValidateUpdate, immutable, policy_ok.
  destruct old as [[]|]; try naive_solver.
  repeat (case_bool_decide; cbn [negb]; [|naive_solver]).
  rewrite validatePolicyRules_both. naive_solver.
Qed.

(** The webhooks admit exactly what they should: a runner, or a replica
    set by its template, is created only with a policy all of whose rules
    parse, compile and run on an empty input; an update also keeps the
    repository and the labels, down to nil and empty lists being different; a
    deletion always passes. *)
Theorem webhooks_admit ar arrs old :
  (ActionsRunner_ValidateCreate ar = None <-> policy_ok (Policy (Spec ar))) /\
  (ActionsRunner_ValidateUpdate ar old = None <->
   exists oldAR, old = Some (OActionsRunner oldAR) /\
     immutable (Spec ar) (Spec oldAR) /\ policy_ok (Policy (Spec ar))) /\
  (ActionsRunnerReplicaSet_ValidateCreate arrs = None <->
   policy_ok (Policy (Template (arrs_Spec arrs)))) /\
  (ActionsRunnerReplicaSet_ValidateUpdate arrs old = None <->
   exists oldARRS, old = Some (OActionsRunnerReplicaSet oldARRS) /\
     immutable (Template (arrs_Spec arrs)) (Template (arrs_Spec oldARRS)) /\
     policy_ok (Policy (Template (arrs_Spec arrs)))) /\
  ActionsRunner_ValidateDelete ar = None /\ ActionsRunnerReplicaSet_ValidateDelete arrs = None.
Proof.
  split_and!; try done.
  - apply validatePolicyRules_both.
  - apply ValidateUpdate_ok.
  - apply validatePolicyRules_both.
  - unfold ActionsRunnerReplicaSet_ValidateUpdate.
    destruct old as [[]|]; try naive_solver. rewrite ValidateUpdate_ok.
    split; [intros (? & [= <-] & ?); eauto|].
    intros (? & [= <-] & ?). eexists. split; [done|]. done.
Qed.

(** ** Validation *)

(** A cache holds for each rule the code gojq makes of it. *)
Definition cache_ok (pv : PolicyValidator) : Prop := map_Forall compiles (ruleCache pv).

Lemma NewPolicyValidator_ok : cache_ok NewPolicyValidator.
Proof. apply map_Forall_empty. Qed.

(** [yields rule v b]: the filter runs, and its first result is [true] or not. *)
Definition yields (rule : ActionsRunnerPolicyRule) (v : value) (b : bool) : Prop :=
  exists c, compiles rule c /\ bool_decide (Run c v = Some (IBool true)) = b.

Lemma compileRule_spec pv rule :
  cache_ok pv ->
  cache_ok (compileRule pv rule).2 /\
  match (compileRule pv rule).1 with
  | Ok c => compiles rule c
  | Err e => forall c, ~ compiles rule c
  end /\
  (compileRule pv rule).1 = (compileRule NewPolicyValidator rule).1.
Proof.
  intros Hpv. unfold compileRule at 3. change (ruleCache NewPolicyValidator !! rule) with (@None Code).
  unfold compileRule. cbv iota. destruct (ruleCache pv !! rule) as [c|] eqn:Hc.
  { apply Hpv in Hc. split; [done|]. split; [done|]. destruct Hc as (q & Hq & Hc).
    by rewrite Hq, Hc. }
  destruct (Parse rule) as [q|] eqn:Hq; [destruct (Compile q) as [c|] eqn:Hcq|].
  - assert (compiles rule c) by by exists q.
    split; [by apply map_Forall_insert_2|]. by split.
  - split; [done|]. split; [|done]. intros c (q' & ? & ?). congruence.
  - split; [done|]. split; [|done]. intros c (q' & ? & ?). congruence.
Qed.

(** Both loops look for the first rule that yields [stop]. *)
Fixpoint firstYielding (stop : bool) (pv : PolicyValidator) (rules : list ActionsRunnerPolicyRule)
    (v : value) : result (ptr ActionsRunnerPolicyRule) * PolicyValidator :=
  match rules with
  | [] => (Ok None, pv)
  | rule :: rules =>
      match compileRule pv rule with
      | (Err e, pv) => (Err e, pv)
      | (Ok code, pv) =>
          if bool_decide (bool_decide (Run code v = Some (IBool true)) = stop)
          then (Ok (Some rule), pv) else firstYielding stop pv rules v
      end
  end.

Lemma validateMust_first pv rules v : validateMust pv rules v = firstYielding false pv rules v.
Proof.
  revert pv. induction rules as [|r rules IH]; intros pv; cbn; [done|].
  destruct (compileRule pv r) as [[c|e] w]; [|done].
  destruct (Run c v) as [[[]| |]|]; done.
Qed.

Lemma validateMustNot_first pv rules v : validateMustNot pv rules v = firstYielding true pv rules v.
Proof.
  revert pv. induction rules as [|r rules IH]; intros pv; cbn; [done|].
  destruct (compileRule pv r) as [[c|e] w]; [|done].
  destruct (Run c v) as [[[]| |]|]; done.
Qed.

(** [finds stop rules v r]: [r] is what looking for [stop] gives. *)
Definition finds (stop : bool) (rules : list ActionsRunnerPolicyRule) (v : value)
    (r : result (ptr ActionsRunnerPolicyRule)) : Prop :=
  match r with
  | Ok None => Forall (fun rule => yields rule v (negb stop)) rules
  | Ok (Some rule) => exists pre post, rules = (pre ++ rule :: post)%list /\
      Forall (fun rule => yields rule v (negb stop)) pre /\ yields rule v stop
  | Err e => exists rule, rule ∈ rules /\ forall c, ~ compiles rule c
  end.

Lemma firstYielding_spec stop pv pv' rules v :
  cache_ok pv -> cache_ok pv' ->
  cache_ok (firstYielding stop pv rules v).2 /\
  finds stop rules v (firstYielding stop pv rules v).1 /\
  (firstYielding stop pv rules v).1 = (firstYielding stop pv' rules v).1.
Proof.
  revert pv pv'. induction rules as [|r rules IH]; intros pv pv' Hpv Hpv'; cbn [firstYielding].
  { cbn. by auto. }
  destruct (compileRule_spec pv r Hpv) as (Hok & Hc & Heq).
  destruct (compileRule_spec pv' r Hpv') as (Hok' & _ & Heq'). rewrite <- Heq in Heq'. clear Heq.
  destruct (compileRule pv r) as [c w], (compileRule pv' r) as [c' w']. cbn in Hok, Hok', Hc, Heq'.
  subst c'. destruct c as [c|e]; cbn; [|split_and!; try done; exists r; split; [set_solver|done]].
  case_bool_decide as Hstop.
  - split_and!; try done. exists [], rules. split_and!; try done. by exists c.
  - destruct (IH w w' Hok Hok') as (H1 & H2 & H3). split_and!; [done| |done].
    assert (yields r v (negb stop)).
    { exists c. split; [done|]. by destruct stop, (bool_decide (Run c v = _)). }
    destruct (firstYielding stop w rules v).1 as [[r'|]|e]; cbn in *.
    + destruct H2 as (pre & post & -> & Hpre & Hr'). exists (r :: pre), post. by auto.
    + by constructor.
    + destruct H2 as (r' & Hin & ?). exists r'. split; [set_solver|done].
Qed.

(** The context a job's filters run on: the flattening of each entry. *)
Definition flattened (contextData : gmap string PipelineContextData)
    (cd : gmap string value) : Prop :=
  forall k v, cd !! k = Some v <-> exists p, contextData !! k = Some p /\ Flattened p = Ok v.

Lemma flatten_all contextData :
  match result_insert Flattened (map_range contextData) ∅ with
  | Ok cd => flattened contextData cd /\ map_Forall (fun _ p => known p) contextData
  | Err e => ~ map_Forall (fun _ p => known p) contextData
  end.
Proof.
  pose proof (result_insert_ok Flattened (map_range contextData) ∅) as Hok.
  assert (Forall (fun kv => exists y, Flattened kv.2 = Ok y) (map_range contextData) <->
          map_Forall (fun _ p => known p) contextData) as Hk.
  { rewrite map_range_spec, map_Forall_to_list. apply Forall_iff. intros [k p]. apply Flattened_total. }
  rewrite Hk in Hok. clear Hk.
  destruct (result_insert _ _ _) as [cd|e] eqn:Hcd; [|naive_solver].
  split; [|naive_solver]. intros k v. rewrite (result_insert_lookup _ _ _ _ _ _ Hcd), lookup_empty.
  assert (forall p, last_pair (map_range contextData) k p <-> contextData !! k = Some p) as Hlast.
  { intros p. rewrite <- elem_of_map_to_list, <- (map_range_spec _ contextData).
    assert (NoDup (map_range contextData).*1) as Hnd
      by (rewrite map_range_spec; apply NoDup_fst_map_to_list).
    split.
    - intros (pre & post & -> & _). set_solver.
    - intros (pre & post & Hp)%list_elem_of_split. exists pre, post. split; [done|].
      rewrite Hp, fmap_app in Hnd. apply NoDup_app in Hnd as (_ & _ & Hnd).
      by apply NoDup_cons in Hnd as [Hnd _]. }
  setoid_rewrite Hlast. naive_solver.
Qed.

(** The verdict a policy gives on a context. *)
Definition verdict (policy : ActionsRunnerPolicy) (v : value)
    (r : ptr ActionsRunnerPolicyRule) : Prop :=
  match r with
  | None =>
      Forall (fun rule => yields rule v true) (elems (Must policy)) /\
      Forall (fun rule => yields rule v false) (elems (MustNot policy))
  | Some rule =>
      finds false (elems (Must policy)) v (Ok (Some rule)) \/
      (Forall (fun rule => yields rule v true) (elems (Must policy)) /\
       finds true (elems (MustNot policy)) v (Ok (Some rule)))
  end.

(** [C22] The validator decides the policy.  From any cache of properly compiled
    rules it allows the job exactly when every rule that must yields true first
    and no rule that must not does, and names the first rule to violate it
    otherwise: a filter that fails or yields something else violates a rule
    that must, but not one that must not.  The verdict does not depend on the
    cache, which stays proper, and it is an error only when some context data
    or some rule of the policy is malformed. *)
Theorem Validate_verdict pv policy contextData :
  cache_ok pv ->
  exists r pv', Validate pv policy (Some contextData) = Done (r, pv') /\ cache_ok pv' /\
    (exists pv0, Validate NewPolicyValidator policy (Some contextData) = Done (r, pv0)) /\
    match r with
    | Ok r => exists cd, flattened contextData cd /\ verdict policy (VObject (Some cd)) r
    | Err e => ~ map_Forall (fun _ p => known p) contextData \/
        exists rule, rule ∈ (elems (Must policy) ++ elems (MustNot policy))%list /\
          forall c, ~ compiles rule c
    end.
Proof.
  intros Hpv. pose proof NewPolicyValidator_ok as Hnew. unfold Validate. cbv iota beta.
  pose proof (flatten_all contextData) as Hflat.
  destruct (result_insert _ _ _) as [cd|e].
  2: { eexists _, _. split; [done|]. split; [done|]. split; [by eexists|]. by left. }
  destruct Hflat as [Hcd _].
  rewrite !validateMust_first.
  destruct (firstYielding_spec false pv NewPolicyValidator (elems (Must policy)) (VObject (Some cd)) Hpv Hnew)
    as (Hok1 & Hmust & Heq1).
  destruct (firstYielding_spec false NewPolicyValidator pv (elems (Must policy)) (VObject (Some cd)) Hnew Hpv)
    as (Hok2 & _ & _).
  destruct (firstYielding false pv _ _) as [must w], (firstYielding false NewPolicyValidator _ _) as [must' w'].
  cbn [fst snd] in *. subst must'. destruct must as [[rule|]|e].
  - eexists _, _. split; [done|]. split; [done|]. split; [by eexists|].
    exists cd. split; [done|]. by left.
  - rewrite !validateMustNot_first.
    destruct (firstYielding_spec true w w' (elems (MustNot policy)) (VObject (Some cd)) Hok1 Hok2)
      as (Hok & Hnot & Heq).
    destruct (firstYielding true w _ _) as [r pv'], (firstYielding true w' _ _) as [r' pv0].
    cbn [fst snd] in *. subst r'. exists r, pv'. split; [done|]. split; [done|].
    split; [by eexists|]. destruct r as [[rule|]|e].
    + exists cd. split; [done|]. by right.
    + exists cd. by split.
    + right. destruct Hnot as (rule & ? & ?). exists rule. split; [set_solver|done].
  - eexists _, _. split; [done|]. split; [done|]. split; [by eexists|].
    right. destruct Hmust as (rule & ? & ?). exists rule. split; [set_solver|done].
Qed.

(** [C5] The validator never fails on a policy the webhook admitted, whatever
    the cache: for a job whose context data are well formed it gives a verdict. *)
Theorem admitted_policy_decides ar pv contextData :
  ActionsRunner_ValidateCreate ar = None \/
  (exists old, ActionsRunner_ValidateUpdate ar old = None) ->
  cache_ok pv ->
  map_Forall (fun _ p => known p) contextData ->
  exists r pv', Validate pv (Policy (Spec ar)) (Some contextData) = Done (Ok r, pv') /\ cache_ok pv'.
Proof.
  intros Hadm Hpv Hk.
  assert (policy_ok (Policy (Spec ar))) as [Hm Hn].
  { destruct Hadm as [H|[old H]]; [by apply validatePolicyRules_both in H|].
    by apply ValidateUpdate_ok in H as (? & _ & _ & ?). }
  assert (forall rules r v, Forall rule_ok rules -> forall stop, finds stop rules v r ->
            exists x, r = Ok x) as Hfinds.
  { intros rules [x|e] v Hr stop Hf; [by eexists|]. destruct Hf as (rule & Hin & Hc).
    rewrite Forall_forall in Hr. destruct (Hr _ Hin) as (c & ? & _). by destruct (Hc c). }
  unfold Validate. pose proof (flatten_all contextData) as Hflat.
  destruct (result_insert _ _ _) as [cd|e]; [|done].
  rewrite validateMust_first.
  destruct (firstYielding_spec false pv pv (elems (Must (Policy (Spec ar)))) (VObject (Some cd)) Hpv Hpv)
    as (Hok1 & Hmust & _).
  destruct (firstYielding false pv _ _) as [must w]. cbn [fst snd] in *.
  destruct (Hfinds _ _ _ Hm _ Hmust) as [[rule|] ->]; [by eauto|].
  rewrite validateMustNot_first.
  destruct (firstYielding_spec true w w (elems (MustNot (Policy (Spec ar)))) (VObject (Some cd)) Hok1 Hok1)
    as (Hok2 & Hnot & _).
  destruct (firstYielding true w _ _) as [r w']. cbn [fst snd] in *.
  destruct (Hfinds _ _ _ Hn _ Hnot) as [x ->]. by eauto.
Qed.
End admission.

(** ** Examples *)

Module PolicyExamples.
Import Demo.

(** A toy jq: "true" yields true on anything, "error" fails, ".NAME" tells
    whether the object has that key, anything else does not parse. *)
#[export] Instance toy_jq : GoJQ := {|
  Query := string;
  Code := string;
  Parse s := match s with
             | "true" | "error" => Ok s
             | String "."%char _ => Ok s
             | _ => Err (ENew "unexpected token")
             end;
  Compile s := Ok s;
  Run c v :=
    match c, v with
    | String "."%char k, VObject (Some m) => Some (IBool (bool_decide (is_Some (m !! k))))
    | String "."%char k, _ => Some (IBool false)
    | "error", _ => Some (IError (EOther "runtime error"))
    | _, _ => Some (IBool true)
    end
|}.

Definition policy : ActionsRunnerPolicy := mkActionsRunnerPolicy (Some ["true"; ".ref"]) (Some [".fork"]).
Definition guarded : ActionsRunner :=
  ar_set_spec (runner "r" "1")
    (let s := spec "1" in
     mkActionsRunnerSpec (Repository s) policy None None None "1" None None None None None "" None None None).
Definition context : gmap string PipelineContextData :=
  {[ "ref" := mkPipelineContextData 0 "refs/heads/main" [] [] false "";
     "fork" := mkPipelineContextData 3 "" [] [] true "" ]}.

Lemma context_known : map_Forall (fun _ p => known p) context.
Proof.
  apply map_Forall_insert_2; [apply known_scalar; set_solver|].
  apply map_Forall_insert_2; [apply known_scalar; set_solver|]. apply map_Forall_empty.
Qed.

Lemma Validate_verdict_witness :
  exists r pv', Validate NewPolicyValidator policy (Some context) = Done (r, pv') /\
    r = Ok (Some ".fork") /\ cache_ok pv'.
Proof.
  destruct (Validate_verdict _ policy context NewPolicyValidator_ok) as (r & pv' & Hr & Hok & _).
  exists r, pv'. split; [exact Hr|]. split; [|exact Hok].
  apply (f_equal (fun o => match o with Done (r, _) => r | Panicked e => Err e end)) in Hr.
  rewrite <- Hr. by vm_compute.
Defined.

Lemma admitted_policy_decides_witness :
  exists r pv', Validate NewPolicyValidator policy (Some context) = Done (Ok r, pv') /\ cache_ok pv'.
Proof.
  apply (admitted_policy_decides guarded).
  - left. reflexivity.
  - exact NewPolicyValidator_ok.
  - exact context_known.
Defined.
End PolicyExamples.
