(* ===== verification/Context.v ===== *)
(** * A job's context, as it is received

    [wire/context.go]'s [UnmarshalJSON]: context data is written either as a plain
    JSON value or as an object with a type and the part that belongs to it, and
    both are read as the same data.  A number keeps its literal, and is taken to
    be one that fits a float64. *)

From S2P Require Export Policy Unmarshal.
#[local] Open Scope string_scope.

Definition zero_PipelineContextData : PipelineContextData := mkPipelineContextData 0 "" [] [] false "".

Definition decode_float64 (j : json) (old : string) : result string :=
  match j with JNull => Ok old | JNumber n => Ok n | _ => Err unmarshal_type end.

(** A nil slice is an empty list. *)
Definition decode_list {A} (decode : json -> A -> result A) (zero : A) (j : json) (old : list A) : result (list A) :=
  match j with
  | JNull => Ok []
  | JArray l => decode_elements decode zero l old
  | _ => Err unmarshal_type
  end.

Fixpoint UnmarshalJSON (i : json) (pcd : PipelineContextData) : result PipelineContextData :=
  let '(mkPipelineContextData t s a d b n) := pcd in
  match i with
  | JString s => Ok (mkPipelineContextData PipelineContextDataTypeString s a d b n)
  | JBool b => Ok (mkPipelineContextData PipelineContextDataTypeBoolean s a d b n)
  | JNumber n => Ok (mkPipelineContextData PipelineContextDataTypeNumber s a d b n)
  | JNull => Ok pcd
  | JArray _ => Err unmarshal_type
  | JObject l =>
      let? t := field decode_int32 "t" l t in
      let? s := field decode_string "s" l s in
      let? a := field (decode_list UnmarshalJSON zero_PipelineContextData) "a" l a in
      let? d := field (decode_list (fun j kv =>
        match j with
        | JNull => Ok kv
        | JObject l =>
            let? k := field decode_string "k" l kv.1 in
            let? v := field UnmarshalJSON "v" l kv.2 in
            Ok (k, v)
        | _ => Err unmarshal_type
        end) ("", zero_PipelineContextData)) "d" l d in
      let? b := field decode_bool "b" l b in
      let? n := field decode_float64 "n" l n in
      Ok (mkPipelineContextData t s a d b n)
  end.

(** ** Reading back *)

(** How data may be written: as a plain value, or as an object with the type and
    the part that belongs to it, in which an empty part may be left out. *)
Definition typed (t : Z) (rest : list (string * json)) : json := JObject (("t", JNumber (pretty t)) :: rest).
Definition pair_json (k : string) (j : json) : json := JObject [("k", JString k); ("v", j)].
Inductive written : PipelineContextData -> json -> Prop :=
| written_string s a d b n : written (mkPipelineContextData 0 s a d b n) (JString s)
| written_null a d b n : written (mkPipelineContextData 0 "" a d b n) JNull
| written_bool s a d b n : written (mkPipelineContextData 3 s a d b n) (JBool b)
| written_number s a d b n : literal n -> written (mkPipelineContextData 4 s a d b n) (JNumber n)
| written_typed_string s a d b n :
    written (mkPipelineContextData 0 s a d b n) (typed 0 (omitempty_string "s" s))
| written_typed_bool s a d b n :
    written (mkPipelineContextData 3 s a d b n) (typed 3 (omitempty_bool "b" b))
| written_typed_number s a d b n :
    literal n -> written (mkPipelineContextData 4 s a d b n) (typed 4 [("n", JNumber n)])
| written_array s a d b n js :
    Forall2 written a js -> written (mkPipelineContextData 1 s a d b n) (typed 1 [("a", JArray js)])
| written_dictionary t s a d b n kjs :
    t = 2 \/ t = 5 -> d.*1 = kjs.*1 -> Forall2 written d.*2 kjs.*2 ->
    written (mkPipelineContextData t s a d b n)
      (typed t [("d", JArray (map (fun kj => pair_json kj.1 kj.2) kjs))])
| written_nothing t s b n :
    t ∈ [1; 2; 5] -> written (mkPipelineContextData t s [] [] b n) (typed t [])
| written_unknown t s a d b n :
    0 <= t < 2 ^ 31 -> t ∉ [0; 1; 2; 3; 4; 5] ->
    written (mkPipelineContextData t s a d b n) (typed t []).

(** The data that is read means the same. *)
Definition reads (p : PipelineContextData) (j : json) : Prop :=
  exists p', UnmarshalJSON j zero_PipelineContextData = Ok p' /\ Flattened p' = Flattened p.

Lemma reads_elements a js : Forall2 reads a js ->
  exists a', decode_elements UnmarshalJSON zero_PipelineContextData js [] = Ok a' /\
    result_map Flattened a' = result_map Flattened a.
Proof.
  induction 1 as [|p j a js (p' & Hp & Hf) _ (a' & Ha & Hfa)]; [by exists []|].
  exists (p' :: a'). cbn [decode_elements head default tail]. rewrite Hp. cbn [result_bind].
  rewrite Ha. split; [done|]. cbn [result_map]. by rewrite Hf, Hfa.
Qed.

(** The pairs of a dictionary, over no old ones. *)
Definition decode_pair (j : json) (kv : string * PipelineContextData) : result (string * PipelineContextData) :=
  match j with
  | JNull => Ok kv
  | JObject l =>
      let? k := field decode_string "k" l kv.1 in
      let? v := field UnmarshalJSON "v" l kv.2 in
      Ok (k, v)
  | _ => Err unmarshal_type
  end.

Lemma reads_pairs d kjs m : d.*1 = kjs.*1 -> Forall2 reads d.*2 kjs.*2 ->
  exists d', decode_elements decode_pair ("", zero_PipelineContextData)
      (map (fun kj => pair_json kj.1 kj.2) kjs) [] = Ok d' /\
    result_insert Flattened d' m = result_insert Flattened d m.
Proof.
  revert kjs m. induction d as [|[k p] d IH]; intros [|[k' j] kjs] m; cbn [fmap list_fmap fst snd];
    [by exists []|done|done|].
  intros [= <- Hk] ((p' & Hp & Hf) & Hrest)%Forall2_cons. cbn [map decode_elements head default tail fst snd].
  assert (decode_pair (pair_json k j) ("", zero_PipelineContextData) = Ok (k, p')) as ->.
  { cbn. by rewrite Hp. }
  cbn [result_bind]. destruct (Flattened p) as [v|e] eqn:Hv.
  - destruct (IH kjs (<[k:=v]> m) Hk Hrest) as (d' & -> & Hd'). exists ((k, p') :: d'). split; [done|].
    cbn [result_insert]. rewrite Hf, Hv. exact Hd'.
  - destruct (IH kjs m Hk Hrest) as (d' & -> & _). exists ((k, p') :: d'). split; [done|].
    cbn [result_insert]. by rewrite Hf, Hv.
Qed.

Lemma decode_type t old : 0 <= t < 2 ^ 31 -> decode_int32 (JNumber (pretty t)) old = Ok t.
Proof.
  intros H. unfold decode_int32, decode_integer. rewrite pretty_Atoi by lia.
  by rewrite bool_decide_eq_true_2 by lia.
Qed.

Lemma UnmarshalJSON_typed t rest : 0 <= t < 2 ^ 31 ->
  UnmarshalJSON (typed t rest) zero_PipelineContextData =
  let? t := field decode_int32 "t" rest t in
  let? s := field decode_string "s" rest "" in
  let? a := field (decode_list UnmarshalJSON zero_PipelineContextData) "a" rest [] in
  let? d := field (decode_list decode_pair ("", zero_PipelineContextData)) "d" rest [] in
  let? b := field decode_bool "b" rest false in
  let? n := field decode_float64 "n" rest "" in
  Ok (mkPipelineContextData t s a d b n).
Proof.
  intros Ht. unfold typed, zero_PipelineContextData. cbn [UnmarshalJSON field].
  change (names "t" "t") with true. cbn beta iota. by rewrite decode_type.
Qed.

Lemma written_children l js :
  Forall (fun p => forall j, written p j -> reads p j) l -> Forall2 written l js -> Forall2 reads l js.
Proof. intros H. induction 1; [constructor|]. apply Forall_cons in H as [? ?]. constructor; auto. Qed.

Lemma written_reads p j : written p j -> reads p j.
Proof.
  revert j. induction p as [t s a d b n Ha Hd] using PipelineContextData_children. intros j Hw.
  inversion Hw; subst; unfold reads.
  - by eexists.
  - by eexists.
  - by eexists.
  - by eexists.
  - rewrite UnmarshalJSON_typed by done. unfold omitempty_string. case_bool_decide; subst; by eexists.
  - rewrite UnmarshalJSON_typed by done. destruct b; by eexists.
  - rewrite UnmarshalJSON_typed by done. by eexists.
  - rewrite UnmarshalJSON_typed by done.
    assert (Forall2 reads a js) as (a' & Ha' & Hf)%reads_elements by (by apply written_children).
    cbn. rewrite Ha'. eexists. split; [done|]. cbn. by rewrite Hf.
  - rewrite UnmarshalJSON_typed by lia.
    assert (Forall2 reads d.*2 kjs.*2) as Hr
      by (apply written_children; [by apply Forall_fmap|done]).
    destruct (reads_pairs d kjs ∅ ltac:(done) Hr) as (d' & Hd' & Hf).
    cbn. rewrite Hd'. eexists. split; [done|]. destruct H6 as [->| ->]; cbn; by rewrite Hf.
  - rewrite UnmarshalJSON_typed by (set_unfold; lia). eexists. split; [done|].
    set_unfold. by destruct_or?; subst.
  - rewrite UnmarshalJSON_typed by done. eexists. split; [done|].
    set_unfold. cbn. rewrite !bool_decide_eq_false_2 by naive_solver. done.
Qed.

Lemma wf_children l js :
  Forall (fun p => forall j, written p j -> wf_json j) l -> Forall2 written l js -> Forall wf_json js.
Proof. intros H. induction 1; [constructor|]. apply Forall_cons in H as [? ?]. constructor; auto. Qed.

#[local] Hint Constructors wf_json : core.
Lemma written_wf p j : written p j -> wf_json j.
Proof.
  revert j. induction p as [t s a d b n Ha Hd] using PipelineContextData_children. intros j Hw.
  inversion Hw; subst; auto; apply wf_object; constructor; try apply wf_number, pretty_literal; auto.
  - unfold omitempty_string. case_bool_decide; repeat constructor.
  - destruct b; repeat constructor.
  - by repeat constructor.
  - constructor; [|constructor]. apply wf_array. by eapply wf_children.
  - constructor; [|constructor]. apply wf_array. apply Forall_map.
    assert (Forall wf_json kjs.*2) as Hwf by (apply (wf_children d.*2); [by apply Forall_fmap|done]).
    rewrite Forall_fmap in Hwf. eapply Forall_impl; [exact Hwf|]. intros [k j] Hj.
    apply wf_object. repeat constructor. exact Hj.
Qed.

(** However context data is written -- strings, booleans and numbers plainly or
    as objects, null for the empty string, arrays and dictionaries as objects whose
    elements are written in any of these ways, empty ones with or without their
    part --, the text is read without an error, and what is read has the same
    value for a policy's filters as what was written, or the same error when its
    type is unknown. *)
Theorem UnmarshalJSON_means p j :
  written p j -> exists p',
    json_Unmarshal UnmarshalJSON (print_json j) zero_PipelineContextData = Ok p' /\
    Flattened p' = Flattened p.
Proof.
  intros Hw. pose proof (written_reads _ _ Hw) as (p' & Hp & Hf). exists p'. split; [|done].
  apply Unmarshal_print; [by eapply written_wf|done].
Qed.

(** ** Examples *)

Module ContextExamples.

(** A part of the data of the repository's own test. *)
Definition owner_json : json :=
  typed 2 [("d", JArray [pair_json "gravatar_id" (JString ""); pair_json "homepage" JNull;
    pair_json "open_issues" (JNumber "2.0"); pair_json "site_admin" (JBool false);
    pair_json "topics" (typed 1 [("a", JArray [JString "hacktoberfest"])]);
    pair_json "needs" (typed 2 [])])].
Definition text (t : string) : PipelineContextData := mkPipelineContextData 0 t [] [] false "".
Definition owner : PipelineContextData :=
  mkPipelineContextData 2 "" []
    [("gravatar_id", text ""); ("homepage", text "");
     ("open_issues", mkPipelineContextData 4 "" [] [] false "2.0");
     ("site_admin", mkPipelineContextData 3 "" [] [] false "");
     ("topics", mkPipelineContextData 1 "" [text "hacktoberfest"] [] false "");
     ("needs", mkPipelineContextData 2 "" [] [] false "")] false "".

Lemma owner_written : written owner owner_json.
Proof.
  apply (written_dictionary 2 "" [] _ false "" [("gravatar_id", JString ""); ("homepage", JNull);
    ("open_issues", JNumber "2.0"); ("site_admin", JBool false);
    ("topics", typed 1 [("a", JArray [JString "hacktoberfest"])]); ("needs", typed 2 [])]); [by left|done|].
  repeat constructor.
Qed.

Lemma UnmarshalJSON_means_witness : exists p',
  json_Unmarshal UnmarshalJSON (print_json owner_json) zero_PipelineContextData = Ok p' /\
  Flattened p' = Flattened owner.
Proof. exact (UnmarshalJSON_means owner owner_json owner_written). Defined.

(** It is read exactly, and a value that is no object has no type. *)
Example owner_read : json_Unmarshal UnmarshalJSON (print_json owner_json) zero_PipelineContextData = Ok owner.
Proof. by vm_compute. Qed.
Example array_refused : json_Unmarshal UnmarshalJSON "[]" zero_PipelineContextData = Err unmarshal_type.
Proof. by vm_compute. Qed.
Example no_literal : json_Unmarshal UnmarshalJSON "01" zero_PipelineContextData = Err syntax_error.
Proof. by vm_compute. Qed.
End ContextExamples.
