(* ===== verification/OAuth.v ===== *)
(** * util/oauth2.go and wire/errors.go: OAuth 2 errors

    The token request, how the token endpoint's answer is read and its error becomes
    a Go error, and which errors the operator takes to mean that a runner's
    credentials are beyond recovery. *)

From S2P Require Export Controllers Unmarshal.
#[local] Open Scope string_scope.

(** ** Requests *)

(** [url.QueryEscape]: letters, digits and four marks stay, a space becomes a
    plus, any other byte its percent-encoding. *)
Definition unreserved (c : ascii) : bool :=
  let n := nat_of_ascii c in
  (bool_decide (48 <= n <= 57) || bool_decide (65 <= n <= 90) || bool_decide (97 <= n <= 122)
   || bool_decide (n = 45) || bool_decide (n = 46) || bool_decide (n = 95)
   || bool_decide (n = 126))%nat.

Definition upper_hex : string := "0123456789ABCDEF".
Definition hex_char (n : nat) : ascii :=
  match String.get n upper_hex with Some c => c | None => "0"%char end.

Fixpoint QueryEscape (s : string) : string :=
  match s with
  | EmptyString => ""
  | String c s =>
      if unreserved c then String c (QueryEscape s)
      else if bool_decide (c = " "%char) then String "+"%char (QueryEscape s)
      else
        let n := nat_of_ascii c in
        String "%"%char (String (hex_char (n / 16)) (String (hex_char (n mod 16)) (QueryEscape s)))
  end.

(** [url.Values.Encode]: the keys in order, each with its only value. *)
Fixpoint Encode (values : list (string * string)) : string :=
  match values with
  | [] => ""
  | [(k, v)] => QueryEscape k ++ "=" ++ QueryEscape v
  | (k, v) :: values => QueryEscape k ++ "=" ++ QueryEscape v ++ "&" ++ Encode values
  end.

Definition valContentType := "application/x-www-form-urlencoded".
Definition valGrantType := "client_credentials".
Definition valClientAssertionType := "urn:ietf:params:oauth:client-assertion-type:jwt-bearer".

(** The parts of [http.Request] that are set. *)
Record Request : Type := mkRequest {
  req_Method : string;
  req_URL : string;
  req_ContentType : string;
  req_Body : string;
}.

(** [newRequest]; [http.NewRequestWithContext] may reject the endpoint. *)
Definition newRequest (checkURL : string -> goerr) (tokenEndpoint clientAssertion : string)
    : result Request :=
  match checkURL tokenEndpoint with
  | Some e => Err e
  | None =>
      Ok (mkRequest "POST" tokenEndpoint valContentType
            (Encode [("client_assertion", clientAssertion);
                     ("client_assertion_type", valClientAssertionType);
                     ("grant_type", valGrantType)]))
  end.

(** ** Responses *)

Record errorResponse : Type := mkErrorResponse {
  er_Error : string;
  ErrorDescription : string;
  ErrorURI : string;
}.

(** [errorResponse.error()] *)
Definition errorResponse_error (er : errorResponse) : goerr :=
  let err := er_Error er in
  if bool_decide (err = "") then None
  else if bool_decide (err = "invalid_request") then Some (ESentinel ErrOAuth2InvalidRequest)
  else if bool_decide (err = "invalid_client") then Some (ESentinel ErrOAuth2InvalidClient)
  else if bool_decide (err = "invalid_grant") then Some (ESentinel ErrOAuth2InvalidGrant)
  else if bool_decide (err = "unauthorized_client") then Some (ESentinel ErrOAuth2UnauthorizedClient)
  else if bool_decide (err = "unsupported_grant_type")
  then Some (ESentinel ErrOAuth2UnsupportedGrantType)
  else if bool_decide (err = "invalid_scope") then Some (ESentinel ErrOAuth2InvalidScope)
  else Some (ENew err).

Definition wrapErr (res : errorResponse) : goerr :=
  match errorResponse_error res with
  | None => None
  | Some err =>
      let desc := ErrorDescription res in
      if bool_decide (desc <> "") then Some (EWrap desc err) else Some err
  end.

Record successfulResponse : Type := mkSuccessfulResponse {
  sr_AccessToken : string;
  sr_TokenType : string;
  sr_ExpiresIn : Z;
  sr_RefreshToken : string;
  sr_Scope : string;
}.

(** [response] embeds the two kinds of responses, whose fields are its own in JSON. *)
Record response : Type := mkResponse {
  res_successfulResponse : successfulResponse;
  res_errorResponse : errorResponse;
}.
Definition zero_response : response :=
  mkResponse (mkSuccessfulResponse "" "" 0 "" "") (mkErrorResponse "" "" "").

Definition decode_response : json -> response -> result response := decode_struct (fun l r =>
  let s := res_successfulResponse r in
  let? accessToken := field decode_string "access_token" l (sr_AccessToken s) in
  let? tokenType := field decode_string "token_type" l (sr_TokenType s) in
  let? expiresIn := field decode_int "expires_in" l (sr_ExpiresIn s) in
  let? refreshToken := field decode_string "refresh_token" l (sr_RefreshToken s) in
  let? scope := field decode_string "scope" l (sr_Scope s) in
  let e := res_errorResponse r in
  let? err := field decode_string "error" l (er_Error e) in
  let? description := field decode_string "error_description" l (ErrorDescription e) in
  let? uri := field decode_string "error_uri" l (ErrorURI e) in
  Ok (mkResponse (mkSuccessfulResponse accessToken tokenType expiresIn refreshToken scope)
        (mkErrorResponse err description uri))).

(** [fetchResponse], given what [http.DefaultClient.Do] and reading the body give;
    the status of the answer is not looked at. *)
Definition fetchResponse (send : Request -> result string) (req : Request) : result response :=
  let? body := send req in
  Decoder_Decode decode_response body zero_response.

Definition AccessToken (checkURL : string -> goerr) (send : Request -> result string)
    (tokenEndpoint clientAssertion : string) : result string :=
  let? req := newRequest checkURL tokenEndpoint clientAssertion in
  let? res := fetchResponse send req in
  match wrapErr (res_errorResponse res) with
  | Some e => Err e
  | None => Ok (sr_AccessToken (res_successfulResponse res))
  end.

(** ** wire/errors.go *)

Definition isErrOAuth2InvalidClient (err : goerr) : bool :=
  match err with Some e => errors_Is e ErrOAuth2InvalidClient | None => false end.

(** The error itself must be an [azuredevops.WrappedError]: wrapped ones do not
    count. *)
Definition isTaskAgentNotFoundException (err : goerr) : bool :=
  match err with
  | Some (EWrappedError typeKey) => bool_decide (typeKey = Some "TaskAgentNotFoundException")
  | _ => false
  end.

Definition IsUnrecoverable (err : goerr) : bool :=
  isErrOAuth2InvalidClient err || isTaskAgentNotFoundException err.

(** ** Properties *)

(** The error codes of RFC 6749 and their variables. *)
Definition oauth2_codes : list (string * sentinel) := [
  ("invalid_request", ErrOAuth2InvalidRequest);
  ("invalid_client", ErrOAuth2InvalidClient);
  ("invalid_grant", ErrOAuth2InvalidGrant);
  ("unauthorized_client", ErrOAuth2UnauthorizedClient);
  ("unsupported_grant_type", ErrOAuth2UnsupportedGrantType);
  ("invalid_scope", ErrOAuth2InvalidScope)].

(** Refute, one element after the other, that something is in a list. *)
Ltac list_cases H :=
  repeat (apply elem_of_cons in H as [H|H]; [congruence|]); by apply not_elem_of_nil in H.

Lemma errorResponse_error_Is er s :
  match errorResponse_error er with Some e => errors_Is e s = true | None => False end <->
  (er_Error er, s) ∈ oauth2_codes.
Proof.
  unfold errorResponse_error. destruct (er_Error er) as [|c0 code0] eqn:H0.
  { cbn. split; [done|]. unfold oauth2_codes. intros Hin.
    list_cases Hin. }
  rewrite <- H0, (bool_decide_eq_false_2 (er_Error er = "")) by (rewrite H0; done). clear H0.
  repeat (case_bool_decide; [match goal with H : er_Error er = _ |- _ => rewrite H end; destruct s; split; intros Hs; try done;
    first [by apply (bool_decide_unpack _), I | unfold oauth2_codes in Hs; list_cases Hs]|]).
  cbn. split; [done|]. unfold oauth2_codes. intros Hin.
  list_cases Hin.
Qed.

(** A token endpoint's answer, whatever its status, is an error exactly when the
    JSON value that its body starts with has an error code that is not empty, with
    or without a description; the error [errors.Is] the variable of that code and of
    no other, also under a description; otherwise the access token is returned, as
    empty as it may be.  In particular the answer makes the runner's registration
    unrecoverable exactly when the code is "invalid_client". *)
Theorem AccessToken_errors checkURL send endpoint assertion req body res :
  newRequest checkURL endpoint assertion = Ok req ->
  send req = Ok body -> Decoder_Decode decode_response body zero_response = Ok res ->
  let code := er_Error (res_errorResponse res) in
  let r := AccessToken checkURL send endpoint assertion in
  (code = "" <-> r = Ok (sr_AccessToken (res_successfulResponse res))) /\
  (code <> "" <-> exists e, r = Err e) /\
  (forall e s, r = Err e -> errors_Is e s = true <-> (code, s) ∈ oauth2_codes) /\
  (IsUnrecoverable (err_of r) = true <-> code = "invalid_client").
Proof.
  intros Hreq Hsend Hres. cbn zeta. unfold AccessToken, fetchResponse. rewrite Hreq. cbn [result_bind].
  rewrite Hsend. cbn [result_bind]. rewrite Hres. cbn [result_bind]. set (er := res_errorResponse res).
  pose proof (errorResponse_error_Is er) as HIs.
  assert (errorResponse_error er = None <-> er_Error er = "") as Hnone.
  { unfold errorResponse_error. repeat case_bool_decide; naive_solver. }
  assert (forall e, wrapErr er = Some e ->
    exists e0, errorResponse_error er = Some e0 /\ (forall s, errors_Is e s = errors_Is e0 s) /\
      isTaskAgentNotFoundException (Some e) = false) as Hwrap.
  { unfold wrapErr. intros e. destruct (errorResponse_error er) as [e0|] eqn:He0; [|done].
    exists e0. split; [done|]. case_bool_decide; simplify_eq; [done|].
    split; [done|]. revert He0. unfold errorResponse_error.
    repeat case_bool_decide; intros [= <-]; done. }
  assert (wrapErr er = None <-> er_Error er = "") as Hnone'.
  { rewrite <- Hnone. unfold wrapErr. destruct (errorResponse_error er); [case_bool_decide|]; done. }
  destruct (wrapErr er) as [e|]; cbn [err_of].
  - destruct (Hwrap e eq_refl) as (e0 & He0 & Hs & Hta). rewrite He0 in HIs.
    assert (er_Error er <> "") by naive_solver.
    split_and!; [naive_solver.. | |].
    + intros e' s [= <-]. rewrite Hs. apply HIs.
    + unfold IsUnrecoverable. rewrite Hta, orb_false_r. cbn. rewrite Hs, HIs.
      unfold oauth2_codes. split.
      * intros Hin. apply elem_of_cons in Hin as [Hin|Hin]; [congruence|].
        apply elem_of_cons in Hin as [Hin|Hin]; [congruence|]. list_cases Hin.
      * intros ->. by apply (bool_decide_unpack _), I.
  - assert (er_Error er = "") as Hc by by apply Hnone'. rewrite Hc.
    split_and!; try done; naive_solver.
Qed.

(** An answer that fails, with a member that is no field and a line end. *)
Definition unknown_client : string :=
  print_json (JObject [("error", JString "invalid_client"); ("error_description", JString "unknown client");
                       ("trace_id", JNumber "7")]) ++ String (ascii_of_nat 10) "".
Lemma AccessToken_errors_witness :
  IsUnrecoverable (err_of (AccessToken (fun _ => None) (fun _ => Ok unknown_client)
    "https://vstoken.actions.githubusercontent.com" "header.payload.signature")) = true.
Proof.
  refine (proj2 (proj2 (proj2 (proj2 (AccessToken_errors _ _ _ _ _ unknown_client
    (mkResponse (mkSuccessfulResponse "" "" 0 "" "") (mkErrorResponse "invalid_client" "unknown client" ""))
    _ _ _)))) _); by vm_compute.
Defined.
