(* ===== verification/Jobs.v ===== *)
(** * Messages and job requests

    [wire/message.go], [wire/pajr.go], [util/ado.go] and [util/properties.go]:
    the messages of the Azure DevOps queue, the job requests they carry, and
    what the operator reads out of the service endpoints of a job. *)

From S2P Require Export Policy.
#[local] Open Scope string_scope.

(** ** Records of the Azure DevOps client *)

Record TaskAgentMessage : Type := mkTaskAgentMessage {
  ta_MessageId : ptr Z;
  ta_MessageType : ptr string;
  ta_Body : ptr string;
}.

Record EndpointAuthorization : Type := mkEndpointAuthorization {
  auth_Scheme : ptr string;
  auth_Parameters : ptr (gmap string string);
}.

Record ServiceEndpoint : Type := mkServiceEndpoint {
  se_Name : ptr string;
  se_Url : ptr string;
  se_Authorization : ptr EndpointAuthorization;
}.

Record TaskOrchestrationPlanReference : Type := mkPlan {
  plan_ScopeIdentifier : ptr string;
  plan_PlanType : ptr string;
  plan_PlanId : ptr string;
}.

Record TimelineReference : Type := mkTimeline { timeline_Id : ptr string }.

#[export] Instance ServiceEndpoint_eq_dec : EqDecision ServiceEndpoint.
Proof.
  assert (EqDecision EndpointAuthorization) by solve_decision. solve_decision.
Defined.
#[export] Instance Plan_eq_dec : EqDecision TaskOrchestrationPlanReference.
Proof. solve_decision. Defined.
#[export] Instance Timeline_eq_dec : EqDecision TimelineReference.
Proof. solve_decision. Defined.

(** ** wire/message.go *)

Definition MessageTypePipelineAgentJobRequest := "PipelineAgentJobRequest".
Definition MessageTypeAgentRefresh := "AgentRefresh".

Record Message : Type := mkMessage { msg_Id : Z; msg_Type : string; msg_body : string }.

(** [Message.String] *)
Definition Message_String (m : Message) : string := msg_body m.

(** The body is dereferenced without a test. *)
Definition toMessage (taMessage : TaskAgentMessage) : outcome (result Message) :=
  match ta_MessageId taMessage with
  | None => Done (Err (ENew "taMessage.MessageId == nil"))
  | Some id =>
      match ta_MessageType taMessage with
      | None => Done (Err (ENew "taMessage.MessageType == nil"))
      | Some type =>
          match ta_Body taMessage with
          | None => Panicked nil_dereference
          | Some body => Done (Ok (mkMessage id type body))
          end
      end
  end.

(** ** wire/pajr.go *)

Record JobResources : Type := mkJobResources { Endpoints : ptr (list ServiceEndpoint) }.

(** The fields the operator reads. *)
Record PipelineAgentJobRequest : Type := mkPipelineAgentJobRequest {
  pajr_Plan : ptr TaskOrchestrationPlanReference;
  pajr_Timeline : ptr TimelineReference;
  pajr_JobId : ptr string;
  pajr_JobDisplayName : ptr string;
  pajr_JobName : ptr string;
  pajr_RequestId : ptr Z;
  pajr_Resources : ptr JobResources;
  pajr_ContextData : ptr (gmap string PipelineContextData);
}.

(** Library code: [json.Unmarshal] into a job request, and the claims of a JSON
    Web Token ([jwt.ParseSigned], then [UnsafeClaimsWithoutVerification]). *)
Class JobLib : Type := {
  unmarshalJobRequest : string -> result PipelineAgentJobRequest;
  jwtClaims : string -> result (gomap value);
}.

Section jobs.
Context `{JL : JobLib}.

Definition toPipelineAgentJobRequest (message : ptr Message) : result PipelineAgentJobRequest :=
  match message with
  | None => Err (ENew "message == nil")
  | Some message => unmarshalJobRequest (Message_String message)
  end.

(** ** util/ado.go *)

Definition WellKnownServiceEndpointNameSystemVssConnection := "SystemVssConnection".

Fixpoint GetSystemVssConnectionEndpoint (serviceEndpoints : list ServiceEndpoint)
    : result ServiceEndpoint :=
  match serviceEndpoints with
  | [] => Err (ENew "serviceEndpoint == nil")
  | se :: ses =>
      if bool_decide (se_Name se = Some WellKnownServiceEndpointNameSystemVssConnection)
      then Ok se else GetSystemVssConnectionEndpoint ses
  end.

Definition GetServiceEndpointURL (serviceEndpoint : ptr ServiceEndpoint) : result string :=
  match serviceEndpoint with
  | None => Err (ENew "serviceEndpoint == nil")
  | Some se =>
      match se_Url se with
      | None => Err (ENew "url == nil")
      | Some url => Ok url
      end
  end.

Definition GetServiceEndpointAccessToken (serviceEndpoint : ptr ServiceEndpoint) : result string :=
  match serviceEndpoint with
  | None => Err (ENew "serviceEndpoint == nil")
  | Some se =>
      match se_Authorization se with
      | None => Err (ENew "authorization == nil")
      | Some authorization =>
          match auth_Scheme authorization with
          | None => Err (ENew "scheme == nil")
          | Some scheme =>
              if bool_decide (scheme <> "OAuth") then Err (ENew ("scheme != " ++ quoted "OAuth"))
              else
                match auth_Parameters authorization with
                | None => Err (ENew "parameters == nil")
                | Some parameters =>
                    match parameters !! "AccessToken" with
                    | None => Err (ENew ("parameters[" ++ quoted "AccessToken" ++ "] == nil"))
                    | Some accessToken => Ok accessToken
                    end
                end
          end
      end
  end.

Definition GetOrchestrationId (serviceEndpoints : list ServiceEndpoint) : result string :=
  let? serviceEndpoint := GetSystemVssConnectionEndpoint serviceEndpoints in
  let? accessToken := GetServiceEndpointAccessToken (Some serviceEndpoint) in
  let? claims := jwtClaims accessToken in
  match mlookup claims "orchid" with
  | None => Err (ENew ("claims[" ++ quoted "orchid" ++ "] == nil"))
  | Some (VString orchestrationId) => Ok orchestrationId
  | Some _ => Err (ENew "orchid.(string) == nil")
  end.
End jobs.

(** ** util/properties.go *)

(** [GetPropertyValue]; nil is [None]. *)
Definition GetPropertyValue (properties : ptr value) (key : string) : ptr value :=
  match properties with
  | Some (VObject mProperties) =>
      match mlookup mProperties key with
      | Some (VObject mProperty) => mlookup mProperty "$value"
      | _ => None
      end
  | _ => None
  end.

(** ** Properties *)

Section lemmas.
Context `{JL : JobLib}.

(** [authorized se token]: the endpoint carries this OAuth access token. *)
Definition authorized (se : ServiceEndpoint) (token : string) : Prop :=
  exists a ps, se_Authorization se = Some a /\ auth_Scheme a = Some "OAuth" /\
    auth_Parameters a = Some ps /\ ps !! "AccessToken" = Some token.

Lemma GetServiceEndpointAccessToken_ok se token :
  GetServiceEndpointAccessToken (Some se) = Ok token <-> authorized se token.
Proof.
  unfold GetServiceEndpointAccessToken, authorized.
  destruct (se_Authorization se) as [[sch ps]|]; cbn; [|naive_solver].
  destruct sch as [sch|]; [|naive_solver]. case_bool_decide; [naive_solver|].
  destruct ps as [ps|]; [|naive_solver].
  destruct (ps !! "AccessToken") eqn:?; naive_solver.
Qed.

Lemma GetSystemVssConnectionEndpoint_ok ses se :
  GetSystemVssConnectionEndpoint ses = Ok se <->
  exists pre post, ses = (pre ++ se :: post)%list /\
    se_Name se = Some WellKnownServiceEndpointNameSystemVssConnection /\
    Forall (fun s => se_Name s <> Some WellKnownServiceEndpointNameSystemVssConnection) pre.
Proof.
  induction ses as [|s ses IH]; cbn.
  { split; [done|]. by intros ([|] & ? & ? & _). }
  case_bool_decide as Hs.
  - split.
    + intros [= ->]. by exists [], ses.
    + intros ([|p pre] & post & [= -> ->] & _ & Hpre); [done|].
      by apply Forall_cons in Hpre as [? _].
  - rewrite IH. split.
    + intros (pre & post & -> & Hn & Hpre). exists (s :: pre), post. by auto.
    + intros ([|p pre] & post & [= -> ->] & Hn & Hpre); [done|].
      apply Forall_cons in Hpre as [_ Hpre]. eauto.
Qed.

(** The orchestration of a job is the string claim "orchid" of the OAuth
    token of the first endpoint named "SystemVssConnection"; without such an
    endpoint, token or claim there is none, and no other endpoint is tried. *)
Theorem GetOrchestrationId_ok ses id :
  GetOrchestrationId ses = Ok id <->
  exists pre se post token claims,
    ses = (pre ++ se :: post)%list /\
    Forall (fun s => se_Name s <> Some WellKnownServiceEndpointNameSystemVssConnection) pre /\
    se_Name se = Some WellKnownServiceEndpointNameSystemVssConnection /\
    authorized se token /\ jwtClaims token = Ok (Some claims) /\
    claims !! "orchid" = Some (VString id).
Proof.
  unfold GetOrchestrationId. split.
  - destruct (GetSystemVssConnectionEndpoint ses) as [se|] eqn:Hse; [|done]. cbn [result_bind].
    destruct (GetServiceEndpointAccessToken (Some se)) as [token|] eqn:Ht; [|done]. cbn [result_bind].
    destruct (jwtClaims token) as [claims|] eqn:Hc; [|done]. cbn [result_bind].
    apply GetSystemVssConnectionEndpoint_ok in Hse as (pre & post & -> & Hn & Hpre).
    apply GetServiceEndpointAccessToken_ok in Ht.
    destruct claims as [claims|]; cbn; [|done].
    destruct (claims !! "orchid") as [[]|] eqn:Ho; try done. intros [= <-]. eauto 12.
  - intros (pre & se & post & token & claims & -> & Hpre & Hn & Ht & Hc & Ho).
    rewrite (proj2 (GetSystemVssConnectionEndpoint_ok (pre ++ se :: post)%list se)) by eauto.
    cbn [result_bind]. apply GetServiceEndpointAccessToken_ok in Ht. rewrite Ht.
    cbn [result_bind]. rewrite Hc. cbn. by rewrite Ho.
Qed.
End lemmas.
