(* ===== verification/JobRequest.v ===== *)
(** * A job request, as it is received

    How [json.Unmarshal] reads the body of a message into [wire/pajr.go]'s
    [PipelineAgentJobRequest]: an implementation of [Jobs]' interface.  From the
    text of a request to the verdict of a policy, nothing depends on how the
    context of the job is written. *)

From S2P Require Export Jobs Context.
#[local] Open Scope string_scope.

(** ** Library code *)

(** The types of the Azure DevOps client whose values nothing looks at. *)
Inductive third_party : Type :=
| TemplateToken | AzureTime | ActionsEnvironmentReference | MaskHint | VariableValue.

(** How JSON is stored in the library's types: [uuid.UUID], as its text, the
    structs of [Jobs], and whether it is for the others, which does not depend on
    what they held; and the claims of a JSON Web Token. *)
Class JobTypes : Type := {
  parse_UUID : string -> result string;
  decode_Plan : json -> TaskOrchestrationPlanReference -> result TaskOrchestrationPlanReference;
  decode_Timeline : json -> TimelineReference -> result TimelineReference;
  decode_ServiceEndpoint : json -> ServiceEndpoint -> result ServiceEndpoint;
  refuses : third_party -> json -> goerr;
  token_claims : string -> result (gomap value);
}.

(** ** The structs of pajr.go *)

Section decoding.
Context `{JT : JobTypes}.

(** A field that nothing reads: only an error matters. *)
Definition checked (t : third_party) (j : json) (_ : unit) : result unit :=
  match refuses t j with Some e => Err e | None => Ok tt end.
Definition unread {A} (decode : json -> A -> result A) (zero : A) (name : string) (l : list (string * json))
    : result (ptr A) := field (decode_ptr decode zero) name l None.
Definition decode_strings : json -> list string -> result (list string) := decode_list decode_string "".

Definition decode_ContainerResource : json -> unit -> result unit := decode_struct (fun l _ =>
  let? _ := unread (decode_map decode_string "") ∅ "environment" l in
  let? _ := unread decode_string "" "image" l in
  let? _ := unread decode_string "" "options" l in
  let? _ := unread decode_strings [] "volumes" l in
  let? _ := unread decode_strings [] "ports" l in
  Ok tt).
Definition decode_RepositoryResource : json -> unit -> result unit := decode_struct (fun l _ =>
  let? _ := unread decode_string "" "id" l in
  let? _ := unread decode_string "" "type" l in
  let? _ := unread decode_string "" "url" l in
  let? _ := unread decode_string "" "version" l in
  Ok tt).
Definition decode_WorkspaceOptions : json -> unit -> result unit := decode_struct (fun l _ =>
  let? _ := unread decode_string "" "clean" l in Ok tt).
Definition decode_JobStep : json -> unit -> result unit := decode_struct (fun l _ =>
  let? _ := unread decode_string "" "condition" l in
  let? _ := unread (checked TemplateToken) tt "continueOnError" l in
  let? _ := unread (checked TemplateToken) tt "timeoutInMinutes" l in
  Ok tt).

Definition zero_ServiceEndpoint : ServiceEndpoint := mkServiceEndpoint None None None.
Definition zero_JobResources : JobResources := mkJobResources None.
Definition decode_JobResources : json -> JobResources -> result JobResources := decode_struct (fun l r =>
  let? _ := unread (decode_list decode_ContainerResource tt) [] "containers" l in
  let? endpoints := field (decode_ptr (decode_list decode_ServiceEndpoint zero_ServiceEndpoint) [])
                      "endpoints" l (Endpoints r) in
  let? _ := unread (decode_list decode_RepositoryResource tt) [] "repositories" l in
  Ok (mkJobResources endpoints)).

Definition decode_UUID (j : json) (old : string) : result string :=
  match j with JNull => Ok old | JString s => parse_UUID s | _ => Err unmarshal_type end.

Definition zero_PipelineAgentJobRequest : PipelineAgentJobRequest :=
  mkPipelineAgentJobRequest None None None None None None None None.
Definition decode_contextData : json -> ptr (gmap string PipelineContextData) ->
    result (ptr (gmap string PipelineContextData)) :=
  decode_ptr (decode_map UnmarshalJSON zero_PipelineContextData) ∅.

Definition decode_PipelineAgentJobRequest : json -> PipelineAgentJobRequest -> result PipelineAgentJobRequest :=
  decode_struct (fun l p =>
  let? _ := unread decode_string "" "messageType" l in
  let? plan := field (decode_ptr decode_Plan (mkPlan None None None)) "plan" l (pajr_Plan p) in
  let? timeline := field (decode_ptr decode_Timeline (mkTimeline None)) "timeline" l (pajr_Timeline p) in
  let? jobId := field (decode_ptr decode_UUID "") "jobId" l (pajr_JobId p) in
  let? jobDisplayName := field (decode_ptr decode_string "") "jobDisplayName" l (pajr_JobDisplayName p) in
  let? jobName := field (decode_ptr decode_string "") "jobName" l (pajr_JobName p) in
  let? _ := unread (checked TemplateToken) tt "jobContainer" l in
  let? _ := unread (checked TemplateToken) tt "jobServiceContainers" l in
  let? _ := unread (checked TemplateToken) tt "jobOutputs" l in
  let? requestId := field (decode_ptr decode_uint64 0%Z) "requestId" l (pajr_RequestId p) in
  let? _ := unread (checked AzureTime) tt "lockedUntil" l in
  let? resources := field (decode_ptr decode_JobResources zero_JobResources) "resources" l (pajr_Resources p) in
  let? contextData := field decode_contextData "contextData" l (pajr_ContextData p) in
  let? _ := unread decode_WorkspaceOptions tt "workspace" l in
  let? _ := unread (checked ActionsEnvironmentReference) tt "actionsEnvironment" l in
  let? _ := unread (decode_list (checked TemplateToken) tt) [] "environmentVariables" l in
  let? _ := unread (decode_list (checked TemplateToken) tt) [] "defaults" l in
  let? _ := unread decode_strings [] "fileTable" l in
  let? _ := unread (decode_list (checked MaskHint) tt) [] "mask" l in
  let? _ := unread (decode_list decode_JobStep tt) [] "steps" l in
  let? _ := unread (decode_map (checked VariableValue) tt) ∅ "variables" l in
  let? _ := unread (decode_map decode_string "") ∅ "jobSidecarContainers" l in
  Ok (mkPipelineAgentJobRequest plan timeline jobId jobDisplayName jobName requestId resources contextData)).

(** What [Jobs] asks for. *)
#[export] Instance json_jobs : JobLib := {|
  unmarshalJobRequest body := json_Unmarshal decode_PipelineAgentJobRequest body zero_PipelineAgentJobRequest;
  jwtClaims := token_claims;
|}.
End decoding.

(** ** What is read *)

(** A member of another name does not matter to a field. *)
Lemma field_drop {A} (decode : json -> A -> result A) name k j l1 l2 x :
  names k name = false -> field decode name (l1 ++ (k, j) :: l2) x = field decode name (l1 ++ l2) x.
Proof. intros H. rewrite !field_app. by destruct (field decode name l1 x); cbn; rewrite ?H. Qed.

(** A map is read entry by entry. *)
Lemma decode_members_ok {A} (decode : json -> A -> result A) zero l m :
  NoDup l.*1 -> Forall (fun kj => exists x, decode kj.2 zero = Ok x) l ->
  exists m', decode_members decode zero l m = Ok m' /\
    (forall k j, (k, j) ∈ l -> exists x, decode j zero = Ok x /\ m' !! k = Some x) /\
    (forall k, k ∉ l.*1 -> m' !! k = m !! k).
Proof.
  revert m. induction l as [|[k j] l IH]; intros m.
  { intros _ _. exists m. split; [done|]. split; [by intros ? ? ?%not_elem_of_nil|done]. }
  cbn [fmap list_fmap fst]. intros [Hk Hnd]%NoDup_cons [(x & Hx) Hl]%Forall_cons. cbn in Hx.
  destruct (IH (<[k:=x]> m) Hnd Hl) as (m' & Hm' & Hin & Hout). cbn [decode_members]. rewrite Hx. cbn [result_bind].
  exists m'. split; [done|]. split.
  - intros k' j' [[= -> ->]|H]%elem_of_cons; [|by apply Hin].
    exists x. split; [done|]. by rewrite Hout, lookup_insert_eq.
  - intros k' [Hne Hk']%not_elem_of_cons. rewrite Hout by done. by rewrite lookup_insert_ne.
Qed.

(** The entries of a context, each written in one of the ways of [Context]. *)
Record written_context (m : gmap string PipelineContextData) (l : list (string * json)) : Prop := mkWrittenContext {
  wc_NoDup : NoDup l.*1;
  wc_dom k : k ∈ l.*1 <-> is_Some (m !! k);
  wc_written k j p : (k, j) ∈ l -> m !! k = Some p -> written p j;
}.

(** Contexts whose entries mean the same. *)
Definition same_meaning (m m' : gmap string PipelineContextData) : Prop :=
  forall k, Flattened <$> m !! k = Flattened <$> m' !! k.

Lemma decode_context m l old : written_context m l ->
  exists m', decode_contextData (JObject l) old = Ok (Some m') /\ (old = None -> same_meaning m' m).
Proof.
  intros [Hnd Hdom Hw].
  assert (Forall (fun kj => exists p, UnmarshalJSON kj.2 zero_PipelineContextData = Ok p) l) as Hl.
  { rewrite Forall_forall. intros [k j] Hin. assert (is_Some (m !! k)) as [p Hp].
    { apply Hdom. by apply (list_elem_of_fmap_2 fst _ (k, j)). }
    destruct (written_reads _ _ (Hw _ _ _ Hin Hp)) as (p' & Hp' & _). by exists p'. }
  destruct (decode_members_ok UnmarshalJSON _ l (default ∅ old) Hnd Hl) as (m' & Hm' & Hin & Hout).
  exists m'. unfold decode_contextData. cbn. rewrite Hm'. split; [done|]. intros -> k.
  destruct (decide (k ∈ l.*1)) as [Hk|Hk].
  - pose proof Hk as ((k0 & j) & -> & Hkj)%list_elem_of_fmap. cbn in *.
    apply Hdom in Hk as [p Hp]. destruct (Hin _ _ Hkj) as (p' & Hp' & Hk').
    destruct (written_reads _ _ (Hw _ _ _ Hkj Hp)) as (p0 & Hp0 & Hf). rewrite Hp0 in Hp'. injection Hp' as <-.
    rewrite Hk', Hp. cbn. by rewrite Hf.
  - rewrite Hout by done. destruct (m !! k) eqn:Hm; [|done]. destruct Hk. by apply Hdom.
Qed.

Section verdicts.
Context `{JT : JobTypes} `{J : GoJQ} {T : K8sTypes} {L : K8sLib} `{!K8sLibSpec L}.

(** Contexts that mean the same get the same verdict. *)
Lemma same_flattened m m' cd cd' : same_meaning m m' -> flattened m cd -> flattened m' cd' -> cd = cd'.
Proof.
  intros Hs H H'. apply map_eq. intros k. apply option_eq. intros v. rewrite (H k v), (H' k v). specialize (Hs k).
  destruct (m !! k) as [p|], (m' !! k) as [p'|]; cbn in Hs; try done.
  injection Hs as Hf. split; intros (q & [= <-] & Hq); eexists; (split; [done|]); congruence.
Qed.
Lemma same_known m m' : same_meaning m m' ->
  map_Forall (fun _ p => known p) m -> map_Forall (fun _ p => known p) m'.
Proof.
  intros Hs Hm k p Hp. specialize (Hs k). rewrite Hp in Hs. destruct (m !! k) as [q|] eqn:Hq; [|done].
  cbn in Hs. injection Hs as Hf. apply Flattened_total. rewrite <- Hf. apply Flattened_total. by apply (Hm k).
Qed.

Definition same_verdict (r r' : outcome (result (ptr ActionsRunnerPolicyRule) * PolicyValidator)) : Prop :=
  r = r' \/ exists e e' pv, r = Done (Err e, pv) /\ r' = Done (Err e', pv).
Lemma Validate_same pv policy m m' : same_meaning m m' ->
  same_verdict (Validate pv policy (Some m)) (Validate pv policy (Some m')).
Proof.
  intros Hs. unfold Validate. pose proof (flatten_all m) as H. pose proof (flatten_all m') as H'.
  destruct (result_insert Flattened (map_range m) ∅) as [cd|e], (result_insert Flattened (map_range m') ∅) as [cd'|e'].
  - left. destruct H as [H _], H' as [H' _]. by rewrite (same_flattened _ _ _ _ Hs H H').
  - destruct H'. destruct H as [_ H]. by apply (same_known m).
  - destruct H. destruct H' as [_ H']. apply (same_known m'); [|done]. intros k. symmetry. apply Hs.
  - right. by eexists _, _, _.
Qed.

Lemma contextData_others pre post : others "contextData" (pre ++ post) = true ->
  others "contextData" pre = true /\ others "contextData" post = true.
Proof. unfold others. rewrite forallb_app. apply andb_true_iff. Qed.

End verdicts.

(** ** Examples *)

Module JobRequestExamples.
Import Demo PolicyExamples.

(** A library whose structs have few fields. *)
#[export] Instance job_types : JobTypes := {|
  parse_UUID s := if bool_decide (s = "") then Err (EOther "invalid UUID length: 0") else Ok s;
  decode_Plan := decode_struct (fun l p =>
    let? id := field (decode_ptr decode_string "") "planId" l (plan_PlanId p) in
    Ok (mkPlan (plan_ScopeIdentifier p) (plan_PlanType p) id));
  decode_Timeline := decode_struct (fun l t =>
    let? id := field (decode_ptr decode_string "") "id" l (timeline_Id t) in Ok (mkTimeline id));
  decode_ServiceEndpoint := decode_struct (fun l e =>
    let? name := field (decode_ptr decode_string "") "name" l (se_Name e) in
    Ok (mkServiceEndpoint name (se_Url e) (se_Authorization e)));
  refuses t j := match t, j with AzureTime, JString "" => Some (EOther "cannot parse time") | _, _ => None end;
  token_claims s := Err (EOther "square/go-jose: compact JWS format must have three parts");
|}.

(** A request from a fork, whose context is written in two ways. *)
Definition before_context : list (string * json) :=
  [("messageType", JString "PipelineAgentJobRequest"); ("plan", JObject [("planId", JString "plan")]);
   ("jobId", JString "12f1170f"); ("requestId", JNumber "18446744073709551615");
   ("lockedUntil", JString "0001-01-01T00:00:00"); ("steps", JArray [JObject [("condition", JNull)]])].
Definition after_context : list (string * json) :=
  [("variables", JObject [("system.culture", JObject [])]); ("fileTable", JArray [JString ".github/main.yml"])].
Definition fork_context : list (string * json) :=
  [("fork", JBool true); ("ref", typed 0 [("s", JString "refs/heads/main")])].
Definition fork_request : json :=
  JObject (before_context ++ ("contextData", JObject fork_context) :: after_context).

Lemma fork_written : written_context context fork_context.
Proof.
  split.
  - apply (bool_decide_unpack _). by vm_compute.
  - intros k. cbn. rewrite !elem_of_cons.
    destruct (decide (k = "fork")) as [->|Hf]; [split; intros _; [by eexists|by left]|].
    destruct (decide (k = "ref")) as [->|Hr]; [split; intros _; [by eexists|by right; left]|].
    unfold context. rewrite lookup_insert_ne, lookup_singleton_ne by done.
    split; [by intros [?|[?|?%not_elem_of_nil]]|by intros [? [=]]].
  - intros k j p [[= -> ->]|[[= -> ->]|[]%not_elem_of_nil]%elem_of_cons]%elem_of_cons [= <-].
    + apply written_bool.
    + apply (written_typed_string "refs/heads/main").
Qed.

Definition read_request : PipelineAgentJobRequest :=
  mkPipelineAgentJobRequest (Some (mkPlan None None (Some "plan"))) None (Some "12f1170f") None None
    (Some 18446744073709551615) None None.


(** A request whose id is negative is refused. *)
Example negative_refused :
  json_Unmarshal decode_PipelineAgentJobRequest (print_json (JObject [("requestId", JNumber "-1")]))
    zero_PipelineAgentJobRequest = Err unmarshal_type.
Proof. by vm_compute. Qed.
End JobRequestExamples.
