(* ===== verification/Wire.v ===== *)
(** * wire/wire.go: one runner's link to GitHub and Azure DevOps

    Registering a runner ([Init]), undoing it ([Destroy], [Close]), and the
    listener goroutine that waits for a job request, checks it against the
    runner's policy and wakes the controller.  The methods of the two facades,
    the channels and the fields the listener shares with other goroutines are
    operations of the signature [wire]; a panic inside a facade is one of its
    answers. *)

From S2P Require Export Converters Jobs Method.
#[local] Open Scope string_scope.

(** ** The operations *)

Inductive RunnerEvent : Type := RunnerEventRegister | RunnerEventRemove.

(** [&task.IssueTypeValues.Error] and [.Warning] *)
Inductive IssueType : Type := IssueTypeError | IssueTypeWarning.

#[export] Instance IssueType_eq_dec : EqDecision IssueType.
Proof. solve_decision. Defined.

Record Issue : Type := mkIssue { issue_Type : IssueType; issue_Message : string }.

Record TimelineRecord : Type := mkTimelineRecord {
  tr_Type : string;
  tr_Id : ptr string;
  tr_RefName : ptr string;
  tr_Name : ptr string;
  tr_State : string;
  tr_Result : string;
  tr_WorkerName : string;
  tr_Issues : list Issue;
  tr_ErrorCount : Z;
  tr_WarningCount : Z;
}.

Record JobEvent : Type := mkJobEvent {
  ev_Name : string;
  ev_JobId : ptr string;
  ev_RequestId : ptr Z;
  ev_Result : string;
}.

Inductive wire_op : Type :=
(* facades.GitHub; the answer of Init carries Repository.GetGitCommitsURL() *)
| GitHub_Init (owner name : string)
| GetGitHubTenantCredential (event : RunnerEvent)
(* crypto/rsa *)
| GenerateKey
(* facades.AzureDevOps *)
| InitForCRUD (dotFiles : Files) (labels : slice string) (token url : string)
| InitForRun (dotFiles : Files) (labels : slice string)
| RefreshForRun (dotFiles : ptr Files)
| InitAzureDevOpsTaskAgentSession
| DeinitAzureDevOpsTaskAgentSession
| DeleteAgent
| GetMessage (lastMessageId : ptr Z)
| DeleteMessage (messageId : Z)
| UpdateAgentRequest (requestId : ptr Z) (orchestrationId : string)
| InitAzureDevOpsTaskClient (plan : ptr TaskOrchestrationPlanReference)
    (timeline : ptr TimelineReference) (endpoints : list ServiceEndpoint)
| UpdateRecord (timelineRecords : list TimelineRecord)
| RaisePlanEvent (eventData : JobEvent)
(* metrics *)
| IncGitHubActionsEventCounter (namespace runner type : string)
(* the channel loopClose: nil or closed? close it *)
| IsClosed
| CloseLoop
(* w.invalid = true, w.listening = b *)
| SetInvalid
| SetListening (b : bool)
(* w.jobRequests <- struct{}{}, once there is room *)
| SendJobRequest
(* w.operatorNotifier <- event, which panics when the channel is closed *)
| SendEvent.

Definition wire_ans (o : wire_op) : Type :=
  match o with
  | GitHub_Init _ _ => attempt string
  | GetGitHubTenantCredential _ => attempt (string * string)
  | GenerateKey => result PrivateKey
  | InitForCRUD _ _ _ _ | InitForRun _ _ => attempt unit * Files
  | GetMessage _ => attempt (ptr TaskAgentMessage)
  | IsClosed => bool
  | CloseLoop | SendEvent => outcome unit
  | IncGitHubActionsEventCounter _ _ _ | SetInvalid | SetListening _ | SendJobRequest => unit
  | _ => attempt unit
  end.

Canonical wire : signature := Sig wire_op wire_ans.

#[export] Instance Files_eq_dec : EqDecision Files.
Proof.
  assert (EqDecision Runner) by solve_decision.
  assert (EqDecision CredentialsData) by solve_decision.
  assert (EqDecision Credentials) by solve_decision.
  assert (EqDecision RSAParameters) by solve_decision.
  solve_decision.
Defined.
#[export] Instance wire_op_eq_dec : EqDecision wire_op.
Proof.
  assert (EqDecision RunnerEvent) by solve_decision.
  assert (EqDecision Issue) by solve_decision.
  assert (EqDecision TimelineRecord) by solve_decision.
  assert (EqDecision JobEvent) by solve_decision.
  solve_decision.
Defined.
#[export] Instance wire_eq_dec : EqDecision (sop wire) := wire_op_eq_dec.

(** [k8s.io/utils/strings.ShortenString] *)
Class StringsLib : Type := { ShortenString : string -> Z -> string }.

Section wires.
Context {T : K8sTypes} {L : K8sLib} `{J : GoJQ} `{JL : JobLib} `{SL : StringsLib}.

(** The fields of a [Wire] that its creator works on before sharing it.  The
    channel [jobRequests] is made or not.  The facades fill the dot files they
    are given in place: their answer carries the dot files as they are then. *)
Record Wire : Type := mkWire {
  w_actionsRunner : ActionsRunner;
  w_DotFiles : ptr Files;
  w_jobRequests : bool;
  w_invalid : bool;
  w_validator : ptr PolicyValidator;
}.

Definition set_DotFiles (w : Wire) (d : ptr Files) : Wire :=
  mkWire (w_actionsRunner w) d (w_jobRequests w) (w_invalid w) (w_validator w).
Definition set_invalid (w : Wire) : Wire :=
  mkWire (w_actionsRunner w) (w_DotFiles w) (w_jobRequests w) true (w_validator w).
(** [if w.jobRequests == nil { make }; if w.validator == nil { New } ] *)
Definition set_ready (w : Wire) : Wire :=
  mkWire (w_actionsRunner w) (w_DotFiles w) true (w_invalid w)
    (Some (default NewPolicyValidator (w_validator w))).

(** [w.DotFiles.Runner.GitHubUrl = url], [... .ServerUrl = url] *)
Definition set_Runner (d : Files) (f : Runner -> Runner) : Files :=
  mkFiles (f (files_Runner d)) (files_Credentials d) (files_RSAParameters d).
Definition set_GitHubUrl (d : Files) (url : string) : Files :=
  set_Runner d (fun r => mkRunner (AgentId r) (AgentName r) (SkipSessionRecover r) (PoolId r)
    (PoolName r) (DisableUpdate r) (Ephemeral r) (ServerUrl r) url (WorkFolder r)
    (MonitorSocketAddress r) (IsHostedServer r)).
Definition set_ServerUrl (d : Files) (url : string) : Files :=
  set_Runner d (fun r => mkRunner (AgentId r) (AgentName r) (SkipSessionRecover r) (PoolId r)
    (PoolName r) (DisableUpdate r) (Ephemeral r) url (GitHubUrl r) (WorkFolder r)
    (MonitorSocketAddress r) (IsHostedServer r)).

#[local] Abbreviation method A := (Method.method wire Wire A).

(** A dereference of [w.DotFiles]. *)
Definition withDotFiles {A} (k : Files -> method A) : method A := fun w =>
  match w_DotFiles w with
  | None => Ret (Panicked nil_dereference, w)
  | Some d => k d w
  end.

Definition GetRunnerName (ar : ActionsRunner) : string :=
  Namespace (ar_ObjectMeta ar) ++ "/" ++ Name (ar_ObjectMeta ar).

(** ** Initialising and destroying *)

Definition repository (w : Wire) : ActionsRunnerRepository := Repository (Spec (w_actionsRunner w)).
Definition labels (w : Wire) : slice string := spec_Labels (Spec (w_actionsRunner w)).

Definition initGH : method unit := fun w =>
  andThen (calling (call (GitHub_Init (Owner (repository w)) (repo_Name (repository w)))))
    (fun url => withDotFiles (fun d => modify (fun w => set_DotFiles w (Some (set_GitHubUrl d url))))) w.

Definition initADO (runnerEvent : RunnerEvent) : method unit :=
  andThen (calling (call (GetGitHubTenantCredential runnerEvent))) (fun credential =>
    withDotFiles (fun d w =>
      let d := set_ServerUrl d credential.2 in
      let! r := call (InitForCRUD d (labels w) credential.1 credential.2) in
      Ret (r.1, set_DotFiles w (Some r.2)))).

Definition initDotFiles : method unit := fun w =>
  match w_DotFiles w with
  | Some _ => Ret (Done (Ok tt), w)
  | None =>
      let! key := call GenerateKey in
      match NewRSAParameters key with
      | Panicked e => Ret (Panicked e, w)
      | Done (Err e) => Ret (Done (Err e), w)
      | Done (Ok dotRSAParameters) =>
          let ar := w_actionsRunner w in
          let name := "KA " ++ Namespace (ar_ObjectMeta ar) ++ " " ++ Name (ar_ObjectMeta ar) in
          Ret (Done (Ok tt), set_DotFiles w (Some (mkFiles
            (mkRunner 0 (ShortenString name 64) false 1 "Default" true false "" "" "_work" "" false)
            (mkCredentials "OAuth" (mkCredentialsData "" "" "" ""))
            dotRSAParameters)))
      end
  end.

Definition init : method unit :=
  andThen initDotFiles (fun _ =>
  andThen initGH (fun _ =>
  andThen (initADO RunnerEventRegister) (fun _ =>
  andThen (withDotFiles (fun d w =>
    let! r := call (InitForRun d (labels w)) in
    Ret (r.1, set_DotFiles w (Some r.2)))) (fun _ =>
  andThen (calling (call InitAzureDevOpsTaskAgentSession)) (fun _ =>
  andThen (calling (call DeinitAzureDevOpsTaskAgentSession)) (fun _ =>
  modify set_ready)))))).

Definition Destroy : method unit :=
  andThen initGH (fun _ =>
  andThen (initADO RunnerEventRemove) (fun _ =>
  calling (call DeleteAgent))).

(** [Close]: the test and the close of the channel are two operations. *)
Definition Close : prog wire (attempt unit) :=
  let! closed := call IsClosed in
  if closed then call DeinitAzureDevOpsTaskAgentSession
  else
    let! r := call CloseLoop in
    match r with
    | Panicked e => Ret (Panicked e)
    | Done _ => call DeinitAzureDevOpsTaskAgentSession
    end.

(** [Init]: a failed initialisation is undone as far as possible, and the wire
    is marked invalid; the errors of the undoing are only logged. *)
Definition Init : method unit := fun w =>
  let! r := init w in
  match r.1 with
  | Panicked e => Ret (Panicked e, r.2)
  | Done (Ok _) => Ret (Done (Ok tt), r.2)
  | Done (Err err) =>
      let! r := Destroy r.2 in
      match r.1 with
      | Panicked e => Ret (Panicked e, r.2)
      | Done _ =>
          let! c := Close in
          match c with
          | Panicked e => Ret (Panicked e, r.2)
          | Done _ => Ret (Done (Err err), set_invalid r.2)
          end
      end
  end.

(** ** Policy violations *)

Definition issuesForViolatedRule (violatedRule : ptr ActionsRunnerPolicyRule)
    : result (list Issue) :=
  match violatedRule with
  | None => Err (ENew "violatedRule == nil")
  | Some rule =>
      Ok [mkIssue IssueTypeError
            ("This job was not allowed to run because it violated a runner policy: " ++ rule)]
  end.

Definition countIssues (t : IssueType) (issues : list Issue) : Z :=
  Z.of_nat (length (filter (fun i => issue_Type i = t) issues)).

Definition timelineRecordsForViolatedRule (ar : ActionsRunner)
    (pajr : ptr PipelineAgentJobRequest) (violatedRule : ptr ActionsRunnerPolicyRule)
    : result (list TimelineRecord) :=
  match pajr with
  | None => Err (ENew "pajr == nil")
  | Some pajr =>
      let? issues := issuesForViolatedRule violatedRule in
      Ok [mkTimelineRecord "Job" (pajr_JobId pajr) (pajr_JobName pajr) (pajr_JobDisplayName pajr)
            "completed" "failed" (GetRunnerName ar) issues
            (countIssues IssueTypeError issues) (countIssues IssueTypeWarning issues)]
  end.

Definition onPolicyViolation (ar : ActionsRunner) (pajr : ptr PipelineAgentJobRequest)
    (violatedRule : ptr ActionsRunnerPolicyRule) : prog wire (attempt unit) :=
  let fail msg := Ret (Done (Err (ENew msg))) in
  match violatedRule, pajr with
  | None, _ => fail "violatedRule == nil"
  | _, None => fail "pajr == nil"
  | Some rule, Some p =>
      match pajr_JobId p, pajr_RequestId p, pajr_Resources p with
      | None, _, _ => fail "pajr.JobId == nil"
      | _, None, _ => fail "pajr.RequestId == nil"
      | _, _, None => fail "pajr.Resources == nil"
      | Some _, Some _, Some resources =>
          match Endpoints resources with
          | None => fail "pajr.Resources.Endpoints == nil"
          | Some endpoints =>
              match timelineRecordsForViolatedRule ar pajr violatedRule with
              | Err e => Ret (Done (Err e))
              | Ok timelineRecords =>
                  match GetOrchestrationId endpoints with
                  | Err e => Ret (Done (Err e))
                  | Ok orchestrationId =>
                      let!? _ := call (UpdateAgentRequest (pajr_RequestId p) orchestrationId) in
                      let!? _ := call (InitAzureDevOpsTaskClient (pajr_Plan p) (pajr_Timeline p)
                                         endpoints) in
                      let!? _ := call (UpdateRecord timelineRecords) in
                      call (RaisePlanEvent
                        (mkJobEvent "JobCompleted" (pajr_JobId p) (pajr_RequestId p) "failed"))
                  end
              end
          end
      end
  end.

(** ** The listener *)

(** How the message loop ends without a panic; [OutOfFuel] stands for a loop
    that is still going after as many messages as the fuel counts. *)
Inductive loop_end : Type := Stopped | OutOfFuel.

(** What happens to a message that is not an accepted job request. *)
Definition acknowledge (message : Message) : prog wire (outcome unit) :=
  let!! _ := call (DeleteMessage (msg_Id message)) in
  if bool_decide (msg_Type message = MessageTypeAgentRefresh) then
    let!! _ := call DeleteAgent in Ret (Done tt)
  else Ret (Done tt).

(** A message's fate: [true] when it is a job request that has been handed over,
    and then the loop ends. *)
Definition handleMessage (ar : ActionsRunner) (pv : PolicyValidator) (message : Message)
    : prog wire (outcome (bool * PolicyValidator)) :=
  let ack pv :=
    let! r := acknowledge message in
    Ret (match r with Done _ => Done (false, pv) | Panicked e => Panicked e end) in
  let! _ := call (IncGitHubActionsEventCounter (Namespace (ar_ObjectMeta ar)) (GetRunnerName ar)
                    (msg_Type message)) in
  if bool_decide (msg_Type message = MessageTypePipelineAgentJobRequest) then
    match toPipelineAgentJobRequest (Some message) with
    | Err e => Ret (Panicked e)
    | Ok pajr =>
        match Validate pv (Policy (Spec ar)) (pajr_ContextData pajr) with
        | Panicked e => Ret (Panicked e)
        | Done (Err e, _) => Ret (Panicked e)
        | Done (Ok None, pv) =>
            let! _ := call SendJobRequest in
            let! r := call SendEvent in
            Ret (match r with Done _ => Done (true, pv) | Panicked e => Panicked e end)
        | Done (Ok (Some violatedRule), pv) =>
            let! r := onPolicyViolation ar (Some pajr) (Some violatedRule) in
            match r with
            | Panicked e => Ret (Panicked e)
            | Done _ => ack pv
            end
        end
    end
  else ack pv.

Fixpoint messageLoop (fuel : nat) (ar : ActionsRunner) (dotFiles : ptr Files)
    (pv : PolicyValidator) (lastMessageId : ptr Z) : prog wire (outcome loop_end) :=
  match fuel with
  | O => Ret (Done OutOfFuel)
  | S fuel =>
      let! closed := call IsClosed in
      if closed then Ret (Done Stopped)
      else
        let!! _ := call (RefreshForRun dotFiles) in
        let!! taMessage := call (GetMessage lastMessageId) in
        match taMessage with
        | None => messageLoop fuel ar dotFiles pv lastMessageId
        | Some taMessage =>
            match toMessage taMessage with
            | Panicked e => Ret (Panicked e)
            | Done (Err e) => Ret (Panicked e)
            | Done (Ok message) =>
                let! r := handleMessage ar pv message in
                match r with
                | Panicked e => Ret (Panicked e)
                | Done (true, _) => Ret (Done Stopped)
                | Done (false, pv) =>
                    messageLoop fuel ar dotFiles pv (ta_MessageId taMessage)
                end
            end
        end
  end.

(** The body of the goroutine, before its deferred function. *)
Definition listenBody (fuel : nat) (ar : ActionsRunner) (dotFiles : ptr Files)
    (pv : PolicyValidator) : prog wire (outcome loop_end) :=
  let gone e := let! _ := call SetInvalid in Ret (Panicked e) in
  let! r := call (RefreshForRun dotFiles) in
  match r with
  | Panicked e => Ret (Panicked e)
  | Done (Err e) => gone e
  | Done (Ok _) =>
      let! r := call InitAzureDevOpsTaskAgentSession in
      match r with
      | Panicked e => Ret (Panicked e)
      | Done (Err e) => gone e
      | Done (Ok _) => messageLoop fuel ar dotFiles pv None
      end
  end.

(** [trySendEvent]: a panic of the send becomes an error. *)
Definition trySendEvent : prog wire (result unit) :=
  let! r := call SendEvent in
  Ret (match r with Done _ => Ok tt | Panicked e => Err e end).

(** The goroutine of [Listen]: whatever the body does, the deferred function
    runs, and recovers from a panic of the body (but not from one of its own
    [Close], which would end the process: [Panicked]).  A loop that is still
    going has not reached its deferred function. *)
Definition listener (fuel : nat) (ar : ActionsRunner) (dotFiles : ptr Files)
    (pv : PolicyValidator) : prog wire (outcome loop_end) :=
  let! body := listenBody fuel ar dotFiles pv in
  match body with
  | Done OutOfFuel => Ret (Done OutOfFuel)
  | _ =>
      let! _ := call (SetListening false) in
      let! r := Close in
      match r, body with
      | Panicked e, _ => Ret (Panicked e)
      | Done _, Panicked _ => let! _ := trySendEvent in Ret (Done Stopped)
      | Done _, Done e => Ret (Done e)
      end
  end.
End wires.

(** ** Reading traces *)

(** The error an operation answered, if any. *)
Definition failure (ev : event wire) : goerr :=
  match ev_op ev as o return wire_ans o -> goerr with
  | GenerateKey => fun r => err_of r
  | InitForCRUD _ _ _ _ | InitForRun _ _ => fun r => attempt_err r.1
  | IsClosed | CloseLoop | SendEvent | IncGitHubActionsEventCounter _ _ _
  | SetInvalid | SetListening _ | SendJobRequest => fun _ => None
  | GitHub_Init _ _ => fun r => attempt_err r
  | GetGitHubTenantCredential _ => fun r => attempt_err r
  | GetMessage _ => fun r => attempt_err r
  | RefreshForRun _ | InitAzureDevOpsTaskAgentSession | DeinitAzureDevOpsTaskAgentSession
  | DeleteAgent | DeleteMessage _ | UpdateAgentRequest _ _ | InitAzureDevOpsTaskClient _ _ _
  | UpdateRecord _ | RaisePlanEvent _ => fun r => attempt_err r
  end (ev_ans ev).

(** The panic an operation ended in, if any. *)
Definition panic (ev : event wire) : goerr :=
  match ev_op ev as o return wire_ans o -> goerr with
  | InitForCRUD _ _ _ _ | InitForRun _ _ => fun r => attempt_panic r.1
  | GenerateKey | IsClosed | IncGitHubActionsEventCounter _ _ _
  | SetInvalid | SetListening _ | SendJobRequest => fun _ => None
  | CloseLoop | SendEvent => fun r => attempt_panic r
  | GitHub_Init _ _ => fun r => attempt_panic r
  | GetGitHubTenantCredential _ => fun r => attempt_panic r
  | GetMessage _ => fun r => attempt_panic r
  | RefreshForRun _ | InitAzureDevOpsTaskAgentSession | DeinitAzureDevOpsTaskAgentSession
  | DeleteAgent | DeleteMessage _ | UpdateAgentRequest _ _ | InitAzureDevOpsTaskClient _ _ _
  | UpdateRecord _ | RaisePlanEvent _ => fun r => attempt_panic r
  end (ev_ans ev).

(** ** Initialising *)

Section initialising.
Context {T : K8sTypes} {L : K8sLib} `{J : GoJQ} `{JL : JobLib} `{SL : StringsLib}.
#[local] Abbreviation method A := (Method.method wire Wire A).

(** How a sequence of operations makes a method end: with the only error any of
    them answered; with the only panic of any of them, which is the last thing
    to happen; or with one of the method's own panics. *)
Definition outcome_of {A} (own : error -> Prop) (tr : trace wire) (o : attempt A) : Prop :=
  match o with
  | Done (Ok _) => omap failure tr = [] /\ omap panic tr = []
  | Done (Err e) => omap failure tr = [e] /\ omap panic tr = []
  | Panicked e => omap failure tr = [] /\ (omap panic tr = [e] \/ (omap panic tr = [] /\ own e))
  end.

(** Dereferencing missing dot files, and indexing the primes of a bad key. *)
Definition own_panic (w : Wire) (tr : trace wire) (e : error) : Prop :=
  (w_DotFiles w = None /\ e = nil_dereference) \/
  exists key, answered tr GenerateKey (Ok key) /\ (length (key_Primes key) < 2)%nat.

(** What every method below keeps to. *)
Definition honest {A} (m : method A) : Prop := forall w,
  always (m w) (fun tr r =>
    outcome_of (own_panic w tr) tr r.1 /\
    w_invalid r.2 = w_invalid w /\ w_actionsRunner r.2 = w_actionsRunner w /\
    (is_Some (w_DotFiles w) -> is_Some (w_DotFiles r.2))).

Lemma outcome_app {A} w w1 tr tr1 (o : attempt A) :
  omap failure tr = [] -> omap panic tr = [] ->
  (is_Some (w_DotFiles w) -> is_Some (w_DotFiles w1)) ->
  outcome_of (own_panic w1 tr1) tr1 o -> outcome_of (own_panic w (tr ++ tr1)) (tr ++ tr1)%list o.
Proof.
  unfold outcome_of, own_panic. intros Hf Hp Hd. rewrite !omap_app, Hf, Hp.
  destruct o as [[a|e]|e]; [done..|]. cbn. intros [H1 H2]. split; [done|].
  destruct H2 as [H2|(H2 & [[H3 H4]|(key & H3 & H4)])]; [by left| |]; right; (split; [done|]).
  - left. split; [|done]. rewrite <- not_eq_None_Some in Hd.
    destruct (w_DotFiles w); [|done]. rewrite H3 in Hd. destruct Hd; [done|].
    match goal with H : _ = Some _ |- _ => discriminate H end.
  - right. exists key. split; [|done]. unfold answered in *. set_solver.
Qed.

Lemma honest_andThen {A B} (m : method A) (k : A -> method B) :
  honest m -> (forall a, honest (k a)) -> honest (andThen m k).
Proof.
  intros Hm Hk w. apply always_andThen. eapply always_mono; [apply Hm|].
  intros tr [[[a|e]|e] w1] (Ho & Hi & Ha & Hd); cbn in *; [|done..].
  eapply always_mono; [apply Hk|]. intros tr' [o w2] (Ho' & Hi' & Ha' & Hd'); cbn in *.
  destruct Ho as [Hf Hp]. split_and!; [by eapply outcome_app|congruence|congruence|auto].
Qed.

(** A call whose answer is the outcome. *)
Lemma honest_calling {A} (p : prog wire (attempt A)) :
  always p (fun tr o => outcome_of (fun _ => False) tr o) -> honest (calling p).
Proof.
  intros Hp w. unfold calling. apply always_bind. eapply always_mono; [exact Hp|].
  intros tr o Ho. cbn. rewrite app_nil_r. split; [|done].
  destruct o as [[a|e]|e]; cbn in *; [done..|]. destruct Ho as [H1 H2]. split; [done|].
  destruct H2 as [H2|[_ []]]. by left.
Qed.

Ltac leaf := cbn; intros [[?|?]|?]; cbn; auto.

Lemma honest_withDotFiles {A} (k : Files -> method A) :
  (forall d, honest (k d)) -> honest (withDotFiles k).
Proof.
  intros Hk w. unfold withDotFiles. destruct (w_DotFiles w) as [d|] eqn:Hd; [rewrite <- Hd; apply Hk|].
  cbn. split_and!; try done. right. split; [done|]. by left.
Qed.

Lemma honest_initGH : honest initGH.
Proof.
  intros w. unfold initGH. apply (honest_andThen (calling _)).
  - apply honest_calling. leaf.
  - intros url. apply honest_withDotFiles. intros d w'. cbn. split_and!; [done..|by eexists].
Qed.

Lemma honest_initADO ev : honest (initADO ev).
Proof.
  apply honest_andThen.
  - apply honest_calling. leaf.
  - intros c. apply honest_withDotFiles. intros d w. cbn. intros r. split_and!; [|done|done|by eexists].
    destruct r as [[[[]|e]|e] d']; cbn; auto.
Qed.

Lemma honest_initDotFiles : honest initDotFiles.
Proof.
  intros w. unfold initDotFiles. destruct (w_DotFiles w) eqn:Hd; [cbn; rewrite Hd; eauto|].
  cbn [bind call always]. intros key.
  assert (forall P : Prop, is_Some (w_DotFiles w) -> P) as Hno by (intros P [? ?]; congruence).
  destruct key as [key|e]; [|by (cbn; split_and!; auto)].
  destruct (key_Primes key) as [|p [|q ps]] eqn:Hp; cbn -[NewRSAParameters]; unfold NewRSAParameters;
    rewrite Hp; cbn; [| |by eauto 8].
  all: split; [|by auto]; split; [done|]; right; split; [done|]; right; exists key;
    split; [apply answered_here | rewrite Hp; cbn; lia].
Qed.

Lemma honest_Destroy : honest Destroy.
Proof.
  apply honest_andThen; [apply honest_initGH|]. intros _.
  apply honest_andThen; [apply honest_initADO|]. intros _. apply honest_calling. leaf.
Qed.

(** After [initDotFiles], the rest of [init]. *)
Definition initFacades : method unit :=
  andThen initGH (fun _ =>
  andThen (initADO RunnerEventRegister) (fun _ =>
  andThen (withDotFiles (fun d w =>
    let! r := call (InitForRun d (labels w)) in
    Ret (r.1, set_DotFiles w (Some r.2)))) (fun _ =>
  andThen (calling (call InitAzureDevOpsTaskAgentSession)) (fun _ =>
  andThen (calling (call DeinitAzureDevOpsTaskAgentSession)) (fun _ =>
  modify set_ready))))).

Lemma honest_initFacades : honest initFacades.
Proof.
  repeat (apply honest_andThen; [|intros _]).
  - apply honest_initGH.
  - apply honest_initADO.
  - apply honest_withDotFiles. intros d w. cbn. intros r. split_and!; [|done|done|by eexists].
    destruct r as [[[[]|e]|e] d']; cbn; auto.
  - apply honest_calling. leaf.
  - apply honest_calling. leaf.
  - intros w. cbn. auto.
Qed.

Lemma honest_init : honest init.
Proof. apply (honest_andThen _ _ honest_initDotFiles). intros _. apply honest_initFacades. Qed.

Lemma Close_spec :
  always Close (fun tr o =>
    outcome_of (fun _ => False) tr o /\
    Forall (fun o => o ∈ [IsClosed; CloseLoop; DeinitAzureDevOpsTaskAgentSession]) (ops tr) /\
    match o with
    | Panicked e => answered tr CloseLoop (Panicked e) \/
                    answered tr DeinitAzureDevOpsTaskAgentSession (Panicked e)
    | Done _ => DeinitAzureDevOpsTaskAgentSession ∈ ops tr
    end).
Proof.
  unfold Close. cbn. intros []; [|intros [[]|e]]; cbn; try intros [[?|?]|?]; cbn.
  all: split_and!; auto; try (repeat constructor; set_solver); try set_solver.
  all: first [left; solve [find_event] | right; solve [find_event]].
Qed.

Definition bad_key (tr : trace wire) : Prop :=
  exists key, answered tr GenerateKey (Ok key) /\ (length (key_Primes key) < 2)%nat.

Lemma outcome_mono {A} (own own' : error -> Prop) tr (o : attempt A) :
  (forall e, own e -> own' e) -> outcome_of own tr o -> outcome_of own' tr o.
Proof. destruct o as [[a|e]|e]; cbn; naive_solver. Qed.

(** With its dot files made first, [init] dereferences nothing missing. *)
Lemma initFacades_spec w tr1 :
  is_Some (w_DotFiles w) -> omap failure tr1 = [] -> omap panic tr1 = [] ->
  always (initFacades w) (fun tr r =>
    outcome_of (fun _ => bad_key (tr1 ++ tr)) (tr1 ++ tr)%list r.1 /\
    w_invalid r.2 = w_invalid w /\ w_actionsRunner r.2 = w_actionsRunner w /\
    is_Some (w_DotFiles r.2)).
Proof.
  intros Hs Hf Hp. eapply always_mono; [apply honest_initFacades|].
  intros tr [o w2] (Ho & Hi2 & Ha2 & Hd); cbn in *. split_and!; auto.
  apply (outcome_app w w) with (tr := tr1) in Ho; [|done..].
  eapply outcome_mono; [|exact Ho]. intros e [[Hn _]|Hk]; [|done].
  destruct Hs as [? Hs]. congruence.
Qed.

Lemma init_spec w :
  always (init w) (fun tr r =>
    outcome_of (fun _ => bad_key tr) tr r.1 /\
    w_invalid r.2 = w_invalid w /\ w_actionsRunner r.2 = w_actionsRunner w /\
    (forall e, r.1 = Done (Err e) -> w_DotFiles r.2 = None ->
       w_DotFiles w = None /\ exists e, answered tr GenerateKey (Err e))).
Proof.
  unfold init. apply always_andThen. fold initFacades. unfold initDotFiles.
  destruct (w_DotFiles w) as [d|] eqn:Hd; cbn [bind call always].
  { cbn [fst snd]. eapply always_mono; [apply (initFacades_spec w []); [rewrite Hd; by eexists|done..]|].
    intros tr r (Ho & Hi & Ha & [? Hs]). split_and!; [done..|congruence]. }
  intros key. destruct key as [key|e]; cbn [NewRSAParameters].
  2: { cbn. split_and!; auto. intros _ _ _. split; [done|]. exists e. apply answered_here. }
  assert ((length (key_Primes key) < 2)%nat -> bad_key [GenerateKey ↝ Ok key]) as Hkey.
  { intros H. exists key. split; [apply answered_here|done]. }
  destruct (key_Primes key) as [|p [|q ps]] eqn:Hp; cbn [always fst snd].
  1,2: split; [cbn; split; [done|]; right; split; [done|]; apply Hkey; cbn; lia|]; by split_and!.
  eapply always_mono; [apply (initFacades_spec _ [GenerateKey ↝ Ok key]); [by eexists|done..]|].
  intros tr r (Ho & Hi & Ha & [? Hs]). split_and!; [done..|congruence].
Qed.

(** What the steps of a successful initialisation did. *)
Lemma initGH_ok w tr a w' :
  runs (initGH w) tr (Done (Ok a), w') ->
  ops tr = [GitHub_Init (Owner (repository w)) (repo_Name (repository w))] /\
  w_validator w' = w_validator w /\ w_jobRequests w' = w_jobRequests w /\
  w_actionsRunner w' = w_actionsRunner w.
Proof.
  unfold initGH. intros (tr1 & url & w1 & tr2 & -> & H1 & H2)%runs_andThen_ok.
  apply runs_calling_ok in H1 as [H1 ->]; apply (runs_call (GitHub_Init _ _)) in H1.
  unfold withDotFiles in H2. destruct (w_DotFiles w); destruct H2 as [-> H2]; [|done].
  injection H2 as -> ->. rewrite app_nil_r. done.
Qed.

Lemma initADO_ok ev w tr a w' :
  runs (initADO ev w) tr (Done (Ok a), w') ->
  (exists d token url,
     ops tr = [GetGitHubTenantCredential ev; InitForCRUD d (labels w) token url]) /\
  w_validator w' = w_validator w /\ w_jobRequests w' = w_jobRequests w /\
  w_actionsRunner w' = w_actionsRunner w.
Proof.
  unfold initADO. intros (tr1 & c & w1 & tr2 & -> & H1 & H2)%runs_andThen_ok.
  apply runs_calling_ok in H1 as [H1 ->]; apply (runs_call (GetGitHubTenantCredential _)) in H1.
  unfold withDotFiles in H2. destruct (w_DotFiles w); [|by destruct H2 as [_ H2]].
  destruct H2 as ([r d] & tr' & -> & -> & H2). injection H2 as <- ->.
  rewrite ops_app, H1. split; [|done]. by eexists _, _, _.
Qed.

Lemma initFacades_ok w tr a w' :
  runs (initFacades w) tr (Done (Ok a), w') ->
  w_jobRequests w' = true /\ is_Some (w_validator w') /\
  exists d token url d', ops tr =
    [GitHub_Init (Owner (repository w)) (repo_Name (repository w));
     GetGitHubTenantCredential RunnerEventRegister; InitForCRUD d (labels w) token url;
     InitForRun d' (labels w); InitAzureDevOpsTaskAgentSession;
     DeinitAzureDevOpsTaskAgentSession].
Proof.
  unfold initFacades.
  intros (tr1 & ? & w1 & tr1' & -> & H1 & H)%runs_andThen_ok.
  apply initGH_ok in H1 as (Hops1 & _ & _ & Har1).
  apply runs_andThen_ok in H as (tr2 & ? & w2 & tr2' & -> & H2 & H).
  apply initADO_ok in H2 as ((d & token & url & Hops2) & _ & _ & Har2).
  apply runs_andThen_ok in H as (tr3 & ? & w3 & tr3' & -> & H3 & H).
  apply runs_andThen_ok in H as (tr4 & ? & w4 & tr4' & -> & H4 & H).
  apply runs_calling_ok in H4 as [H4 ->]; apply (runs_call InitAzureDevOpsTaskAgentSession) in H4.
  apply runs_andThen_ok in H as (tr5 & ? & w5 & tr5' & -> & H5 & H).
  apply runs_calling_ok in H5 as [H5 ->]; apply (runs_call DeinitAzureDevOpsTaskAgentSession) in H5.
  destruct H as [-> H]. injection H as -> ->.
  unfold withDotFiles in H3. destruct (w_DotFiles w2); [|by destruct H3 as [_ H3]].
  destruct H3 as ([r d'] & tr' & -> & -> & H3). injection H3 as <- ->.
  split; [done|]. split; [by eexists|].
  rewrite !ops_app, Hops1, Hops2, H4, H5. unfold labels in *. rewrite Har2, Har1. by eexists _, _, _, _.
Qed.

(** Only when it has succeeded does [Init] end with [init]. *)
Lemma Init_ok w tr w' :
  runs (Init w) tr (Done (Ok tt), w') -> runs (init w) tr (Done (Ok tt), w').
Proof.
  intros (t1 & [o w1] & t2 & -> & Hinit & H)%runs_bind. cbn [fst snd] in H.
  destruct o as [[[]|e]|e]; [by destruct H as [-> [= ->]]; rewrite app_nil_r| |by destruct H].
  apply runs_bind in H as (t3 & [o w2] & t4 & _ & _ & H). cbn [fst snd] in H.
  destruct o as [o|e']; [|by destruct H].
  apply runs_bind in H as (t5 & [o'|e'] & t6 & _ & _ & H); by destruct H.
Qed.

(** What a successful [init] has done. *)
Lemma init_succeeds w tr w1 :
  runs (init w) tr (Done (Ok tt), w1) ->
  is_Some (w_DotFiles w1) /\ w_jobRequests w1 = true /\ is_Some (w_validator w1) /\
  exists keys d token url d',
    ops tr = (keys ++
      [GitHub_Init (Owner (repository w)) (repo_Name (repository w));
       GetGitHubTenantCredential RunnerEventRegister; InitForCRUD d (labels w) token url;
       InitForRun d' (labels w); InitAzureDevOpsTaskAgentSession;
       DeinitAzureDevOpsTaskAgentSession])%list /\
    keys = (if w_DotFiles w then [] else [GenerateKey]).
Proof.
  intros (keys & [] & w2 & tr' & -> & Hk & Hrun)%runs_andThen_ok.
  assert (is_Some (w_DotFiles w2) /\ w_actionsRunner w2 = w_actionsRunner w /\
    ops keys = (if w_DotFiles w then [] else [GenerateKey])) as (Hs & Har & Hkeys).
  { unfold initDotFiles in Hk. destruct (w_DotFiles w) eqn:Hd.
    - destruct Hk as [-> [= ->]]. by rewrite Hd.
    - destruct Hk as (key & tr & -> & Hk). cbn [bind call] in Hk.
      destruct (NewRSAParameters key) as [[ps|e]|e]; destruct Hk as [-> Hk]; simplify_eq.
      split; [by eexists|done]. }
  change (runs (initFacades w2) tr' (Done (Ok tt), w1)) in Hrun.
  pose proof (runs_always _ _ _ _ (honest_initFacades w2) Hrun) as (_ & _ & _ & Hd).
  apply initFacades_ok in Hrun as (Hj & Hv & d & token & url & d' & Hops).
  split_and!; [auto|done|done|]. exists (ops keys), d, token, url, d'.
  rewrite ops_app, Hops. unfold repository, labels. by rewrite Har.
Qed.

(** A [Destroy] that succeeds has deleted the agent. *)
Lemma Destroy_deletes w tr w' : runs (Destroy w) tr (Done (Ok tt), w') -> DeleteAgent ∈ ops tr.
Proof.
  intros (? & ? & ? & ? & -> & _ & H)%runs_andThen_ok.
  apply runs_andThen_ok in H as (? & ? & ? & ? & -> & _ & H).
  apply runs_calling_ok in H as [H _]; apply (runs_call DeleteAgent) in H. rewrite !ops_app, H. set_solver.
Qed.

(** [C23] Initialising a wire, whatever GitHub and Azure DevOps answer.  When it
    succeeds, no operation failed: the runner was registered, a session was
    opened and closed again, and the dot files, the request channel and the
    validator are there.  When it returns an error, that is the first one any
    operation answered, the wire is invalid and its session is closed; its agent
    was deleted unless the undoing failed too.  It panics only as one of the
    facades does, on a key with fewer than two primes, or, once the key could
    not be generated at all, on the missing dot files. *)
Theorem Init_undoes w tr out w' :
  runs (Init w) tr (out, w') ->
  w_actionsRunner w' = w_actionsRunner w /\
  match out with
  | Done (Ok _) =>
      omap failure tr = [] /\ w_invalid w' = w_invalid w /\ is_Some (w_DotFiles w') /\
      w_jobRequests w' = true /\ is_Some (w_validator w') /\
      exists keys d token url d',
        ops tr = (keys ++
          [GitHub_Init (Owner (repository w)) (repo_Name (repository w));
           GetGitHubTenantCredential RunnerEventRegister; InitForCRUD d (labels w) token url;
           InitForRun d' (labels w); InitAzureDevOpsTaskAgentSession;
           DeinitAzureDevOpsTaskAgentSession])%list /\
        keys = (if w_DotFiles w then [] else [GenerateKey])
  | Done (Err e) =>
      head (omap failure tr) = Some e /\ w_invalid w' = true /\
      DeinitAzureDevOpsTaskAgentSession ∈ ops tr /\
      (DeleteAgent ∈ ops tr \/ (2 <= length (omap failure tr))%nat)
  | Panicked e =>
      omap panic tr = [e] \/ bad_key tr \/
      (w_DotFiles w = None /\ (exists e, answered tr GenerateKey (Err e)) /\ e = nil_dereference)
  end.
Proof.
  intros (tr1 & [o1 w1] & tr2 & -> & H1 & H2)%runs_bind.
  pose proof (runs_always _ _ _ _ (init_spec w) H1) as (Ho1 & Hi1 & Ha1 & Hd1). cbn [fst snd] in *.
  destruct o1 as [[[]|e]|e].
  - destruct H2 as [-> [= -> ->]]. rewrite app_nil_r. destruct Ho1 as [Hf _].
    split; [done|]. split; [done|]. split; [done|].
    by apply init_succeeds.
  - destruct Ho1 as [Hf1 Hp1].
    apply runs_bind in H2 as (trd & [o2 w2] & tr3 & -> & H2 & H3).
    pose proof (runs_always _ _ _ _ (honest_Destroy w1) H2) as (Ho2 & Hi2 & Ha2 & Hd2).
    cbn [fst snd] in *.
    destruct o2 as [r2|e2].
    + apply runs_bind in H3 as (trc & c & tr4 & -> & H3 & H4).
      pose proof (runs_always _ _ _ _ Close_spec H3) as (Ho3 & _ & Hc).
      destruct c as [rc|ec]; destruct H4 as [-> H4]; injection H4 as -> ->; rewrite app_nil_r.
      * split; [cbn; congruence|]. rewrite !omap_app, Hf1. split_and!; [done|done|set_solver|].
        destruct r2 as [[]|e2]; [|right; rewrite (proj1 Ho2); cbn; lia].
        left. apply Destroy_deletes in H2. rewrite !ops_app. set_solver.
      * split; [congruence|]. left. rewrite !omap_app, Hp1.
        assert (omap panic trd = []) as -> by by destruct r2; destruct Ho2.
        by destruct Ho3 as [_ [->|[_ []]]].
    + destruct H3 as [-> H3]. injection H3 as -> ->. rewrite app_nil_r.
      split; [congruence|]. rewrite omap_app, Hp1.
      destruct Ho2 as [_ [->|[-> [[Hn ->]|(key & Hk & ?)]]]]; [by left| |].
      * right; right. destruct (Hd1 _ eq_refl Hn) as (? & e0 & He0). split; [done|]. split; [|done].
        exists e0. unfold answered in *. set_solver.
      * right; left. exists key. split; [|done]. unfold answered in *. set_solver.
  - destruct H2 as [-> [= -> ->]]. rewrite app_nil_r. split; [done|].
    destruct Ho1 as [_ [?|[_ ?]]]; auto.
Qed.
End initialising.

(** ** Listening *)

Section listening.
Context {T : K8sTypes} {L : K8sLib} `{J : GoJQ} `{JL : JobLib} `{SL : StringsLib}.

(** The operations that report a violation. *)
Definition reporting (o : wire_op) : Prop :=
  match o with
  | UpdateAgentRequest _ _ | InitAzureDevOpsTaskClient _ _ _ | UpdateRecord _ | RaisePlanEvent _ =>
      True
  | _ => False
  end.

#[local] Arguments timelineRecordsForViolatedRule : simpl never.

(** A job that violates a rule is failed on the server: when reporting
    succeeds, its request is updated under the orchestration of its endpoints,
    a single record of the job is written, with one error that names the rule
    and no warning, and last the plan is told that the job completed as failed.
    When reporting fails, with the error of the first of these operations to
    fail, none of the later ones is performed; in particular the plan was told
    nothing, or refused to hear it. *)
Theorem onPolicyViolation_fails_job ar p rule tr out :
  runs (onPolicyViolation ar (Some p) (Some rule)) tr out ->
  Forall reporting (ops tr) /\
  match out with
  | Done (Ok _) => omap failure tr = [] /\
      exists endpoints orchestration record,
        (pajr_Resources p ≫= Endpoints) = Some endpoints /\
        GetOrchestrationId endpoints = Ok orchestration /\
        ops tr = [UpdateAgentRequest (pajr_RequestId p) orchestration;
                  InitAzureDevOpsTaskClient (pajr_Plan p) (pajr_Timeline p) endpoints;
                  UpdateRecord [record];
                  RaisePlanEvent (mkJobEvent "JobCompleted" (pajr_JobId p) (pajr_RequestId p) "failed")] /\
        tr_Id record = pajr_JobId p /\ tr_Result record = "failed" /\
        tr_ErrorCount record = 1 /\ tr_WarningCount record = 0 /\
        tr_Issues record = [mkIssue IssueTypeError
          ("This job was not allowed to run because it violated a runner policy: " ++ rule)]
  | Done (Err e) =>
      (tr = [] \/ (omap failure tr = [e] /\ (last tr ≫= failure) = Some e)) /\
      forall ev, answered tr (RaisePlanEvent ev) (Done (Ok tt)) -> False
  | Panicked e => omap panic tr = [e] /\ omap failure tr = []
  end.
Proof.
  intros Hrun. walking Hrun. unfold onPolicyViolation.
  destruct (pajr_JobId p) as [jobId|] eqn:Hj; [|cbn; split_and!; auto; set_solver].
  destruct (pajr_RequestId p) as [reqId|] eqn:Hq; [|cbn; split_and!; auto; set_solver].
  destruct (pajr_Resources p) as [resources|]; [|cbn; split_and!; auto; set_solver].
  destruct (Endpoints resources) as [endpoints|] eqn:He; [|cbn; split_and!; auto; set_solver].
  cbn [timelineRecordsForViolatedRule issuesForViolatedRule result_bind].
  unfold timelineRecordsForViolatedRule, issuesForViolatedRule. cbn [result_bind].
  destruct (GetOrchestrationId endpoints) as [orch|e] eqn:Ho; [|cbn; split_and!; auto; set_solver].
  cbn [bind call always].
  intros [[[]|?]|?]; cbn [bind call always];
    [intros [[[]|?]|?]; cbn [bind call always];
      [intros [[[]|?]|?]; cbn [bind call always];
        [intros [[[]|?]|?]; cbn [bind call always]|..]|..]|..].
  all: split; [repeat constructor|].
  all: try (split; [right; by split|]; intros ev Hev; unfold answered in Hev;
    repeat (apply elem_of_cons in Hev as [Hev|Hev];
      [first [apply (f_equal failure) in Hev; discriminate Hev
             | apply (f_equal ev_op) in Hev; discriminate Hev]|]);
    by apply not_elem_of_nil in Hev).
  all: try by split.
  split; [done|]. cbn. rewrite He. by eexists _, _, _.
Qed.

Lemma onPolicyViolation_ops ar p rule :
  always (onPolicyViolation ar p rule) (fun tr _ => Forall reporting (ops tr)).
Proof.
  unfold onPolicyViolation. walk; repeat constructor.
Qed.

#[local] Arguments onPolicyViolation : simpl never.
#[local] Arguments toPipelineAgentJobRequest : simpl never.
#[local] Arguments Validate : simpl never.

(** The message is acknowledged by [tr]: deleted once, after everything else
    but the deletion of the agent that a refresh asks for. *)
Definition acknowledged (m : Message) (tr : trace wire) : Prop :=
  exists pre rest, tr = (pre ++ (DeleteMessage (msg_Id m) ↝ Done (Ok tt)) :: rest)%list /\
    Forall (fun o => match o with IncGitHubActionsEventCounter _ _ _ => True | _ => reporting o end)
      (ops pre) /\
    ops rest = if bool_decide (msg_Type m = MessageTypeAgentRefresh) then [DeleteAgent] else [].

(** Nothing but reporting and acknowledging. *)
Definition handling (m : Message) (o : wire_op) : Prop :=
  match o with
  | IncGitHubActionsEventCounter _ _ _ | DeleteAgent => True
  | DeleteMessage id => id = msg_Id m
  | _ => reporting o
  end.

Lemma reporting_handling m l : Forall reporting l -> Forall (handling m) l.
Proof. intros H. eapply Forall_impl; [exact H|]. by intros []. Qed.

(** The fate of a message, as a property of the trace. *)
Definition fate (ar : ActionsRunner) (pv : PolicyValidator) (m : Message) (tr : trace wire)
    (out : outcome (bool * PolicyValidator)) : Prop :=
  let accepted pv' := exists pajr, toPipelineAgentJobRequest (Some m) = Ok pajr /\
    Validate pv (Policy (Spec ar)) (pajr_ContextData pajr) = Done (Ok None, pv') in
  let handover := ops tr = [IncGitHubActionsEventCounter (Namespace (ar_ObjectMeta ar))
                              (GetRunnerName ar) (msg_Type m); SendJobRequest; SendEvent] in
  match out with
  | Done (true, pv') =>
      msg_Type m = MessageTypePipelineAgentJobRequest /\ accepted pv' /\ handover /\
      exists u, answered tr SendEvent (Done u)
  | Done (false, pv') =>
      (msg_Type m = MessageTypePipelineAgentJobRequest -> exists pajr rule,
         toPipelineAgentJobRequest (Some m) = Ok pajr /\
         Validate pv (Policy (Spec ar)) (pajr_ContextData pajr) = Done (Ok (Some rule), pv')) /\
      acknowledged m tr /\ Forall (handling m) (ops tr)
  | Panicked e =>
      Forall (handling m) (ops tr) \/
      (msg_Type m = MessageTypePipelineAgentJobRequest /\ (exists pv', accepted pv') /\ handover)
  end.

Lemma acknowledge_spec m :
  always (acknowledge m) (fun tr out =>
    Forall (handling m) (ops tr) /\
    (forall u, out = Done u -> forall pre,
      Forall (fun o => match o with IncGitHubActionsEventCounter _ _ _ => True | _ => reporting o end)
        (ops pre) -> acknowledged m (pre ++ tr))).
Proof.
  unfold acknowledge, acknowledged. cbn. intros [[[]|e]|e]; cbn.
  - case_bool_decide as Ht; cbn.
    + intros [[[]|e]|e]; cbn; (split; [repeat constructor|]); try done.
      intros _ _ pre Hpre. by eexists pre, _.
    + split; [repeat constructor|]. intros _ _ pre Hpre. by exists pre, [].
  - split; [repeat constructor|done].
  - split; [repeat constructor|done].
Qed.

Lemma handleMessage_always ar pv m : always (handleMessage ar pv m) (fate ar pv m).
Proof.
  unfold handleMessage. cbn [bind call always]. intros [].
  set (inc := IncGitHubActionsEventCounter _ _ _).
  assert (forall pv' (Hjob : msg_Type m = MessageTypePipelineAgentJobRequest -> exists pajr rule,
      toPipelineAgentJobRequest (Some m) = Ok pajr /\
      Validate pv (Policy (Spec ar)) (pajr_ContextData pajr) = Done (Ok (Some rule), pv')) pre,
    Forall reporting (ops pre) ->
    always (let! r := acknowledge m in
            Ret (match r with Done _ => Done (false, pv') | Panicked e => Panicked e end))
      (fun tr out => fate ar pv m ((inc ↝ tt) :: pre ++ tr) out)) as Hack.
  { intros pv' Hjob pre Hpre. apply always_bind. eapply always_mono; [apply acknowledge_spec|].
    intros tr o [Hh Ha].
    assert (Forall (handling m) (ops ((inc ↝ tt) :: pre ++ tr))) as Hall.
    { rewrite ops_cons, ops_app. constructor; [done|]. apply Forall_app. split; [|done].
      by apply reporting_handling. }
    destruct o as [u|e]; cbn [always]; rewrite app_nil_r; [|by left].
    split; [done|]. split; [|done].
    apply (Ha u eq_refl ((inc ↝ tt) :: pre)). rewrite ops_cons. constructor; [done|].
    eapply Forall_impl; [exact Hpre|]. by intros []. }
  case_bool_decide as Ht.
  2: { apply (Hack pv) with (pre := []); [done|constructor]. }
  destruct (toPipelineAgentJobRequest (Some m)) as [pajr|e] eqn:Hp.
  2: { cbn. left. repeat constructor. }
  destruct (Validate _ _ _) as [[[[rule|]|e] pv']|e] eqn:Hv.
  - apply always_bind. eapply always_mono; [apply onPolicyViolation_ops|].
    intros tr [r|e] Hr.
    + eapply always_mono; [apply (Hack pv' ltac:(eauto) tr Hr)|]. done.
    + cbn. left. rewrite app_nil_r. constructor; [done|]. by apply reporting_handling.
  - cbn [bind call always]. intros [] [u|e]; cbn [always].
    + split; [done|]. split; [by exists pajr|]. split; [done|]. exists u. find_event.
    + right. split; [done|]. split; [by exists pv', pajr|done].
  - cbn. left. repeat constructor.
  - cbn. left. repeat constructor.
Qed.


#[local] Arguments handleMessage : simpl never.

(** The identifier a poll for messages leaves behind. *)
Definition polled (ev : event wire) (last : ptr Z) : ptr Z :=
  match ev_op ev as o return wire_ans o -> ptr Z with
  | GetMessage _ => fun r => match r with Done (Ok (Some m)) => ta_MessageId m | _ => last end
  | _ => fun _ => last
  end (ev_ans ev).

(** Every poll asks for what follows the last message received. *)
Fixpoint polls_in_order (last : ptr Z) (tr : trace wire) : Prop :=
  match tr with
  | [] => True
  | ev :: tr =>
      (forall l, ev_op ev = GetMessage l -> l = last) /\ polls_in_order (polled ev last) tr
  end.

(** The messages received in a trace. *)
Definition received (ev : event wire) : option TaskAgentMessage :=
  match ev_op ev as o return wire_ans o -> option TaskAgentMessage with
  | GetMessage _ => fun r => match r with Done (Ok (Some m)) => Some m | _ => None end
  | _ => fun _ => None
  end (ev_ans ev).

Definition isPoll (o : wire_op) : bool := match o with GetMessage _ => true | _ => false end.

Lemma polls_quiet last tr tr' :
  Forall (fun o => isPoll o = false) (ops tr) ->
  polls_in_order last tr' -> polls_in_order last (tr ++ tr').
Proof.
  induction tr as [|[o r] tr IH]; [done|]. cbn. intros [Ho Htr]%Forall_cons H.
  split; [by intros l ->|]. destruct o; try discriminate; by apply IH.
Qed.

Lemma handling_quiet m l : Forall (handling m) l -> Forall (fun o => isPoll o = false) l.
Proof. intros H. eapply Forall_impl; [exact H|]. by intros []. Qed.

(** How a run of the loop ends. *)
Definition loop_ends (fuel : nat) (tr : trace wire) (out : outcome loop_end) : Prop :=
  match out with
  | Done OutOfFuel =>
      length (filter (fun o => o = IsClosed) (ops tr)) = fuel /\ SendJobRequest ∉ ops tr
  | Done Stopped =>
      (exists pre, tr = (pre ++ [IsClosed ↝ true])%list /\ SendJobRequest ∉ ops tr) \/
      (exists pre u, tr = (pre ++ [SendJobRequest ↝ tt; SendEvent ↝ Done u])%list)
  | Panicked _ => True
  end.

Definition loop_protocol (fuel : nat) (last : ptr Z) (tr : trace wire) (out : outcome loop_end) : Prop :=
  polls_in_order last tr /\
  (forall id, DeleteMessage id ∈ ops tr ->
     exists m, m ∈ omap received tr /\ ta_MessageId m = Some id) /\
  (SendJobRequest ∈ ops tr ->
     exists pre r, tr = (pre ++ [SendJobRequest ↝ tt; SendEvent ↝ r])%list /\
       SendJobRequest ∉ ops pre) /\
  loop_ends fuel tr out.

(** One more iteration before a run: a poll that brought [m], and its handling,
    or nothing. *)
Lemma loop_step fuel last d r h tr out :
  let ta := match r with Done (Ok ta) => ta | _ => None end in
  match ta with
  | None => h = []
  | Some m => exists msg, toMessage m = Done (Ok msg) /\ Forall (handling msg) (ops h)
  end ->
  loop_protocol fuel (polled (GetMessage last ↝ r) last) tr out ->
  loop_protocol (S fuel) last
    ((IsClosed ↝ false) :: (RefreshForRun d ↝ Done (Ok tt)) :: (GetMessage last ↝ r) :: h ++ tr) out.
Proof.
  intros ta Hta (Hpolls & Hdel & Hsend & Hends).
  set (head := (IsClosed ↝ false) :: (RefreshForRun d ↝ Done (Ok tt)) :: (GetMessage last ↝ r) :: h).
  change (loop_protocol (S fuel) last (head ++ tr) out).
  assert (SendJobRequest ∉ ops h /\ IsClosed ∉ ops h /\ Forall (fun o => isPoll o = false) (ops h) /\
    forall id, DeleteMessage id ∈ ops h -> exists m, ta = Some m /\ ta_MessageId m = Some id)
    as (Hs & Hc & Hq & Hid).
  { destruct ta as [m|]; [|subst h; split_and!; [set_solver..|constructor|set_solver]].
    destruct Hta as (msg & Hm & Hh). pose proof Hh as Hh'. rewrite Forall_forall in Hh.
    split_and!; [by intros ?%Hh..|by eapply handling_quiet|].
    intros id Hin. apply Hh in Hin as ->. exists m. split; [done|]. revert Hm.
    unfold toMessage. destruct (ta_MessageId m), (ta_MessageType m), (ta_Body m); try done.
    by intros [= <-]. }
  assert (SendJobRequest ∉ ops head) as Hs' by (unfold head; rewrite !ops_cons; set_solver).
  split_and!.
  - cbn. split_and!; [done..| |].
    { by intros l [= ->]. }
    by apply polls_quiet.
  - intros id. rewrite ops_app, omap_app. intros [Hin|Hin]%elem_of_app.
    + unfold head in Hin. rewrite !ops_cons in Hin.
      assert (DeleteMessage id ∈ ops h) as Hin' by (clear -Hin; set_solver).
      destruct (Hid id Hin') as (m & Hm & Hi). exists m. split; [|done].
      apply elem_of_app. left. apply list_elem_of_omap. exists (GetMessage last ↝ r).
      split; [unfold head; set_solver|]. subst ta. by destruct r as [[[m'|]|]|]; simplify_eq.
    + destruct (Hdel id Hin) as (m & Hm & Hi). exists m. set_solver.
  - rewrite ops_app. intros [Hin|Hin]%elem_of_app; [done|].
    destruct (Hsend Hin) as (pre & r' & -> & Hpre). exists (head ++ pre)%list, r'.
    rewrite app_assoc, ops_app. set_solver.
  - destruct out as [[]|e]; cbn [loop_ends] in *; [| |done].
    + destruct Hends as [(pre & -> & Hpre)|(pre & u & ->)].
      * left. exists (head ++ pre)%list. rewrite app_assoc. split; [done|].
        rewrite !ops_app in *. set_solver.
      * right. exists (head ++ pre)%list, u. by rewrite app_assoc.
    + destruct Hends as [Hlen Hn]. rewrite ops_app. split; [|set_solver].
      unfold head. rewrite !ops_cons, <- !app_comm_cons.
      rewrite filter_cons_True, !filter_cons_False by done.
      rewrite filter_app, length_cons, length_app.
      match goal with |- context [@filter ?A ?M ?F ?P ?D (ops h)] =>
        assert (@filter A M F P D (ops h) = []) as ->; [|by f_equal] end.
      apply elem_of_nil_inv. by intros o [-> Ho]%list_elem_of_filter.
Qed.

(** A panic ends the loop at once. *)
Lemma loop_panic fuel last d tr e :
  polls_in_order last tr -> (forall id, DeleteMessage id ∉ ops tr) -> SendJobRequest ∉ ops tr ->
  loop_protocol fuel last ((IsClosed ↝ false) :: (RefreshForRun d ↝ Done (Ok tt)) :: tr) (Panicked e).
Proof.
  intros Hp Hd Hs. split_and!; [by cbn| | |done]; rewrite !ops_cons; intros *; intros Hin; exfalso.
  - eapply (Hd id). set_solver.
  - set_solver.
Qed.

(** A message that is handed over ends it too. *)
Lemma loop_handover fuel last d r n1 n2 n3 h out :
  ops h = [IncGitHubActionsEventCounter n1 n2 n3; SendJobRequest; SendEvent] ->
  match out with
  | Done e => e = Stopped /\ (exists u, (SendEvent ↝ Done u) ∈ h)
  | Panicked _ => True
  end ->
  loop_protocol fuel last
    ((IsClosed ↝ false) :: (RefreshForRun d ↝ Done (Ok tt)) :: (GetMessage last ↝ r) :: h) out.
Proof.
  intros Hops Hout. destruct h as [|[o1 r1] [|[o2 r2] [|[o3 r3] [|? ?]]]]; try discriminate.
  injection Hops as -> -> ->. destruct r2.
  set (pre := [IsClosed ↝ false; RefreshForRun d ↝ Done (Ok tt); GetMessage last ↝ r;
               IncGitHubActionsEventCounter n1 n2 n3 ↝ r1]).
  change (loop_protocol fuel last (pre ++ [SendJobRequest ↝ tt; SendEvent ↝ r3])%list out).
  assert (SendJobRequest ∉ ops pre) by (cbn; set_solver).
  split_and!.
  - cbn. split_and!; try done; intros l Hl; by simplify_eq.
  - intros id. cbn. set_solver.
  - intros _. by exists pre, r3.
  - destruct out as [e|e]; [|done]. destruct Hout as [-> [u Hu]]. right. exists pre, u.
    repeat (apply elem_of_cons in Hu as [Hu|Hu];
      [first [apply (f_equal ev_op) in Hu; discriminate Hu | apply event_inj in Hu; by subst r3]|]).
    by apply not_elem_of_nil in Hu.
Qed.

Lemma messageLoop_always fuel ar d pv last :
  always (messageLoop fuel ar d pv last) (loop_protocol fuel last).
Proof.
  revert pv last. induction fuel as [|fuel IH]; intros pv last; cbn [messageLoop].
  { split_and!; try done; set_solver. }
  cbn [bind call always]. intros [].
  { split_and!; try done; [set_solver..|]. left. exists []. split; [done|]. set_solver. }
  cbn [bind call always]. intros [[[]|e]|e]; cbn [bind call always].
  2,3: split_and!; try done; set_solver.
  intros r. destruct r as [[[ta|]|e]|e] eqn:Hr; cbn [bind call always].
  3,4: apply loop_panic; [by split; [intros l [= ->]|]|set_solver..].
  2: { eapply always_mono; [apply IH|]. intros tr out H.
       by apply (loop_step fuel last d (Done (Ok None)) []). }
  destruct (toMessage ta) as [[m|e]|e] eqn:Hm; cbn [always].
  2,3: apply loop_panic; [by split; [intros l [= ->]|]|set_solver..].
  apply always_bind. eapply always_mono; [apply handleMessage_always|].
  intros h [[[] pv']|e] Hfate; cbn [always].
  - destruct Hfate as (_ & _ & Hops & Hsent). rewrite app_nil_r. by eapply loop_handover.
  - destruct Hfate as (_ & _ & Hh). eapply always_mono; [apply (IH pv' (ta_MessageId ta))|].
    intros tr out H. apply (loop_step fuel last d (Done (Ok (Some ta))) h tr out); [by exists m|done].
  - rewrite app_nil_r. destruct Hfate as [Hh|(_ & _ & Hops)]; [|by eapply loop_handover].
    rewrite <- (app_nil_r h). apply (loop_step fuel last d (Done (Ok (Some ta)))); [by exists m|].
    by split_and!; try set_solver.
Qed.

(** [C4] The message loop, for any number of iterations.  Each poll asks for
    what follows the last message received; only received messages are ever
    acknowledged; a handover is the last thing the loop does.  The loop ends by
    itself only when the wire has been closed or a job has been handed over, and
    as long as it goes on each iteration has tested once whether the wire is
    closed. *)
Theorem messageLoop_protocol fuel ar d pv last tr out :
  runs (messageLoop fuel ar d pv last) tr out -> loop_protocol fuel last tr out.
Proof. intros Hrun. exact (runs_always _ _ _ _ (messageLoop_always fuel ar d pv last) Hrun). Qed.

(** The listener goroutine.  It ends the process only when closing the wire
    panics.  Otherwise, once its body has stopped or panicked, it has reset the
    listening flag and closed the session, in this order, and it has tried to
    wake the controller exactly when the body panicked: no panic of the body,
    from a facade, a malformed message or the closed event channel, goes
    further. *)
Theorem listener_recovers fuel ar d pv tr out :
  runs (listener fuel ar d pv) tr out ->
  match out with
  | Panicked e =>
      answered tr CloseLoop (Panicked e) \/
      answered tr DeinitAzureDevOpsTaskAgentSession (Panicked e)
  | Done OutOfFuel => runs (listenBody fuel ar d pv) tr (Done OutOfFuel)
  | Done Stopped =>
      exists tr1 body tr2, runs (listenBody fuel ar d pv) tr1 body /\
        tr = (tr1 ++ (SetListening false ↝ tt) :: tr2)%list /\
        DeinitAzureDevOpsTaskAgentSession ∈ ops tr2 /\
        (SendEvent ∈ ops tr2 <-> exists e, body = Panicked e)
  end.
Proof.
  intros (tr1 & body & tr2 & -> & Hbody & H)%runs_bind.
  assert (body = Done OutOfFuel \/ body <> Done OutOfFuel) as [->|Hne].
  { destruct body as [[]|]; [right|left|right]; done. }
  { destruct H as [-> ->]. by rewrite app_nil_r. }
  assert (exists tr', tr2 = (SetListening false ↝ tt) :: tr' /\
    runs (let! r := Close in
          match r, body with
          | Panicked e, _ => Ret (Panicked e)
          | Done _, Panicked _ => let! _ := trySendEvent in Ret (Done Stopped)
          | Done _, Done e => Ret (Done e)
          end) tr' out) as (tr' & -> & Hrun).
  { destruct body as [[]|]; [..|done|]; destruct H as ([] & tr' & -> & H); by exists tr'. }
  apply runs_bind in Hrun as (trc & c & tr3 & -> & Hc & Hrun).
  destruct (runs_always _ _ _ _ Close_spec Hc) as (_ & Hops & Hend).
  assert (SendEvent ∉ ops trc) as Hno.
  { intros Hin. rewrite Forall_forall in Hops. apply Hops in Hin. set_solver. }
  destruct c as [c|e].
  - destruct body as [[]|e]; [|done|].
    + destruct Hrun as [-> ->]. exists tr1, (Done Stopped), trc. rewrite app_nil_r.
      split_and!; try done. split; [done|]. by intros [? ?].
    + unfold trySendEvent in Hrun. destruct Hrun as (r & tr4 & -> & -> & ->).
      exists tr1, (Panicked e), (trc ++ [SendEvent ↝ r])%list. rewrite ops_app.
      split_and!; [done|done|set_solver|]. split; [by eexists|set_solver].
  - assert (out = Panicked e /\ tr3 = []) as [-> ->] by (destruct body; by destruct Hrun).
    rewrite app_nil_r. unfold answered in *. set_solver.
Qed.
End listening.

(** ** Examples *)

Module WireExamples.
Import Demo PolicyExamples.

#[export] Instance strings_lib : StringsLib :=
  {| ShortenString s n := String.substring 0 (Z.to_nat n) s |}.

Definition endpoint : ServiceEndpoint :=
  mkServiceEndpoint (Some "SystemVssConnection") (Some "https://pipelines")
    (Some (mkEndpointAuthorization (Some "OAuth") (Some {[ "AccessToken" := "header.payload.sig" ]}))).
Definition request (context : gmap string PipelineContextData) : PipelineAgentJobRequest :=
  mkPipelineAgentJobRequest (Some (mkPlan (Some "scope") (Some "Actions") (Some "plan")))
    (Some (mkTimeline (Some "timeline"))) (Some "job") (Some "Build") (Some "build") (Some 7)
    (Some (mkJobResources (Some [endpoint]))) (Some context).

(** The body "fork" is a request from a fork, any other body one that is not. *)
#[export] Instance job_lib : JobLib := {|
  unmarshalJobRequest s := Ok (request (if bool_decide (s = "fork") then context
                                        else delete "fork" context));
  jwtClaims _ := Ok (Some {[ "orchid" := VString "orchestration" ]})
|}.

(** Facades that succeed, but for the creation of a session when [sessions] is
    false, and a queue of messages. *)
Record servers : Type := Servers { sessions : bool; queue : list TaskAgentMessage }.

Definition serve_wire (o : sop wire) (s : servers) : sans wire o * servers :=
  let ok : attempt unit := Done (Ok tt) in
  match o return wire_ans o * servers with
  | GitHub_Init _ _ => (Done (Ok "https://api.github.com/repos/inloco/kube-actions"), s)
  | GetGitHubTenantCredential _ => (Done (Ok ("token", "https://pipelines")), s)
  | GenerateKey => (Ok (mkPrivateKey 3233 65537 2753 [61; 53] 53 49 38), s)
  | InitForCRUD d _ _ _ => ((ok, d), s)
  | InitForRun d _ => ((ok, d), s)
  | InitAzureDevOpsTaskAgentSession =>
      (if sessions s then ok else Done (Err (EWrappedError (Some "TaskAgentNotFoundException"))), s)
  | GetMessage _ =>
      match queue s with
      | [] => (Done (Ok None), s)
      | m :: ms => (Done (Ok (Some m)), Servers (sessions s) ms)
      end
  | IsClosed => (false, s)
  | CloseLoop | SendEvent => (Done tt, s)
  | IncGitHubActionsEventCounter _ _ _ | SetInvalid | SetListening _ | SendJobRequest => (tt, s)
  | RefreshForRun _ | DeinitAzureDevOpsTaskAgentSession | DeleteAgent | DeleteMessage _
  | UpdateAgentRequest _ _ | InitAzureDevOpsTaskClient _ _ _ | UpdateRecord _ | RaisePlanEvent _ =>
      (ok, s)
  end.

Definition new_wire : Wire := mkWire guarded None false false None.
Definition broken : servers := Servers false [].

Definition broken_run := exec serve_wire (Init new_wire) broken.
Definition broken_trace : trace wire := broken_run.1.1.
Definition no_agent : error := EWrappedError (Some "TaskAgentNotFoundException").

Lemma broken_runs : runs (Init new_wire) broken_trace (broken_run.1.2.1, broken_run.1.2.2).
Proof. exact (exec_runs serve_wire (Init new_wire) broken). Qed.

Lemma Init_undoes_witness :
  omap failure broken_trace = [no_agent] /\ DeleteAgent ∈ ops broken_trace.
Proof.
  pose proof (Init_undoes new_wire _ _ _ broken_runs) as [_ H].
  assert (broken_run.1.2.1 = Done (Err no_agent)) as Ho by (by vm_compute). rewrite Ho in H.
  assert (omap failure broken_trace = [no_agent]) as Hf by (by vm_compute).
  split; [exact Hf|]. destruct H as (_ & _ & _ & [H|H]); [exact H|].
  rewrite Hf in H. cbn in H. lia.
Defined.

Definition mail (id : Z) (type body : string) : TaskAgentMessage :=
  mkTaskAgentMessage (Some id) (Some type) (Some body).
Definition busy : servers :=
  Servers true [mail 1 MessageTypePipelineAgentJobRequest "fork"; mail 2 "AgentRefresh" "";
                mail 3 MessageTypePipelineAgentJobRequest "main"].

Definition violation := onPolicyViolation guarded (Some (request context)) (Some ".fork").
Lemma onPolicyViolation_fails_job_witness :
  Forall reporting (ops (exec serve_wire violation busy).1.1).
Proof.
  exact (proj1 (onPolicyViolation_fails_job guarded (request context) ".fork" _ _
    (exec_runs serve_wire violation busy))).
Defined.

Definition fork : Message := mkMessage 1 MessageTypePipelineAgentJobRequest "fork".
Abbreviation handling_fork := (handleMessage guarded NewPolicyValidator fork).

(** The violating request and the refresh are acknowledged, the other request
    is handed over and left alone. *)
Abbreviation looping := (messageLoop 5 guarded None NewPolicyValidator None).
Definition busy_trace : trace wire := (exec serve_wire looping busy).1.1.
Definition acknowledged_ids (tr : trace wire) : list Z :=
  omap (fun o => match o with DeleteMessage id => Some id | _ => None end) (ops tr).

Lemma messageLoop_protocol_witness :
  acknowledged_ids busy_trace = [1; 2] /\
  exists pre r, busy_trace = (pre ++ [SendJobRequest ↝ tt; SendEvent ↝ r])%list.
Proof.
  split; [by vm_compute|].
  destruct (messageLoop_protocol _ _ _ _ _ _ _ (exec_runs serve_wire looping busy))
    as (_ & _ & H & _).
  destruct H as (pre & r & H & _); [|by exists pre, r].
  assert (match last (ops busy_trace) with Some SendEvent => true | _ => false end = true) as Hl
    by (by vm_compute).
  apply list_elem_of_lookup. exists (pred (pred (length (ops busy_trace)))). by vm_compute.
Defined.

Abbreviation listening_once := (listener 5 guarded None NewPolicyValidator).
Definition listened : trace wire := (exec serve_wire listening_once broken).1.1.

Lemma listener_recovers_witness :
  SetInvalid ∈ ops listened /\
  exists tr1 tr2, listened = (tr1 ++ (SetListening false ↝ tt) :: tr2)%list /\
    DeinitAzureDevOpsTaskAgentSession ∈ ops tr2.
Proof.
  split; [apply list_elem_of_lookup; exists 2%nat; by vm_compute|].
  pose proof (listener_recovers _ _ _ _ _ _ (exec_runs serve_wire listening_once broken)) as H.
  assert ((exec serve_wire listening_once broken).1.2 = Done Stopped) as Ho by (by vm_compute).
  rewrite Ho in H. destruct H as (tr1 & body & tr2 & _ & Htr & Hd & _).
  exists tr1, tr2. split; [exact Htr|exact Hd].
Defined.
End WireExamples.
