(* ===== verification/Listening.v ===== *)
(** * A wire's goroutines

    [wire.go]'s [Listen], [Listening] and [Close] are called by the reconcilers
    and by the shutdown, and [Listen] starts the listener goroutine of [Wire]:
    all of them run at once over the wire's lock, its flag [listening] and its
    channel [loopClose].  The theorems here are about every schedule of them. *)

From S2P Require Export Wire Goroutines.
#[local] Open Scope string_scope.

(** ** The operations on the lock, the flag and the channel *)

Inductive lock_op : Type :=
(* w.listeningLock *)
| Lock
| Unlock
| RLock
| RUnlock
(* w.listening *)
| IsListening
(* w.loopClose = make(chan struct{}) *)
| MakeLoopClose
(* go func() { ... }() *)
| GoListener.
Definition lock_ans (o : lock_op) : Type := match o with IsListening => bool | _ => unit end.
Canonical locks : signature := Sig lock_op lock_ans.
Abbreviation goroutine := (prog (both locks wire) unit).
Definition lock (o : lock_op) : prog (both locks wire) (lock_ans o) := call (inl o : sop (both locks wire)).

Section listening.
Context {T : K8sTypes} {L : K8sLib} `{J : GoJQ} `{JL : JobLib} `{SL : StringsLib}.
Variables (fuel : nat) (ar : ActionsRunner) (dotFiles : ptr Files) (pv : PolicyValidator).

Definition Listening : prog (both locks wire) bool :=
  let! _ := lock RLock in
  let! listening := lock IsListening in
  let! _ := lock RUnlock in
  Ret listening.

(** [Listen], from each of its operations on. *)
Definition unlocking : goroutine := lock Unlock.
Definition setting : goroutine :=
  let! _ := call (inr (SetListening true) : sop (both locks wire)) in unlocking.
Definition starting : goroutine := let! _ := lock GoListener in setting.
Definition making : goroutine := let! _ := lock MakeLoopClose in starting.
Definition checking : goroutine :=
  let! listening := lock IsListening in if listening then unlocking else making.
Definition Listen : goroutine := let! _ := lock Lock in checking.

(** What a reconciler does when there is no job request, and what the shutdown
    and the destruction of a wire do. *)
Definition ensureListening : goroutine :=
  let! listening := Listening in
  if negb listening then Listen else Ret tt.
Definition closeWire : goroutine := let! _ := inject_r Close in Ret tt.

(** The goroutine that [Listen] starts. *)
Definition listenerGoroutine : goroutine := let! _ := inject_r (listener fuel ar dotFiles pv) in Ret tt.

(** ** What they share *)

(** The lock is held by a writer or by some readers; the channel is nil, open or
    closed. *)
Record wire_state : Type := mkWireState {
  writer : bool;
  readers : nat;
  listening : bool;
  loopClose : option bool;
}.
Definition new_wire_state : wire_state := mkWireState false 0 false None.

Definition set_listening (b : bool) (s : wire_state) : wire_state :=
  mkWireState (writer s) (readers s) b (loopClose s).
Definition set_loopClose (c : option bool) (s : wire_state) : wire_state :=
  mkWireState (writer s) (readers s) (listening s) c.

Definition lock_shares (o : lock_op) (s : wire_state) : lock_ans o -> wire_state -> Prop :=
  match o with
  | Lock => fun _ s' => writer s = false /\ readers s = 0%nat /\
                        s' = mkWireState true 0 (listening s) (loopClose s)
  | Unlock => fun _ s' => s' = mkWireState false (readers s) (listening s) (loopClose s)
  | RLock => fun _ s' => writer s = false /\
                         s' = mkWireState false (S (readers s)) (listening s) (loopClose s)
  | RUnlock => fun _ s' => s' = mkWireState (writer s) (pred (readers s)) (listening s) (loopClose s)
  | IsListening => fun r s' => r = listening s /\ s' = s
  | MakeLoopClose => fun _ s' => s' = set_loopClose (Some false) s
  | GoListener => fun _ s' => s' = s
  end.

(** [isClosed] of a nil channel is true; closing one that is nil or closed
    panics.  The other operations get any answer. *)
Definition wire_shares (o : wire_op) (s : wire_state) : wire_ans o -> wire_state -> Prop :=
  match o with
  | IsClosed => fun r s' => r = default true (loopClose s) /\ s' = s
  | CloseLoop => fun r s' =>
      match loopClose s with
      | Some false => r = Done tt /\ s' = set_loopClose (Some true) s
      | Some true => r = Panicked (EOther "close of closed channel") /\ s' = s
      | None => r = Panicked (EOther "close of nil channel") /\ s' = s
      end
  | SetListening b => fun _ s' => s' = set_listening b s
  | _ => fun _ s' => s' = s
  end.

Definition shares (o : sop (both locks wire)) (s : wire_state) : sans (both locks wire) o -> wire_state -> Prop :=
  match o with
  | inl o => lock_shares o s
  | inr o => wire_shares o s
  end.
Definition starts (o : sop (both locks wire)) : list goroutine :=
  match o with
  | inl GoListener => [listenerGoroutine]
  | _ => []
  end.
Definition meets (o : sop (both locks wire)) (_ : sans (both locks wire) o)
    (o' : sop (both locks wire)) (_ : sans (both locks wire) o') : Prop := False.

Abbreviation wire_process := (process (E := both locks wire) (A := unit) (S := wire_state)).
Abbreviation wire_turn := (turn (A := unit) shares starts meets).
Abbreviation wire_schedule := (schedule (A := unit) shares starts meets).

(** A new wire, and any number of goroutines that use it. *)
Definition clients (ts : list goroutine) : Prop :=
  Forall (fun p => p = ensureListening \/ p = closeWire) ts.
Definition opened (ts : list goroutine) : wire_process := mkProcess new_wire_state ts.

(** ** The phases of a goroutine

    A goroutine is outside of [Listen]'s critical section, or at one of its
    operations, or it is a listener that has not cleared the flag yet. *)
Inductive phase : Type := Outside | Body | Checking | Making | Starting | Setting | Unlocking.

Definition harmless (o : wire_op) : Prop :=
  match o with SetListening _ | GetMessage _ => False | _ => True end.
Fixpoint outside (p : goroutine) : Prop :=
  match p with
  | Ret _ => True
  | Do o k =>
      match o return (sans (both locks wire) o -> Prop) -> (sans (both locks wire) o -> Prop) -> Prop with
      | inl Lock => fun _ checks => forall r, checks r
      | inl (RLock | RUnlock | IsListening) => fun out _ => forall r, out r
      | inl _ => fun _ _ => False
      | inr o => fun out _ => harmless o /\ forall r, out r
      end (fun r => outside (k r)) (fun r => k r = checking)
  end.
Fixpoint listens (p : goroutine) : Prop :=
  match p with
  | Ret _ => True
  | Do o k =>
      match o return (sans (both locks wire) o -> Prop) -> (sans (both locks wire) o -> Prop) -> Prop with
      | inr (SetListening false) => fun _ out => forall r, out r
      | inl _ | inr (SetListening true) => fun _ _ => False
      | _ => fun body _ => forall r, body r
      end (fun r => listens (k r)) (fun r => outside (k r))
  end.

Definition in_phase (ph : phase) (p : goroutine) : Prop :=
  match ph, p with
  | Outside, _ => outside p
  | Body, _ => listens p
  | _, Ret _ => False
  | Checking, Do o k =>
      match o return (sans (both locks wire) o -> goroutine) -> Prop with
          | inl IsListening => fun k => forall r, k r = if r then unlocking else making
          | _ => fun _ => False
          end k
  | Making, Do o k =>
      match o return (sans (both locks wire) o -> goroutine) -> Prop with
          | inl MakeLoopClose => fun k => forall r, k r = starting
          | _ => fun _ => False
          end k
  | Starting, Do o k =>
      match o return (sans (both locks wire) o -> goroutine) -> Prop with
          | inl GoListener => fun k => forall r, k r = setting
          | _ => fun _ => False
          end k
  | Setting, Do o k =>
      match o return (sans (both locks wire) o -> goroutine) -> Prop with
          | inr (SetListening true) => fun k => forall r, k r = unlocking
          | _ => fun _ => False
          end k
  | Unlocking, Do o k =>
      match o return (sans (both locks wire) o -> goroutine) -> Prop with
          | inl Unlock => fun k => forall r, k r = Ret tt
          | _ => fun _ => False
          end k
  end.

(** Operations of a wire that leave the flag and the queue alone, and those that
    leave the flag alone. *)
Lemma outside_inject {A} (p : prog wire A) : only harmless p -> outside (let! _ := inject_r p in Ret tt).
Proof. induction p as [a|o k IH]; cbn; [done|]. intros [Ho Hk]. split; [done|]. intros r. by apply IH. Qed.

Definition flagless (o : wire_op) : Prop := match o with SetListening _ => False | _ => True end.
Lemma listens_inject {A B} (p : prog wire A) (f : A -> prog wire B) :
  only flagless p -> (forall a, listens (let! _ := inject_r (f a) in Ret tt)) ->
  listens (let! _ := inject_r (bind p f) in Ret tt).
Proof.
  intros Hp Hf. induction p as [a|o k IH]; cbn; [apply Hf|]. destruct Hp as [Ho Hk].
  destruct o; try done; intros r; by apply IH.
Qed.

Lemma only_Close (P : wire_op -> Prop) :
  P IsClosed -> P CloseLoop -> P DeinitAzureDevOpsTaskAgentSession -> only P Close.
Proof. intros H1 H2 H3. split; [done|]. intros []; cbn; (split; [done|]); [done|]. by intros []. Qed.

Lemma outside_client p : p = ensureListening \/ p = closeWire -> outside p.
Proof.
  intros [->| ->]; [|by apply outside_inject, only_Close].
  cbn. intros [] [] []; [done|]. by intros [].
Qed.

Lemma only_onPolicyViolation pajr rule : only flagless (onPolicyViolation ar pajr rule).
Proof. unfold onPolicyViolation. repeat only_step. Qed.

Lemma only_acknowledge message : only flagless (acknowledge message).
Proof. unfold acknowledge. repeat only_step. Qed.

Lemma only_handleMessage pv' message : only flagless (handleMessage ar pv' message).
Proof.
  unfold handleMessage. repeat first [only_step|apply only_onPolicyViolation|apply only_acknowledge].
Qed.

Lemma only_messageLoop n pv' last : only flagless (messageLoop n ar dotFiles pv' last).
Proof.
  revert pv' last. induction n as [|n IH]; intros pv' last; cbn [messageLoop]; [exact I|].
  repeat first [only_step|apply IH|apply only_handleMessage].
Qed.

Lemma only_listenBody : only flagless (listenBody fuel ar dotFiles pv).
Proof. unfold listenBody. repeat first [only_step|apply only_messageLoop]. Qed.

Lemma listens_listener : listens listenerGoroutine.
Proof.
  unfold listenerGoroutine, listener. apply listens_inject; [apply only_listenBody|].
  intros body.
  assert (outside (let! _ := inject_r (
      let! r := Close in
      match r, body with
      | Panicked e, _ => Ret (Panicked e)
      | Done _, Panicked _ => let! _ := trySendEvent in Ret (Done Stopped)
      | Done _, Done e => Ret (Done e)
      end) in Ret tt)) as H.
  { apply outside_inject, only_bind; [by apply only_Close|]. intros [r|e]; [|done].
    destruct body; [done|]. unfold trySendEvent. repeat only_step. }
  destruct body as [[]|e]; [|exact I|]; intros []; exact H.
Qed.

(** ** One listener at a time *)

(** What a turn does to the phase of the goroutine that takes it. *)
Definition moves (ph : phase) (s : wire_state) (ph' : phase) (s' : wire_state) : Prop :=
  match ph with
  | Outside => listening s' = listening s /\
      ((ph' = Outside /\ writer s' = writer s) \/ (ph' = Checking /\ writer s = false /\ writer s' = true))
  | Body => writer s' = writer s /\
      ((ph' = Body /\ listening s' = listening s) \/ (ph' = Outside /\ listening s' = false))
  | Checking => writer s' = writer s /\ listening s' = listening s /\
      (ph' = Unlocking \/ (ph' = Making /\ listening s = false))
  | Making => writer s' = writer s /\ listening s' = listening s /\ ph' = Starting
  | Starting => writer s' = writer s /\ listening s' = listening s /\ ph' = Setting
  | Setting => writer s' = writer s /\ listening s' = true /\ ph' = Unlocking
  | Unlocking => listening s' = listening s /\ ph' = Outside
  end.

Lemma phase_moves ph o k s r s' :
  in_phase ph (Do o k) -> shares o s r s' ->
  exists ph', in_phase ph' (k r) /\ moves ph s ph' s' /\
    starts o = match ph with Starting => [listenerGoroutine] | _ => [] end.
Proof.
  destruct ph; cbn [in_phase]; intros Hp Hs.
  - exists (match o with inl Lock => Checking | _ => Outside end).
    destruct o as [[]|o]; cbn in Hp, Hs; try done.
    + destruct Hs as (H1 & H2 & ->). rewrite Hp. split_and!; [done|split; [done|by right]|done].
    + destruct Hs as [H1 ->]. split_and!; [apply Hp|split; [done|by left]|done].
    + subst s'. split_and!; [apply Hp|split; [done|by left]|done].
    + destruct Hs as [_ ->]. split_and!; [apply Hp|split; [done|by left]|done].
    + destruct Hp as [Ho Hk]. split_and!; [apply Hk|split; [|left; split; [done|]]|done];
        destruct o; cbn in Hs; repeat case_match; try done; by destruct_and?; subst.
  - destruct o as [o|o]; cbn in Hp, Hs; [done|].
    exists (match o with SetListening false => Outside | _ => Body end).
    destruct o as [| | | | | | | | | | | | | | | | | | |[]| |]; cbn in Hs; try done;
      (split_and!; [apply Hp|..]); repeat case_match; destruct_and?; subst; cbn; auto.
  - destruct o as [[]|o]; cbn in Hp, Hs; try done. destruct Hs as [-> ->]. rewrite Hp.
    destruct (listening s) eqn:Hl; [exists Unlocking|exists Making];
      (split_and!; [by intros []|cbn; auto|done]).
  - destruct o as [[]|o]; cbn in Hp, Hs; try done. subst s'. rewrite Hp. exists Starting. by cbn.
  - destruct o as [[]|o]; cbn in Hp, Hs; try done. subst s'. rewrite Hp. exists Setting. by cbn.
  - destruct o as [[]|o]; cbn in Hp, Hs; [done..|]. destruct o; try done. destruct b; [|done].
    cbn in Hs. subst s'. rewrite Hp. exists Unlocking. split; [by intros []|by cbn].
  - destruct o as [[]|o]; cbn in Hp, Hs; try done. subst s'. rewrite Hp. exists Outside. by cbn.
Qed.

Definition holds (ph : phase) : Prop :=
  match ph with Outside | Body => False | _ => True end.

(** One goroutine holds the lock and one listens at a time; while one listens the
    flag is set, or is about to be, and nobody goes on to start another. *)
Record exclusive (s : wire_state) (phs : list phase) : Prop := mkExclusive {
  ex_holder : forall i j a b, phs !! i = Some a -> phs !! j = Some b -> holds a -> holds b -> i = j;
  ex_locked : forall i a, phs !! i = Some a -> holds a -> writer s = true;
  ex_body : forall i j, phs !! i = Some Body -> phs !! j = Some Body -> i = j;
  ex_flag : forall i, phs !! i = Some Body -> listening s = true \/ exists j, phs !! j = Some Setting;
  ex_free : forall i j a, phs !! i = Some Body -> phs !! j = Some a -> a = Making \/ a = Starting -> False;
}.

Lemma lookup_moved (phs : list phase) i ph ph' new j b :
  phs !! i = Some ph -> (<[i := ph']> phs ++ new)%list !! j = Some b ->
  (j = i /\ b = ph') \/ (j <> i /\ phs !! j = Some b) \/ (j >= length phs /\ b ∈ new)%nat.
Proof.
  intros Hi [H|[Hj H]]%lookup_app_Some.
  - apply list_lookup_insert_Some in H as [(<- & -> & _)|[Hne H]]; auto.
  - rewrite length_insert in Hj. right. right. split; [lia|]. by eapply list_elem_of_lookup_2.
Qed.
Lemma lookup_stays (phs : list phase) i ph' new j b :
  j <> i -> phs !! j = Some b -> (<[i := ph']> phs ++ new)%list !! j = Some b.
Proof.
  intros Hne Hj. rewrite lookup_app_l by (rewrite length_insert; by eapply lookup_lt_Some).
  by rewrite list_lookup_insert_ne.
Qed.

(** Who holds the lock after a turn held it before, or took it while it was free;
    and a listener was one before. *)
Lemma moves_holds ph s ph' s' : moves ph s ph' s' -> holds ph' ->
  (holds ph /\ writer s' = writer s) \/ (writer s = false /\ writer s' = true).
Proof. destruct ph; cbn; intros; destruct_and?; destruct_or?; destruct_and?; subst; cbn in *; auto; done. Qed.
Lemma moves_writer ph s ph' s' : moves ph s ph' s' -> writer s' = writer s \/ holds ph \/ writer s = false.
Proof. destruct ph; cbn; intros; destruct_and?; destruct_or?; destruct_and?; auto. Qed.
Lemma moves_body ph s s' : moves ph s Body s' -> ph = Body /\ listening s' = listening s.
Proof. destruct ph; cbn; intros; destruct_and?; destruct_or?; destruct_and?; done. Qed.
Lemma moves_flag ph s ph' s' : moves ph s ph' s' -> listening s = true ->
  listening s' = true \/ ph = Body.
Proof. destruct ph; cbn; intros; destruct_and?; destruct_or?; destruct_and?; subst; auto; left; congruence. Qed.

Lemma moves_going ph s ph' s' : moves ph s ph' s' -> ph' = Making \/ ph' = Starting ->
  (ph = Checking /\ listening s = false) \/ ph = Making.
Proof.
  destruct ph; cbn; intros; destruct_and?; destruct_or?; destruct_and?; subst; auto; try done; by right.
Qed.

Section move.
Context (s : wire_state) (phs : list phase) (i : nat) (ph ph' : phase) (s' : wire_state).
Context (Hex : exclusive s phs) (Hi : phs !! i = Some ph) (Hm : moves ph s ph' s').

(** The phases after the turn: that of the goroutine whose turn it was is new, and
    it may have started one that listens. *)
Definition moved : list phase :=
  (<[i := ph']> phs ++ match ph with Starting => [Body] | _ => [] end)%list.

Lemma moved_lookup j b : moved !! j = Some b ->
  (j = i /\ b = ph') \/ (j <> i /\ phs !! j = Some b) \/
  (j = length phs /\ b = Body /\ ph = Starting).
Proof.
  unfold moved. intros Hj. pose proof (lookup_lt_Some _ _ _ Hj) as Hlt.
  destruct (lookup_moved _ _ _ _ _ _ _ Hi Hj) as [H|[H|[Hge Hin]]]; [by left|by right; left|].
  right. right. rewrite length_app, length_insert in Hlt.
  destruct ph; try by apply not_elem_of_nil in Hin.
  apply list_elem_of_singleton in Hin. cbn in Hlt. split; [lia|done].
Qed.
Lemma moved_stays j b : j <> i -> phs !! j = Some b -> moved !! j = Some b.
Proof. apply lookup_stays. Qed.
Lemma moved_here : moved !! i = Some ph'.
Proof.
  unfold moved. rewrite lookup_app_l by (rewrite length_insert; by eapply lookup_lt_Some).
  apply list_lookup_insert_eq. by eapply lookup_lt_Some.
Qed.

(** Nobody else holds the lock when the goroutine has it after its turn. *)
Lemma moves_alone j b : holds ph' -> j <> i -> phs !! j = Some b -> holds b -> False.
Proof.
  intros Ha Hne Hj Hc. destruct (moves_holds _ _ _ _ Hm Ha) as [[Hp _]|[Hw _]].
  - apply Hne. by apply (ex_holder _ _ Hex j i b ph).
  - apply (ex_locked _ _ Hex j b Hj) in Hc. congruence.
Qed.

(** Nobody listens when the goroutine goes on to start a listener. *)
Lemma moves_going_free j : ph' = Making \/ ph' = Starting -> phs !! j = Some Body -> False.
Proof.
  intros Ha Hj. destruct (moves_going _ _ _ _ Hm Ha) as [[Hph Hls]|Hph]; rewrite Hph in Hi.
  - destruct (ex_flag _ _ Hex j Hj) as [?|[k Hk]]; [congruence|].
    assert (k = i) as -> by (by apply (ex_holder _ _ Hex k i Setting Checking)). congruence.
  - apply (ex_free _ _ Hex j i Making Hj Hi). by left.
Qed.

Lemma moved_holder j k a b : moved !! j = Some a -> moved !! k = Some b -> holds a -> holds b -> j = k.
Proof.
  intros [[-> ->]|[[Hj Hj']|(_ & -> & _)]]%moved_lookup [[-> ->]|[[Hk Hk']|(_ & -> & _)]]%moved_lookup Ha Hb;
    try done.
  - by destruct (moves_alone k b).
  - by destruct (moves_alone j a).
  - by apply (ex_holder _ _ Hex j k a b).
Qed.

Lemma moved_locked j a : moved !! j = Some a -> holds a -> writer s' = true.
Proof.
  intros [[-> ->]|[[Hj Hj']|(_ & -> & _)]]%moved_lookup Ha; [| |done].
  - destruct (moves_holds _ _ _ _ Hm Ha) as [[Hp ->]|[_ Hw]]; [by apply (ex_locked _ _ Hex i ph)|done].
  - pose proof (ex_locked _ _ Hex j a Hj' Ha) as Hw.
    destruct (moves_writer _ _ _ _ Hm) as [->|[Hp|Hw']]; [done| |congruence].
    destruct Hj. by apply (ex_holder _ _ Hex j i a ph).
Qed.

(** A goroutine that listens after the turn did so before, or has just been
    started, while nobody listened. *)
Lemma moved_body j : moved !! j = Some Body ->
  (phs !! j = Some Body /\ (j = i -> listening s' = listening s)) \/
  (j = length phs /\ ph = Starting /\ ph' = Setting /\ forall k, phs !! k = Some Body -> False).
Proof.
  intros [[-> Hb]|[[Hj Hj']|(-> & _ & Hs)]]%moved_lookup; [left|by left|right].
  - rewrite <- Hb in Hm. apply moves_body in Hm as [-> Hls]. done.
  - rewrite Hs in Hm, Hi. split_and!; [done|done|apply Hm|].
    intros k Hk. apply (ex_free _ _ Hex k i Starting Hk Hi). by right.
Qed.

Lemma moved_one j k : moved !! j = Some Body -> moved !! k = Some Body -> j = k.
Proof.
  intros [[Hj _]|(-> & _ & _ & Hno)]%moved_body [[Hk _]|(-> & _ & _ & Hno')]%moved_body;
    [|by destruct (Hno' j)|by destruct (Hno k)|done].
  by apply (ex_body _ _ Hex).
Qed.

Lemma moved_flag j : moved !! j = Some Body -> listening s' = true \/ exists k, moved !! k = Some Setting.
Proof.
  intros [[Hj Hls]|(_ & _ & <- & _)]%moved_body; [|right; exists i; apply moved_here].
  destruct (ex_flag _ _ Hex j Hj) as [H|[k Hk]].
  - destruct (moves_flag _ _ _ _ Hm H) as [H'| Hb]; [by left|]. left. rewrite Hb in Hi.
    by rewrite (Hls (ex_body _ _ Hex _ _ Hj Hi)).
  - destruct (decide (k = i)) as [->|Hki]; [|right; exists k; by apply moved_stays].
    rewrite Hk in Hi. injection Hi as <-. left. by destruct Hm as (_ & Hset & _).
Qed.

Lemma moved_free j k a : moved !! j = Some Body -> moved !! k = Some a ->
  a = Making \/ a = Starting -> False.
Proof.
  intros Hj [[-> ->]|[[Hk Hk']|(_ & -> & _)]]%moved_lookup Ha; [| |by destruct Ha].
  - apply moved_body in Hj as [[Hj _]|(_ & _ & -> & _)]; [by eapply moves_going_free|by destruct Ha].
  - apply moved_body in Hj as [[Hj _]|(_ & Hs & _)]; [by apply (ex_free _ _ Hex j k a)|].
    rewrite Hs in Hi. destruct Hk. by destruct Ha as [-> | ->]; eapply (ex_holder _ _ Hex k i _ Starting).
Qed.

Lemma exclusive_moves : exclusive s' moved.
Proof.
  split; eauto using moved_holder, moved_locked, moved_one, moved_flag, moved_free.
Qed.
End move.

(** Every goroutine is in a phase, and the phases exclude each other. *)
Definition sound (q : wire_process) : Prop :=
  exists phs, Forall2 in_phase phs (threads q) /\ exclusive (shared q) phs.

Lemma sound_turn q step q' : sound q -> wire_turn q step q' -> sound q'.
Proof.
  intros (phs & Hphs & Hex) Hturn. destruct Hturn as [s ts i o k r s' Hi Hs|]; [|done].
  destruct (Forall2_lookup_r _ _ _ _ _ Hphs Hi) as (ph & Hph & Hin).
  destruct (phase_moves _ _ _ _ _ _ Hin Hs) as (ph' & Hin' & Hm & Hst).
  exists (<[i := ph']> phs ++ match ph with Starting => [Body] | _ => [] end)%list. cbn. split.
  - rewrite Hst. apply Forall2_app; [by apply Forall2_insert|].
    destruct ph; repeat constructor. apply listens_listener.
  - by apply (exclusive_moves s).
Qed.

Lemma sound_opened ts : clients ts -> sound (opened ts).
Proof.
  intros Hts. exists (replicate (length ts) Outside). cbn. split.
  - apply Forall2_replicate_l; [done|]. eapply Forall_impl; [exact Hts|]. apply outside_client.
  - assert (forall i a, replicate (length ts) Outside !! i = Some a -> a = Outside) as H
      by (intros i a Hi; by apply lookup_replicate in Hi as [-> _]).
    split; intros; repeat match goal with Hl : replicate _ _ !! _ = Some _ |- _ => apply H in Hl; subst end; try done.
Qed.

(** A goroutine that may still ask Azure DevOps for a message. *)
Definition may_poll (p : goroutine) : Prop :=
  may p (fun o => exists last, o = inr (GetMessage last)).

Lemma outside_polls p : outside p -> ~ may_poll p.
Proof.
  induction p as [a|o k IH]; intros Hp; [by intros []|]. intros [(last & ->)|(r & Hr)].
  - by destruct Hp.
  - destruct o as [[]|o]; cbn in Hp; try done; try by apply (IH r (Hp r)).
    + rewrite Hp in Hr. destruct Hr as [(last & [=])|([] & Hr)]; cbn in Hr;
        repeat (destruct Hr as [(last & [=])|(? & Hr)]); done.
    + by apply (IH r (proj2 Hp r)).
Qed.

Lemma in_phase_polls ph p : in_phase ph p -> may_poll p -> ph = Body.
Proof.
  assert (~ may_poll making /\ ~ may_poll starting /\ ~ may_poll setting /\ ~ may_poll unlocking /\
          ~ may_poll (Ret tt)) as (H1 & H2 & H3 & H4 & H5).
  { unfold may_poll. cbn. by split_and!; intros H; repeat (destruct H as [(last & [=])|(? & H)]). }
  intros Hp Hmay. destruct ph; [by apply outside_polls in Hp|done|..];
    (destruct p as [|o k]; [done|]; destruct Hmay as [(last & ->)|(r & Hr)]; [done|];
     destruct o as [[]|[]]; cbn in Hp; try done; repeat case_match; try done; subst;
     try (rewrite Hp in Hr; repeat case_match; done)).
Qed.

(** [C8] One listener at a time.  However many goroutines ask a wire whether it
    listens, start its listener and close it, at once and in whatever order their
    operations and those of the listeners are interleaved, there is never more
    than one goroutine that may still ask Azure DevOps for a message: a listener
    that is started was started after the one before it had left its loop for
    good. *)
Theorem one_listener ts sched q i j p1 p2 :
  clients ts -> wire_schedule (opened ts) sched q ->
  threads q !! i = Some p1 -> threads q !! j = Some p2 -> may_poll p1 -> may_poll p2 -> i = j.
Proof.
  intros Hts Hs Hi Hj H1 H2.
  assert (sound q) as (phs & Hphs & Hex).
  { eapply (schedule_invariant _ _ _ sound); [|by apply sound_opened|exact Hs].
    intros q1 step q2. apply sound_turn. }
  destruct (Forall2_lookup_r _ _ _ _ _ Hphs Hi) as (a & Ha & Hina).
  destruct (Forall2_lookup_r _ _ _ _ _ Hphs Hj) as (b & Hb & Hinb).
  rewrite (in_phase_polls _ _ Hina H1) in Ha. rewrite (in_phase_polls _ _ Hinb H2) in Hb.
  by apply (ex_body _ _ Hex).
Qed.
End listening.

(** ** A wire that never listens again *)

Section deaf.
Context {T : K8sTypes} {L : K8sLib} `{J : GoJQ} `{JL : JobLib} `{SL : StringsLib}.
Variables (fuel : nat) (ar : ActionsRunner) (dotFiles : ptr Files) (pv : PolicyValidator).
Abbreviation wire_process := (process (E := both locks wire) (A := unit) (S := wire_state)).
Abbreviation wire_turn := (turn (A := unit) shares (starts fuel ar dotFiles pv) meets).
Abbreviation wire_schedule := (schedule (A := unit) shares (starts fuel ar dotFiles pv) meets).

(** The flag is set, but nobody listens or is about to start to. *)
Definition deaf (q : wire_process) : Prop :=
  listening (shared q) = true /\
  exists phs, Forall2 in_phase phs (threads q) /\
    Forall (fun ph => ph <> Body /\ ph <> Making /\ ph <> Starting) phs.

Lemma deaf_turn q step q' : deaf q -> wire_turn q step q' ->
  deaf q' /\ forall i, (i, Prelude.Event (E := both locks wire) (inl GoListener) tt) ∉ step.
Proof.
  intros (Hl & phs & Hphs & Hno) Hturn. destruct Hturn as [s ts i o k r s' Hi Hs|]; [|done]. cbn in *.
  destruct (Forall2_lookup_r _ _ _ _ _ Hphs Hi) as (ph & Hph & Hin).
  destruct (phase_moves fuel ar dotFiles pv _ _ _ _ _ _ Hin Hs) as (ph' & Hin' & Hm & Hst).
  pose proof (Forall_lookup_1 _ _ _ _ Hno Hph) as (Hb & Hmk & Hs2).
  assert (starts fuel ar dotFiles pv o = []) as Hst' by (rewrite Hst; by destruct ph).
  assert (listening s' = true /\ ph' <> Body /\ ph' <> Making /\ ph' <> Starting) as (Hl' & Hb' & Hmk' & Hs').
  { destruct ph; try done; cbn in Hm; destruct_and?; destruct_or?; destruct_and?; subst; split_and?;
      try done; congruence. }
  split.
  - split; [done|]. exists (<[i := ph']> phs). rewrite Hst', app_nil_r. split; [by apply Forall2_insert|].
    by apply Forall_insert.
  - intros j Hin2%list_elem_of_singleton. injection Hin2 as _ Ho. subst o. done.
Qed.

Lemma deaf_schedule q sched q' : deaf q -> wire_schedule q sched q' ->
  deaf q' /\ forall i, (i, Prelude.Event (E := both locks wire) (inl GoListener) tt) ∉ sched.
Proof.
  intros Hq Hs. induction Hs as [|sched q1 step q2 Hs [IH1 IH2] Hturn]; [by split; [|intros i; apply not_elem_of_nil]|].
  destruct (deaf_turn _ _ _ IH1 Hturn) as [H1 H2]. split; [done|].
  intros i [H|H]%elem_of_app; [by apply IH2 in H|by apply H2 in H].
Qed.

(** One turn of the first goroutine, and of the last. *)
Lemma first_turn q0 sched s o k (ts : list goroutine) r s' :
  wire_schedule q0 sched (mkProcess s (Do o k :: ts)) -> shares o s r s' ->
  wire_schedule q0 (sched ++ [(0%nat, o ↝ r)]) (mkProcess s' (k r :: ts ++ starts fuel ar dotFiles pv o)).
Proof. intros H Hs. eapply schedule_turn; [exact H|]. by apply (turn_alone shares _ _ s (Do o k :: ts) 0). Qed.
Lemma last_turn q0 sched s o k (ts : list goroutine) r s' :
  wire_schedule q0 sched (mkProcess s (ts ++ [Do o k])) -> shares o s r s' ->
  starts fuel ar dotFiles pv o = [] ->
  wire_schedule q0 (sched ++ [(length ts, o ↝ r)]) (mkProcess s' (ts ++ [k r])).
Proof.
  intros H Hs Hst. eapply schedule_turn; [exact H|].
  pose proof (turn_alone shares (starts fuel ar dotFiles pv) meets s (ts ++ [Do o k]) (length ts) o k r s') as Ht.
  rewrite Hst, app_nil_r, insert_app_r_alt, Nat.sub_diag in Ht by lia. apply Ht; [|done].
  by rewrite lookup_app_r, Nat.sub_diag by lia.
Qed.
Lemma nth_turn i q0 sched s o k (ts : list goroutine) r s' :
  wire_schedule q0 sched (mkProcess s ts) -> ts !! i = Some (Do o k) -> shares o s r s' ->
  starts fuel ar dotFiles pv o = [] ->
  wire_schedule q0 (sched ++ [(i, o ↝ r)]) (mkProcess s' (<[i := k r]> ts)).
Proof.
  intros H Hi Hs Hst. eapply schedule_turn; [exact H|].
  rewrite <- (app_nil_r (<[i:=k r]> ts)), <- Hst. by apply turn_alone.
Qed.
End deaf.

(** Let the first goroutine, or the last, take a turn and get an answer. *)
Ltac first_turns H ans :=
  eapply first_turn with (r := ans) in H; [|by cbn; auto]; cbn in H; rewrite ?app_nil_r in H.
Ltac last_turns H ans :=
  eapply (last_turn _ _ _ _ _ _ _ _ _ (_ :: _)) with (r := ans) in H;
    [|by cbn; auto|reflexivity]; cbn in H.

Ltac nth_turns H i ans :=
  lazymatch type of H with
  | schedule _ _ _ _ _ (mkProcess ?s ?ts) =>
      let x := eval cbn in (ts !! i) in
      lazymatch x with
      | Some (Do ?o ?k) => eapply (nth_turn _ _ _ _ i _ _ s o k ts ans) in H;
          [|reflexivity|by cbn; auto|reflexivity]; cbn in H
      end
  end.

Section deaf_forever.
Context {T : K8sTypes} {L : K8sLib} `{J : GoJQ} `{JL : JobLib} `{SL : StringsLib}.
Variables (fuel : nat) (ar : ActionsRunner) (dotFiles : ptr Files) (pv : PolicyValidator).
Abbreviation wire_schedule := (schedule (A := unit) shares (starts (S fuel) ar dotFiles pv) meets).

Lemma deaf_reached ts : exists sched q, wire_schedule (opened (ensureListening :: ts)) sched q /\
  listening (shared q) = true /\ threads q = Ret tt :: ts ++ [Ret tt] /\
  Forall (fun ie => ev_op (E := both locks wire) ie.2 <> inr SetInvalid) sched.
Proof.
  pose proof (schedule_start shares (starts (S fuel) ar dotFiles pv) meets (opened (ensureListening :: ts))) as H.
  unfold opened, ensureListening, Listening, new_wire_state in H. cbn [bind lock call] in H.
  first_turns H tt. first_turns H false. first_turns H tt.
  first_turns H tt. first_turns H false. first_turns H tt. first_turns H tt.
  last_turns H (Done (A := result unit) (Ok tt)). last_turns H (Done (A := result unit) (Ok tt)).
  last_turns H false. last_turns H (Done (A := result unit) (Err (EOther "503"))).
  last_turns H tt. last_turns H false. last_turns H (Done (A := unit) tt).
  last_turns H (Done (A := result unit) (Ok tt)). last_turns H (Done (A := unit) tt).
  first_turns H tt. first_turns H tt.
  eexists _, _. split; [exact H|]. split_and!; [done..|]. by repeat constructor.
Qed.

Lemma deaf_after ts q : clients ts -> listening (shared q) = true -> threads q = Ret tt :: ts ++ [Ret tt] -> deaf q.
Proof.
  intros Hts Hl Hq. split; [done|]. exists (replicate (S (length ts + 1)) Outside). split.
  - apply Forall2_replicate_l; [rewrite Hq; cbn; by rewrite length_app|]. rewrite Hq.
    constructor; [done|]. apply Forall_app. split; [|by repeat constructor].
    eapply Forall_impl; [exact Hts|]. apply outside_client.
  - by apply Forall_replicate.
Qed.

(** [C39] A wire may go deaf for ever.  Whoever else uses the wire, if the listener
    that a reconciler starts comes to its end before the reconciler sets the flag,
    which the listener has cleared by then, the flag stays set: in whatever order
    everybody goes on from there, no listener is ever started again and nobody
    asks for messages, although the wire is still valid and says that it
    listens. *)
Theorem deaf_forever ts : clients ts ->
  exists sched q, wire_schedule (opened (ensureListening :: ts)) sched q /\
    Forall (fun ie => ev_op (E := both locks wire) ie.2 <> inr SetInvalid) sched /\
    forall sched' q', wire_schedule q sched' q' ->
      listening (shared q') = true /\ Forall (fun p => ~ may_poll p) (threads q') /\
      forall i, (i, Prelude.Event (E := both locks wire) (inl GoListener) tt) ∉ sched'.
Proof.
  intros Hts. destruct (deaf_reached ts) as (sched & q & Hs & Hl & Hq & Hvalid).
  exists sched, q. split_and!; [done..|]. intros sched' q' Hs'.
  destruct (deaf_schedule _ _ _ _ _ _ _ (deaf_after _ _ Hts Hl Hq) Hs') as [(Hl' & phs & Hphs & Hno) Hgo].
  split_and!; [done| |done]. apply Forall_lookup_2. intros i p Hi Hmay.
  destruct (Forall2_lookup_r _ _ _ _ _ Hphs Hi) as (ph & Hph & Hin).
  apply (in_phase_polls _ _ Hin) in Hmay as ->. by destruct (Forall_lookup_1 _ _ _ _ Hno Hph) as [? _].
Qed.

(** Between the test of the channel in [Close] and closing it there is room for
    another [Close]: the second of two then panics. *)
Lemma closed_twice s : loopClose s = Some false ->
  exists sched q, wire_schedule (mkProcess s [closeWire; closeWire]) sched q /\
    (1%nat, Prelude.Event (E := both locks wire) (inr CloseLoop)
              (Panicked (A := unit) (EOther "close of closed channel"))) ∈ sched.
Proof.
  intros Hs.
  pose proof (schedule_start shares (starts (S fuel) ar dotFiles pv) meets (mkProcess s [closeWire; closeWire])) as H.
  destruct s as [w r l c]. cbn in Hs. subst c. unfold closeWire, Close in H. cbn [inject_r bind call] in H.
  nth_turns H 0%nat false. nth_turns H 1%nat false. nth_turns H 0%nat (Done (A := unit) tt).
  nth_turns H 1%nat (Panicked (A := unit) (EOther "close of closed channel")).
  eexists _, _. split; [exact H|]. apply list_elem_of_further, list_elem_of_further, list_elem_of_further.
  apply list_elem_of_here.
Qed.
End deaf_forever.

(** ** Examples *)

Module ListeningExamples.
Import Demo ConverterExamples PolicyExamples WireExamples.

Definition two_clients : list goroutine := [ensureListening; closeWire].
Lemma two_clients_ok : clients two_clients.
Proof. constructor; [by left|]. constructor; [by right|]. constructor. Qed.

Lemma deaf_forever_witness :
  exists sched q, schedule (A := unit) shares (starts 1 guarded None NewPolicyValidator) meets
    (opened (ensureListening :: two_clients)) sched q /\ listening (shared q) = true.
Proof.
  destruct (deaf_forever 0 guarded None NewPolicyValidator two_clients two_clients_ok)
    as (sched & q & Hs & _ & H).
  exists sched, q. split; [exact Hs|]. exact (proj1 (H [] q (schedule_start _ _ _ q))).
Defined.

Abbreviation example_starts := (starts 1 guarded None NewPolicyValidator).
Lemma listener_started : exists sched q,
  schedule (A := unit) shares example_starts meets (opened [ensureListening]) sched q /\
  threads q !! 1%nat = Some (listenerGoroutine 1 guarded None NewPolicyValidator).
Proof.
  pose proof (schedule_start shares example_starts meets (opened [ensureListening])) as H.
  unfold opened, ensureListening, Listening, new_wire_state in H. cbn [bind lock call] in H.
  first_turns H tt. first_turns H false. first_turns H tt.
  first_turns H tt. first_turns H false. first_turns H tt. first_turns H tt.
  eexists _, _. split; [exact H|reflexivity].
Qed.

Lemma listener_polls : may_poll (listenerGoroutine 1 guarded None NewPolicyValidator).
Proof.
  right. exists (Done (Ok tt)). right. exists (Done (Ok tt)). right. exists false.
  right. exists (Done (Ok tt)). left. by exists None.
Qed.

Lemma one_listener_witness : exists sched q i j,
  schedule (A := unit) shares example_starts meets (opened [ensureListening]) sched q /\
  threads q !! i = Some (listenerGoroutine 1 guarded None NewPolicyValidator) /\
  threads q !! j = Some (listenerGoroutine 1 guarded None NewPolicyValidator) /\ i = j.
Proof.
  destruct listener_started as (sched & q & Hs & Hq). exists sched, q, 1%nat, 1%nat.
  split; [exact Hs|]. split; [exact Hq|]. split; [exact Hq|].
  apply (one_listener 1 guarded None NewPolicyValidator [ensureListening] sched q 1 1 _ _
    (Forall_cons_2 _ _ _ (or_introl eq_refl) (Forall_nil_2 _)) Hs Hq Hq listener_polls listener_polls).
Defined.
End ListeningExamples.
