(* ===== verification/Collection.v ===== *)
(** * wire/collection.go: the wires of the operator

    The registry that holds one wire per runner.  The wires themselves are
    handles: what the registry and the controller do with one is an operation
    of the signature [operator], next to the API client's. *)

From S2P Require Export Wire.
#[local] Open Scope string_scope.

(** A pointer to a wire. *)
Definition handle : Type := positive.

(** [wireRegistry], by the key of the runner. *)
Abbreviation registry := (gmap ObjectKey handle) (only parsing).

Section operator.
Context {T : K8sTypes}.

Inductive operator_op : Type :=
(* client.Client *)
| Kube (o : kube_op)
(* w.Valid(); &Wire{...} and its Init; w.Close(); w.Destroy() *)
| WireValid (w : handle)
| WireInit (actionsRunner : ActionsRunner) (dotFiles : ptr Files)
| WireClose (w : handle)
| WireDestroy (w : handle)
(* w.DotFiles; a receive from w.JobRequests() that does not wait *)
| WireDotFiles (w : handle)
| ReceiveJobRequest (w : handle)
| WireListening (w : handle)
| WireListen (w : handle)
(* close(c.eventChannel) *)
| CloseEventChannel
(* metrics *)
| SetGitHubActionsJobAlive (repository job : string)
| SetGitHubActionsJobDone (repository job : string).

Definition operator_ans (o : operator_op) : Type :=
  match o with
  | Kube o => kube_ans o
  | WireValid _ | ReceiveJobRequest _ | WireListening _ => bool
  | WireInit _ _ => attempt handle
  | WireClose _ | WireDestroy _ => attempt unit
  | WireDotFiles _ => ptr Files
  | CloseEventChannel => outcome unit
  | WireListen _ | SetGitHubActionsJobAlive _ _ | SetGitHubActionsJobDone _ _ => unit
  end.

Canonical operator : signature := Sig operator_op operator_ans.

#[global] Instance operator_op_eq_dec : EqDecision operator_op.
Proof. solve_decision. Defined.
#[global] Instance operator_eq_dec : EqDecision (sop operator) := operator_op_eq_dec.

(** ** The collection *)

Definition Collection_Init : registry := ∅.

Definition runner_key (ar : ActionsRunner) : ObjectKey :=
  mkKey (Namespace (ar_ObjectMeta ar)) (Name (ar_ObjectMeta ar)).

(** [Destroy(ctx, wire)]: an error of closing is only logged. *)
Definition Collection_Destroy (w : handle) : prog operator (attempt unit) :=
  let! r := call (WireClose w) in
  match r with
  | Panicked e => Ret (Panicked e)
  | Done _ => call (WireDestroy w)
  end.

(** [GetWire]: a valid wire of the registry.  An invalid one is destroyed, and
    stays registered. *)
Definition GetWire (actionsRunner : ptr ActionsRunner) (reg : registry)
    : prog operator (attempt (ptr handle)) :=
  match actionsRunner with
  | None => Ret (Done (Err (ENew "ActionsRunner == nil")))
  | Some ar =>
      match reg !! runner_key ar with
      | None => Ret (Done (Ok None))
      | Some w =>
          let! valid := call (WireValid w) in
          if valid then Ret (Done (Ok (Some w)))
          else
            let! r := Collection_Destroy w in
            match r with
            | Panicked e => Ret (Panicked e)
            | Done _ => Ret (Done (Ok None))
            end
      end
  end.

(** [MakeWire]: only an initialised wire is registered. *)
Definition MakeWire (actionsRunner : ptr ActionsRunner) (dotFiles : ptr Files) (reg : registry)
    : prog operator (attempt handle * registry) :=
  match actionsRunner with
  | None => Ret (Done (Err (ENew "ActionsRunner == nil")), reg)
  | Some ar =>
      let! r := call (WireInit ar dotFiles) in
      match r with
      | Done (Ok w) => Ret (Done (Ok w), <[runner_key ar := w]> reg)
      | Done (Err e) => Ret (Done (Err e), reg)
      | Panicked e => Ret (Panicked e, reg)
      end
  end.

Definition WireFor (actionsRunner : ptr ActionsRunner) (dotFiles : ptr Files) (reg : registry)
    : prog operator (attempt handle * registry) :=
  let! r := GetWire actionsRunner reg in
  match r with
  | Panicked e => Ret (Panicked e, reg)
  | Done (Err e) => Ret (Done (Err e), reg)
  | Done (Ok (Some w)) => Ret (Done (Ok w), reg)
  | Done (Ok None) => MakeWire actionsRunner dotFiles reg
  end.

(** [TryDestroy]: the wire leaves the registry before it is destroyed. *)
Definition TryDestroy (namespacedName : ObjectKey) (reg : registry)
    : prog operator (attempt unit * registry) :=
  match reg !! namespacedName with
  | None => Ret (Done (Ok tt), reg)
  | Some w =>
      let! r := Collection_Destroy w in
      Ret (r, delete namespacedName reg)
  end.

(** [Deinit]: the event channel is closed, then a goroutine per wire closes it.
    The result lists the goroutines. *)
Definition Deinit (reg : registry)
    : prog operator (outcome unit * list (prog operator (attempt unit))) :=
  let! r := call CloseEventChannel in
  match r with
  | Panicked e => Ret (Panicked e, [])
  | Done _ => 
      Ret (Done tt, map (fun kw : ObjectKey * handle =>
                             (call (WireClose kw.2) : prog operator (attempt unit)))
                      (map_to_list reg))
  end.
End operator.

(** ** Properties *)

Section collection.
Context {T : K8sTypes}.

(** The registered wire, if any, was closed and destroyed for being invalid. *)
Definition replaced (tr : trace operator) (ar : ActionsRunner) (reg : registry) : Prop :=
  forall w, reg !! runner_key ar = Some w ->
    answered tr (WireValid w) false /\ WireClose w ∈ ops tr /\ WireDestroy w ∈ ops tr.

(** A runner's wire is the registered one when that is valid; otherwise a
    new one, initialised for this runner, which takes its place after the old
    one has been closed and destroyed.  The registry changes only for a new wire
    and only at the runner's key: a wire that could not be initialised is never
    registered.  Asking again with the registry as it is left gives the same
    wire as long as it is valid. *)
Theorem WireFor_spec ar d reg tr out reg' :
  runs (WireFor (Some ar) d reg) tr (out, reg') ->
  match out with
  | Done (Ok w) =>
      (reg !! runner_key ar = Some w /\ reg' = reg /\ tr = [WireValid w ↝ true]) \/
      (replaced tr ar reg /\ answered tr (WireInit ar d) (Done (Ok w)) /\
       reg' = <[runner_key ar := w]> reg)
  | Done (Err e) =>
      replaced tr ar reg /\ answered tr (WireInit ar d) (Done (Err e)) /\ reg' = reg
  | Panicked e => reg' = reg
  end /\
  (forall w, out = Done (Ok w) ->
     runs (WireFor (Some ar) d reg') [WireValid w ↝ true] (Done (Ok w), reg')).
Proof.
  intros Hrun.
  assert (always (WireFor (Some ar) d reg) (fun tr r =>
    match r.1 with
    | Done (Ok w) =>
        (reg !! runner_key ar = Some w /\ r.2 = reg /\ tr = [WireValid w ↝ true]) \/
        (replaced tr ar reg /\ answered tr (WireInit ar d) (Done (Ok w)) /\
         r.2 = <[runner_key ar := w]> reg)
    | Done (Err e) =>
        replaced tr ar reg /\ answered tr (WireInit ar d) (Done (Err e)) /\ r.2 = reg
    | Panicked e => r.2 = reg
    end)) as Hall.
  { unfold WireFor, GetWire, MakeWire, replaced.
    destruct (reg !! runner_key ar) as [w|] eqn:Hw; cbn [bind].
    - unfold Collection_Destroy. walk; cbn [fst snd]; auto;
        try (right; split_and!; [|find_event|done]); try (split_and!; [|find_event|done]);
        intros w' [= <-]; split_and!; try find_event; set_solver.
    - walk; cbn [fst snd]; auto;
        try (right; split_and!; [done|find_event|done]); by split_and!; try find_event. }
  apply (runs_always _ _ _ _ Hall) in Hrun as Hout. cbn [fst snd] in Hout.
  split; [exact Hout|]. intros w ->.
  assert (reg' !! runner_key ar = Some w) as Hw.
  { destruct Hout as [(Hw & -> & _)|(_ & _ & ->)]; [done|apply lookup_insert_eq]. }
  unfold WireFor, GetWire. rewrite Hw. apply runs_do. by apply runs_ret.
Qed.

(** Destroying the wire of a runner that is gone removes it from the
    registry, whatever becomes of it, and touches no other; it closes and
    destroys exactly that wire, and does nothing when there is none, as when it
    is called again. *)
Theorem TryDestroy_spec key reg tr out reg' :
  runs (TryDestroy key reg) tr (out, reg') ->
  reg' = delete key reg /\
  (tr = [] <-> reg !! key = None) /\
  (forall w, reg !! key = Some w ->
     WireClose w ∈ ops tr /\
     Forall (fun o => o = WireClose w \/ o = WireDestroy w) (ops tr) /\
     (WireDestroy w ∈ ops tr \/ exists e, answered tr (WireClose w) (Panicked e))) /\
  runs (TryDestroy key reg') [] (Done (Ok tt), reg').
Proof.
  intros Hrun.
  assert (always (TryDestroy key reg) (fun tr r =>
    r.2 = delete key reg /\ (tr = [] <-> reg !! key = None) /\
    (forall w, reg !! key = Some w ->
       WireClose w ∈ ops tr /\
       Forall (fun o => o = WireClose w \/ o = WireDestroy w) (ops tr) /\
       (WireDestroy w ∈ ops tr \/ exists e, answered tr (WireClose w) (Panicked e))))) as Hall.
  { unfold TryDestroy. destruct (reg !! key) as [w|] eqn:Hw.
    - unfold Collection_Destroy. walk; cbn [fst snd].
      all: split; [done|]; split; [done|]; intros w' [= <-];
        (split_and!; [set_solver | repeat (apply Forall_cons; split; [by auto|]); constructor |]).
      all: first [left; set_solver | right; eexists; find_event].
    - cbn. split; [symmetry; by apply delete_id|]. by split_and!. }
  apply (runs_always _ _ _ _ Hall) in Hrun as (Hreg & Hnil & Hops). cbn [fst snd] in *.
  split_and!; [done..|]. unfold TryDestroy. by rewrite Hreg, lookup_delete_eq.
Qed.

(** On shutdown every registered wire is closed, once, by a goroutine of
    its own, after the event channel; a second shutdown panics there. *)
Theorem Deinit_closes reg tr out gs :
  runs (Deinit reg) tr (out, gs) ->
  match out with
  | Done _ => exists ws, ws ≡ₚ (map_to_list reg).*2 /\
      Forall2 (fun g w => forall r, runs g [WireClose w ↝ r] r) gs ws
  | Panicked e => answered tr CloseEventChannel (Panicked e) /\ gs = []
  end.
Proof.
  intros (r & tr' & -> & H). destruct r as [u|e]; destruct H as [-> H]; injection H as -> ->.
  - exists (map_to_list reg).*2. split; [done|].
    induction (map_to_list reg) as [|[k w] l IH]; constructor; [|done].
    intros r. apply runs_do. by apply runs_ret.
  - split; [find_event|done].
Qed.
End collection.

(** ** Examples *)

Module CollectionExamples.
Import Demo.

Definition registered : registry := {[ mkKey "ci" "r" := 1%positive ]}.

(** An invalid wire, and a new one that can be made. *)
Definition serve_wires (o : sop operator) (s : unit) : sans operator o * unit :=
  (match o return operator_ans o with
   | Kube o => (serve o (World not_found not_found not_found not_found not_found not_found
                           not_found not_found (Ok []) None)).1
   | WireValid _ | ReceiveJobRequest _ | WireListening _ => false
   | WireInit _ _ => Done (Ok 2%positive)
   | WireClose _ | WireDestroy _ => Done (Ok tt)
   | WireDotFiles _ => None
   | CloseEventChannel => Done tt
   | WireListen _ | SetGitHubActionsJobAlive _ _ | SetGitHubActionsJobDone _ _ => tt
   end, s).

Abbreviation asking := (WireFor (Some (runner "r" "1")) None registered).
Definition asked := exec serve_wires asking tt.
Lemma asked_runs : runs asking asked.1.1 (Done (Ok 2%positive), {[ mkKey "ci" "r" := 2%positive ]}).
Proof. exact (exec_runs serve_wires asking tt). Qed.

Lemma WireFor_spec_witness :
  runs (WireFor (Some (runner "r" "1")) None {[ mkKey "ci" "r" := 2%positive ]})
    [WireValid 2%positive ↝ true] (Done (Ok 2%positive), {[ mkKey "ci" "r" := 2%positive ]}).
Proof. exact (proj2 (WireFor_spec _ _ _ _ _ _ asked_runs) _ eq_refl). Defined.

Abbreviation destroying := (TryDestroy (mkKey "ci" "r") registered).
Definition destroyed := exec serve_wires destroying tt.
Lemma destroyed_runs : runs destroying destroyed.1.1 (Done (Ok tt), ∅).
Proof. exact (exec_runs serve_wires destroying tt). Qed.

Lemma TryDestroy_spec_witness : WireClose 1%positive ∈ ops destroyed.1.1.
Proof.
  exact (proj1 (proj1 (proj2 (proj2 (TryDestroy_spec _ _ _ _ _ destroyed_runs))) _ eq_refl)).
Defined.

Definition shut_down := exec serve_wires (Deinit registered) tt.
Lemma Deinit_closes_witness :
  exists ws, ws ≡ₚ [1%positive] /\
    Forall2 (fun g w => forall r, runs g [WireClose w ↝ r] r) shut_down.1.2.2 ws.
Proof.
  exact (Deinit_closes registered _ (Done tt) _ (exec_runs serve_wires (Deinit registered) tt)).
Defined.
End CollectionExamples.
