(* ===== verification/RunnerReconciler.v ===== *)
(** * internal/controller/actionsrunner/reconciler.go

    One pass of the controller of an ActionsRunner: it keeps the runner's wire,
    writes its dot files to a ConfigMap and a Secret, keeps its
    PodDisruptionBudget, and turns each job request of the wire into an
    ActionsRunnerJob, which it deletes once completed. *)

From S2P Require Export OAuth Collection.
#[local] Open Scope string_scope.

(** ** The reconciler *)

Section runner.
Context {T : K8sTypes} {L : K8sLib}.

Definition eventFilter (e : Event) : bool :=
  match EventObject e with
  | Some (OConfigMap _) | Some (OSecret _) | Some (OPodDisruptionBudget _)
  | Some (OActionsRunnerJob _) =>
      match e with UpdateEvent _ _ | DeleteEvent _ => true | _ => false end
  | _ => true
  end.

(** A step of a pass: it ends the pass with a result, or goes on. *)
Inductive step (A : Type) : Type :=
| Return (err : goerr)
| Continue (a : A).
Arguments Return {_} err.
Arguments Continue {_} a.

(** [if err := r.Create(ctx, o); IgnoreAlreadyExists(err) != nil { return err }] *)
Definition create (o : object) : prog operator (step unit) :=
  let! err := call (Kube (Create o)) in
  Ret (match IgnoreAlreadyExists err with Some e => Return (Some e) | None => Continue tt end).

(** [r.Get] of a ConfigMap, a Secret or a PodDisruptionBudget: not found leaves
    the variable zero, and one that is being deleted ends the pass. *)
Definition getConfigMap (req : ObjectKey) : prog operator (step ConfigMap) :=
  let! r := call (Kube (Get KConfigMap req)) in
  Ret (match IgnoreNotFound (err_of r) with
       | Some e => Return (Some e)
       | None =>
           let o := value_or ConfigMap_zero r in
           if IsBeingDeleted (Some (OConfigMap o)) then Return None else Continue o
       end).
Definition getSecret (req : ObjectKey) : prog operator (step Secret) :=
  let! r := call (Kube (Get KSecret req)) in
  Ret (match IgnoreNotFound (err_of r) with
       | Some e => Return (Some e)
       | None =>
           let o := value_or Secret_zero r in
           if IsBeingDeleted (Some (OSecret o)) then Return None else Continue o
       end).
Definition getPodDisruptionBudget (req : ObjectKey) : prog operator (step PodDisruptionBudget) :=
  let! r := call (Kube (Get KPodDisruptionBudget req)) in
  Ret (match IgnoreNotFound (err_of r) with
       | Some e => Return (Some e)
       | None =>
           let o := value_or PodDisruptionBudget_zero r in
           if IsBeingDeleted (Some (OPodDisruptionBudget o)) then Return None else Continue o
       end).

(** An unrecoverable error of the wire: the ConfigMap and the Secret, as read,
    are deleted; the errors of the deletions are only logged. *)
Definition forget (configMap : ConfigMap) (secret : Secret) (err : error) : prog operator goerr :=
  if negb (IsUnrecoverable (Some err)) then Ret (Some err)
  else
    let! _ := call (Kube (Delete (OConfigMap configMap))) in
    let! _ := call (Kube (Delete (OSecret secret))) in
    Ret (Some err).

(** The dot files, created where missing and then always updated.  [dotFiles]
    is [w.DotFiles], which nothing writes once the wire is initialised. *)
Definition writeConfigMap (scheme : ptr Scheme) (ar : ActionsRunner) (dotFiles : ptr Files)
    : prog operator (step unit) :=
  match ToConfigMap dotFiles (Some ar) scheme with
  | Err e => Ret (Return (Some e))
  | Ok desired =>
      let! err := call (Kube (Update (OConfigMap desired))) in
      Ret (match err with Some e => Return (Some e) | None => Continue tt end)
  end.
Definition writeSecret (scheme : ptr Scheme) (ar : ActionsRunner) (dotFiles : ptr Files)
    : prog operator (step unit) :=
  match ToSecret dotFiles (Some ar) scheme with
  | Err e => Ret (Return (Some e))
  | Ok desired =>
      let! err := call (Kube (Update (OSecret desired))) in
      Ret (match err with Some e => Return (Some e) | None => Continue tt end)
  end.
Definition createConfigMap (scheme : ptr Scheme) (ar : ActionsRunner) (dotFiles : ptr Files)
    (configMap : ConfigMap) : prog operator (step unit) :=
  if IsZero (Some (OConfigMap configMap)) then
    match ToConfigMap dotFiles (Some ar) scheme with
    | Err e => Ret (Return (Some e))
    | Ok desired => create (OConfigMap desired)
    end
  else Ret (Continue tt).
Definition createSecret (scheme : ptr Scheme) (ar : ActionsRunner) (dotFiles : ptr Files)
    (secret : Secret) : prog operator (step unit) :=
  if IsZero (Some (OSecret secret)) then
    match ToSecret dotFiles (Some ar) scheme with
    | Err e => Ret (Return (Some e))
    | Ok desired => create (OSecret desired)
    end
  else Ret (Continue tt).

(** [if s is a return, return it; else k] *)
Definition next {A B} (p : prog operator (step A)) (k : A -> prog operator (step B))
    : prog operator (step B) :=
  let! s := p in
  match s with
  | Return err => Ret (Return err)
  | Continue a => k a
  end.

Definition writeDotFiles (scheme : ptr Scheme) (ar : ActionsRunner) (w : handle)
    (configMap : ConfigMap) (secret : Secret) : prog operator (step unit) :=
  let! dotFiles := call (WireDotFiles w) in
  next (createConfigMap scheme ar dotFiles configMap) (fun _ =>
  next (createSecret scheme ar dotFiles secret) (fun _ =>
  next (writeConfigMap scheme ar dotFiles) (fun _ =>
  writeSecret scheme ar dotFiles))).

(** The PodDisruptionBudget. *)
Definition reconcileBudget (scheme : ptr Scheme) (req : ObjectKey) (ar : ActionsRunner)
    : prog operator (step unit) :=
  next (getPodDisruptionBudget req) (fun actual =>
  match ToPodDisruptionBudget (Some ar) scheme with
  | Err e => Ret (Return (Some e))
  | Ok desired =>
      match CalculateReconciliationAction (Some (OPodDisruptionBudget actual))
              (Some (OPodDisruptionBudget desired)) with
      | ReconciliationActionCreate => create (OPodDisruptionBudget desired)
      | ReconciliationActionUpdate =>
          if bool_decide (pdb_Spec actual = pdb_Spec desired) then Ret (Continue tt)
          else
            let! err := call (Kube (Update (OPodDisruptionBudget desired))) in
            Ret (match IgnoreNotFound err with Some e => Return (Some e) | None => Continue tt end)
      | ReconciliationActionDelete =>
          let! err := call (Kube (Delete (OPodDisruptionBudget desired))) in
          Ret (match IgnoreNotFound err with Some e => Return (Some e) | None => Continue tt end)
      | ReconciliationActionNothing => Ret (Continue tt)
      end
  end).

Definition completed (arj : ActionsRunnerJob) : bool :=
  bool_decide (PersistentVolumeClaimPhase (arj_Status arj) = ClaimLost) ||
  bool_decide (PodPhase (arj_Status arj) ∈ [PodSucceeded; PodFailed; PodUnknown]).

(** The ActionsRunnerJob. *)
Definition reconcileJob (scheme : ptr Scheme) (req : ObjectKey) (ar : ActionsRunner) (w : handle)
    : prog operator goerr :=
  let repository := repo_Name (Repository (Spec ar)) in
  let! r := call (Kube (Get KActionsRunnerJob req)) in
  match r with
  | Err e =>
      if IsNotFound e then
        let! requested := call (ReceiveJobRequest w) in
        if requested then
          match ToActionsRunnerJob (Some ar) scheme with
          | Err e => Ret (Some e)
          | Ok desired =>
              let! err := call (Kube (Create (OActionsRunnerJob desired))) in
              match IgnoreAlreadyExists err with
              | Some e => Ret (Some e)
              | None =>
                  let! _ := call (SetGitHubActionsJobAlive repository (Name (arj_ObjectMeta desired))) in
                  Ret None
              end
          end
        else
          let! listening := call (WireListening w) in
          if negb listening then let! _ := call (WireListen w) in Ret None
          else Ret None
      else Ret (Some e)
  | Ok arj =>
      if IsBeingDeleted (Some (OActionsRunnerJob arj)) then Ret None
      else if negb (completed arj) then Ret None
      else
        let! err := call (Kube (Delete (OActionsRunnerJob arj))) in
        match IgnoreNotFound err with
        | Some e => Ret (Some e)
        | None =>
            let! _ := call (SetGitHubActionsJobDone repository (Name (arj_ObjectMeta arj))) in
            Ret None
        end
  end.

(** What follows once the runner has its wire. *)
Definition reconcileWired (scheme : ptr Scheme) (req : ObjectKey) (ar : ActionsRunner) (w : handle)
    (configMap : ConfigMap) (secret : Secret) : prog operator goerr :=
  let! s := next (writeDotFiles scheme ar w configMap secret)
              (fun _ => reconcileBudget scheme req ar) in
  match s with
  | Return err => Ret err
  | Continue _ => reconcileJob scheme req ar w
  end.

(** [Reconcile]: [gone] is the field the signal handler sets; the registry is
    the collection's. *)
Definition Reconcile (gone : bool) (scheme : ptr Scheme) (req : ObjectKey) (reg : registry)
    : prog operator (outcome goerr * registry) :=
  let done err := Ret (Done err, reg) in
  if gone then done None
  else
    let! r := call (Kube (Get KActionsRunner req)) in
    match r with
    | Err e =>
        if IsNotFound e then
          let! r := TryDestroy req reg in
          Ret (match r.1 with
               | Panicked e => Panicked e
               | Done r => Done (err_of r)
               end, r.2)
        else done (Some e)
    | Ok ar =>
        let ar := ar_clear_managed ar in
        if IsBeingDeleted (Some (OActionsRunner ar)) then done None
        else
          let! s := next (getConfigMap req) (fun configMap =>
                    next (getSecret req) (fun secret => Ret (Continue (configMap, secret)))) in
          match s with
          | Return err => done err
          | Continue (configMap, secret) =>
              let! w := WireFor (Some ar) None reg in
              match w.1 with
              | Panicked e => Ret (Panicked e, w.2)
              | Done (Err e) => let! err := forget configMap secret e in Ret (Done err, w.2)
              | Done (Ok h) =>
                  let! err := reconcileWired scheme req ar h configMap secret in
                  Ret (Done err, w.2)
              end
          end
    end.
End runner.
Arguments Return {_} err.
Arguments Continue {_} a.

#[local] Arguments ToConfigMap : simpl never.
#[local] Arguments ToSecret : simpl never.
#[local] Arguments ToPodDisruptionBudget : simpl never.
#[local] Arguments ToActionsRunnerJob : simpl never.
#[local] Arguments ar_clear_managed : simpl never.
#[local] Arguments IsBeingDeleted : simpl never.
#[local] Arguments IsZero : simpl never.
#[local] Arguments completed : simpl never.
#[local] Arguments IsUnrecoverable : simpl never.

(** ** When a pass performs what *)

#[local] Open Scope list_scope.

Section justified.
Context {T : K8sTypes} {L : K8sLib}.
Context (scheme : ptr Scheme) (req : ObjectKey).

(** What a pass may know from the answers in [tr]. *)
Definition runner_seen (tr : trace operator) (ar : ActionsRunner) : Prop :=
  exists ar0, ar = ar_clear_managed ar0 /\
    answered tr (Kube (Get KActionsRunner req)) (Ok ar0) /\
    IsBeingDeleted (Some (OActionsRunner ar)) = false.
Definition wire_seen (tr : trace operator) (w : handle) : Prop :=
  answered tr (WireValid w) true \/ exists ar, answered tr (WireInit ar None) (Done (Ok w)).
Definition no_job (tr : trace operator) : Prop :=
  exists e, answered tr (Kube (Get KActionsRunnerJob req)) (Err e) /\ IsNotFound e = true.
Definition seen_or_zero {k} (tr : trace operator) (zero o : obj k) : Prop :=
  answered tr (Kube (Get k req)) (Ok o) \/
  (o = zero /\ exists e, answered tr (Kube (Get k req)) (Err e) /\ IsNotFound e = true).
Definition unrecoverable (tr : trace operator) : Prop :=
  exists ar e, answered tr (WireInit ar None) (Done (Err e)) /\ IsUnrecoverable (Some e) = true.
Definition dotFiles_of (tr : trace operator) (d : ptr Files) : Prop :=
  exists w, wire_seen tr w /\ answered tr (WireDotFiles w) d.

(** The dot files of the wire are in the ConfigMap and in the Secret. *)
Definition written (tr : trace operator) : Prop :=
  exists ar d c s, runner_seen tr ar /\ dotFiles_of tr d /\
    ToConfigMap d (Some ar) scheme = Ok c /\ ToSecret d (Some ar) scheme = Ok s /\
    answered tr (Kube (Update (OConfigMap c))) None /\
    answered tr (Kube (Update (OSecret s))) None.

(** The runner's budget is as desired: read so, created, or updated. *)
Definition kept (tr : trace operator) : Prop :=
  exists ar b, runner_seen tr ar /\ ToPodDisruptionBudget (Some ar) scheme = Ok b /\
    ((exists actual, answered tr (Kube (Get KPodDisruptionBudget req)) (Ok actual) /\
        pdb_Spec actual = pdb_Spec b) \/
     (exists err, answered tr (Kube (Create (OPodDisruptionBudget b))) err /\
        IgnoreAlreadyExists err = None) \/
     (exists err, answered tr (Kube (Update (OPodDisruptionBudget b))) err /\
        IgnoreNotFound err = None)).

(** The condition under which an operation is performed, after the answers in
    [tr]. *)
Definition justified (tr : trace operator) (o : operator_op) : Prop :=
  match o with
  | Kube (Get KActionsRunnerJob k) => k = req /\ written tr /\ kept tr
  | Kube (Get KPodDisruptionBudget k) => k = req /\ written tr
  | Kube (Get _ k) => k = req
  | Kube (Create (OActionsRunnerJob j)) =>
      exists ar w, runner_seen tr ar /\ wire_seen tr w /\ no_job tr /\
        answered tr (ReceiveJobRequest w) true /\ ToActionsRunnerJob (Some ar) scheme = Ok j
  | Kube (Delete (OActionsRunnerJob j)) =>
      answered tr (Kube (Get KActionsRunnerJob req)) (Ok j) /\ completed j = true /\
      IsBeingDeleted (Some (OActionsRunnerJob j)) = false
  | Kube (Create (OConfigMap c)) =>
      exists ar d, runner_seen tr ar /\ dotFiles_of tr d /\ ToConfigMap d (Some ar) scheme = Ok c /\
        seen_or_zero (k := KConfigMap) tr ConfigMap_zero ConfigMap_zero
  | Kube (Create (OSecret s)) =>
      exists ar d, runner_seen tr ar /\ dotFiles_of tr d /\ ToSecret d (Some ar) scheme = Ok s /\
        seen_or_zero (k := KSecret) tr Secret_zero Secret_zero
  | Kube (Update (OConfigMap c)) =>
      exists ar d, runner_seen tr ar /\ dotFiles_of tr d /\ ToConfigMap d (Some ar) scheme = Ok c
  | Kube (Update (OSecret s)) =>
      exists ar d, runner_seen tr ar /\ dotFiles_of tr d /\ ToSecret d (Some ar) scheme = Ok s
  | Kube (Delete (OConfigMap c)) =>
      unrecoverable tr /\ seen_or_zero (k := KConfigMap) tr ConfigMap_zero c
  | Kube (Delete (OSecret s)) =>
      unrecoverable tr /\ seen_or_zero (k := KSecret) tr Secret_zero s
  | Kube (Create (OPodDisruptionBudget b)) =>
      exists ar, runner_seen tr ar /\ ToPodDisruptionBudget (Some ar) scheme = Ok b /\
        seen_or_zero (k := KPodDisruptionBudget) tr PodDisruptionBudget_zero PodDisruptionBudget_zero
  | Kube (Update (OPodDisruptionBudget b)) =>
      exists ar actual, runner_seen tr ar /\ ToPodDisruptionBudget (Some ar) scheme = Ok b /\
        answered tr (Kube (Get KPodDisruptionBudget req)) (Ok actual) /\
        pdb_Spec actual <> pdb_Spec b /\
        IsBeingDeleted (Some (OPodDisruptionBudget actual)) = false
  | Kube _ => False
  | ReceiveJobRequest w => wire_seen tr w /\ no_job tr
  | WireListen w =>
      wire_seen tr w /\ no_job tr /\ answered tr (ReceiveJobRequest w) false /\
      answered tr (WireListening w) false
  | WireDotFiles w | WireListening w => wire_seen tr w
  | WireInit ar d => runner_seen tr ar /\ d = None
  | WireValid _ | WireClose _ | WireDestroy _ => True
  | SetGitHubActionsJobAlive _ _ | SetGitHubActionsJobDone _ _ => True
  | CloseEventChannel => False
  end.

(** More answers justify no less. *)
Lemma answered_incl (tr tr' : trace operator) o r :
  tr ⊆ tr' -> answered tr o r -> answered tr' o r.
Proof. intros Hs. apply Hs. Qed.

#[local] Hint Resolve answered_incl : core.

Lemma runner_seen_incl tr tr' ar : tr ⊆ tr' -> runner_seen tr ar -> runner_seen tr' ar.
Proof. intros ? (? & ? & ? & ?). unfold runner_seen. eauto 6. Qed.
Lemma wire_seen_incl tr tr' w : tr ⊆ tr' -> wire_seen tr w -> wire_seen tr' w.
Proof. intros ? [?|(? & ?)]; [left|right]; eauto. Qed.
Lemma no_job_incl tr tr' : tr ⊆ tr' -> no_job tr -> no_job tr'.
Proof. intros ? (? & ? & ?). unfold no_job. eauto. Qed.
Lemma seen_or_zero_incl k tr tr' (zero o : obj k) :
  tr ⊆ tr' -> seen_or_zero tr zero o -> seen_or_zero tr' zero o.
Proof. intros ? [?|(? & ? & ? & ?)]; [left|right]; eauto 6. Qed.
Lemma unrecoverable_incl tr tr' : tr ⊆ tr' -> unrecoverable tr -> unrecoverable tr'.
Proof. intros ? (? & ? & ? & ?). unfold unrecoverable. eauto 6. Qed.
Lemma dotFiles_of_incl tr tr' d : tr ⊆ tr' -> dotFiles_of tr d -> dotFiles_of tr' d.
Proof. intros ? (? & ? & ?). unfold dotFiles_of. eauto using wire_seen_incl. Qed.
#[local] Hint Resolve runner_seen_incl wire_seen_incl no_job_incl seen_or_zero_incl
  unrecoverable_incl dotFiles_of_incl : core.

Lemma written_incl tr tr' : tr ⊆ tr' -> written tr -> written tr'.
Proof.
  intros ? (ar & d & c & s & ? & ? & ? & ? & ? & ?). exists ar, d, c, s. split_and!; eauto.
Qed.
Lemma kept_incl tr tr' : tr ⊆ tr' -> kept tr -> kept tr'.
Proof.
  intros ? (ar & b & ? & ? & H). exists ar, b. split; [by eauto|]. split; [done|].
  destruct H as [(? & ? & ?)|[(? & ? & ?)|(? & ? & ?)]]; eauto 6.
Qed.
#[local] Hint Resolve written_incl kept_incl : core.

(** Every operation of [tr] is justified by the answers before it. *)
Fixpoint obeys (tr0 tr : trace operator) : Prop :=
  match tr with
  | [] => True
  | e :: tr' => justified tr0 (ev_op e) /\ obeys (tr0 ++ [e]) tr'
  end.

Lemma obeys_app tr0 tr tr' : obeys tr0 (tr ++ tr') <-> obeys tr0 tr /\ obeys (tr0 ++ tr) tr'.
Proof.
  revert tr0. induction tr as [|e tr IH]; intros tr0; cbn; [rewrite app_nil_r; tauto|].
  rewrite IH, <- app_assoc. tauto.
Qed.

Lemma obeys_split tr tr1 o r tr2 : obeys [] tr -> tr = tr1 ++ (o ↝ r) :: tr2 -> justified tr1 o.
Proof. intros H ->. by apply obeys_app in H as (_ & H & _). Qed.

(** [safe tr0 p R]: after the answers [tr0], [p] performs only what is justified,
    and ends in [R]. *)
Definition safe {A} (tr0 : trace operator) (p : prog operator A)
    (R : trace operator -> A -> Prop) : Prop :=
  always p (fun tr a => obeys tr0 tr /\ R tr a).

Lemma safe_ret {A} tr0 (a : A) (R : trace operator -> A -> Prop) : R [] a -> safe tr0 (Ret a) R.
Proof. by split. Qed.

Lemma safe_mono {A} tr0 (p : prog operator A) (R R' : trace operator -> A -> Prop) :
  safe tr0 p R -> (forall tr a, R tr a -> R' tr a) -> safe tr0 p R'.
Proof. intros H HR. eapply always_mono; [exact H|]. naive_solver. Qed.

Lemma safe_bind {A B} tr0 (p : prog operator A) (f : A -> prog operator B) R Q :
  safe tr0 p R ->
  (forall tr a, R tr a -> safe (tr0 ++ tr) (f a) (fun tr' b => Q (tr ++ tr')%list b)) ->
  safe tr0 (bind p f) Q.
Proof.
  intros Hp Hf. apply always_bind. eapply always_mono; [exact Hp|].
  intros tr a [Hj HR]. eapply always_mono; [exact (Hf tr a HR)|].
  intros tr' b [Hj' HQ]. split; [|done]. by apply obeys_app.
Qed.

Lemma safe_next {A B} tr0 (p : prog operator (step A)) (k : A -> prog operator (step B)) R Q :
  safe tr0 p (fun tr s => match s with Return err => Q tr (Return err) | Continue a => R tr a end) ->
  (forall tr a, R tr a -> safe (tr0 ++ tr) (k a) (fun tr' b => Q (tr ++ tr')%list b)) ->
  safe tr0 (next p k) Q.
Proof.
  intros Hp Hk. unfold next. eapply safe_bind; [exact Hp|]. cbn. intros tr [err|a] H; [|by apply Hk].
  apply safe_ret. by rewrite app_nil_r.
Qed.

(** In [tr] the job is not looked at and no request for one is received; and no
    wire is initialised either. *)
Definition job_op (o : operator_op) : bool :=
  match o with Kube (Get KActionsRunnerJob _) | ReceiveJobRequest _ => true | _ => false end.
Definition loud (o : operator_op) : bool :=
  match o with WireInit _ _ => true | _ => job_op o end.
Definition unasked (tr : trace operator) : Prop := Forall (fun o => job_op o = false) (ops tr).
Definition quiet (tr : trace operator) : Prop := Forall (fun o => loud o = false) (ops tr).
Lemma quiet_app tr tr' : quiet tr -> quiet tr' -> quiet (tr ++ tr').
Proof. unfold quiet. rewrite ops_app. apply Forall_app_2. Qed.

(** A step of a pass that is justified after [tr0], neither receives a job
    request nor initialises a wire, and when it goes on leaves a history that satisfies [R]. *)
Definition settles {A} (tr0 : trace operator) (p : prog operator (step A))
    (R : trace operator -> A -> Prop) : Prop :=
  safe tr0 p (fun tr s => quiet tr /\ forall a, s = Continue a -> R (tr0 ++ tr) a).

Lemma settles_return {A} tr0 err (R : trace operator -> A -> Prop) : settles tr0 (Ret (Return err)) R.
Proof. apply safe_ret. split; [constructor|done]. Qed.

Lemma settles_continue {A} tr0 a (R : trace operator -> A -> Prop) :
  R tr0 a -> settles tr0 (Ret (Continue a)) R.
Proof. intros H. apply safe_ret. split; [constructor|]. rewrite app_nil_r. by intros ? [= <-]. Qed.

(** A last operation. *)
Lemma settles_last {A} tr0 (o : sop operator) (f : sans operator o -> step A)
    (R : trace operator -> A -> Prop) :
  loud o = false ->
  justified tr0 o ->
  (forall r a, f r = Continue a -> R (tr0 ++ [o ↝ r]) a) ->
  settles tr0 (let! r := call o in Ret (f r)) R.
Proof. intros Ho Hj Hf r. split; [done|]. split; [by repeat constructor|]. apply Hf. Qed.

Lemma settles_next {A B} tr0 (p : prog operator (step A)) (k : A -> prog operator (step B)) R Q :
  settles tr0 p R ->
  (forall tr a, tr0 ⊆ tr -> R tr a -> settles tr (k a) Q) ->
  settles tr0 (next p k) Q.
Proof.
  intros Hp Hk. apply (safe_next _ _ _ (fun tr a => quiet tr /\ R (tr0 ++ tr) a)).
  - eapply safe_mono; [exact Hp|]. intros tr [err|a] [Hq H]; [done|]. auto.
  - intros tr a [Hq HR]. eapply safe_mono; [apply Hk; [set_solver|done]|].
    intros tr' b [Hq' H].
    split; [by apply quiet_app|]. by rewrite app_assoc.
Qed.

Lemma answered_left (tr tr' : trace operator) o r : answered tr o r -> answered (tr ++ tr') o r.
Proof. unfold answered. set_solver. Qed.
Lemma incl_left (tr tr' : trace operator) : tr ⊆ tr ++ tr'.
Proof. set_solver. Qed.
Lemma answered_last (tr : trace operator) o r : answered (tr ++ [o ↝ r]) o r.
Proof. unfold answered. set_solver. Qed.
#[local] Hint Resolve incl_left answered_left answered_last : core.

Lemma getConfigMap_settles tr0 :
  settles tr0 (getConfigMap req) (fun tr c => seen_or_zero (k := KConfigMap) tr ConfigMap_zero c).
Proof.
  apply settles_last; [done..|]. intros [c'|e] c; cbn [err_of IgnoreNotFound value_or].
  - case_match; intros [= ->]. left. auto.
  - destruct (IsNotFound e) eqn:He; [|done]. case_match; intros [= <-]. right. eauto.
Qed.
Lemma getSecret_settles tr0 :
  settles tr0 (getSecret req) (fun tr c => seen_or_zero (k := KSecret) tr Secret_zero c).
Proof.
  apply settles_last; [done..|]. intros [c'|e] c; cbn [err_of IgnoreNotFound value_or].
  - case_match; intros [= ->]. left. auto.
  - destruct (IsNotFound e) eqn:He; [|done]. case_match; intros [= <-]. right. eauto.
Qed.
Lemma getPodDisruptionBudget_settles tr0 :
  written tr0 ->
  settles tr0 (getPodDisruptionBudget req) (fun tr b =>
    seen_or_zero (k := KPodDisruptionBudget) tr PodDisruptionBudget_zero b /\
    IsBeingDeleted (Some (OPodDisruptionBudget b)) = false).
Proof.
  intros Hw. apply settles_last; [done..|]. intros [c'|e] c; cbn [err_of IgnoreNotFound value_or].
  - case_match eqn:Hd; intros [= ->]. split; [left; auto|done].
  - destruct (IsNotFound e) eqn:He; [|done]. case_match; intros [= <-]. split; [right; eauto|done].
Qed.

(** One operation, then what its answer decides. *)
Lemma safe_do {A} tr0 (o : sop operator) (f : sans operator o -> prog operator A)
    (Q : trace operator -> A -> Prop) :
  justified tr0 o ->
  (forall r, safe (tr0 ++ [o ↝ r]) (f r) (fun tr a => Q ((o ↝ r) :: tr) a)) ->
  safe tr0 (bind (call o) f) Q.
Proof.
  intros Ho Hf. unfold safe. cbn [bind call always]. intros r.
  eapply always_mono; [exact (Hf r)|]. by intros tr a [Hj HQ].
Qed.

Lemma forget_safe tr0 c s e :
  (exists ar, answered tr0 (WireInit ar None) (Done (Err e))) ->
  seen_or_zero (k := KConfigMap) tr0 ConfigMap_zero c ->
  seen_or_zero (k := KSecret) tr0 Secret_zero s ->
  safe tr0 (forget c s e) (fun tr out => quiet tr /\ out = Some e /\
    ops tr = if IsUnrecoverable (Some e)
             then [Kube (Delete (OConfigMap c)); Kube (Delete (OSecret s))] else []).
Proof.
  intros [ar Hw] Hc Hs. unfold forget.
  destruct (IsUnrecoverable (Some e)) eqn:He; cbn [negb];
    [|by apply safe_ret; split; [constructor|]].
  assert (unrecoverable tr0) as Hu by (exists ar, e; auto).
  apply safe_do; [cbn; eauto|]. intros r1. apply safe_do; [cbn; eauto|]. intros r2.
  apply safe_ret. by split; [repeat constructor|].
Qed.

(** Creating one of the two dot file objects where it was missing. *)
Lemma create_settles tr0 o R :
  justified tr0 (Kube (Create o)) -> (forall r, R (tr0 ++ [Kube (Create o) ↝ r]) tt) ->
  settles tr0 (create o) R.
Proof. intros Hj HR. apply settles_last; [done..|]. intros r []. case_match; intros [=]. auto. Qed.

Lemma createConfigMap_settles tr0 ar d c :
  runner_seen tr0 ar -> dotFiles_of tr0 d ->
  seen_or_zero (k := KConfigMap) tr0 ConfigMap_zero c ->
  settles tr0 (createConfigMap scheme ar d c) (fun _ _ => True).
Proof.
  intros Har Hd Hc. unfold createConfigMap. case_match eqn:Hz; [|by apply settles_continue].
  case_match eqn:Hto; [|apply settles_return]. apply create_settles; [|done].
  exists ar, d. apply bool_decide_eq_true in Hz. cbn in Hz. injection Hz as ->. auto.
Qed.
Lemma createSecret_settles tr0 ar d s :
  runner_seen tr0 ar -> dotFiles_of tr0 d ->
  seen_or_zero (k := KSecret) tr0 Secret_zero s ->
  settles tr0 (createSecret scheme ar d s) (fun _ _ => True).
Proof.
  intros Har Hd Hs. unfold createSecret. case_match eqn:Hz; [|by apply settles_continue].
  case_match eqn:Hto; [|apply settles_return]. apply create_settles; [|done].
  exists ar, d. apply bool_decide_eq_true in Hz. cbn in Hz. injection Hz as ->. auto.
Qed.

Lemma writeConfigMap_settles tr0 ar d :
  runner_seen tr0 ar -> dotFiles_of tr0 d ->
  settles tr0 (writeConfigMap scheme ar d) (fun tr _ =>
    exists c, ToConfigMap d (Some ar) scheme = Ok c /\
      answered tr (Kube (Update (OConfigMap c))) None).
Proof.
  intros Har Hd. unfold writeConfigMap. case_match eqn:Hto; [|apply settles_return].
  apply settles_last; [done|exists ar, d; auto|]. intros [err|] u Hu; [done|]. eauto.
Qed.
Lemma writeSecret_settles tr0 ar d :
  runner_seen tr0 ar -> dotFiles_of tr0 d ->
  settles tr0 (writeSecret scheme ar d) (fun tr _ =>
    exists s, ToSecret d (Some ar) scheme = Ok s /\
      answered tr (Kube (Update (OSecret s))) None).
Proof.
  intros Har Hd. unfold writeSecret. case_match eqn:Hto; [|apply settles_return].
  apply settles_last; [done|exists ar, d; auto|]. intros [err|] u Hu; [done|]. eauto.
Qed.

Lemma writeDotFiles_settles tr0 ar w c s :
  runner_seen tr0 ar -> wire_seen tr0 w ->
  seen_or_zero (k := KConfigMap) tr0 ConfigMap_zero c ->
  seen_or_zero (k := KSecret) tr0 Secret_zero s ->
  settles tr0 (writeDotFiles scheme ar w c s) (fun tr _ => written tr /\ tr0 ⊆ tr).
Proof.
  intros Har Hw Hc Hs. apply safe_do; [done|]. intros d.
  assert (dotFiles_of (tr0 ++ [WireDotFiles w ↝ d]) d) as Hd by (exists w; eauto).
  set (tr1 := tr0 ++ [WireDotFiles w ↝ d]) in *. assert (tr0 ⊆ tr1) as H1 by apply incl_left.
  cut (settles tr1 (next (createConfigMap scheme ar d c) (fun _ =>
    next (createSecret scheme ar d s) (fun _ => next (writeConfigMap scheme ar d)
      (fun _ => writeSecret scheme ar d)))) (fun tr _ => written tr /\ tr1 ⊆ tr)).
  { intros H. eapply safe_mono; [exact H|]. intros tr st [Hq Hr]. split; [by constructor|].
    intros a Ha. destruct (Hr a Ha). unfold tr1 in *. rewrite <- app_assoc in *. cbn [app] in *.
    split; [done|]. set_solver. }
  apply (runner_seen_incl _ _ _ H1) in Har.
  apply (seen_or_zero_incl _ _ _ _ _ H1) in Hc. apply (seen_or_zero_incl _ _ _ _ _ H1) in Hs.
  clearbody tr1. clear H1 Hw. eapply settles_next; [by apply createConfigMap_settles|].
  intros tr2 _ H2 _. eapply settles_next; [apply createSecret_settles; eauto|]. intros tr3 _ H3 _.
  assert (tr1 ⊆ tr3) as H1 by (by etrans). clear H2 H3.
  eapply settles_next; [apply writeConfigMap_settles; eauto|]. intros tr4 _ H4 (c' & Hc' & Ha).
  assert (tr1 ⊆ tr4) as H2 by (by etrans). clear H1 H4.
  eapply safe_mono; [apply writeSecret_settles; eauto|]. intros tr st [Hq Hr]. split; [done|].
  intros u Hu. destruct (Hr u Hu) as (s' & Hs' & Has).
  assert (tr1 ⊆ tr4 ++ tr) by (etrans; [exact H2|apply incl_left]). split; [|done].
  exists ar, d, c', s'. repeat match goal with |- _ /\ _ => split end; eauto.
Qed.

(** The desired budget is never the zero one: the deletion is not reached. *)
Lemma ToPodDisruptionBudget_nonzero ar b :
  ToPodDisruptionBudget ar scheme = Ok b -> IsZero (Some (OPodDisruptionBudget b)) = false.
Proof.
  unfold ToPodDisruptionBudget, result_bind. intros H. apply bool_decide_eq_false. intros Hz.
  repeat case_match; try done. injection H as <-. discriminate Hz.
Qed.

Lemma reconcileBudget_settles tr0 ar :
  runner_seen tr0 ar -> written tr0 ->
  settles tr0 (reconcileBudget scheme req ar) (fun tr _ => kept tr /\ tr0 ⊆ tr).
Proof.
  intros Har Hw. eapply settles_next; [by apply getPodDisruptionBudget_settles|].
  intros tr actual Hsub [Hseen Hdel]. cbn beta. assert (runner_seen tr ar) as Har' by eauto.
  destruct (ToPodDisruptionBudget (Some ar) scheme) as [b|e] eqn:Hto; [|apply settles_return].
  unfold CalculateReconciliationAction. rewrite (ToPodDisruptionBudget_nonzero _ _ Hto).
  assert (forall o r, kept (tr ++ [Kube o ↝ r]) -> kept (tr ++ [Kube o ↝ r]) /\ tr0 ⊆ tr ++ [Kube o ↝ r])
    as Hboth by (intros; split; [done|set_solver]).
  destruct (IsZero (Some (OPodDisruptionBudget actual))) eqn:Hz; cbn [andb negb].
  - apply bool_decide_eq_true in Hz. cbn in Hz. injection Hz as ->.
    apply settles_last; [done|exists ar; auto|]. intros err u Hu. apply Hboth.
    exists ar, b. split; [eauto|]. split; [done|]. right. left. exists err. split; [auto|].
    by destruct (IgnoreAlreadyExists err).
  - destruct Hseen as [Hseen|[-> _]]; [|by pose proof (IsZero_zero KPodDisruptionBudget) as Hz'; cbn in Hz'; congruence].
    case_bool_decide as Hspec.
    + apply settles_continue. split; [|done]. exists ar, b. eauto 7.
    + apply settles_last; [done|exists ar, actual; auto 6|]. intros err u Hu. apply Hboth.
      exists ar, b. split; [eauto|]. split; [done|]. right. right. exists err. split; [auto|].
      by destruct (IgnoreNotFound err).
Qed.

(** What becomes of the job and of a request for one. *)
Definition job_handled (ar : ActionsRunner) (w : handle) (tr : trace operator) (out : goerr) : Prop :=
  let repository := repo_Name (Repository (Spec ar)) in
  exists r tr1, tr = (Kube (Get KActionsRunnerJob req) ↝ r) :: tr1 /\
  match r with
  | Err e =>
      if IsNotFound e then
        (exists tr2, tr1 = (ReceiveJobRequest w ↝ true) :: tr2 /\
           match ToActionsRunnerJob (Some ar) scheme with
           | Err e => tr2 = [] /\ out = Some e
           | Ok j => exists err tr3, tr2 = (Kube (Create (OActionsRunnerJob j)) ↝ err) :: tr3 /\
               out = IgnoreAlreadyExists err /\
               ops tr3 = if decide (out = None)
                         then [SetGitHubActionsJobAlive repository (Name (arj_ObjectMeta j))] else []
           end) \/
        (out = None /\
         (tr1 = [ReceiveJobRequest w ↝ false; WireListening w ↝ true] \/
          tr1 = [ReceiveJobRequest w ↝ false; WireListening w ↝ false; WireListen w ↝ tt]))
      else tr1 = [] /\ out = Some e
  | Ok j =>
      if IsBeingDeleted (Some (OActionsRunnerJob j)) || negb (completed j)
      then tr1 = [] /\ out = None
      else exists err tr2, tr1 = (Kube (Delete (OActionsRunnerJob j)) ↝ err) :: tr2 /\
        out = IgnoreNotFound err /\
        ops tr2 = if decide (out = None)
                  then [SetGitHubActionsJobDone repository (Name (arj_ObjectMeta j))] else []
  end.

Lemma reconcileJob_handles ar w : always (reconcileJob scheme req ar w) (job_handled ar w).
Proof.
  unfold reconcileJob. cbn [bind call always]. intros [j|e]; cbn [bind].
  - destruct (IsBeingDeleted (Some (OActionsRunnerJob j))) eqn:Hd;
      [do 2 eexists; split; [done|]; cbv beta iota zeta; by rewrite Hd|].
    destruct (completed j) eqn:Hc; cbn [negb];
      [|do 2 eexists; split; [done|]; cbv beta iota zeta; by rewrite Hd, Hc].
    cbn [bind call always]. intros err. destruct (IgnoreNotFound err) eqn:He; cbn [bind call always];
      [|intros u]; do 2 eexists; (split; [done|]); cbv beta iota zeta; rewrite Hd, Hc; cbn [orb negb];
      do 2 eexists; by rewrite He.
  - destruct (IsNotFound e) eqn:He; [|do 2 eexists; split; [done|]; cbv beta iota zeta; by rewrite He].
    cbn [bind call always]. intros [|].
    + destruct (ToActionsRunnerJob (Some ar) scheme) as [j|e'] eqn:Hto; cbn [bind call always].
      * intros err. destruct (IgnoreAlreadyExists err) eqn:Hi; cbn [bind call always];
          [|intros u]; do 2 eexists; (split; [done|]); cbv beta iota zeta; rewrite He, Hto; left;
          eexists; (split; [done|]); do 2 eexists; by rewrite Hi.
      * do 2 eexists; split; [done|]. cbv beta iota zeta. rewrite He, Hto. left. eauto.
    + cbn [bind call always]. intros [|]; cbn [bind call always negb]; [|intros []];
        do 2 eexists; (split; [done|]); cbv beta iota zeta; rewrite He; right; auto.
Qed.

Lemma reconcileJob_safe tr0 ar w :
  runner_seen tr0 ar -> wire_seen tr0 w -> written tr0 -> kept tr0 ->
  safe tr0 (reconcileJob scheme req ar w) (job_handled ar w).
Proof.
  intros Har Hw Hd Hk. unfold safe. eapply always_mono; [apply reconcileJob_handles|].
  intros tr out H. split; [|exact H]. destruct H as (r & tr1 & -> & H). split; [done|]. cbn [ev_op].
  destruct r as [j|e].
  - destruct (IsBeingDeleted _) eqn:Hb; [by destruct H as [-> _]|].
    destruct (completed j) eqn:Hc; [|by destruct H as [-> _]]. destruct H as (err & tr2 & -> & -> & Ho).
    split; [by cbn; auto|]. by case_decide; destruct tr2 as [|[] []]; simplify_eq/=.
  - destruct (IsNotFound e) eqn:He; [|by destruct H as [-> _]].
    assert (no_job (tr0 ++ [Kube (Get KActionsRunnerJob req) ↝ Err e])) as Hno by (exists e; auto).
    assert (wire_seen (tr0 ++ [Kube (Get KActionsRunnerJob req) ↝ Err e]) w) as Hw' by eauto.
    apply (runner_seen_incl _ (tr0 ++ [Kube (Get KActionsRunnerJob req) ↝ Err e])) in Har; [|auto].
    revert Hno Hw' Har. generalize (tr0 ++ [Kube (Get KActionsRunnerJob req) ↝ Err e]).
    intros h Hno Hw' Har.
    assert (justified h (ReceiveJobRequest w)) as Hj by done.
    assert (forall b, wire_seen (h ++ [ReceiveJobRequest w ↝ b]) w) as Hwb by eauto.
    destruct H as [(tr2 & -> & H)|(_ & [->| ->])]; (split; [exact Hj|]); cbn [ev_op].
    + destruct (ToActionsRunnerJob (Some ar) scheme) as [j|e'] eqn:Hto; [|by destruct H as [-> _]].
      destruct H as (err & tr3 & -> & _ & Ho).
      split; [exists ar, w; split_and!; eauto|].
      by case_decide; destruct tr3 as [|[] []]; simplify_eq/=.
    + by split; [apply Hwb|].
    + split; [apply Hwb|]. split; [|done]. split_and!; eauto.
Qed.

Lemma quiet_unasked tr : quiet tr -> unasked tr.
Proof. intros H. eapply Forall_impl; [exact H|]. by intros []. Qed.
Lemma quiet_no_init tr ar d r : quiet tr -> answered tr (WireInit ar d) r -> False.
Proof.
  intros H Ha%answered_called. unfold quiet in H. rewrite Forall_forall in H. by apply H in Ha.
Qed.
Lemma unasked_app tr tr' : unasked (tr ++ tr') <-> unasked tr /\ unasked tr'.
Proof. unfold unasked. rewrite ops_app. apply Forall_app. Qed.
#[local] Hint Resolve quiet_unasked : core.

Lemma WireFor_safe tr0 ar reg :
  runner_seen tr0 ar ->
  safe tr0 (WireFor (Some ar) None reg) (fun tr r => unasked tr /\
    match r.1 with
    | Done (Ok w) => wire_seen tr w
    | Done (Err e) => answered tr (WireInit ar None) (Done (Err e))
    | Panicked _ => True
    end /\
    (forall ar' e, answered tr (WireInit ar' None) (Done (Err e)) -> r.1 = Done (Err e))).
Proof.
  intros Har. assert (forall tr, runner_seen (tr0 ++ tr) ar) as Hext by eauto.
  unfold safe, WireFor, GetWire, MakeWire, Collection_Destroy.
  destruct (reg !! runner_key ar) as [w|]; walk; cbn;
    rewrite <- ?app_assoc; (split; [split_and?; auto|]); (split; [by repeat constructor|]);
    (split; [solve [done | find_event | left; find_event | right; eexists; find_event]|]);
    intros ar' e0 He; unfold answered in He;
    repeat (apply elem_of_cons in He as [He|He];
      [first [ apply (f_equal ev_op) in He; discriminate He
             | injection (f_equal ev_op He) as ->; apply event_inj in He; by simplify_eq ]|]);
    by apply not_elem_of_nil in He.
Qed.

Lemma TryDestroy_safe tr0 reg : safe tr0 (TryDestroy req reg) (fun tr _ => quiet tr).
Proof.
  unfold safe, TryDestroy, Collection_Destroy.
  destruct (reg !! req); walk; cbn; (split; [auto|by repeat constructor]).
Qed.

Lemma reconcileWired_safe tr0 ar w c s :
  runner_seen tr0 ar -> wire_seen tr0 w ->
  seen_or_zero (k := KConfigMap) tr0 ConfigMap_zero c ->
  seen_or_zero (k := KSecret) tr0 Secret_zero s ->
  safe tr0 (reconcileWired scheme req ar w c s) (fun tr err => quiet tr \/
    exists tr1 tr2, tr = tr1 ++ tr2 /\ quiet tr1 /\ job_handled ar w tr2 err).
Proof.
  intros Har Hw Hc Hs. unfold reconcileWired.
  eapply safe_bind.
  - eapply (settles_next _ _ _ _ (fun tr _ => written tr /\ kept tr /\ tr0 ⊆ tr));
      [by apply writeDotFiles_settles|].
    intros tr _ _ [Hwr Hsub]. eapply safe_mono; [apply reconcileBudget_settles; eauto|].
    intros tr' st [Hq' H]. split; [done|]. intros a Ha. destruct (H a Ha) as [Hk Hsub'].
    split; [eauto|]. split; [done|]. by etrans.
  - intros tr st [Hq' H]. destruct st as [err|u].
    + apply safe_ret. left. by rewrite app_nil_r.
    + destruct (H u eq_refl) as (Hwr & Hk & Hsub).
      eapply safe_mono; [apply reconcileJob_safe; eauto|]. cbn. eauto 6.
Qed.

Lemma job_handled_no_init ar w tr out ar' r :
  job_handled ar w tr out -> answered tr (WireInit ar' None) r -> False.
Proof.
  intros (g & tr1 & -> & H) Ha%answered_called. rewrite ops_cons in Ha.
  apply elem_of_cons in Ha as [Ha|Ha]; [done|]. destruct g as [j|e].
  - destruct (_ || _); [destruct H as [-> _]; set_solver|].
    destruct H as (err & tr2 & -> & _ & Ho). rewrite ops_cons, Ho in Ha.
    case_decide; set_solver.
  - destruct (IsNotFound e); [|destruct H as [-> _]; set_solver].
    destruct H as [(tr2 & -> & H)|(_ & [->| ->])]; [|set_solver..].
    rewrite ops_cons in Ha. apply elem_of_cons in Ha as [Ha|Ha]; [done|].
    destruct (ToActionsRunnerJob _ _); [|destruct H as [-> _]; set_solver].
    destruct H as (err & tr3 & -> & _ & Ho). rewrite ops_cons, Ho in Ha. case_decide; set_solver.
Qed.

(** What a pass comes to: the job is handled last, and at most once; a wire that
    could not be initialised ends the pass. *)
Definition pass_result (tr : trace operator) (out : outcome goerr) : Prop :=
  (unasked tr \/ exists tr1 tr2 ar w err, tr = tr1 ++ tr2 /\ unasked tr1 /\
     runner_seen tr1 ar /\ wire_seen tr1 w /\ job_handled ar w tr2 err /\ out = Done err) /\
  (forall ar e, answered tr (WireInit ar None) (Done (Err e)) -> out = Done (Some e) /\
     exists tr1 tr2 c s, tr = tr1 ++ tr2 /\ answered tr1 (WireInit ar None) (Done (Err e)) /\
       ops tr2 = if IsUnrecoverable (Some e)
                 then [Kube (Delete (OConfigMap c)); Kube (Delete (OSecret s))] else []).

Lemma quiet_result tr out : quiet tr -> pass_result tr out.
Proof. intros Hq. split; [auto|]. by intros ar e H%quiet_no_init. Qed.

Lemma quiet_cons o r tr :
  loud o = false ->
  quiet tr -> quiet ((o ↝ r) :: tr).
Proof. by constructor. Qed.

(** From the runner read to the end of the pass. *)
Lemma Reconcile_live_safe tr0 ar reg :
  runner_seen tr0 ar -> quiet tr0 ->
  safe tr0
    (let! s := next (getConfigMap req) (fun configMap =>
               next (getSecret req) (fun secret => Ret (Continue (configMap, secret)))) in
     match s with
     | Return err => Ret (Done err, reg)
     | Continue (configMap, secret) =>
         let! w := WireFor (Some ar) None reg in
         match w.1 with
         | Panicked e => Ret (Panicked e, w.2)
         | Done (Err e) => let! err := forget configMap secret e in Ret (Done err, w.2)
         | Done (Ok h) =>
             let! err := reconcileWired scheme req ar h configMap secret in
             Ret (Done err, w.2)
         end
     end)
    (fun tr r => pass_result (tr0 ++ tr) r.1).
Proof.
  intros Har Hq0. eapply safe_bind.
  { eapply (settles_next _ _ _ _ (fun tr cs => tr0 ⊆ tr /\
      seen_or_zero (k := KConfigMap) tr ConfigMap_zero cs.1 /\
      seen_or_zero (k := KSecret) tr Secret_zero cs.2)); [apply getConfigMap_settles|].
    intros tr c Hsub Hc. eapply settles_next; [apply getSecret_settles|]. intros tr' s Hsub' Hs.
    apply settles_continue. cbn. split; [by etrans|]. split; [eauto|done]. }
  intros tr [err|[c s]] [Hq H]; [apply safe_ret; rewrite app_nil_r; apply quiet_result; by apply quiet_app|].
  destruct (H _ eq_refl) as (Hsub & Hc & Hs). cbn [fst snd] in *. clear H.
  assert (quiet (tr0 ++ tr)) as Hq1 by (by apply quiet_app).
  apply (runner_seen_incl _ (tr0 ++ tr)) in Har; [|done].
  assert (forall tr' (r : outcome goerr * registry), (fun tr' (r : outcome goerr * registry) =>
    pass_result ((tr0 ++ tr) ++ tr') r.1) tr' r -> pass_result (tr0 ++ tr ++ tr') r.1) as Hassoc
    by (intros tr' r; by rewrite app_assoc).
  eapply safe_mono; [|exact Hassoc]. clear Hassoc Hsub Hq Hq0. revert Har Hc Hs Hq1.
  generalize (tr0 ++ tr). clear tr0 tr. intros h Har Hc Hs Hq.
  eapply safe_bind; [by apply WireFor_safe|]. intros tr [w reg'] (Hun & Hw & Hinit). cbn [fst snd] in *.
  assert (unasked (h ++ tr)) as Hun' by (apply unasked_app; auto).
  assert (forall ar' e, answered (h ++ tr) (WireInit ar' None) (Done (Err e)) ->
    answered tr (WireInit ar' None) (Done (Err e))) as Hlate.
  { intros ar' e Ha. apply elem_of_app in Ha as [Ha|Ha]; [|done]. by apply quiet_no_init in Ha. }
  destruct w as [[w|e]|e].
  - assert (wire_seen (h ++ tr) w) as Hw' by (eapply wire_seen_incl; [|exact Hw]; set_solver).
    eapply safe_bind; [apply (reconcileWired_safe _ ar w c s); eauto|].
    intros tr' err Herr. apply safe_ret. rewrite app_nil_r, app_assoc. split.
    + destruct Herr as [Hq'|(tr1 & tr2 & -> & Hq' & Hj)]; [left; apply unasked_app; auto|].
      right. exists ((h ++ tr) ++ tr1), tr2, ar, w, err. rewrite app_assoc.
      split; [done|]. split; [apply unasked_app; auto|].
      split; [eapply runner_seen_incl; [|exact Har]; set_solver|].
      split; [eapply wire_seen_incl; [|exact Hw']; set_solver|done].
    + intros ar' e Ha. exfalso. apply elem_of_app in Ha as [Ha|Ha].
      * by apply Hlate, Hinit in Ha.
      * destruct Herr as [Hq'|(tr1 & tr2 & -> & Hq' & Hj)]; [by eapply quiet_no_init|].
        apply elem_of_app in Ha as [Ha|Ha]; [by eapply quiet_no_init|by eapply job_handled_no_init].
  - eapply safe_bind.
    { apply (forget_safe _ c s e); [exists ar; unfold answered in *; set_solver|eauto|eauto]. }
    intros tr' err (Hq' & -> & Hops). apply safe_ret. rewrite app_nil_r, app_assoc. split.
    + left. apply unasked_app; auto.
    + intros ar' e' Ha. assert (answered (h ++ tr) (WireInit ar' None) (Done (Err e'))) as Ha'.
      { apply elem_of_app in Ha as [Ha|Ha]; [done|by apply quiet_no_init in Ha]. }
      pose proof (Hinit _ _ (Hlate _ _ Ha')) as [= <-]. split; [done|].
      exists (h ++ tr), tr', c, s. split; [done|]. split; [done|exact Hops].
  - apply safe_ret. rewrite app_nil_r. split; [auto|]. intros ar' e' Ha. by apply Hlate, Hinit in Ha.
Qed.

Lemma Reconcile_safe gone reg :
  safe [] (Reconcile gone scheme req reg) (fun tr r => pass_result tr r.1).
Proof.
  unfold Reconcile. destruct gone.
  { apply safe_ret, quiet_result. by constructor. }
  apply safe_do; [done|]. intros [ar|e].
  - destruct (IsBeingDeleted (Some (OActionsRunner (ar_clear_managed ar)))) eqn:Hd.
    { apply safe_ret, quiet_result. by repeat constructor. }
    apply (Reconcile_live_safe [Kube (Get KActionsRunner req) ↝ Ok ar]).
    + exists ar. split; [done|]. split; [find_event|done].
    + by repeat constructor.
  - destruct (IsNotFound e).
    + eapply safe_bind; [apply TryDestroy_safe|]. intros tr r Hq. apply safe_ret, quiet_result.
      rewrite app_nil_r. apply quiet_cons; [done|done].
    + apply safe_ret, quiet_result. by repeat constructor.
Qed.
End justified.

(** ** Properties of a pass *)

(** What the theorems below share. *)
Section pass.
Context {T : K8sTypes} {L : K8sLib}.
Context (gone : bool) (scheme : ptr Scheme) (req : ObjectKey) (reg reg' : registry).
Context (tr : trace operator) (out : outcome goerr).
Context (Hrun : runs (Reconcile gone scheme req reg) tr (out, reg')).

#[local] Lemma pass_obeys : obeys scheme req [] tr.
Proof. exact (proj1 (runs_always _ _ _ _ (Reconcile_safe scheme req gone reg) Hrun)). Qed.
#[local] Lemma pass_comes_to : pass_result scheme req tr out.
Proof. exact (proj2 (runs_always _ _ _ _ (Reconcile_safe scheme req gone reg) Hrun)). Qed.
#[local] Lemma pass_justified tr1 o r tr2 :
  tr = tr1 ++ (o ↝ r) :: tr2 -> justified scheme req tr1 o.
Proof. exact (obeys_split _ _ _ _ _ _ _ pass_obeys). Qed.

(** When the job is looked at, the dot files and the budget are in place. *)
#[local] Lemma pass_prepared tr1 o r tr2 :
  tr = tr1 ++ (o ↝ r) :: tr2 -> no_job req tr1 -> written scheme req tr1 /\ kept scheme req tr1.
Proof.
  intros Htr (e & He & _). apply list_elem_of_split in He as (tr3 & tr4 & ->).
  destruct (pass_justified tr3 (Kube (Get KActionsRunnerJob req)) (Err e) (tr4 ++ (o ↝ r) :: tr2))
    as (_ & Hw & Hk); [by rewrite Htr, <- app_assoc|].
  split; [eapply written_incl; [|exact Hw]|eapply kept_incl; [|exact Hk]]; set_solver.
Qed.

End pass.


(** [C3] What a pass makes of the runner's job.  Either it does not get to it; or,
    last of all, it reads the job, once the dot files and the budget are in
    place.  A completed job that is not being deleted is deleted; any other is
    left alone.  Where there is none, a pending request of the wire is received
    and the job created, and a failure to do so is the pass's error, so that no
    request is dropped in silence; without a request the wire is made to listen
    unless it does already. *)
Theorem runner_handles_job `{K8sLib} gone scheme req reg tr out reg' :
  runs (Reconcile gone scheme req reg) tr (out, reg') ->
  unasked tr \/
  exists tr1 tr2 ar w err, tr = tr1 ++ tr2 /\ unasked tr1 /\ runner_seen req tr1 ar /\
    wire_seen tr1 w /\ written scheme req tr1 /\ kept scheme req tr1 /\
    job_handled scheme req ar w tr2 err /\ out = Done err.
Proof.
  intros Hrun.
  destruct (pass_comes_to _ _ _ _ _ _ _ Hrun) as [[Hun|(tr1 & tr2 & ar & w & err & Htr & Hun & Har & Hw & Hj & Hout)] _];
    [by left|]. right. exists tr1, tr2, ar, w, err. do 4 (split; [done|]).
  destruct Hj as (r & tr3 & -> & Hj). destruct (pass_justified _ _ _ _ _ _ _ Hrun _ _ _ _ Htr) as (_ & Hwr & Hk).
  do 2 (split; [done|]). split; [|done]. by exists r, tr3.
Qed.

(** A pass deletes nothing but a completed job, and the ConfigMap and the
    Secret as they were read, the latter two only when the wire could not be
    initialised for an error there is no recovering from. *)
Theorem runner_deletes_only `{K8sLib} gone scheme req reg tr out reg' tr1 o err tr2 :
  runs (Reconcile gone scheme req reg) tr (out, reg') ->
  tr = tr1 ++ (Kube (Delete o) ↝ err) :: tr2 ->
  match o with
  | OActionsRunnerJob j =>
      answered tr1 (Kube (Get KActionsRunnerJob req)) (Ok j) /\ completed j = true /\
      IsBeingDeleted (Some (OActionsRunnerJob j)) = false
  | OConfigMap c => unrecoverable tr1 /\ seen_or_zero req (k := KConfigMap) tr1 ConfigMap_zero c
  | OSecret s => unrecoverable tr1 /\ seen_or_zero req (k := KSecret) tr1 Secret_zero s
  | _ => False
  end.
Proof. intros Hrun Htr. pose proof (pass_justified _ _ _ _ _ _ _ Hrun _ _ _ _ Htr) as Hj. by destruct o. Qed.


(** What a pass writes of the dot files and of the budget is what the runner
    as read, cleared of its managed fields, and the files of its own wire
    describe; and it creates them only where it has found none. *)
Theorem runner_writes_as_described `{K8sLib} gone scheme req reg tr out reg' tr1 o r tr2 :
  runs (Reconcile gone scheme req reg) tr (out, reg') ->
  tr = tr1 ++ (Kube o ↝ r) :: tr2 ->
  match o with
  | Update (OConfigMap c) | Create (OConfigMap c) =>
      exists ar d, runner_seen req tr1 ar /\ dotFiles_of tr1 d /\ ToConfigMap d (Some ar) scheme = Ok c
  | Update (OSecret s) | Create (OSecret s) =>
      exists ar d, runner_seen req tr1 ar /\ dotFiles_of tr1 d /\ ToSecret d (Some ar) scheme = Ok s
  | Update (OPodDisruptionBudget b) | Create (OPodDisruptionBudget b) =>
      exists ar, runner_seen req tr1 ar /\ ToPodDisruptionBudget (Some ar) scheme = Ok b
  | Create (OActionsRunnerJob _) | Delete _ | Get _ _ => True
  | _ => False
  end /\
  match o with
  | Create (OConfigMap _) => seen_or_zero req (k := KConfigMap) tr1 ConfigMap_zero ConfigMap_zero
  | Create (OSecret _) => seen_or_zero req (k := KSecret) tr1 Secret_zero Secret_zero
  | Create (OPodDisruptionBudget _) =>
      seen_or_zero req (k := KPodDisruptionBudget) tr1 PodDisruptionBudget_zero PodDisruptionBudget_zero
  | _ => True
  end.
Proof.
  intros Hrun Htr. pose proof (pass_justified _ _ _ _ _ _ _ Hrun _ _ _ _ Htr) as Hj.
  destruct o as [| |o|o|o|o]; try destruct o; cbn in Hj; try done; naive_solver.
Qed.
(** Once the operator has been told to stop a pass does nothing at all; and
    when the runner is gone a pass does nothing but destroy its wire, which it
    takes out of the registry, the registry of the other runners untouched. *)
Theorem runner_gone `{K8sLib} gone scheme req reg tr out reg' :
  runs (Reconcile gone scheme req reg) tr (out, reg') ->
  (gone = true -> tr = [] /\ out = Done None /\ reg' = reg) /\
  (forall e tr1, tr = (Kube (Get KActionsRunner req) ↝ Err e) :: tr1 -> IsNotFound e = true ->
     reg' = delete req reg /\
     exists r, runs (TryDestroy req reg) tr1 (r, reg') /\
       out = match r with Done r => Done (err_of r) | Panicked e => Panicked e end).
Proof.
  intros Hrun. destruct gone.
  { destruct Hrun as [-> Heq]. injection Heq as -> ->. by split. }
  split; [done|]. intros e tr1 -> Hn. destruct Hrun as (r & tr' & Heq & Hrun).
  apply cons_eq_inj in Heq as [Heq ->]. apply event_inj in Heq as <-. cbn in Hrun. rewrite Hn in Hrun.
  apply runs_bind in Hrun as (tr1 & [r reg1] & tr2 & -> & Hd & [-> Heq]). injection Heq as -> ->.
  rewrite app_nil_r. split; [by apply TryDestroy_spec in Hd as [-> _]|]. by exists r.
Qed.

(** ** Examples *)

Module RunnerExamples.
Import Demo ConverterExamples.

(** A server, and what asking for a wire and for a request comes to. *)
Record surroundings : Type := Surroundings {
  server : world;
  wire_or_error : result handle;
  requested : bool;
}.

Definition serve_operator (o : sop operator) (s : surroundings) : sans operator o * surroundings :=
  (match o return operator_ans o with
   | Kube o => (serve o (server s)).1
   | WireValid _ | WireListening _ => false
   | WireInit _ _ => Done (wire_or_error s)
   | WireClose _ | WireDestroy _ => Done (Ok tt)
   | WireDotFiles _ => Some dotFiles
   | ReceiveJobRequest _ => requested s
   | CloseEventChannel => Done tt
   | WireListen _ | SetGitHubActionsJobAlive _ _ | SetGitHubActionsJobDone _ _ => tt
   end, s).

(** A runner that has nothing yet, and a request for a job. *)
Definition asked_for_job : surroundings :=
  Surroundings (World (Ok (rich both)) not_found not_found not_found not_found not_found not_found
                  not_found (Ok []) None) (Ok 1%positive) true.
(** A runner whose job has failed. *)
Definition failed_job : ActionsRunnerJob :=
  mkActionsRunnerJob TypeMeta_zero (meta "r") (mkActionsRunnerJobStatus "" PodFailed).
Definition job_failed : surroundings :=
  Surroundings (World (Ok (rich both)) (Ok failed_job) not_found not_found not_found not_found
                  not_found not_found (Ok []) None) (Ok 1%positive) false.
(** A runner whose agent was removed from Azure DevOps. *)
Definition no_agent : error := EWrappedError (Some "TaskAgentNotFoundException").
Definition agent_removed : surroundings :=
  Surroundings (World (Ok (rich both)) not_found not_found not_found not_found not_found not_found
                  not_found (Ok []) None) (Err no_agent) false.

Abbreviation pass_in := (Reconcile false (Some scheme) (key "r") ∅).
Definition performed (s : surroundings) : trace operator := (exec serve_operator pass_in s).1.1.
Definition ended (s : surroundings) := (exec serve_operator pass_in s).1.2.
Lemma pass_runs s : runs pass_in (performed s) ((ended s).1, (ended s).2).
Proof.
  unfold performed, ended. pose proof (exec_runs serve_operator pass_in s) as H.
  by destruct (exec serve_operator pass_in s).1.2.
Qed.

(** The operations that touch the job. *)
Definition job_ops (s : surroundings) : list nat :=
  omap (fun o => match o with
                 | Kube (Create (OActionsRunnerJob _)) => Some 1%nat
                 | Kube (Delete (OActionsRunnerJob _)) => Some 2%nat
                 | ReceiveJobRequest _ => Some 3%nat
                 | _ => None
                 end) (ops (performed s)).

(** The trace before and after a position. *)
Abbreviation before_op n s := (take n (performed s)).
Abbreviation after_op n s := (drop (S n) (performed s)).
Abbreviation does s n o r := (performed s = (before_op n s ++ (Kube o ↝ r) :: after_op n s)%list).

Definition created_job : ActionsRunnerJob :=
  value job (ToActionsRunnerJob (Some (rich both)) (Some scheme)).
Definition created_budget : PodDisruptionBudget :=
  value PodDisruptionBudget_zero (ToPodDisruptionBudget (Some (rich both)) (Some scheme)).


Lemma runner_handles_job_witness :
  job_ops job_failed = [2%nat] /\ exists tr1 tr2 ar w err,
    performed job_failed = (tr1 ++ tr2)%list /\ job_handled (Some scheme) (key "r") ar w tr2 err.
Proof.
  split; [by vm_compute|].
  destruct (runner_handles_job _ _ _ _ _ _ _ (pass_runs job_failed))
    as [H|(tr1 & tr2 & ar & w & err & Htr & _ & _ & _ & _ & _ & H & _)].
  - apply (Forall_lookup_1 _ _ 11 (Kube (Get KActionsRunnerJob (key "r")))) in H; [done|reflexivity].
  - by exists tr1, tr2, ar, w, err.
Defined.

Lemma runner_deletes_only_witness :
  does job_failed 12 (Delete (OActionsRunnerJob failed_job)) None /\ completed failed_job = true.
Proof.
  assert (does job_failed 12 (Delete (OActionsRunnerJob failed_job)) None) as H by reflexivity.
  split; [exact H|].
  exact (proj1 (proj2 (runner_deletes_only _ _ _ _ _ _ _ _ _ _ _ (pass_runs job_failed) H))).
Defined.


Lemma runner_writes_as_described_witness :
  does asked_for_job 10 (Create (OPodDisruptionBudget created_budget)) None /\
  exists ar, runner_seen (key "r") (before_op 10 asked_for_job) ar /\
    ToPodDisruptionBudget (Some ar) (Some scheme) = Ok created_budget.
Proof.
  assert (does asked_for_job 10 (Create (OPodDisruptionBudget created_budget)) None) as H
    by reflexivity.
  split; [exact H|].
  exact (proj1 (runner_writes_as_described _ _ _ _ _ _ _ _ _ _ _ (pass_runs asked_for_job) H)).
Defined.

(** The runner is gone, its wire is not. *)
Definition runner_removed : surroundings :=
  Surroundings (World not_found not_found not_found not_found not_found not_found not_found
                  not_found (Ok []) None) (Ok 1%positive) false.
Abbreviation removing := (Reconcile false (Some scheme) (key "r") CollectionExamples.registered).
Definition removed := exec serve_operator removing runner_removed.

Lemma runner_gone_witness : exists r, runs (TryDestroy (key "r") CollectionExamples.registered)
  (drop 1 removed.1.1) (r, ∅).
Proof.
  assert (runs removing removed.1.1 (Done None, ∅)) as Hrun
    by exact (exec_runs serve_operator removing runner_removed).
  destruct (proj2 (runner_gone _ _ _ _ _ _ _ Hrun) (EStatus ReasonNotFound) (drop 1 removed.1.1)
    eq_refl eq_refl) as (_ & r & Hr & _).
  by exists r.
Defined.
End RunnerExamples.
