(* ===== verification/AzureDevOps.v ===== *)
(** * facades/ado.go: the facade of Azure DevOps

    The connections, the clients, the registered agent and its session that a
    wire holds on Azure DevOps, and [util/jwt.go] and [util/pkcs7.go], which only
    this facade uses.  The calls of the third-party clients are operations of
    the signature [azure].  [perform] at the end gives each operation of the
    wire's signature its meaning here. *)

From S2P Require Export OAuth Wire.
#[local] Open Scope string_scope.

(** ** Records of the Azure DevOps clients *)

(** A client of the library, known by a handle. *)
Definition client : Type := positive.

Record Connection : Type := mkConnection { AuthorizationString : string; BaseUrl : string }.

Record TaskAgentPublicKey : Type := mkTaskAgentPublicKey { pk_Exponent : slice Z; pk_Modulus : slice Z }.
Record TaskAgentAuthorization : Type := mkTaskAgentAuthorization {
  ta_ClientId : ptr string;
  ta_AuthorizationUrl : ptr string;
  ta_PublicKey : ptr TaskAgentPublicKey;
}.

(** The fields of a [TaskAgentReference] the source only copies. *)
Record AgentDetails : Type := mkAgentDetails {
  Links : ptr string;
  AccessPoint : ptr string;
  Enabled : ptr bool;
  OsDescription : ptr string;
  ProvisioningState : ptr string;
  Status : ptr string;
}.
Definition AgentDetails_zero : AgentDetails := mkAgentDetails None None None None None None.

Record TaskAgent : Type := mkTaskAgent {
  agent_Id : ptr Z;
  agent_Name : ptr string;
  agent_Version : ptr string;
  agent_DisableUpdate : ptr bool;
  Authorization : ptr TaskAgentAuthorization;
  agent_Labels : slice string;
  agent_Properties : ptr value;
  agent_details : AgentDetails;
}.

(** What a session is asked for with: a reference to the agent. *)
Record SessionRequest : Type := mkSessionRequest {
  request_Id : ptr Z;
  request_Name : ptr string;
  request_Version : ptr string;
  request_details : AgentDetails;
  OwnerName : string;
}.

Record EncryptionKey : Type := mkEncryptionKey { Encrypted : ptr bool; key_Value : ptr bytes }.
Record TaskAgentSession : Type := mkTaskAgentSession {
  SessionId : ptr string;
  session_EncryptionKey : ptr EncryptionKey;
  UseFipsEncryption : ptr bool;
}.

(** A message as it comes from the queue; what the wire gets has no [Iv]. *)
Record SealedMessage : Type := mkSealedMessage { sealed : TaskAgentMessage; Iv : ptr bytes }.

(** [jwt.Claims] *)
Record Claims : Type := mkClaims {
  Issuer : string;
  Subject : string;
  Audience : list string;
  Expiry : time;
  NotBefore : time;
  IssuedAt : time;
  claims_ID : string;
}.

(** [pkcs7.EncryptedContentInfo], and the parts of [asn1.RawValue] that are set *)
Record RawValue : Type := mkRawValue { Class_ : Z; Tag : Z; IsCompound : bool; raw_Bytes : bytes }.
Record EncryptedContentInfo : Type := mkEncryptedContentInfo {
  ContentType : string;
  Algorithm : string;
  Parameters : RawValue;
  EncryptedContent : RawValue;
}.

#[export] Instance PrivateKey_eq_dec : EqDecision PrivateKey.
Proof. solve_decision. Defined.
#[export] Instance Connection_eq_dec : EqDecision Connection.
Proof. solve_decision. Defined.
#[export] Instance Request_eq_dec : EqDecision Request.
Proof. solve_decision. Defined.
#[export] Instance Claims_eq_dec : EqDecision Claims.
Proof. solve_decision. Defined.
#[export] Instance AgentDetails_eq_dec : EqDecision AgentDetails.
Proof. solve_decision. Defined.
#[export] Instance SessionRequest_eq_dec : EqDecision SessionRequest.
Proof. solve_decision. Defined.

(** What is sent of an agent to add or to replace: all but [Properties], which
    no agent that is sent has. *)
Record AgentRequest : Type := mkAgentRequest {
  sent_Id : ptr Z;
  sent_Name : ptr string;
  sent_Version : ptr string;
  sent_DisableUpdate : ptr bool;
  sent_Authorization : ptr TaskAgentAuthorization;
  sent_Labels : slice string;
  sent_details : AgentDetails;
}.
Definition agent_request (a : TaskAgent) : AgentRequest :=
  mkAgentRequest (agent_Id a) (agent_Name a) (agent_Version a) (agent_DisableUpdate a)
    (Authorization a) (agent_Labels a) (agent_details a).

#[export] Instance AgentRequest_eq_dec : EqDecision AgentRequest.
Proof.
  assert (EqDecision TaskAgentPublicKey) by solve_decision.
  assert (EqDecision TaskAgentAuthorization) by solve_decision.
  solve_decision.
Defined.
#[export] Instance TimelineRecord_eq_dec : EqDecision TimelineRecord.
Proof. assert (EqDecision Issue) by solve_decision. solve_decision. Defined.
#[export] Instance JobEvent_eq_dec : EqDecision JobEvent.
Proof. solve_decision. Defined.

(** ** The operations *)

(** Every call of a task agent client is for the pool 1. *)
Inductive azure_op : Type :=
(* time.Now, uuid.New *)
| Now
| NewUUID
(* jose.NewSigner for RS256 and JWT; Signed(signer).Claims(c).CompactSerialize() *)
| NewSigner (key : ptr PrivateKey)
| CompactSerialize (key : ptr PrivateKey) (c : Claims)
(* http.DefaultClient.Do, and the body that is read *)
| SendRequest (req : Request)
(* taskagent.Client *)
| NewTaskAgentClient (c : Connection)
| Client_GetAgent (c : client) (agentId : ptr Z)
| Client_GetAgents (c : client) (agentName : ptr string)
| Client_AddAgent (c : client) (agent : ptr AgentRequest)
| Client_ReplaceAgent (c : client) (agentId : ptr Z) (agent : AgentRequest)
| Client_DeleteAgent (c : client) (agentId : ptr Z)
| Client_CreateAgentSession (c : client) (session : SessionRequest)
| Client_DeleteAgentSession (c : client) (sessionId : ptr string)
| Client_GetMessage (c : client) (sessionId : ptr string) (lastMessageId : ptr Z)
| Client_DeleteMessage (c : client) (sessionId : ptr string) (messageId : Z)
| Client_UpdateAgentRequest (c : client) (requestId : ptr Z) (orchestrationId : ptr string)
(* rsa.DecryptOAEP with SHA-256 or SHA-1 *)
| DecryptOAEP (sha256 : bool) (key : ptr PrivateKey) (ciphertext : bytes)
(* task.Client *)
| NewTaskClient (c : Connection)
| Client_UpdateRecords (c : client) (records : list TimelineRecord)
    (scopeIdentifier hubName planId timelineId : ptr string)
| Client_RaisePlanEvent (c : client) (eventData : JobEvent)
    (scopeIdentifier hubName planId : ptr string).

Definition azure_ans (o : azure_op) : Type :=
  match o with
  | Now => time
  | NewUUID => string
  | NewSigner _ => result unit
  | CompactSerialize _ _ => result string
  | SendRequest _ => result string
  | NewTaskAgentClient _ => result client
  | NewTaskClient _ => client
  | Client_GetAgent _ _ | Client_AddAgent _ _ | Client_ReplaceAgent _ _ _ => result TaskAgent
  | Client_GetAgents _ _ => ptr (list TaskAgent)
  | Client_CreateAgentSession _ _ => ptr TaskAgentSession * goerr
  | Client_GetMessage _ _ _ => result (ptr SealedMessage)
  | DecryptOAEP _ _ _ => attempt bytes
  | Client_UpdateRecords _ _ _ _ _ _ => ptr (list TimelineRecord) * goerr
  | Client_DeleteAgent _ _ | Client_DeleteAgentSession _ _ | Client_DeleteMessage _ _ _
  | Client_UpdateAgentRequest _ _ _ | Client_RaisePlanEvent _ _ _ _ _ => option error
  end.

Canonical azure : signature := Sig azure_op azure_ans.

#[export] Instance azure_op_eq_dec : EqDecision azure_op.
Proof. solve_decision. Defined.
#[export] Instance azure_eq_dec : EqDecision (sop azure) := azure_op_eq_dec.

(** Library code without effects: [eci.Decrypt(key)], the UTF-8 decoder that
    drops a byte order mark, and [http.NewRequest]'s check of its URL. *)
Class AzureLib : Type := {
  eci_Decrypt : EncryptedContentInfo -> bytes -> result bytes;
  UTF8BOM_Decode : bytes -> result string;
  checkURL : string -> goerr;
  (** [constants.API()], set when the operator is built *)
  API : string;
}.

(** ** The facade *)

Record AzureDevOps : Type := mkAzureDevOps {
  RSAPrivateKey : ptr PrivateKey;
  ado_Connection : ptr Connection;
  TaskAgentClient : ptr client;
  ado_TaskAgent : ptr TaskAgent;
  BridgeConnection : ptr Connection;
  TaskAgentBridgeClient : ptr client;
  ado_TaskAgentSession : ptr TaskAgentSession;
  ado_Plan : ptr TaskOrchestrationPlanReference;
  ado_Timeline : ptr TimelineReference;
  JobConnection : ptr Connection;
  TaskClient : ptr client;
}.

(** The zero facade of a new wire. *)
Definition AzureDevOps_zero : AzureDevOps :=
  mkAzureDevOps None None None None None None None None None None None.

(** The facade and the dot files its methods are given a pointer to. *)
Record facade : Type := mkFacade { ado : AzureDevOps; dotFiles : ptr Files }.

(** Assignments to the fields. *)
Definition set_ado (f : AzureDevOps -> AzureDevOps) (s : facade) : facade :=
  mkFacade (f (ado s)) (dotFiles s).
Definition set_RSAPrivateKey (x : ptr PrivateKey) := set_ado (fun a =>
  mkAzureDevOps x (ado_Connection a) (TaskAgentClient a) (ado_TaskAgent a) (BridgeConnection a)
    (TaskAgentBridgeClient a) (ado_TaskAgentSession a) (ado_Plan a) (ado_Timeline a)
    (JobConnection a) (TaskClient a)).
Definition set_Connection (x : ptr Connection) := set_ado (fun a =>
  mkAzureDevOps (RSAPrivateKey a) x (TaskAgentClient a) (ado_TaskAgent a) (BridgeConnection a)
    (TaskAgentBridgeClient a) (ado_TaskAgentSession a) (ado_Plan a) (ado_Timeline a)
    (JobConnection a) (TaskClient a)).
Definition set_TaskAgentClient (x : ptr client) := set_ado (fun a =>
  mkAzureDevOps (RSAPrivateKey a) (ado_Connection a) x (ado_TaskAgent a) (BridgeConnection a)
    (TaskAgentBridgeClient a) (ado_TaskAgentSession a) (ado_Plan a) (ado_Timeline a)
    (JobConnection a) (TaskClient a)).
Definition set_TaskAgent (x : ptr TaskAgent) := set_ado (fun a =>
  mkAzureDevOps (RSAPrivateKey a) (ado_Connection a) (TaskAgentClient a) x (BridgeConnection a)
    (TaskAgentBridgeClient a) (ado_TaskAgentSession a) (ado_Plan a) (ado_Timeline a)
    (JobConnection a) (TaskClient a)).
Definition set_BridgeConnection (x : ptr Connection) := set_ado (fun a =>
  mkAzureDevOps (RSAPrivateKey a) (ado_Connection a) (TaskAgentClient a) (ado_TaskAgent a) x
    (TaskAgentBridgeClient a) (ado_TaskAgentSession a) (ado_Plan a) (ado_Timeline a)
    (JobConnection a) (TaskClient a)).
Definition set_TaskAgentBridgeClient (x : ptr client) := set_ado (fun a =>
  mkAzureDevOps (RSAPrivateKey a) (ado_Connection a) (TaskAgentClient a) (ado_TaskAgent a)
    (BridgeConnection a) x (ado_TaskAgentSession a) (ado_Plan a) (ado_Timeline a)
    (JobConnection a) (TaskClient a)).
Definition set_TaskAgentSession (x : ptr TaskAgentSession) := set_ado (fun a =>
  mkAzureDevOps (RSAPrivateKey a) (ado_Connection a) (TaskAgentClient a) (ado_TaskAgent a)
    (BridgeConnection a) (TaskAgentBridgeClient a) x (ado_Plan a) (ado_Timeline a)
    (JobConnection a) (TaskClient a)).
Definition set_Plan (x : ptr TaskOrchestrationPlanReference) := set_ado (fun a =>
  mkAzureDevOps (RSAPrivateKey a) (ado_Connection a) (TaskAgentClient a) (ado_TaskAgent a)
    (BridgeConnection a) (TaskAgentBridgeClient a) (ado_TaskAgentSession a) x (ado_Timeline a)
    (JobConnection a) (TaskClient a)).
Definition set_Timeline (x : ptr TimelineReference) := set_ado (fun a =>
  mkAzureDevOps (RSAPrivateKey a) (ado_Connection a) (TaskAgentClient a) (ado_TaskAgent a)
    (BridgeConnection a) (TaskAgentBridgeClient a) (ado_TaskAgentSession a) (ado_Plan a) x
    (JobConnection a) (TaskClient a)).
Definition set_JobConnection (x : ptr Connection) := set_ado (fun a =>
  mkAzureDevOps (RSAPrivateKey a) (ado_Connection a) (TaskAgentClient a) (ado_TaskAgent a)
    (BridgeConnection a) (TaskAgentBridgeClient a) (ado_TaskAgentSession a) (ado_Plan a)
    (ado_Timeline a) x (TaskClient a)).
Definition set_TaskClient (x : ptr client) := set_ado (fun a =>
  mkAzureDevOps (RSAPrivateKey a) (ado_Connection a) (TaskAgentClient a) (ado_TaskAgent a)
    (BridgeConnection a) (TaskAgentBridgeClient a) (ado_TaskAgentSession a) (ado_Plan a)
    (ado_Timeline a) (JobConnection a) x).
Definition set_dotFiles (x : Files) (s : facade) : facade := mkFacade (ado s) (Some x).

(** ** util/jwt.go and util/pkcs7.go *)

Definition valTimeMin : Z := 5.
Definition clkSkewMin : Z := 1.

(** [now.Add(d)] adds nanoseconds. *)
Definition ClientAssertion (clientId tokenEndpoint : string) (key : ptr PrivateKey)
    : prog azure (result string) :=
  let! r := call (NewSigner key) in
  match r with
  | Err e => Ret (Err e)
  | Ok _ =>
      let! now := call Now in
      let! id := call NewUUID in
      call (CompactSerialize key
        (mkClaims clientId clientId [tokenEndpoint]
           (now + (valTimeMin - clkSkewMin) * Minute)
           (now + - clkSkewMin * Minute) now id))
  end.

Definition DecryptPKCS7 `{AzureLib} (data iv key : bytes) : result bytes :=
  let ClassContextSpecific := 2 in
  eci_Decrypt (mkEncryptedContentInfo "OIDData" "OIDEncryptionAlgorithmAES128CBC"
                 (mkRawValue ClassContextSpecific 0 false iv)
                 (mkRawValue ClassContextSpecific 0 false data)) key.

Section methods.
Context `{P : Process} `{AL : AzureLib}.
#[local] Abbreviation method A := (Method.method azure facade A).

(** [if p == nil { return errors.New(msg) }] *)
Definition require {A B} (p : ptr A) (msg : string) (k : A -> method B) : method B :=
  match p with None => failing (msg ++ " == nil") | Some a => k a end.
(** [dotFiles.f] where it is read *)
Definition getDotFiles {B} (k : Files -> method B) : method B :=
  reading (fun s => deref (dotFiles s) k).

(** *** Connections and clients *)

Definition initRSAPrivateKey : method unit :=
  getDotFiles (fun d =>
  let^ key := returning (Done (ToRSAPrivateKey (files_RSAParameters d))) in
  modify (set_RSAPrivateKey (Some key))).

Definition bearer (token : string) : string := "Bearer " ++ token.

Definition initAzureDevOpsConnection (token url : string) : method unit :=
  if bool_decide (token = "") then failing ("token == " ++ quoted "")
  else if bool_decide (url = "") then failing ("url == " ++ quoted "")
  else modify (set_Connection (Some (mkConnection (bearer token) url))).

Definition initAzureDevOpsTaskAgentClient : method unit :=
  get (fun s => ado_Connection (ado s)) (fun c => require c ".Connection" (fun c =>
  let^ client := resulting (call (NewTaskAgentClient c)) in
  modify (set_TaskAgentClient (Some client)))).

Definition initAzureDevOpsBridgeConnection : method unit :=
  getDotFiles (fun d =>
  let data := cred_Data (files_Credentials d) in
  get (fun s => RSAPrivateKey (ado s)) (fun key =>
  let^ assertion := resulting (ClientAssertion (ClientId data) (AuthorizationURL data) key) in
  let^ token := calling (
    match newRequest checkURL (OAuthEndpointURL data) assertion with
    | Err e => Ret (Done (Err e))
    | Ok req =>
        let! r := call (SendRequest req) in
        Ret (Done (AccessToken checkURL (fun _ => r) (OAuthEndpointURL data) assertion))
    end) in
  modify (set_BridgeConnection (Some (mkConnection (bearer token) (ServerUrl (files_Runner d))))))).

Definition initAzureDevOpsBridgeTaskAgentClient : method unit :=
  get (fun s => BridgeConnection (ado s)) (fun c => require c ".BridgeConnection" (fun c =>
  let^ client := resulting (call (NewTaskAgentClient c)) in
  modify (set_TaskAgentBridgeClient (Some client)))).

(** *** The agent *)

(** The agent with the id of the facade's, or else the only one with its name;
    the error is the one of the first look-up. *)
Definition GetAgent : method TaskAgent :=
  get (fun s => TaskAgentClient (ado s)) (fun c => require c ".TaskAgentClient" (fun c =>
  get (fun s => ado_TaskAgent (ado s)) (fun agent => deref agent (fun agent =>
  calling (
    let! r := call (Client_GetAgent c (agent_Id agent)) in
    match r with
    | Ok agent => Ret (Done (Ok agent))
    | Err err =>
        let! agents := call (Client_GetAgents c (agent_Name agent)) in
        match agents with
        | Some [agent] => Ret (Done (Ok agent))
        | _ => Ret (Done (Err err))
        end
    end))))).

Definition AddAgent : method TaskAgent :=
  get (fun s => TaskAgentClient (ado s)) (fun c => require c ".TaskAgentClient" (fun c =>
  get (fun s => ado_TaskAgent (ado s)) (fun agent =>
  resulting (call (Client_AddAgent c (agent_request <$> agent)))))).

Definition ReplaceAgent : method TaskAgent :=
  get (fun s => TaskAgentClient (ado s)) (fun c => require c ".TaskAgentClient" (fun c =>
  get (fun s => ado_TaskAgent (ado s)) (fun agent => deref agent (fun agent =>
  resulting (call (Client_ReplaceAgent c (agent_Id agent) (agent_request agent))))))).

Definition DeleteAgent : method unit :=
  get (fun s => TaskAgentClient (ado s)) (fun c => require c ".TaskAgentClient" (fun c =>
  get (fun s => ado_TaskAgent (ado s)) (fun agent => deref agent (fun agent =>
  erring (call (Client_DeleteAgent c (agent_Id agent))))))).

Definition agentLabelsBase : list string := ["self-hosted"; OS; Arch].
(** [append(agentLabelsBase, labels...)] *)
Definition agentLabels (labels : slice string) : list string := (agentLabelsBase ++ elems labels)%list.

(** The agent the dot files describe. *)
Definition describedAgent (d : Files) (labels : list string) : TaskAgent :=
  let rsa := files_RSAParameters d in
  mkTaskAgent (Some (AgentId (files_Runner d))) (Some (AgentName (files_Runner d))) (Some API)
    (Some true)
    (Some (mkTaskAgentAuthorization None None
             (Some (mkTaskAgentPublicKey (rsa_Exponent rsa) (rsa_Modulus rsa)))))
    (Some labels) None AgentDetails_zero.

Definition set_agent_Id (id : ptr Z) (a : TaskAgent) : TaskAgent :=
  mkTaskAgent id (agent_Name a) (agent_Version a) (agent_DisableUpdate a) (Authorization a)
    (agent_Labels a) (agent_Properties a) (agent_details a).

(** [dotFiles.Runner.AgentId = id], [dotFiles.Credentials.Data = data] *)
Definition set_AgentId (id : Z) (d : Files) : Files :=
  let r := files_Runner d in
  mkFiles
    (mkRunner id (AgentName r) (SkipSessionRecover r) (PoolId r) (PoolName r) (DisableUpdate r)
       (Ephemeral r) (ServerUrl r) (GitHubUrl r) (WorkFolder r) (MonitorSocketAddress r)
       (IsHostedServer r))
    (files_Credentials d) (files_RSAParameters d).
Definition set_Data (data : CredentialsData) (d : Files) : Files :=
  mkFiles (files_Runner d) (mkCredentials (cred_Scheme (files_Credentials d)) data)
    (files_RSAParameters d).
Definition writing (f : Files -> Files) : method unit :=
  getDotFiles (fun d => modify (set_dotFiles (f d))).

Definition requiresFips (a : TaskAgent) : bool :=
  match GetPropertyValue (agent_Properties a) "RequireFipsCryptography" with
  | Some (VBool true) => true
  | _ => false
  end.

(** What a registered agent says of itself is written to the dot files. *)
Definition credit (agent : TaskAgent) : method unit :=
  deref (agent_Id agent) (fun id =>
  let^ _ := writing (set_AgentId id) in
  deref (Authorization agent) (fun authorization =>
  deref (ta_ClientId authorization) (fun clientId =>
  let^ _ := getDotFiles (fun d =>
    let data := cred_Data (files_Credentials d) in
    writing (set_Data (mkCredentialsData clientId (AuthorizationURL data) (OAuthEndpointURL data)
                         (RequireFipsCryptography data)))) in
  deref (ta_AuthorizationUrl authorization) (fun url =>
  writing (set_Data (mkCredentialsData clientId url url
                       (if requiresFips agent then "True" else "False"))))))).

(** [ado.TaskAgent = nil; return err] *)
Definition withdrawn {A} (e : error) : method A :=
  let^ _ := modify (set_TaskAgent None) in returning (Done (Err e)).

(** Without a client nothing is registered.  With one the agent found takes the
    place of its former self, and one that is not found is added. *)
Definition initAzureDevOpsTaskAgent (labels : list string) : method unit :=
  getDotFiles (fun d =>
  let described := describedAgent d labels in
  let^ _ := modify (set_TaskAgent (Some described)) in
  get (fun s => TaskAgentClient (ado s)) (fun c =>
  match c with
  | None => returning (Done (Ok tt))
  | Some _ =>
      trying GetAgent (fun found =>
      let id := match found with Ok agent => agent_Id agent | Err _ => None end in
      let^ _ := modify (set_TaskAgent (Some (set_agent_Id id described))) in
      trying (match id with None => AddAgent | Some _ => ReplaceAgent end) (fun r =>
      match r with
      | Err e => withdrawn e
      | Ok agent =>
          let^ _ := credit agent in modify (set_TaskAgent (Some agent))
      end))
  end)).

Definition InitForCRUD (labels : slice string) (token url : string) : method unit :=
  let^ _ := initRSAPrivateKey in
  let^ _ := initAzureDevOpsConnection token url in
  let^ _ := initAzureDevOpsTaskAgentClient in
  initAzureDevOpsTaskAgent (agentLabels labels).

Definition RefreshForRun : method unit :=
  let^ _ := initAzureDevOpsBridgeConnection in initAzureDevOpsBridgeTaskAgentClient.

Definition InitForRun (labels : slice string) : method unit :=
  let^ _ := initRSAPrivateKey in
  let^ _ := initAzureDevOpsTaskAgent (agentLabels labels) in
  let^ _ := initAzureDevOpsBridgeConnection in
  initAzureDevOpsBridgeTaskAgentClient.

(** *** The session *)

Definition ownerName := "Kube Actions".

Definition sessionRequest (a : TaskAgent) : SessionRequest :=
  mkSessionRequest (agent_Id a) (agent_Name a) (agent_Version a) (agent_details a) ownerName.

(** The session that comes with an error is looked at too. *)
Definition CreateAgentSession : method (ptr TaskAgentSession * goerr) :=
  get (fun s => ado_TaskAgent (ado s)) (fun agent =>
  match agent with
  | None => returning (Done (Ok (None, Some (ENew ".TaskAgent == nil"))))
  | Some agent =>
      get (fun s => TaskAgentBridgeClient (ado s)) (fun c =>
      match c with
      | None => returning (Done (Ok (None, Some (ENew ".TaskAgentBridgeClient == nil"))))
      | Some c => calling (let! r := call (Client_CreateAgentSession c (sessionRequest agent)) in
                           Ret (Done (Ok r)))
      end)
  end).

(** The status of the agent may come as a number instead of a string. *)
Definition tolerated (e : error) : bool :=
  bool_decide (e = EUnmarshalType "TaskAgentReference" "agent.status" "number").

(** A session's key, when encrypted, is decrypted in place with the facade's. *)
Definition openSession (session : ptr TaskAgentSession) : method unit :=
  deref session (fun session =>
  deref (session_EncryptionKey session) (fun key =>
  deref (Encrypted key) (fun encrypted =>
  if negb encrypted then modify (set_TaskAgentSession (Some session))
  else
    deref (UseFipsEncryption session) (fun fips =>
    deref (key_Value key) (fun value =>
    get (fun s => RSAPrivateKey (ado s)) (fun rsa =>
    let^ encryptionKey := calling (call (DecryptOAEP fips rsa value)) in
    modify (set_TaskAgentSession (Some (mkTaskAgentSession (SessionId session)
      (Some (mkEncryptionKey (Encrypted key) (Some encryptionKey))) (UseFipsEncryption session)))))))))).

Definition InitAzureDevOpsTaskAgentSession : method unit :=
  let^ r := CreateAgentSession in
  match r.2 with
  | Some e =>
      if tolerated e then openSession r.1 else returning (Done (Err e))
  | None => openSession r.1
  end.

Definition DeleteAgentSession : method unit :=
  get (fun s => TaskAgentBridgeClient (ado s)) (fun c => require c ".TaskAgentBridgeClient" (fun c =>
  get (fun s => ado_TaskAgentSession (ado s)) (fun session =>
  require session ".TaskAgentSession" (fun session =>
  erring (call (Client_DeleteAgentSession c (SessionId session))))))).

Definition DeinitAzureDevOpsTaskAgentSession : method unit :=
  get (fun s => ado_TaskAgentSession (ado s)) (fun session =>
  match session with
  | None => returning (Done (Ok tt))
  | Some _ => let^ _ := DeleteAgentSession in modify (set_TaskAgentSession None)
  end).

(** *** Messages *)

(** A sealed body is base64 of what the session's key encrypts. *)
Definition unseal (m : SealedMessage) : method TaskAgentMessage :=
  match Iv m with
  | None => returning (Done (Ok (sealed m)))
  | Some iv =>
      deref (ta_Body (sealed m)) (fun body =>
      let^ encBytes := returning (Done (base64_DecodeString body)) in
      get (fun s => ado_TaskAgentSession (ado s)) (fun session => deref session (fun session =>
      deref (session_EncryptionKey session) (fun key => deref (key_Value key) (fun value =>
      let^ decBytes := returning (Done (DecryptPKCS7 encBytes iv value)) in
      let^ body := returning (Done (UTF8BOM_Decode decBytes)) in
      returning (Done (Ok (mkTaskAgentMessage (ta_MessageId (sealed m))
                             (ta_MessageType (sealed m)) (Some body)))))))))
  end.

Definition GetMessage (lastMessageId : ptr Z) : method (ptr TaskAgentMessage) :=
  get (fun s => TaskAgentBridgeClient (ado s)) (fun c => require c ".TaskAgentBridgeClient" (fun c =>
  get (fun s => ado_TaskAgentSession (ado s)) (fun session =>
  require session ".TaskAgentSession" (fun session =>
  let^ message := resulting (call (Client_GetMessage c (SessionId session) lastMessageId)) in
  match message with
  | None => returning (Done (Ok None))
  | Some m => let^ message := unseal m in returning (Done (Ok (Some message)))
  end)))).

Definition DeleteMessage (messageId : Z) : method unit :=
  get (fun s => TaskAgentBridgeClient (ado s)) (fun c => require c ".TaskAgentBridgeClient" (fun c =>
  get (fun s => ado_TaskAgentSession (ado s)) (fun session =>
  require session ".TaskAgentSession" (fun session =>
  erring (call (Client_DeleteMessage c (SessionId session) messageId)))))).

(** The source takes a request and reads its id. *)
Definition UpdateAgentRequest (request : ptr (ptr Z)) (orchestrationId : ptr string) : method unit :=
  get (fun s => TaskAgentBridgeClient (ado s)) (fun c => require c ".TaskAgentBridgeClient" (fun c =>
  require request "request" (fun requestId =>
  erring (call (Client_UpdateAgentRequest c requestId orchestrationId))))).

(** *** Reporting on a job *)

Definition initAzureDevOpsPlan (plan : ptr TaskOrchestrationPlanReference) : method unit :=
  require plan "plan" (fun p =>
  require (plan_ScopeIdentifier p) "plan.ScopeIdentifier" (fun _ =>
  require (plan_PlanType p) "plan.PlanType" (fun _ =>
  require (plan_PlanId p) "plan.PlanId" (fun _ =>
  modify (set_Plan plan))))).

Definition initAzureDevOpsTimeline (timeline : ptr TimelineReference) : method unit :=
  require timeline "timeline" (fun t =>
  require (timeline_Id t) "timeline.Id" (fun _ =>
  modify (set_Timeline timeline))).

Definition initAzureDevOpsJobConnection (serviceEndpoints : list ServiceEndpoint) : method unit :=
  let^ serviceEndpoint := returning (Done (GetSystemVssConnectionEndpoint serviceEndpoints)) in
  let^ accessToken := returning (Done (GetServiceEndpointAccessToken (Some serviceEndpoint))) in
  let^ url := returning (Done (GetServiceEndpointURL (Some serviceEndpoint))) in
  modify (set_JobConnection (Some (mkConnection (bearer accessToken) url))).

Definition InitAzureDevOpsTaskClient (plan : ptr TaskOrchestrationPlanReference)
    (timeline : ptr TimelineReference) (endpoints : list ServiceEndpoint) : method unit :=
  let^ _ := initAzureDevOpsPlan plan in
  let^ _ := initAzureDevOpsTimeline timeline in
  let^ _ := initAzureDevOpsJobConnection endpoints in
  get (fun s => JobConnection (ado s)) (fun c => deref c (fun c =>
  let^ client := calling (let! c := call (NewTaskClient c) in Ret (Done (Ok c))) in
  modify (set_TaskClient (Some client)))).

(** The records that come back with an error are dropped by the only caller. *)
Definition UpdateRecord (timelineRecords : list TimelineRecord) : method (list TimelineRecord) :=
  get (fun s => ado_Plan (ado s)) (fun plan => require plan ".Plan" (fun plan =>
  get (fun s => ado_Timeline (ado s)) (fun timeline => require timeline ".Timeline" (fun timeline =>
  get (fun s => TaskClient (ado s)) (fun c => require c ".TaskClient" (fun c =>
  calling (
    let! r := call (Client_UpdateRecords c timelineRecords (plan_ScopeIdentifier plan)
                      (plan_PlanType plan) (plan_PlanId plan) (timeline_Id timeline)) in
    Ret (Done (match r.2 with Some e => Err e | None => Ok (default [] r.1) end))))))))).

Definition RaisePlanEvent (eventData : ptr JobEvent) : method unit :=
  get (fun s => ado_Plan (ado s)) (fun plan => require plan ".Plan" (fun plan =>
  get (fun s => TaskClient (ado s)) (fun c => require c ".TaskClient" (fun c =>
  require eventData "eventData" (fun eventData =>
  erring (call (Client_RaisePlanEvent c eventData (plan_ScopeIdentifier plan)
                  (plan_PlanType plan) (plan_PlanId plan)))))))).

(** ** The facade behind a wire

    The operations of a wire on Azure DevOps are the methods above; its others
    stay what they are.  The dot files a method is given come with its call. *)
Definition conduct {A B} (m : method A) (answer : attempt A -> ptr Files -> B) (d : ptr Files)
    (a : AzureDevOps) : prog (both wire azure) (B * AzureDevOps) :=
  inject_r (let! r := m (mkFacade a d) in
            Ret (answer r.1 (dotFiles r.2), ado r.2)).

Definition perform (o : wire_op) (a : AzureDevOps)
    : prog (both wire azure) (wire_ans o * AzureDevOps) :=
  let filled d (r : attempt unit) (f : ptr Files) := (r, default d f) in
  let outcome A (r : attempt A) (_ : ptr Files) := r in
  let done A (r : attempt A) (_ : ptr Files) : attempt unit :=
    match r with Done (Ok _) => Done (Ok tt) | Done (Err e) => Done (Err e) | Panicked e => Panicked e end in
  match o return prog (both wire azure) (wire_ans o * AzureDevOps) with
  | Wire.InitForCRUD d labels token url => conduct (InitForCRUD labels token url) (filled d) (Some d) a
  | Wire.InitForRun d labels => conduct (InitForRun labels) (filled d) (Some d) a
  | Wire.RefreshForRun d => conduct RefreshForRun (outcome unit) d a
  | Wire.InitAzureDevOpsTaskAgentSession =>
      conduct InitAzureDevOpsTaskAgentSession (outcome unit) None a
  | Wire.DeinitAzureDevOpsTaskAgentSession =>
      conduct DeinitAzureDevOpsTaskAgentSession (outcome unit) None a
  | Wire.DeleteAgent => conduct DeleteAgent (outcome unit) None a
  | Wire.GetMessage last => conduct (GetMessage last) (outcome (ptr TaskAgentMessage)) None a
  | Wire.DeleteMessage id => conduct (DeleteMessage id) (outcome unit) None a
  | Wire.UpdateAgentRequest id orchestrationId =>
      conduct (UpdateAgentRequest (Some id) (Some orchestrationId)) (outcome unit) None a
  | Wire.InitAzureDevOpsTaskClient plan timeline endpoints =>
      conduct (InitAzureDevOpsTaskClient plan timeline endpoints) (outcome unit) None a
  | Wire.UpdateRecord records => conduct (UpdateRecord records) (done _) None a
  | Wire.RaisePlanEvent event => conduct (RaisePlanEvent (Some event)) (outcome unit) None a
  | o => Do (inl o : sop (both wire azure)) (fun r => Ret (r, a))
  end.
End methods.

(** ** The state of a facade *)

Definition complete_plan (p : TaskOrchestrationPlanReference) : Prop :=
  is_Some (plan_ScopeIdentifier p) /\ is_Some (plan_PlanType p) /\ is_Some (plan_PlanId p).

(** What a facade can look like: a client has its connection, a session the
    client it was created with, and a task client all that its requests name. *)
Record typed (a : AzureDevOps) : Prop := mkTyped {
  typed_client : is_Some (TaskAgentClient a) -> is_Some (ado_Connection a);
  typed_bridge : is_Some (TaskAgentBridgeClient a) -> is_Some (BridgeConnection a);
  typed_session : is_Some (ado_TaskAgentSession a) -> is_Some (TaskAgentBridgeClient a);
  typed_plan : forall p, ado_Plan a = Some p -> complete_plan p;
  typed_timeline : forall t, ado_Timeline a = Some t -> is_Some (timeline_Id t);
  typed_task : is_Some (TaskClient a) ->
    is_Some (ado_Plan a) /\ is_Some (ado_Timeline a) /\ is_Some (JobConnection a);
}.

(** Only the agent and the session are ever given up. *)
Definition onward (a a' : AzureDevOps) : Prop :=
  (is_Some (RSAPrivateKey a) -> is_Some (RSAPrivateKey a')) /\
  (is_Some (ado_Connection a) -> is_Some (ado_Connection a')) /\
  (is_Some (TaskAgentClient a) -> is_Some (TaskAgentClient a')) /\
  (is_Some (BridgeConnection a) -> is_Some (BridgeConnection a')) /\
  (is_Some (TaskAgentBridgeClient a) -> is_Some (TaskAgentBridgeClient a')) /\
  (is_Some (ado_Plan a) -> is_Some (ado_Plan a')) /\
  (is_Some (ado_Timeline a) -> is_Some (ado_Timeline a')) /\
  (is_Some (JobConnection a) -> is_Some (JobConnection a')) /\
  (is_Some (TaskClient a) -> is_Some (TaskClient a')).

#[export] Instance onward_preorder : PreOrder onward.
Proof.
  split; [by intros a; unfold onward|]. unfold onward. intros a b c H1 H2.
  destruct_and!. split_and!; auto.
Qed.

Section typing.
Context `{P : Process} `{AL : AzureLib}.
#[local] Abbreviation method A := (Method.method azure facade A).

Definition progress (a a' : AzureDevOps) : Prop := typed a' /\ onward a a'.

(** A method that leads from such a facade to such a facade. *)
Definition keeps {A} (m : method A) : Prop := forall s, typed (ado s) ->
  always (m s) (fun _ r => progress (ado s) (ado r.2)).

Lemma keeps_andThen {A B} (m : method A) (k : A -> method B) :
  keeps m -> (forall a, keeps (k a)) -> keeps (andThen m k).
Proof.
  intros Hm Hk s Hs. apply always_andThen. eapply always_mono; [by apply Hm|].
  intros tr [[[a|e]|e] s1] [H1 H2]; cbn in *; [|done..].
  eapply always_mono; [by apply Hk|]. intros tr' r [H3 H4]. split; [done|by etrans].
Qed.

Lemma keeps_trying {A B} (m : method A) (k : result A -> method B) :
  keeps m -> (forall a, keeps (k a)) -> keeps (trying m k).
Proof.
  intros Hm Hk s Hs. apply always_trying. eapply always_mono; [by apply Hm|].
  intros tr [[r|e] s1] [H1 H2]; cbn in *; [|done].
  eapply always_mono; [by apply Hk|]. intros tr' r' [H3 H4]. split; [done|by etrans].
Qed.

Lemma keeps_calling {A} (p : prog azure (attempt A)) : keeps (calling p).
Proof.
  intros s Hs. unfold calling. apply always_bind. eapply (always_mono p (fun _ _ => True)).
  - apply always_runs. done.
  - intros tr a _. cbn. by split.
Qed.

Lemma keeps_returning {A} (r : attempt A) : keeps (returning r).
Proof. intros s Hs. by split. Qed.
Lemma keeps_get {A B} (f : facade -> A) (k : A -> method B) :
  (forall a, keeps (k a)) -> keeps (get f k).
Proof. intros Hk s Hs. by apply Hk. Qed.
Lemma keeps_deref {A B} (p : ptr A) (k : A -> method B) :
  (forall a, keeps (k a)) -> keeps (deref p k).
Proof. intros Hk. destruct p; [apply Hk|apply keeps_returning]. Qed.
Lemma keeps_require {A B} (p : ptr A) msg (k : A -> method B) :
  (forall a, keeps (k a)) -> keeps (require p msg k).
Proof. intros Hk. destruct p; [apply Hk|apply keeps_returning]. Qed.
Lemma keeps_getDotFiles {B} (k : Files -> method B) :
  (forall a, keeps (k a)) -> keeps (getDotFiles k).
Proof. intros Hk. apply (keeps_get dotFiles (fun d => deref d k)). intros d. by apply keeps_deref. Qed.
Lemma keeps_modify (f : facade -> facade) :
  (forall s, typed (ado s) -> progress (ado s) (ado (f s))) -> keeps (modify f).
Proof. intros Hf s Hs. by apply Hf. Qed.

(** The methods that store a client or a session have looked at what it needs. *)
Ltac progressed :=
  let Htask := fresh in match goal with H : typed _ |- _ => destruct H as [? ? ? ? ? Htask] end;
  split; [constructor|unfold onward; split_and!]; cbn in *;
  first [done | intros; simplify_eq/=; 
    first [done | by eexists | solve [split_and!; first [by eexists | by apply Htask]] | eauto]].
Ltac walked :=
  intros s Hs;
  unfold get, reading, require, failing, deref, resulting, andThen, calling, returning, modify;
  walk; cbn; try (split; done); progressed.

Lemma keeps_initAzureDevOpsTaskAgentClient : keeps initAzureDevOpsTaskAgentClient.
Proof. unfold initAzureDevOpsTaskAgentClient. walked. Qed.
Lemma keeps_initAzureDevOpsBridgeTaskAgentClient : keeps initAzureDevOpsBridgeTaskAgentClient.
Proof. unfold initAzureDevOpsBridgeTaskAgentClient. walked. Qed.
Lemma keeps_InitAzureDevOpsTaskAgentSession : keeps InitAzureDevOpsTaskAgentSession.
Proof. unfold InitAzureDevOpsTaskAgentSession, CreateAgentSession, openSession. walked. Qed.
Lemma keeps_InitAzureDevOpsTaskClient p t es : keeps (InitAzureDevOpsTaskClient p t es).
Proof.
  unfold InitAzureDevOpsTaskClient, initAzureDevOpsPlan, initAzureDevOpsTimeline,
    initAzureDevOpsJobConnection. walked.
Qed.

(** The others only store what they were given, or give up the agent or the
    session. *)
Create HintDb facade.
#[local] Hint Extern 1 (keeps (modify _)) =>
  apply keeps_modify; intros s Hs; progressed : facade.
#[local] Hint Resolve keeps_initAzureDevOpsTaskAgentClient
  keeps_initAzureDevOpsBridgeTaskAgentClient keeps_InitAzureDevOpsTaskAgentSession
  keeps_InitAzureDevOpsTaskClient : facade.

Ltac kept :=
  repeat first
    [ progress intros
    | solve [auto 2 with facade]
    | apply keeps_andThen | apply keeps_trying | apply keeps_calling | apply keeps_returning
    | apply keeps_get | apply keeps_deref | apply keeps_require | apply keeps_getDotFiles
    | match goal with |- keeps (match ?x with _ => _ end) => destruct x end ].

Lemma keeps_initAzureDevOpsTaskAgent labels : keeps (initAzureDevOpsTaskAgent labels).
Proof. unfold initAzureDevOpsTaskAgent, GetAgent, AddAgent, ReplaceAgent, credit, withdrawn, writing. kept. Qed.
Lemma keeps_initAzureDevOpsBridgeConnection : keeps initAzureDevOpsBridgeConnection.
Proof. unfold initAzureDevOpsBridgeConnection. kept. Qed.
Lemma keeps_initRSAPrivateKey : keeps initRSAPrivateKey.
Proof. unfold initRSAPrivateKey. kept. Qed.
Lemma keeps_initAzureDevOpsConnection token url : keeps (initAzureDevOpsConnection token url).
Proof. unfold initAzureDevOpsConnection. kept. Qed.
Lemma keeps_DeinitAzureDevOpsTaskAgentSession : keeps DeinitAzureDevOpsTaskAgentSession.
Proof. unfold DeinitAzureDevOpsTaskAgentSession, DeleteAgentSession. kept. Qed.
#[local] Hint Resolve keeps_initAzureDevOpsTaskAgent keeps_initAzureDevOpsBridgeConnection
  keeps_initRSAPrivateKey keeps_initAzureDevOpsConnection
  keeps_DeinitAzureDevOpsTaskAgentSession : facade.

Lemma keeps_GetMessage last : keeps (GetMessage last).
Proof. unfold GetMessage, unseal. kept. Qed.

Lemma conduct_progress {A B} (m : method A) (answer : attempt A -> ptr Files -> B) d a :
  keeps m -> typed a -> always (conduct m answer d a) (fun _ r => progress a r.2).
Proof.
  intros Hm Ha. unfold conduct. apply always_inject_r, always_bind.
  eapply always_mono; [by apply (Hm (mkFacade a d))|]. done.
Qed.

Lemma perform_progress o a tr r a' : typed a -> runs (perform o a) tr (r, a') -> progress a a'.
Proof.
  intros Ha Hrun.
  refine (runs_always (perform o a) (fun _ r => progress a r.2) tr (r, a') _ Hrun).
  destruct o; cbn [perform always]; try (intros r'; split; done);
    (apply conduct_progress; [|done]); try apply keeps_GetMessage;
    unfold InitForCRUD, InitForRun, RefreshForRun, DeleteAgent, DeleteMessage, UpdateAgentRequest,
      UpdateRecord, RaisePlanEvent; kept.
Qed.

Lemma implements_progress tr' a tr a' : typed a -> implements perform a tr' tr a' -> progress a a'.
Proof.
  revert a tr. induction tr' as [|[o r] tr' IH]; intros a tr Ha; cbn -[perform].
  - by intros [-> ->].
  - intros (a1 & tr1 & tr2 & -> & H1 & H2). apply perform_progress in H1 as [H1 H1']; [|done].
    apply IH in H2 as [H2 H2']; [|done]. split; [done|by etrans].
Qed.

End typing.

(** ** The agent *)

Section agents.
Context `{P : Process} `{AL : AzureLib}.

(** What the dot files say once an agent is registered: nothing when the answer
    lacks its id or its authorization, which the code dereferences. *)
Definition credited (agent : TaskAgent) (d : Files) : option Files :=
  id ← agent_Id agent;
  authorization ← Authorization agent;
  clientId ← ta_ClientId authorization;
  url ← ta_AuthorizationUrl authorization;
  Some (set_Data (mkCredentialsData clientId url url
                    (if requiresFips agent then "True" else "False")) (set_AgentId id d)).

(** Looking for the agent, and what is found. *)
Inductive looked_up (c : client) (described : TaskAgent) : trace azure -> option TaskAgent -> Prop :=
| found_by_id agent :
    looked_up c described [Client_GetAgent c (agent_Id described) ↝ Ok agent] (Some agent)
| found_by_name e agent :
    looked_up c described [Client_GetAgent c (agent_Id described) ↝ Err e;
                           Client_GetAgents c (agent_Name described) ↝ Some [agent]] (Some agent)
| not_found e agents :
    (forall agent, agents <> Some [agent]) ->
    looked_up c described [Client_GetAgent c (agent_Id described) ↝ Err e;
                           Client_GetAgents c (agent_Name described) ↝ agents] None.

(** Registering it, with the id it was found with. *)
Definition registered (c : client) (described : TaskAgent) (found : option TaskAgent)
    (answer : result TaskAgent) : event azure :=
  let id := found ≫= agent_Id in
  let request := agent_request (set_agent_Id id described) in
  match id with
  | None => Client_AddAgent c (Some request) ↝ answer
  | Some _ => Client_ReplaceAgent c id request ↝ answer
  end.

Lemma GetAgent_spec c agent s :
  TaskAgentClient (ado s) = Some c -> ado_TaskAgent (ado s) = Some agent ->
  always (GetAgent s) (fun tr r => r.2 = s /\ exists found, looked_up c agent tr found /\
    match r.1 with
    | Done (Ok x) => found = Some x
    | Done (Err _) => found = None
    | Panicked _ => False
    end).
Proof.
  intros Hc Ha. unfold GetAgent, get, reading. rewrite Hc. cbn [require]. rewrite Ha.
  cbn [deref]. unfold calling. cbn [bind call always]. intros [x|e]; cbn [bind call always].
  - split; [done|]. exists (Some x). split; [constructor|done].
  - intros agents. assert ((exists x, agents = Some [x]) \/ forall x, agents <> Some [x])
      as [[x ->]|Hn] by (destruct agents as [[|x []]|]; eauto).
    + cbn. split; [done|]. exists (Some x). split; [constructor|done].
    + destruct agents as [[|x []]|]; [..|destruct (Hn x); done| |];
        (cbn; split; [done|]; exists None; split; [by constructor|done]).
Qed.

Lemma credit_spec agent d s : dotFiles s = Some d ->
  always (credit agent s) (fun tr r => tr = [] /\
    match credited agent d with
    | Some d' => r = (Done (Ok tt), set_dotFiles d' s)
    | None => r.1 = Panicked nil_dereference
    end).
Proof.
  intros Hd. unfold credit, credited, writing, getDotFiles, andThen, modify, reading.
  destruct (agent_Id agent) as [id|]; cbn; [|done]. rewrite Hd. cbn.
  destruct (Authorization agent) as [auth|]; cbn; [|done].
  destruct (ta_ClientId auth) as [clientId|]; cbn; [|done].
  by destruct (ta_AuthorizationUrl auth).
Qed.

Lemma register_spec c agent found s :
  TaskAgentClient (ado s) = Some c -> ado_TaskAgent (ado s) = Some (set_agent_Id (found ≫= agent_Id) agent) ->
  always (match found ≫= agent_Id with None => AddAgent | Some _ => ReplaceAgent end s)
    (fun tr r => exists answer, tr = [registered c agent found answer] /\ r = (Done answer, s)).
Proof.
  intros Hc Ha. unfold registered.
  destruct (found ≫= agent_Id); unfold AddAgent, ReplaceAgent, get, reading; rewrite Hc; cbn [require];
    rewrite Ha; cbn; eauto.
Qed.

(** Registering an agent, when there is a client.  The agent is looked up
    by the id in the dot files, then by its name, where exactly one agent must
    have it; what is found is replaced under its own id, otherwise the agent is
    added, and exactly one such request is made.  When it fails its error comes
    back, the facade has no agent, and the dot files are as they were; when it
    succeeds the facade holds the agent of the answer, and the dot files carry
    its id, its client id and its authorization URL; an answer without one of
    these panics. *)
Theorem agent_registered labels a d c tr out :
  TaskAgentClient a = Some c ->
  runs (initAzureDevOpsTaskAgent labels (mkFacade a (Some d))) tr out ->
  exists looking found answer,
    looked_up c (describedAgent d labels) looking found /\
    tr = (looking ++ [registered c (describedAgent d labels) found answer])%list /\
    match answer with
    | Err e => out.1 = Done (Err e) /\ ado_TaskAgent (ado out.2) = None /\ dotFiles out.2 = Some d
    | Ok agent =>
        match credited agent d with
        | None => out.1 = Panicked nil_dereference
        | Some d' => out.1 = Done (Ok tt) /\ ado_TaskAgent (ado out.2) = Some agent /\
                     dotFiles out.2 = Some d'
        end
    end.
Proof.
  intros Hc. revert tr out. apply always_runs.
  unfold initAzureDevOpsTaskAgent, getDotFiles, get, reading. cbn [dotFiles deref].
  set (described := describedAgent d labels). apply always_andThen. cbn. rewrite Hc.
  apply always_trying. eapply always_mono; [by apply GetAgent_spec|].
  intros looking [[found'|e] s1] (-> & found & Hlook & Hf); cbn in Hf |- *; [|done].
  assert ((match found' with Ok agent => agent_Id agent | Err _ => None end) = found ≫= agent_Id) as ->
    by (by destruct found'; subst found).
  apply always_trying. eapply always_mono; [by apply register_spec|].
  intros tr r (answer & -> & ->). cbn. destruct answer as [agent|e].
  - apply always_andThen. eapply always_mono; [by apply (credit_spec agent d)|].
    intros tr r (-> & Hr). destruct (credited agent d) as [d'|] eqn:Hd.
    + subst r. cbn -[registered]. exists looking, found, (Ok agent). by rewrite Hd.
    + destruct r as [o s2]. cbn in Hr. subst o. cbn -[registered].
      exists looking, found, (Ok agent). by rewrite Hd.
  - cbn -[registered]. exists looking, found, (Err e). done.
Qed.
End agents.

(** ** Messages *)

Section messages.
Context `{P : Process} `{AL : AzureLib}.

(** How the queue seals the body of a message for a session. *)
Definition seal (encrypt : bytes -> bytes -> bytes -> bytes) (encode : string -> bytes)
    (key iv : bytes) (id : ptr Z) (type : ptr string) (body : string) : SealedMessage :=
  mkSealedMessage (mkTaskAgentMessage id type (Some (base64 (encrypt key iv (encode body)))))
    (Some iv).

End messages.

(** ** Examples *)

Module AzureExamples.
Import Demo ConverterExamples WireExamples.

(** A cipher that flips the bits of every byte of its input that the first byte
    of the key has set, and a decoder that drops the byte order mark. *)
Definition flip (key b : bytes) : bytes := map (Z.lxor (default 0 (head key))) b.
Definition to_bytes (s : string) : bytes := map (fun c => Z.of_nat (nat_of_ascii c)) (String.list_ascii_of_string s).
Definition of_bytes (b : bytes) : string := String.string_of_list_ascii (map (fun z => ascii_of_nat (Z.to_nat z)) b).
Definition encode_bom (s : string) : bytes := ([239; 187; 191] ++ to_bytes s)%list.

#[export] Instance azure_lib : AzureLib := {|
  eci_Decrypt eci key := Ok (flip key (raw_Bytes (EncryptedContent eci)));
  UTF8BOM_Decode b := Ok (of_bytes (match b with 239 :: 187 :: 191 :: b => b | _ => b end));
  checkURL _ := None;
  API := "3.0.0"
|}.

Lemma of_to_bytes s : of_bytes (to_bytes s) = s.
Proof.
  unfold of_bytes, to_bytes. rewrite map_map, (map_ext _ id), map_id; [apply String.string_of_list_ascii_of_string|].
  intros c. rewrite Nat2Z.id. apply ascii_nat_embedding.
Qed.

Definition token_agent (url : string) : TaskAgent :=
  mkTaskAgent (Some 11) (Some "KA ci runner") (Some "3.0.0") (Some true)
    (Some (mkTaskAgentAuthorization (Some "client") (Some url) None)) None None AgentDetails_zero.

(** Azure DevOps with one agent of any name and a session whose key is flipped,
    and whose answer has a number where the client wants a string. *)
Definition session_key : bytes := [90].
Definition new_session : TaskAgentSession :=
  mkTaskAgentSession (Some "session") (Some (mkEncryptionKey (Some true) (Some [1]))) (Some true).
Definition opened_session : TaskAgentSession :=
  mkTaskAgentSession (Some "session") (Some (mkEncryptionKey (Some true) (Some session_key)))
    (Some true).
Definition serve_azure (o : sop azure) : sans azure o :=
  let agent := token_agent "https://vstoken" in
  match o return azure_ans o with
  | Now => 1000 * Minute
  | NewUUID => "uuid"
  | NewSigner _ => Ok tt
  | CompactSerialize _ _ => Ok "assertion"
  | SendRequest _ => Ok (print_json (JObject [("access_token", JString "bridge"); ("expires_in", JNumber "3600")]))
  | NewTaskAgentClient _ => Ok 1%positive
  | Client_GetAgent _ _ => Err no_agent
  | Client_GetAgents _ _ => Some [agent]
  | Client_AddAgent _ _ | Client_ReplaceAgent _ _ _ => Ok agent
  | Client_CreateAgentSession _ _ =>
      (Some new_session, Some (EUnmarshalType "TaskAgentReference" "agent.status" "number"))
  | Client_GetMessage _ _ _ => Ok None
  | DecryptOAEP _ _ _ => Done (Ok session_key)
  | NewTaskClient _ => 2%positive
  | Client_UpdateRecords _ _ _ _ _ _ => (Some [], None)
  | Client_DeleteAgent _ _ | Client_DeleteAgentSession _ _ | Client_DeleteMessage _ _ _
  | Client_UpdateAgentRequest _ _ _ | Client_RaisePlanEvent _ _ _ _ _ => None
  end.

(** The two together. *)
Definition serve_both (o : sop (Prelude.both wire azure)) (s : servers) : sans (Prelude.both wire azure) o * servers :=
  match o return sans (Prelude.both wire azure) o * servers with
  | inl o => serve_wire o s
  | inr o => (serve_azure o, s)
  end.

Definition dot_files : Files :=
  mkFiles (mkRunner 0 "KA ci runner" false 1 "Default" true false "https://pipelines" "" "_work" "" false)
    (mkCredentials "OAuth" (mkCredentialsData "" "" "" ""))
    (mkRSAParameters (Some [1]) (Some [1]) (Some [1]) (Some [1; 0; 1]) (Some [1]) (Some [12; 161])
       (Some [61]) (Some [53])).

(** A facade after [InitForCRUD], and one that runs. *)
Definition prepare {A} (m : Method.method azure facade A) (s : facade) : facade :=
  (exec (fun o (u : unit) => (serve_azure o, u)) (m s) tt).1.2.2.
Definition for_crud : facade :=
  prepare (InitForCRUD None "token" "https://pipelines") (mkFacade AzureDevOps_zero (Some dot_files)).
Definition for_run : facade := Eval vm_compute in prepare (InitForRun None) for_crud.
Definition in_session : facade := prepare InitAzureDevOpsTaskAgentSession for_run.

Definition opening_run :=
  exec serve_both (interp perform (call Wire.InitAzureDevOpsTaskAgentSession) (ado for_run)) busy.
Lemma opening_runs :
  runs (interp perform (call Wire.InitAzureDevOpsTaskAgentSession) (ado for_run)) opening_run.1.1
    (opening_run.1.2.1, opening_run.1.2.2).
Proof. unfold opening_run. rewrite <- surjective_pairing. apply exec_runs. Qed.

Lemma for_run_typed : typed (ado for_run).
Proof.
  assert (RSAPrivateKey (ado for_run) <> None /\ ado_Plan (ado for_run) = None /\
    ado_Timeline (ado for_run) = None /\ TaskClient (ado for_run) = None /\
    is_Some (ado_Connection (ado for_run)) /\ is_Some (BridgeConnection (ado for_run)) /\
    ado_TaskAgentSession (ado for_run) = None) as (_ & H1 & H2 & H3 & H4 & H5 & H6)
    by (vm_compute; split_and!; eauto; done).
  split; rewrite ?H1, ?H2, ?H3, ?H6; try done; by intros [? ?].
Qed.


(** The agent is found by its name, and replaced. *)
Definition with_client : AzureDevOps :=
  ado (set_TaskAgentClient (Some 1%positive) (mkFacade AzureDevOps_zero None)).
Abbreviation registering :=
  (initAzureDevOpsTaskAgent ["linux"] (mkFacade with_client (Some dot_files))).
Definition registering_run := exec (fun o (u : unit) => (serve_azure o, u)) registering tt.
Lemma agent_registered_witness :
  exists looking found agent,
    looked_up 1%positive (describedAgent dot_files ["linux"]) looking found /\
    registering_run.1.1 =
      (looking ++ [registered 1%positive (describedAgent dot_files ["linux"]) found (Ok agent)])%list.
Proof.
  destruct (agent_registered ["linux"] with_client dot_files 1%positive _ _ eq_refl
    (exec_runs (fun o (u : unit) => (serve_azure o, u)) registering tt))
    as (looking & found & answer & H1 & H2 & H3).
  destruct answer as [agent|e]; [exists looking, found, agent; split; [exact H1|exact H2]|].
  destruct H3 as [H3 _]. vm_compute in H3. discriminate H3.
Defined.

(** A sealed job request is opened. *)
Definition greeting := "{}".
End AzureExamples.
