(* ===== verification/Link.v ===== *)
(** * A wire over its facade of Azure DevOps

    The wire of [Wire] with its operations on Azure DevOps performed by the
    facade of [AzureDevOps].  The facade refines an abstract link, which only
    says whether it has a client, an agent, a bridge client, a session and a
    task client; what the wire promises of its own operations then becomes a
    promise about the requests Azure DevOps receives. *)

From S2P Require Export AzureDevOps.
#[local] Open Scope string_scope.

(** ** The abstract link *)

Record link : Type := mkLink {
  has_client : bool;
  has_agent : bool;
  has_bridge : bool;
  has_session : bool;
  has_task : bool;
}.

Definition has {A} (p : ptr A) : bool := match p with Some _ => true | None => false end.

(** The link a facade stands for. *)
Definition link_of (a : AzureDevOps) : link :=
  mkLink (has (TaskAgentClient a)) (has (ado_TaskAgent a)) (has (TaskAgentBridgeClient a))
    (has (ado_TaskAgentSession a)) (has (TaskClient a)).

Definition with_session (b : bool) (l : link) : link :=
  mkLink (has_client l) (has_agent l) (has_bridge l) b (has_task l).
Definition with_task (l : link) : link :=
  mkLink (has_client l) (has_agent l) (has_bridge l) (has_session l) true.

(** An operation that came back without an error. *)
Definition succeeded (ev : event wire) : bool :=
  bool_decide (failure ev = None) && bool_decide (panic ev = None).

(** What an operation of the wire may do to the link.  One that needs something
    the link does not have does not succeed; a failed registration may lose the
    agent; the session is only given up by a successful [Deinit]. *)
Definition link_step (l : link) (ev : event wire) (l' : link) : Prop :=
  let ok := succeeded ev in
  match ev_op ev with
  | Wire.InitForCRUD _ _ token url =>
      has_bridge l' = has_bridge l /\ has_session l' = has_session l /\ has_task l' = has_task l /\
      (has_client l -> has_client l') /\
      (ok -> token <> "" /\ url <> "" /\ has_client l' /\ has_agent l')
  | Wire.InitForRun _ _ =>
      has_client l' = has_client l /\ has_session l' = has_session l /\ has_task l' = has_task l /\
      (has_bridge l -> has_bridge l') /\ (ok -> has_bridge l' /\ has_agent l')
  | Wire.RefreshForRun _ =>
      has_client l' = has_client l /\ has_agent l' = has_agent l /\
      has_session l' = has_session l /\ has_task l' = has_task l /\
      (has_bridge l -> has_bridge l') /\ (ok -> has_bridge l')
  | Wire.InitAzureDevOpsTaskAgentSession =>
      if ok then has_agent l /\ has_bridge l /\ l' = with_session true l else l' = l
  | Wire.DeinitAzureDevOpsTaskAgentSession =>
      if ok then l' = with_session false l else has_session l /\ l' = l
  | Wire.DeleteAgent => l' = l /\ (ok -> has_client l /\ has_agent l)
  | Wire.GetMessage _ | Wire.DeleteMessage _ => l' = l /\ (ok -> has_bridge l /\ has_session l)
  | Wire.UpdateAgentRequest _ _ => l' = l /\ (ok -> has_bridge l)
  | Wire.InitAzureDevOpsTaskClient _ _ _ => l' = if ok then with_task l else l
  | Wire.UpdateRecord _ | Wire.RaisePlanEvent _ => l' = l /\ (ok -> has_task l)
  | _ => l' = l
  end.

Fixpoint link_steps (l : link) (tr : trace wire) (l' : link) : Prop :=
  match tr with
  | [] => l' = l
  | ev :: tr => exists l1, link_step l ev l1 /\ link_steps l1 tr l'
  end.

Lemma link_steps_app l tr1 tr2 l' :
  link_steps l (tr1 ++ tr2) l' <-> exists l1, link_steps l tr1 l1 /\ link_steps l1 tr2 l'.
Proof.
  revert l. induction tr1 as [|ev tr1 IH]; intros l; cbn; [naive_solver|].
  setoid_rewrite IH. naive_solver.
Qed.

(** ** The facade refines the link *)

Section refining.
Context `{P : Process} `{AL : AzureLib}.
#[local] Abbreviation method A := (Method.method azure facade A).

Lemma conduct_runs {A B} (m : method A) (answer : attempt A -> ptr Files -> B) d a tr b a' :
  runs (conduct m answer d a) tr (b, a') <->
  exists tr0 x s, tr = lift_event <$> tr0 /\ runs (m (mkFacade a d)) tr0 (x, s) /\
    b = answer x (dotFiles s) /\ a' = ado s.
Proof.
  unfold conduct. rewrite runs_inject_r. setoid_rewrite runs_bind. split.
  - intros (tr0 & -> & tr1 & [x s] & tr2 & -> & H & [-> [= -> ->]]). exists tr1, x, s.
    by rewrite app_nil_r.
  - intros (tr0 & x & s & -> & H & -> & ->). exists tr0. split; [done|].
    exists tr0, (x, s), []. by rewrite app_nil_r.
Qed.

(** How the attempt ended. *)
Definition went_well {A} (r : attempt A) : bool := match r with Done (Ok _) => true | _ => false end.

(** What a method does to the link, by how it ends. *)
Definition effect {A} (m : method A) (R : link -> bool -> link -> Prop) : Prop := forall s,
  always (m s) (fun _ r => R (link_of (ado s)) (went_well r.1) (link_of (ado r.2))).

Ltac walked :=
  intros s;
  unfold get, reading, require, failing, deref, erring, resulting, andThen, trying, calling, returning, modify;
  walk; cbn; try (by simplify_eq/=); unfold link_of;
  repeat match goal with H : _ (ado _) = _ |- _ => rewrite ?H; clear H end;
  cbn; repeat split; try done; eauto.

(** Methods in sequence. *)
Lemma effect_andThen {A B} (m : method A) (k : A -> method B) (R1 R2 R : link -> bool -> link -> Prop) :
  effect m R1 -> (forall a, effect (k a) R2) ->
  (forall l l', R1 l false l' -> R l false l') ->
  (forall l l1 ok l', R1 l true l1 -> R2 l1 ok l' -> R l ok l') ->
  effect (andThen m k) R.
Proof.
  intros Hm Hk Hfail Hok s. apply always_andThen. eapply always_mono; [apply Hm|].
  intros tr [[[a|e]|e] s1]; cbn; [|auto..]. intros H1.
  eapply always_mono; [apply Hk|]. cbn. eauto.
Qed.

Definition unlinked (l : link) (ok : bool) (l' : link) : Prop := l' = l.

Lemma effect_calling {A} (p : prog azure (attempt A)) : effect (calling p) unlinked.
Proof.
  intros s. unfold calling. apply always_bind, always_runs. by intros tr a _.
Qed.
Lemma unlinked_andThen {A B} (m : method A) (k : A -> method B) :
  effect m unlinked -> (forall a, effect (k a) unlinked) -> effect (andThen m k) unlinked.
Proof. intros Hm Hk. eapply effect_andThen; [done..|]. unfold unlinked. congruence. Qed.
Lemma effect_after {A B} (m : method A) (k : A -> method B) (R : link -> bool -> link -> Prop) :
  effect m unlinked -> (forall l, R l false l) -> (forall a, effect (k a) R) ->
  effect (andThen m k) R.
Proof.
  intros Hm HR Hk. eapply effect_andThen; [exact Hm|exact Hk|by intros ? ? ->|by intros ? ? ? ? ->].
Qed.
Lemma effect_get {A B} (f : facade -> A) (k : A -> method B) R :
  (forall a, effect (k a) R) -> effect (get f k) R.
Proof. intros Hk s. apply Hk. Qed.
Lemma effect_deref {A B} (p : ptr A) (k : A -> method B) (R : link -> bool -> link -> Prop) :
  (forall l, R l false l) -> (forall a, effect (k a) R) -> effect (deref p k) R.
Proof. intros HR Hk. destruct p; [apply Hk|by intros s; apply HR]. Qed.
Lemma effect_require {A B} (p : ptr A) msg (k : A -> method B) (R : link -> bool -> link -> Prop) :
  (forall l, R l false l) -> (forall a, effect (k a) R) -> effect (require p msg k) R.
Proof. intros HR Hk. destruct p; [apply Hk|by intros s; apply HR]. Qed.
Lemma effect_getDotFiles {A} (k : Files -> method A) (R : link -> bool -> link -> Prop) :
  (forall l, R l false l) -> (forall d, effect (k d) R) -> effect (getDotFiles k) R.
Proof.
  intros HR Hk. apply (effect_get dotFiles (fun d => deref d k)). intros d. by apply effect_deref.
Qed.

Ltac unlinking :=
  repeat first
    [ progress intros | by intros ? | apply effect_calling | apply unlinked_andThen
    | apply effect_deref; [done|] | apply effect_require; [done|]
    | apply effect_getDotFiles; [done|] | apply effect_get
    | match goal with |- effect (match ?x with _ => _ end) _ => destruct x end ].

Lemma unlinked_unseal m : effect (unseal m) unlinked.
Proof. unfold unseal. unlinking. Qed.
Lemma unlinked_GetAgent : effect GetAgent unlinked.
Proof. unfold GetAgent. unlinking. Qed.
Lemma unlinked_AddAgent : effect AddAgent unlinked.
Proof. unfold AddAgent. unlinking. Qed.
Lemma unlinked_ReplaceAgent : effect ReplaceAgent unlinked.
Proof. unfold ReplaceAgent. unlinking. Qed.
Lemma unlinked_credit agent : effect (credit agent) unlinked.
Proof. unfold credit, writing. unlinking. Qed.
Lemma unlinked_initRSAPrivateKey : effect initRSAPrivateKey unlinked.
Proof. unfold initRSAPrivateKey. unlinking. Qed.
Lemma unlinked_initAzureDevOpsBridgeConnection : effect initAzureDevOpsBridgeConnection unlinked.
Proof. unfold initAzureDevOpsBridgeConnection. unlinking. Qed.
Lemma unlinked_initAzureDevOpsPlan p : effect (initAzureDevOpsPlan p) unlinked.
Proof. unfold initAzureDevOpsPlan. unlinking. Qed.
Lemma unlinked_initAzureDevOpsTimeline t : effect (initAzureDevOpsTimeline t) unlinked.
Proof. unfold initAzureDevOpsTimeline. unlinking. Qed.
Lemma unlinked_initAzureDevOpsJobConnection es : effect (initAzureDevOpsJobConnection es) unlinked.
Proof. unfold initAzureDevOpsJobConnection. unlinking. Qed.

Lemma effect_DeleteAgent : effect DeleteAgent (fun l ok l' =>
  l' = l /\ (ok -> has_client l /\ has_agent l)).
Proof. unfold DeleteAgent. walked. Qed.
Lemma effect_GetMessage last : effect (GetMessage last) (fun l ok l' =>
  l' = l /\ (ok -> has_bridge l /\ has_session l)).
Proof.
  intros s. unfold GetMessage, get, reading.
  destruct (TaskAgentBridgeClient (ado s)) eqn:Hc; [|done]. cbn [require].
  destruct (ado_TaskAgentSession (ado s)) as [session|] eqn:Hs; [|by cbn]. cbn [require].
  assert (has_bridge (link_of (ado s)) /\ has_session (link_of (ado s)))
    by (cbn; by rewrite Hc, Hs).
  match goal with |- always (?m s) _ => assert (effect m unlinked) as Hm end.
  { unlinking. apply unlinked_unseal. }
  by eapply always_mono; [apply Hm|].
Qed.
Lemma effect_DeleteMessage id : effect (DeleteMessage id) (fun l ok l' =>
  l' = l /\ (ok -> has_bridge l /\ has_session l)).
Proof. unfold DeleteMessage. walked. Qed.
Lemma effect_UpdateAgentRequest id o : effect (UpdateAgentRequest id o) (fun l ok l' =>
  l' = l /\ (ok -> has_bridge l)).
Proof. unfold UpdateAgentRequest. walked. Qed.
Lemma effect_UpdateRecord rs : effect (UpdateRecord rs) (fun l ok l' =>
  l' = l /\ (ok -> has_task l)).
Proof. unfold UpdateRecord. walked. Qed.
Lemma effect_RaisePlanEvent e : effect (RaisePlanEvent e) (fun l ok l' =>
  l' = l /\ (ok -> has_task l)).
Proof. unfold RaisePlanEvent. walked. Qed.
Lemma effect_InitAzureDevOpsTaskClient p t es : effect (InitAzureDevOpsTaskClient p t es)
  (fun l ok l' => l' = if ok then with_task l else l).
Proof.
  assert (forall l l1 ok l', unlinked l true l1 -> l' = (if ok : bool then with_task l1 else l1) ->
    l' = if ok then with_task l else l) as Hseq
    by (unfold unlinked; naive_solver).
  unfold InitAzureDevOpsTaskClient.
  do 3 (eapply effect_andThen;
    [auto using unlinked_initAzureDevOpsPlan, unlinked_initAzureDevOpsTimeline,
       unlinked_initAzureDevOpsJobConnection| |done|exact Hseq]; intros ?).
  walked.
Qed.
Lemma effect_DeinitAzureDevOpsTaskAgentSession : effect DeinitAzureDevOpsTaskAgentSession
  (fun l ok l' => if ok then l' = with_session false l else has_session l /\ l' = l).
Proof. unfold DeinitAzureDevOpsTaskAgentSession, DeleteAgentSession. walked. Qed.
Lemma effect_initAzureDevOpsBridgeTaskAgentClient : effect initAzureDevOpsBridgeTaskAgentClient
  (fun l ok l' => has_client l' = has_client l /\ has_agent l' = has_agent l /\
    has_session l' = has_session l /\ has_task l' = has_task l /\
    (has_bridge l -> has_bridge l') /\ (ok -> has_bridge l')).
Proof. unfold initAzureDevOpsBridgeTaskAgentClient. walked. Qed.

Lemma effect_RefreshForRun : effect RefreshForRun (fun l ok l' =>
  has_client l' = has_client l /\ has_agent l' = has_agent l /\
  has_session l' = has_session l /\ has_task l' = has_task l /\
  (has_bridge l -> has_bridge l') /\ (ok -> has_bridge l')).
Proof.
  apply effect_after; [apply unlinked_initAzureDevOpsBridgeConnection|done|].
  intros _. apply effect_initAzureDevOpsBridgeTaskAgentClient.
Qed.

Lemma effect_initAzureDevOpsConnection token url : effect (initAzureDevOpsConnection token url)
  (fun l ok l' => l' = l /\ (ok -> token <> "" /\ url <> "")).
Proof.
  unfold initAzureDevOpsConnection. intros s. repeat case_bool_decide; by cbn.
Qed.
Lemma effect_initAzureDevOpsTaskAgentClient : effect initAzureDevOpsTaskAgentClient
  (fun l ok l' => has_bridge l' = has_bridge l /\ has_agent l' = has_agent l /\
    has_session l' = has_session l /\ has_task l' = has_task l /\
    (has_client l -> has_client l') /\ (ok -> has_client l')).
Proof. unfold initAzureDevOpsTaskAgentClient. walked. Qed.

Lemma effect_openSession session : effect (openSession session)
  (fun l ok l' => l' = if ok then with_session true l else l).
Proof. unfold openSession. walked. Qed.
Lemma effect_InitAzureDevOpsTaskAgentSession : effect InitAzureDevOpsTaskAgentSession
  (fun l ok l' => if ok then has_agent l /\ has_bridge l /\ l' = with_session true l else l' = l).
Proof.
  intros s. unfold InitAzureDevOpsTaskAgentSession, CreateAgentSession, andThen at 1, get, reading.
  destruct (ado_TaskAgent (ado s)) as [agent|] eqn:Ha; [|done].
  destruct (TaskAgentBridgeClient (ado s)) as [c|] eqn:Hc; [|done].
  assert (has_agent (link_of (ado s)) /\ has_bridge (link_of (ado s))) as [Hl Hb]
    by (cbn; by rewrite Ha, Hc).
  cbn [bind call calling always]. intros [session [e|]]; cbn [fst snd]; [destruct (tolerated e); [|done]|].
  all: eapply always_mono; [apply effect_openSession|]; cbn; intros tr r ->;
    by destruct (went_well r.1).
Qed.

(** Registering keeps an agent there is, unless it fails; without a client the
    agent is only described. *)
Definition registering (l : link) (ok : bool) (l' : link) : Prop :=
  has_client l' = has_client l /\ has_bridge l' = has_bridge l /\
  has_session l' = has_session l /\ has_task l' = has_task l /\
  (ok -> has_agent l -> has_agent l').

Lemma registering_andThen {A B} (m : method A) (k : A -> method B) :
  effect m registering -> (forall a, effect (k a) registering) -> effect (andThen m k) registering.
Proof.
  intros Hm Hk. eapply effect_andThen; [exact Hm|exact Hk|done|].
  unfold registering. intros l l1 ok l' H1 H2. destruct_and!. split_and!; naive_solver congruence.
Qed.
Lemma registering_trying {A B} (m : method A) (k : result A -> method B) :
  effect m unlinked -> (forall a, effect (k a) registering) -> effect (trying m k) registering.
Proof.
  intros Hm Hk s. apply always_trying. eapply always_mono; [apply Hm|].
  unfold unlinked. intros tr [[r|e] s1]; cbn; intros <-; [|done].
  eapply always_mono; [apply Hk|]. done.
Qed.
Lemma registering_modify agent : effect (modify (set_TaskAgent (Some agent))) registering.
Proof. by intros s. Qed.
Lemma registering_unlinked {A} (m : method A) : effect m unlinked -> effect m registering.
Proof.
  intros H s. eapply always_mono; [apply H|]. unfold unlinked, registering. by intros tr r ->.
Qed.

Lemma effect_initAzureDevOpsTaskAgent labels : effect (initAzureDevOpsTaskAgent labels)
  (fun l ok l' => has_client l' = has_client l /\ has_bridge l' = has_bridge l /\
    has_session l' = has_session l /\ has_task l' = has_task l /\ (ok -> has_agent l')).
Proof.
  unfold initAzureDevOpsTaskAgent. apply effect_getDotFiles; [done|]. intros d.
  eapply (effect_andThen _ _ (fun l ok l' => registering l ok l' /\ (ok -> has_agent l')) registering).
  { intros s. split; [|done]. exact (registering_modify _ s). }
  2: { unfold registering. naive_solver. }
  2: { unfold registering. intros. destruct_and!. split_and!; naive_solver congruence. }
  intros _. apply effect_get. intros [c|]; [|by intros s].
  apply registering_trying; [apply unlinked_GetAgent|].
  intros found. apply registering_andThen; [apply registering_modify|]. intros _.
  apply registering_trying; [unlinking; auto using unlinked_AddAgent, unlinked_ReplaceAgent|].
  intros [agent|e]; [|by intros s].
  apply registering_andThen; [|intros _; apply registering_modify].
  apply registering_unlinked, unlinked_credit.
Qed.

Lemma effect_InitForRun labels : effect (InitForRun labels) (fun l ok l' =>
  has_client l' = has_client l /\ has_session l' = has_session l /\ has_task l' = has_task l /\
  (has_bridge l -> has_bridge l') /\ (ok -> has_bridge l' /\ has_agent l')).
Proof.
  apply effect_after; [apply unlinked_initRSAPrivateKey|done|]. intros _.
  eapply effect_andThen; [apply effect_initAzureDevOpsTaskAgent|
    intros _; apply effect_RefreshForRun| |]; cbn.
  - intros l l' H. destruct_and!. split_and!; congruence || done.
  - intros l l1 ok l' H1 H2. destruct_and!. split_and!; try congruence; naive_solver congruence.
Qed.

Lemma effect_InitForCRUD labels token url : effect (InitForCRUD labels token url) (fun l ok l' =>
  has_bridge l' = has_bridge l /\ has_session l' = has_session l /\ has_task l' = has_task l /\
  (has_client l -> has_client l') /\
  (ok -> token <> "" /\ url <> "" /\ has_client l' /\ has_agent l')).
Proof.
  apply effect_after; [apply unlinked_initRSAPrivateKey|done|]. intros _.
  eapply effect_andThen; [apply effect_initAzureDevOpsConnection| | |]; cbn.
  - intros _. eapply (effect_andThen _ _ _ _ (fun l ok l' =>
      has_bridge l' = has_bridge l /\ has_session l' = has_session l /\ has_task l' = has_task l /\
      (has_client l -> has_client l') /\ (ok -> has_client l' /\ has_agent l')));
      [apply effect_initAzureDevOpsTaskAgentClient|intros _; apply effect_initAzureDevOpsTaskAgent|..];
      cbn; intros; destruct_and!; split_and!; try congruence; naive_solver congruence.
  - intros l l' [-> _]. done.
  - intros l l1 ok l' [-> H1] H2. destruct_and!. split_and!; try done. naive_solver.
Qed.

Lemma succeeded_attempt (f p : goerr) (r : attempt unit) :
  f = attempt_err r -> p = attempt_panic r ->
  bool_decide (f = None) && bool_decide (p = None) = went_well r.
Proof. intros -> ->. by destruct r as [[[]|e]|e]. Qed.

Lemma conduct_effect {A B} (m : method A) (answer : attempt A -> ptr Files -> B) d a tr b a' R :
  effect m R -> runs (conduct m answer d a) tr (b, a') ->
  exists x f, b = answer x f /\ R (link_of a) (went_well x) (link_of a').
Proof.
  intros Hm (tr0 & x & s & -> & H & -> & ->)%conduct_runs. exists x, (dotFiles s). split; [done|].
  exact (runs_always _ _ _ _ (Hm (mkFacade a d)) H).
Qed.

(** One operation of the wire is one step of the link. *)
Lemma perform_steps o a tr r a' :
  runs (perform o a) tr (r, a') -> link_step (link_of a) (o ↝ r) (link_of a').
Proof.
  intros H. unfold link_step, succeeded.
  destruct o; cbn [perform ev_op] in *;
    try (destruct H as (r' & tr' & _ & _ & [= _ ->]); done).
  all: eapply conduct_effect in H as (x & f & -> & HR);
    [|first [apply effect_InitForCRUD | apply effect_InitForRun | apply effect_RefreshForRun
            | apply effect_InitAzureDevOpsTaskAgentSession
            | apply effect_DeinitAzureDevOpsTaskAgentSession | apply effect_DeleteAgent
            | apply effect_GetMessage | apply effect_DeleteMessage | apply effect_UpdateAgentRequest
            | apply effect_InitAzureDevOpsTaskClient | apply effect_UpdateRecord
            | apply effect_RaisePlanEvent]].
  all: destruct x as [[x|e]|e]; exact HR.
Qed.

Lemma implements_steps tr' a tr a' :
  implements perform a tr' tr a' -> link_steps (link_of a) tr' (link_of a').
Proof.
  revert a tr. induction tr' as [|[o r] tr' IH]; intros a tr; cbn -[perform link_step].
  - by intros [-> ->].
  - intros (a1 & tr1 & tr2 & -> & H1 & H2). exists (link_of a1). split; [|by eapply IH].
    by eapply perform_steps.
Qed.

(** [C6] The facade refines the link.  Whatever a program does over the operations
    of a wire, when the facade performs them, against any behaviour of Azure
    DevOps, it does it over some answers by which the operations are steps of the
    link, from the one the facade stands for before to the one it stands for
    after. *)
Theorem facade_refines_link {A} (p : prog wire A) a tr x a' :
  runs (interp perform p a) tr (x, a') ->
  exists tr', runs p tr' x /\ implements perform a tr' tr a' /\
    link_steps (link_of a) tr' (link_of a').
Proof.
  intros (tr' & Hp & Hi)%interp_runs. exists tr'. split_and!; [done..|].
  by eapply implements_steps.
Qed.

(** ** The requests of the methods *)

(** A deletion that does not happen is one Azure DevOps refused. *)
Lemma Deinit_requests s : typed (ado s) ->
  always (DeinitAzureDevOpsTaskAgentSession s) (fun tr r =>
    match r.1 with
    | Done (Ok _) => ado_TaskAgentSession (ado r.2) = None
    | Done (Err e) => exists c session, ado_TaskAgentSession (ado r.2) = Some session /\
        tr = [Client_DeleteAgentSession c (SessionId session) ↝ Some e]
    | Panicked _ => False
    end).
Proof.
  intros Hs. unfold DeinitAzureDevOpsTaskAgentSession, DeleteAgentSession, get, reading.
  destruct (ado_TaskAgentSession (ado s)) as [session|] eqn:Hsession; [|done].
  destruct (typed_session _ Hs) as [c Hc]; [by rewrite Hsession|].
  unfold andThen. rewrite Hc. cbn [require]. rewrite Hsession. unfold erring, calling.
  cbn. intros [e|]; cbn; [|done]. by exists c, session.
Qed.

Ltac requested :=
  intros s;
  unfold get, reading, require, failing, deref, erring, resulting, andThen, calling, returning, modify;
  walk; cbn; try done; intros ?; simplify_eq/=; eauto 10.

Lemma UpdateAgentRequest_requests id orch : forall s,
  always (UpdateAgentRequest (Some id) (Some orch) s) (fun tr r => r.1 = Done (Ok tt) ->
    exists c, TaskAgentBridgeClient (ado s) = Some c /\ r.2 = s /\
      ops tr = [Client_UpdateAgentRequest c id (Some orch)]).
Proof. unfold UpdateAgentRequest. requested. Qed.
Lemma UpdateRecord_requests records : forall s,
  always (UpdateRecord records s) (fun tr r => forall x, r.1 = Done (Ok x) ->
    exists plan timeline c, ado_Plan (ado s) = Some plan /\ ado_Timeline (ado s) = Some timeline /\
      TaskClient (ado s) = Some c /\ r.2 = s /\
      ops tr = [Client_UpdateRecords c records (plan_ScopeIdentifier plan) (plan_PlanType plan)
                  (plan_PlanId plan) (timeline_Id timeline)]).
Proof. unfold UpdateRecord. requested. Qed.
Lemma RaisePlanEvent_requests event : forall s,
  always (RaisePlanEvent (Some event) s) (fun tr r => r.1 = Done (Ok tt) ->
    exists plan c, ado_Plan (ado s) = Some plan /\ TaskClient (ado s) = Some c /\ r.2 = s /\
      ops tr = [Client_RaisePlanEvent c event (plan_ScopeIdentifier plan) (plan_PlanType plan)
                  (plan_PlanId plan)]).
Proof. unfold RaisePlanEvent. requested. Qed.

(** The connection for reporting on a job, from the job's own endpoint. *)
Definition job_connection (endpoints : list ServiceEndpoint) : result Connection :=
  let? endpoint := GetSystemVssConnectionEndpoint endpoints in
  let? token := GetServiceEndpointAccessToken (Some endpoint) in
  let? url := GetServiceEndpointURL (Some endpoint) in
  Ok (mkConnection (bearer token) url).

Lemma initPlan_requests plan s : always (initAzureDevOpsPlan plan s) (fun tr r =>
  r.1 = Done (Ok tt) -> exists p, plan = Some p /\ complete_plan p /\ tr = [] /\
    r.2 = set_Plan (Some p) s).
Proof.
  destruct plan as [p|]; cbn; [|done]. unfold complete_plan.
  destruct (plan_ScopeIdentifier p) eqn:H1; cbn; [|done]. destruct (plan_PlanType p) eqn:H2; cbn; [|done].
  destruct (plan_PlanId p) eqn:H3; cbn; [|done]. intros _. exists p.
  rewrite H1, H2, H3. split_and!; eauto.
Qed.
Lemma initTimeline_requests timeline s : always (initAzureDevOpsTimeline timeline s) (fun tr r =>
  r.1 = Done (Ok tt) -> exists t, timeline = Some t /\ is_Some (timeline_Id t) /\ tr = [] /\
    r.2 = set_Timeline (Some t) s).
Proof.
  destruct timeline as [t|]; cbn; [|done].
  destruct (timeline_Id t) eqn:H1; cbn; [|done]. intros _. exists t. rewrite H1. split_and!; eauto.
Qed.
Lemma initJobConnection_requests endpoints s :
  always (initAzureDevOpsJobConnection endpoints s) (fun tr r => r.1 = Done (Ok tt) ->
    exists c, job_connection endpoints = Ok c /\ tr = [] /\ r.2 = set_JobConnection (Some c) s).
Proof.
  unfold initAzureDevOpsJobConnection, job_connection, andThen, returning, modify.
  destruct (GetSystemVssConnectionEndpoint endpoints) as [e|]; cbn [bind always fst snd result_bind]; [|done].
  destruct (GetServiceEndpointAccessToken (Some e)) as [token|]; cbn [bind always fst snd result_bind]; [|done].
  destruct (GetServiceEndpointURL (Some e)) as [url|]; cbn [bind always fst snd result_bind]; [|done].
  intros _. by eexists.
Qed.

Lemma InitTaskClient_requests plan timeline endpoints s tr s' :
  runs (InitAzureDevOpsTaskClient plan timeline endpoints s) tr (Done (Ok tt), s') ->
  exists p t connection task, plan = Some p /\ complete_plan p /\
    timeline = Some t /\ is_Some (timeline_Id t) /\
    job_connection endpoints = Ok connection /\ ops tr = [NewTaskClient connection] /\
    ado_Plan (ado s') = Some p /\ ado_Timeline (ado s') = Some t /\ TaskClient (ado s') = Some task.
Proof.
  intros (t1 & [] & s1 & t2 & -> & H1 & H)%runs_andThen_ok.
  destruct (runs_always _ _ _ _ (initPlan_requests plan s) H1 eq_refl) as (p & -> & Hp & -> & Hs); cbn in Hs; subst s1.
  apply runs_andThen_ok in H as (t3 & [] & s2 & t4 & -> & H2 & H).
  destruct (runs_always _ _ _ _ (initTimeline_requests timeline _) H2 eq_refl) as (t & -> & Ht & -> & Hs); cbn in Hs; subst s2.
  apply runs_andThen_ok in H as (t5 & [] & s3 & t6 & -> & H3 & H).
  destruct (runs_always _ _ _ _ (initJobConnection_requests endpoints _) H3 eq_refl)
    as (c & Hc & -> & Hs); cbn in Hs; subst s3.
  cbn in H. destruct H as (task & t7 & -> & -> & [= ->]). exists p, t, c, task. cbn. eauto 20.
Qed.
End refining.

(** ** The listener over the facade *)

Section listening.
Context {T : K8sTypes} {L : K8sLib} `{J : GoJQ} `{JL : JobLib} `{SL : StringsLib}.
Context `{P : Process} `{AL : AzureLib}.

(** A wire that is closed without a panic ends by giving its session up. *)
Lemma Close_ends : always Close (fun tr r => forall x, r = Done x ->
  exists pre r, tr = (pre ++ [Wire.DeinitAzureDevOpsTaskAgentSession ↝ Done r])%list).
Proof.
  unfold Close. cbn. intros []; cbn; [|intros [[]|e]; cbn; [|done]].
  - intros r x ->. exists [IsClosed ↝ true]. by exists x.
  - intros r x ->. exists [IsClosed ↝ false; CloseLoop ↝ Done tt]. by exists x.
Qed.

Lemma listener_ends fuel ar d pv tr :
  runs (listener fuel ar d pv) tr (Done Stopped) ->
  exists pre r post, tr = (pre ++ (Wire.DeinitAzureDevOpsTaskAgentSession ↝ Done r) :: post)%list /\
    Forall (fun o => o = SendEvent) (ops post).
Proof.
  intros (tr1 & body & tr2 & -> & _ & H)%runs_bind.
  assert (exists u tr' out tr3, tr2 = ((SetListening false ↝ u) :: tr' ++ tr3)%list /\
    runs Close tr' (Done out) /\ Forall (fun o => o = SendEvent) (ops tr3)) as (u & tr' & out & tr3 & -> & Hc & Hp).
  { assert (exists u tr', tr2 = ((SetListening false ↝ u) :: tr')%list /\
      runs (let! r := Close in
            match r, body with
            | Panicked e, _ => Ret (Panicked e)
            | Done _, Panicked _ => let! _ := trySendEvent in Ret (Done Stopped)
            | Done _, Done e => Ret (Done e)
            end) tr' (Done Stopped)) as (u & tr' & -> & Hrun).
    { destruct body as [[]|e]; [|by destruct H|]; destruct H as (u & tr' & -> & H); by exists u, tr'. }
    apply runs_bind in Hrun as (tr3 & [out|e'] & tr4 & -> & Hc & Hrun); [|by destruct body; destruct Hrun].
    exists u, tr3, out, tr4. split_and!; [done..|].
    destruct body as [[]|e]; [by destruct Hrun as [-> _]; constructor|by destruct Hrun|].
    destruct Hrun as (r & tr5 & -> & Hrun). cbn in Hrun. destruct Hrun as [-> _]. by repeat constructor. }
  destruct (runs_always _ _ _ _ Close_ends Hc out eq_refl) as (pre & r & ->).
  exists (tr1 ++ (SetListening false ↝ u) :: pre)%list, r, tr3. split; [|done].
  by rewrite <- !app_assoc.
Qed.

Lemma implements_app tr1 tr2 a tr a' :
  implements perform a (tr1 ++ tr2) tr a' <->
  exists a1 t1 t2, tr = (t1 ++ t2)%list /\ implements perform a tr1 t1 a1 /\ implements perform a1 tr2 t2 a'.
Proof.
  revert a tr. induction tr1 as [|e tr1 IH]; intros a tr; cbn -[perform].
  - split; [intros H; by exists a, [], tr|by intros (a1 & t1 & t2 & -> & [-> ->] & H)].
  - setoid_rewrite IH. split.
    + intros (a1 & t1 & t2 & -> & H1 & a2 & t3 & t4 & -> & H2 & H3).
      exists a2, (t1 ++ t3)%list, t4. rewrite app_assoc. eauto 10.
    + intros (a2 & t1 & t2 & -> & (a1 & t3 & t4 & -> & H1 & H2) & H3).
      exists a1, t3, (t4 ++ t2)%list. rewrite app_assoc. eauto 10.
Qed.


(** ** Initialising over the facade *)

Lemma runs_call_ok o tr r : runs (call (E := wire) o) tr r -> tr = [o ↝ r].
Proof. by intros (r' & tr' & -> & -> & ->). Qed.

(** What a successful [init] has done last. *)
Lemma init_ends w tr w' : runs (init w) tr (Done (Ok tt), w') ->
  exists pre d ls token url f d' f',
    tr = (pre ++ [Wire.InitForCRUD d ls token url ↝ (Done (Ok tt), f);
                  Wire.InitForRun d' ls ↝ (Done (Ok tt), f');
                  Wire.InitAzureDevOpsTaskAgentSession ↝ Done (Ok tt);
                  Wire.DeinitAzureDevOpsTaskAgentSession ↝ Done (Ok tt)])%list.
Proof.
  intros (t1 & [] & w1 & t2 & -> & _ & H)%runs_andThen_ok.
  apply runs_andThen_ok in H as (t3 & [] & w2 & t4 & -> & _ & H).
  apply runs_andThen_ok in H as (t5 & [] & w3 & t6 & -> & Hado & H).
  apply runs_andThen_ok in H as (t7 & [] & w4 & t8 & -> & Hrun & H).
  apply runs_andThen_ok in H as (t9 & [] & w5 & t10 & -> & [Hs ->]%runs_calling_ok & H).
  apply runs_andThen_ok in H as (t11 & [] & w6 & t12 & -> & [Hd ->]%runs_calling_ok & H).
  destruct H as [-> _].
  apply runs_call_ok in Hs as ->. apply runs_call_ok in Hd as ->.
  unfold initADO in Hado.
  apply runs_andThen_ok in Hado as (t13 & credential & w7 & t14 & -> & [Hc ->]%runs_calling_ok & Hado).
  unfold withDotFiles in Hado, Hrun.
  destruct (w_DotFiles w2) as [d|]; [|by destruct Hado].
  destruct Hado as ([r f] & t15 & -> & Hado). cbn in Hado. destruct Hado as [-> [= <- ->]].
  cbn in Hrun. destruct Hrun as ([r' f'] & t16 & -> & Hrun). cbn in Hrun.
  destruct Hrun as [-> [= <- ->]].
  exists (t1 ++ t3 ++ t13)%list. do 7 eexists. by rewrite <- !app_assoc.
Qed.


(** ** Reporting a violation over the facade *)

Lemma ops_lift (tr : trace azure) : ops (lift_event (E := wire) <$> tr) = inr <$> ops tr.
Proof. unfold ops. by rewrite <- !list_fmap_compose. Qed.

(** Taking the success of [let!?] over the facade apart. *)
Lemma runs_interp_let {A B} (q : AzureDevOps -> prog (Prelude.both wire azure) (attempt A * AzureDevOps))
    (k : A -> prog wire (attempt B)) a tr (b : B) a' :
  runs (let! r := q a in
        interp perform (match r.1 with
                        | Done (Ok x) => k x
                        | Done (Err e) => Ret (Done (Err e))
                        | Panicked e => Ret (Panicked e)
                        end) r.2) tr (Done (Ok b), a') ->
  exists t1 x a1 t2, tr = (t1 ++ t2)%list /\ runs (q a) t1 (Done (Ok x), a1) /\
    runs (interp perform (k x) a1) t2 (Done (Ok b), a').
Proof.
  intros (t1 & [[[x|e]|e] a1] & t2 & -> & H1 & H2)%runs_bind; cbn [fst snd interp] in H2.
  - by exists t1, x, a1, t2.
  - by destruct H2.
  - by destruct H2.
Qed.

End listening.

(** ** Examples *)

Module LinkExamples.
Import Demo ConverterExamples PolicyExamples WireExamples AzureExamples.

(** A queue that is gone, so that the listener's loop panics. *)
Definition queue_gone : error := EOther "502".
Definition serve_gone (o : sop (Prelude.both wire azure)) (s : servers)
    : sans (Prelude.both wire azure) o * servers :=
  match o return sans (Prelude.both wire azure) o * servers with
  | inr o =>
      (match o return azure_ans o with
       | Client_GetMessage _ _ _ => Err queue_gone
       | o => serve_azure o
       end, s)
  | inl o => serve_wire o s
  end.

Definition listening : prog (Prelude.both wire azure) (outcome loop_end * AzureDevOps) :=
  interp perform (listener 3 guarded (Some dot_files) NewPolicyValidator) (ado for_run).
Definition listening_run := exec serve_gone listening busy.
Lemma listening_runs : runs listening listening_run.1.1 (Done Stopped, listening_run.1.2.2).
Proof.
  assert (Done Stopped = listening_run.1.2.1) as -> by (by vm_compute).
  rewrite <- surjective_pairing. unfold listening_run. apply exec_runs.
Qed.

Lemma facade_refines_link_witness :
  exists tr', runs (listener 3 guarded (Some dot_files) NewPolicyValidator) tr' (Done Stopped) /\
    link_steps (mkLink true true true false false) tr' (mkLink true true true false false).
Proof.
  destruct (facade_refines_link _ _ _ _ _ listening_runs) as (tr' & H1 & _ & H2).
  exists tr'. split; [exact H1|].
  assert (link_of (ado for_run) = mkLink true true true false false) as Hl by (by vm_compute).
  assert (link_of listening_run.1.2.2 = mkLink true true true false false) as Hl' by (by vm_compute).
  rewrite Hl, Hl' in H2. exact H2.
Defined.


Definition initialising : prog (Prelude.both wire azure) (attempt unit * Wire * AzureDevOps) :=
  interp perform (Init new_wire) AzureDevOps_zero.
Definition initialising_run := exec serve_both initialising busy.
Lemma initialising_runs :
  runs initialising initialising_run.1.1
    (Done (Ok tt), initialising_run.1.2.1.2, initialising_run.1.2.2).
Proof.
  assert (Done (Ok tt) = initialising_run.1.2.1.1) as -> by (by vm_compute).
  rewrite <- !surjective_pairing. unfold initialising_run. apply exec_runs.
Qed.


Definition reporting_violation : prog (Prelude.both wire azure) (attempt unit * AzureDevOps) :=
  interp perform (onPolicyViolation guarded (Some (request context)) (Some ".fork")) (ado for_run).
Definition violation_run := exec serve_both reporting_violation busy.
Lemma violation_runs :
  runs reporting_violation violation_run.1.1 (Done (Ok tt), violation_run.1.2.2).
Proof.
  assert (Done (Ok tt) = violation_run.1.2.1) as -> by (by vm_compute).
  rewrite <- surjective_pairing. unfold violation_run. apply exec_runs.
Qed.

End LinkExamples.
