(* ===== verification/GitHub.v ===== *)
(** * facades/gh.go: the facade of GitHub

    The one client of GitHub the operator keeps, the caches of repositories,
    tokens and credentials its reconcilers share, and the credential a runner is
    registered or removed with.  The calls of the GitHub client and of the metrics
    are operations of the signature [github]; whether a cache still has an entry
    that was put into it is an answer, since entries expire. *)

From S2P Require Export Converters Wire Method.
From S2P Require Import Text.
From Stdlib Require Import Ascii.
#[local] Open Scope string_scope.

(** ** Records of the GitHub client *)

(** A client is what it authenticates with: [oauth2.Token]'s access token and
    type. *)
Record Client : Type := mkClient { AccessToken : string; TokenType : string }.

(** The parts of [github.Response] that are read; the request is its method and
    its URL. *)
Record Response : Type := mkResponse {
  StatusCode : Z;
  ResponseStatus : string;
  Request : ptr (string * string);
}.

(** [github.InstallationToken], [RegistrationToken] and [RemoveToken] *)
Record Token : Type := mkToken { tok_Token : ptr string; tok_ExpiresAt : ptr time }.
Definition GetToken (t : ptr Token) : string := default "" (t ≫= tok_Token).
Definition GetExpiresAt (t : ptr Token) : time := default 0 (t ≫= tok_ExpiresAt).

(** [github.TenantCredential] *)
Record TenantCredential : Type := mkTenantCredential { tc_Token : ptr string; tc_URL : ptr string }.

(** The parts of [github.Repository] that are read, with their getters. *)
Record GHRepository : Type := mkGHRepository {
  gr_OwnerLogin : ptr string;
  gr_Name : ptr string;
  gr_Private : ptr bool;
  gr_HTMLURL : ptr string;
  gr_GitCommitsURL : ptr string;
}.
Definition GetOwnerLogin (r : ptr GHRepository) : string := default "" (r ≫= gr_OwnerLogin).
Definition GetName (r : ptr GHRepository) : string := default "" (r ≫= gr_Name).
Definition GetPrivate (r : ptr GHRepository) : bool := default false (r ≫= gr_Private).
Definition GetHTMLURL (r : ptr GHRepository) : string := default "" (r ≫= gr_HTMLURL).

(** [container.Token], [container.Rate] *)
Record tokenContainer : Type := mkTokenContainer { container_Token : ptr Token; Rate : Z }.

#[export] Instance Client_eq_dec : EqDecision Client.
Proof. solve_decision. Defined.
#[export] Instance GHPrivateKey_eq_dec : EqDecision PrivateKey.
Proof. solve_decision. Defined.

(** ** The operations *)

(** A cache: repositories, registration tokens, remove tokens, credentials. *)
Inductive cache_name : Type := Repositories | RegistrationTokens | RemoveTokens | TenantCredentials.
#[export] Instance cache_name_eq_dec : EqDecision cache_name.
Proof. solve_decision. Defined.

Inductive github_op : Type :=
(* time.Now *)
| Now
(* jose.NewSigner; Signed(signer).Claims(issuer, expiry, issued at).CompactSerialize() *)
| NewSigner (key : PrivateKey)
| CompactSerialize (key : PrivateKey) (issuer : string) (expiry issuedAt : time)
(* github.Client *)
| ListInstallations (c : Client)
| CreateInstallationToken (c : Client) (id : Z)
| RateLimits (c : Client)
| GetRepository (c : Client) (owner name : string)
| CreateRegistrationToken (c : Client) (owner name : string)
| CreateRemoveToken (c : Client) (owner name : string)
| CreateTenantCredential (c : Client) (event url : string)
(* go-cache: is what was last put under the key still there? *)
| Cached (cache : cache_name) (key : string)
(* metrics *)
| SetGitHubRateLimit (name : string) (limit remaining : Z)
| IncGitHubAPICalls (name request response : string)
| IncGitHubCacheHit (name : string) (hit : bool).

(** What a call of the client gives: a value, a response, an error. *)
Definition answer (A : Type) : Type := A * ptr Response * goerr.
Definition github_ans (o : github_op) : Type :=
  match o with
  | Now => time
  | NewSigner _ => result unit
  | CompactSerialize _ _ _ _ => result string
  | ListInstallations _ => answer (list Z)
  | CreateInstallationToken _ _ | CreateRegistrationToken _ _ _ | CreateRemoveToken _ _ _ =>
      answer (ptr Token)
  | RateLimits _ => answer (ptr (Z * Z))
  | GetRepository _ _ _ => answer (ptr GHRepository)
  | CreateTenantCredential _ _ _ => answer (ptr TenantCredential)
  | Cached _ _ => bool
  | SetGitHubRateLimit _ _ _ | IncGitHubAPICalls _ _ _ | IncGitHubCacheHit _ _ => unit
  end.
Canonical github : signature := Sig github_op github_ans.

#[export] Instance github_op_eq_dec : EqDecision github_op.
Proof. solve_decision. Defined.
#[export] Instance github_eq_dec : EqDecision (sop github) := github_op_eq_dec.

(** [x509.ParsePKCS1PrivateKey], and the expiry in a token's unverified claims. *)
Class GitHubLib : Type := {
  ParsePKCS1PrivateKey : bytes -> result PrivateKey;
  jwtExpiry : string -> result time;
}.

(** ** The globals *)

Record globals : Type := mkGlobals {
  githubClient : ptr Client;
  githubClientExpiry : time;
  githubRepositories : gmap string (ptr GHRepository);
  githubRegistrationTokens : gmap string tokenContainer;
  githubRemoveTokens : gmap string tokenContainer;
  githubTenantCredentials : gmap string (ptr TenantCredential);
}.
Definition globals_zero : globals := mkGlobals None 0 ∅ ∅ ∅ ∅.

Definition set_githubClient (c : Client) (expiry : time) (g : globals) : globals :=
  mkGlobals (Some c) expiry (githubRepositories g) (githubRegistrationTokens g)
    (githubRemoveTokens g) (githubTenantCredentials g).
Definition set_githubRepositories (f : gmap string (ptr GHRepository) -> gmap string (ptr GHRepository))
    (g : globals) : globals :=
  mkGlobals (githubClient g) (githubClientExpiry g) (f (githubRepositories g))
    (githubRegistrationTokens g) (githubRemoveTokens g) (githubTenantCredentials g).
Definition set_githubRegistrationTokens (f : gmap string tokenContainer -> gmap string tokenContainer)
    (g : globals) : globals :=
  mkGlobals (githubClient g) (githubClientExpiry g) (githubRepositories g)
    (f (githubRegistrationTokens g)) (githubRemoveTokens g) (githubTenantCredentials g).
Definition set_githubRemoveTokens (f : gmap string tokenContainer -> gmap string tokenContainer)
    (g : globals) : globals :=
  mkGlobals (githubClient g) (githubClientExpiry g) (githubRepositories g)
    (githubRegistrationTokens g) (f (githubRemoveTokens g)) (githubTenantCredentials g).
Definition set_githubTenantCredentials
    (f : gmap string (ptr TenantCredential) -> gmap string (ptr TenantCredential)) (g : globals) : globals :=
  mkGlobals (githubClient g) (githubClientExpiry g) (githubRepositories g)
    (githubRegistrationTokens g) (githubRemoveTokens g) (f (githubTenantCredentials g)).

(** ** Configuration *)

Definition expJWT : Z := 10 * Minute.

(** [pem2base64], the regular expression [(-----.+?-----)|[\n ]], and the text
    without its matches.  A marker is five dashes, some text on the same line, as
    little as possible, and five dashes. *)
Definition dashes (s : list ascii) : option (list ascii) :=
  match s with
  | "-" :: "-" :: "-" :: "-" :: "-" :: s => Some s
  | _ => None
  end%char.
Definition newline : ascii := ascii_of_nat 10.

(** Behind the first five dashes: at least one character, then the next dashes. *)
Fixpoint marker_end (s : list ascii) : option (list ascii) :=
  match s with
  | [] => None
  | c :: s =>
      if bool_decide (c = newline) then None
      else match dashes s with
           | Some rest => Some rest
           | None => marker_end s
           end
  end.

(** Fuel: the length of the text is enough, since each step consumes some. *)
Fixpoint strip_pem (fuel : nat) (s : list ascii) : list ascii :=
  match fuel, s with
  | S fuel, c :: s' =>
      match dashes s ≫= marker_end with
      | Some rest => strip_pem fuel rest
      | None =>
          if bool_decide (c = newline) || bool_decide (c = " "%char) then strip_pem fuel s'
          else c :: strip_pem fuel s'
      end
  | _, _ => []
  end.
Definition pem2base64 (s : string) : string :=
  let l := String.list_ascii_of_string s in String.string_of_list_ascii (strip_pem (length l) l).

(** [repositoryVisibility], a bit per visibility. *)
Definition repoPublic : Z := 1.
Definition repoPrivate : Z := 2.

Section facade.
Context `{P : Process} `{GL : GitHubLib}.

Definition Getenv (k : string) : string := default "" (environ !! k).
Definition githubPAT := Getenv "KUBEACTIONS_GITHUB_PAT".
Definition githubAppId := Getenv "KUBEACTIONS_GITHUB_APP_ID".
Definition githubAppPK := Getenv "KUBEACTIONS_GITHUB_APP_PK".
Definition githubInstlId := Getenv "KUBEACTIONS_GITHUB_INSTL_ID".

Definition githubOwners : list string := Split (Getenv "KUBEACTIONS_GITHUB_OWNERS") ","%char.

Definition allow (allowed : Z) (allowedVisibility : string) : Z :=
  if bool_decide (allowedVisibility = "pub") || bool_decide (allowedVisibility = "public")
  then Z.lor allowed repoPublic
  else if bool_decide (allowedVisibility = "priv") || bool_decide (allowedVisibility = "private")
  then Z.lor allowed repoPrivate
  else allowed.
Definition githubVisibilities : Z :=
  foldl allow 0 (Split (Getenv "KUBEACTIONS_GITHUB_VISIBILITIES") ","%char).

#[local] Abbreviation method A := (Method.method github globals A).

(** ** Metrics and responses *)

(** [response.StatusCode < 200 || response.StatusCode >= 300] *)
Definition isFailure (response : Response) : bool :=
  bool_decide (StatusCode response < 200) || bool_decide (300 <= StatusCode response).

Definition collectGitHubRateLimitMetrics (client : ptr Client) (clientName : string)
    : prog github (attempt unit) :=
  match client with
  | None => Ret (Done (Err (ENew "client == nil")))
  | Some client =>
      let! r := call (RateLimits client) in
      let '(core, githubResponse, err) := r : ptr (Z * Z) * ptr Response * goerr in
      match err, githubResponse with
      | Some e, _ => Ret (Done (Err e))
      | None, None => Ret (Panicked nil_dereference)
      | None, Some githubResponse =>
          if isFailure githubResponse then Ret (Done (Err (ENew (ResponseStatus githubResponse))))
          else
            match core with
            | None => Ret (Done (Err (ENew "core == nil")))
            | Some (limit, remaining) =>
                let! _ := call (SetGitHubRateLimit clientName limit remaining) in Ret (Done (Ok tt))
            end
      end
  end.

Definition collectGitHubAPICallMetrics (client : Client) (clientName : string) (response : ptr Response)
    : prog github (outcome unit) :=
  let! r := collectGitHubRateLimitMetrics (Some client) clientName in
  match r with
  | Panicked e => Ret (Panicked e)
  | Done _ =>
      match response ≫= fun response => Request response ≫= fun request => Some (request, response) with
      | None => Ret (Done tt)
      | Some (request, response) =>
          let! _ := call (IncGitHubAPICalls clientName (request.1 ++ " " ++ request.2)
                            (ResponseStatus response)) in
          Ret (Done tt)
      end
  end.

Definition handleGitHubResponse (client : Client) (clientName : string) (response : ptr Response)
    (err : goerr) : prog github (attempt unit) :=
  let! r := collectGitHubAPICallMetrics client clientName response in
  match r with
  | Panicked e => Ret (Panicked e)
  | Done _ =>
      match err, response with
      | Some e, _ => Ret (Done (Err e))
      | None, None => Ret (Panicked nil_dereference)
      | None, Some response =>
          if isFailure response
          then Ret (Done (Err (ENew ("Error response from GitHub: " ++ ResponseStatus response))))
          else Ret (Done (Ok tt))
      end
  end.

(** A call whose value is used once its response has been handled. *)
Definition handled {A} (client : Client) (clientName : string) (p : prog github (answer A))
    : prog github (attempt A) :=
  let! r := p in
  let '(a, response, err) := r : A * ptr Response * goerr in
  let!? _ := handleGitHubResponse client clientName response err in
  Ret (Done (Ok a)).

(** ** The client *)

Definition getGitHubAppToken : prog github (result string) :=
  if bool_decide (githubAppId = "") then Ret (Err (ENew ("githubAppId == " ++ quoted "")))
  else if bool_decide (githubAppPK = "") then Ret (Err (ENew ("githubAppPK == " ++ quoted "")))
  else
    match base64_DecodeString (pem2base64 githubAppPK) with
    | Err e => Ret (Err e)
    | Ok der =>
        match ParsePKCS1PrivateKey der with
        | Err e => Ret (Err e)
        | Ok privateKey =>
            let! signer := call (NewSigner privateKey) in
            match signer with
            | Err e => Ret (Err e)
            | Ok _ =>
                let! now := call Now in
                call (CompactSerialize privateKey githubAppId (now + expJWT) now)
            end
        end
    end.

(** A static token without a type is a bearer token. *)
Definition newGitHubAppClient : prog github (result Client) :=
  let! r := getGitHubAppToken in
  Ret (match r with Err e => Err e | Ok token => Ok (mkClient token "") end).

Definition getGitHubInstallationToken (appClient : Client) : prog github (attempt (ptr Token)) :=
  let!? installationId :=
    (if bool_decide (githubInstlId = "") then
       let!? installations := handled appClient "app" (call (ListInstallations appClient)) in
       match installations with
       | [id] => Ret (Done (Ok id))
       | _ => Ret (Done (Err (ENew "len(installations) != 1")))
       end
     else Ret (Done (Atoi githubInstlId))) in
  handled appClient "app" (call (CreateInstallationToken appClient installationId)).

(** The client is renewed when it is not valid for another minute; a client
    without an expiry is kept. *)
Definition isCurrent (g : globals) (now : time) : bool :=
  match githubClient g with
  | None => false
  | Some _ => time_IsZero (githubClientExpiry g) || time_After (githubClientExpiry g) (now + Minute)
  end.

Definition initGitHubClient : method unit := fun g =>
  let! current :=
    (match githubClient g with
     | None => Ret false
     | Some _ =>
         if time_IsZero (githubClientExpiry g) then Ret true
         else let! now := call Now in Ret (isCurrent g now)
     end) in
  if current then Ret (Done (Ok tt), g)
  else
    (let^ token :=
       (if bool_decide (githubPAT = "") then
          let^ appClient := resulting newGitHubAppClient in
          let^ githubIAT := calling (getGitHubInstallationToken appClient) in
          returning (Done (Ok (GetToken githubIAT, GetExpiresAt githubIAT)))
        else returning (Done (Ok (githubPAT, 0)))) in
     let client := mkClient token.1 "" in
     let^ _ := calling (collectGitHubRateLimitMetrics (Some client) "") in
     modify (set_githubClient client token.2)) g.

(** ** Repositories *)

(** What a cache still has of what was put into it. *)
Definition Get {V} (cache : cache_name) (entries : globals -> gmap string V) (key : string)
    : Method.method github globals (option V) :=
  get entries (fun entries =>
  calling (let! there := call (Cached cache key) in
           Ret (Done (Ok (if there : bool then entries !! key else None))))).
Definition counting (name : string) (hit : bool) : method unit :=
  calling (let! _ := call (IncGitHubCacheHit name hit) in Ret (Done (Ok tt))).

Definition isAllowedOwner (repository : ptr GHRepository) : bool :=
  bool_decide (GetOwnerLogin repository ∈ githubOwners).
Definition isAllowedVisibility (repository : ptr GHRepository) : bool :=
  let private := GetPrivate repository in
  negb ((private && bool_decide (Z.land githubVisibilities repoPrivate = 0))
        || (negb private && bool_decide (Z.land githubVisibilities repoPublic = 0))).

(** The cache is looked at again once the lock is held. *)
Definition twice {A V} (name : string) (look : method (option V)) (found : V -> A) (otherwise : method A)
    : method A :=
  let hit v := let^ _ := counting name true in returning (Done (Ok (found v))) in
  let^ v := look in
  match v with
  | Some v => hit v
  | None =>
      let^ v := look in
      match v with
      | Some v => hit v
      | None => let^ _ := counting name false in otherwise
      end
  end.

Definition withClient {A} (k : Client -> method A) : method A :=
  get githubClient (fun c =>
  match c with
  | None => failing "githubClient == nil"
  | Some c => k c
  end).

Definition getGitHubRepository (owner name : string) : method (ptr GHRepository) :=
  let key := owner ++ "/" ++ name in
  twice "repository" (Get Repositories githubRepositories key) id
    (withClient (fun c =>
     let^ repository := calling (handled c "entry" (call (GetRepository c owner name))) in
     if negb (isAllowedOwner repository) then failing "not in githubOwners"
     else if negb (isAllowedVisibility repository) then failing "not in githubVisibilities"
     else
       let^ _ := modify (set_githubRepositories (<[key := repository]>)) in
       returning (Done (Ok repository)))).

(** ** Tokens *)

(** A token that is still in its cache is used, which counts, while it has been
    counted less than sixty times and is valid for another minute. *)
Definition tryGetToken (cache : cache_name) (entries : globals -> gmap string tokenContainer)
    (set : (gmap string tokenContainer -> gmap string tokenContainer) -> globals -> globals)
    (key : string) : method (option (ptr Token)) :=
  let^ container := Get cache entries key in
  match container with
  | None => returning (Done (Ok None))
  | Some container =>
      let rate := (Rate container + 1) mod 2 ^ 64 in
      let^ _ := modify (set (<[key := mkTokenContainer (container_Token container) rate]>)) in
      if bool_decide (60 <= rate) then returning (Done (Ok None))
      else
        calling (let! now := call Now in
                 Ret (Done (Ok (if time_After (GetExpiresAt (container_Token container)) (now + Minute)
                                then Some (container_Token container) else None))))
  end.

Definition getToken (cache : cache_name) (entries : globals -> gmap string tokenContainer)
    (set : (gmap string tokenContainer -> gmap string tokenContainer) -> globals -> globals)
    (metric : string) (create : Client -> string -> string -> prog github (answer (ptr Token)))
    (repository : ptr GHRepository) : method (ptr Token) :=
  match repository with
  | None => failing "repository == nil"
  | Some _ =>
      let key := GetOwnerLogin repository ++ "/" ++ GetName repository in
      twice metric (tryGetToken cache entries set key) id
        (withClient (fun c =>
         let^ token := calling (handled c "entry"
                                  (create c (GetOwnerLogin repository) (GetName repository))) in
         let^ _ := modify (set (<[key := mkTokenContainer token 0]>)) in
         returning (Done (Ok token))))
  end.

Definition tryGetGitHubRegistrationToken := tryGetToken RegistrationTokens githubRegistrationTokens
  set_githubRegistrationTokens.
Definition getGitHubRegistrationToken := getToken RegistrationTokens githubRegistrationTokens
  set_githubRegistrationTokens "registrationToken"
  (fun c owner name => call (CreateRegistrationToken c owner name)).
Definition tryGetGitHubRemoveToken := tryGetToken RemoveTokens githubRemoveTokens set_githubRemoveTokens.
Definition getGitHubRemoveToken := getToken RemoveTokens githubRemoveTokens set_githubRemoveTokens
  "removeToken" (fun c owner name => call (CreateRemoveToken c owner name)).

Definition newGitHubBridgeClient (getToken : ptr GHRepository -> method (ptr Token))
    (repository : ptr GHRepository) : method Client :=
  match repository with
  | None => failing "repository == nil"
  | Some _ =>
      let^ token := getToken repository in
      let bridgeClient := mkClient (GetToken token) "RemoteAuth" in
      let^ _ := calling (collectGitHubRateLimitMetrics (Some bridgeClient) "bridge") in
      returning (Done (Ok bridgeClient))
  end.
Definition newGitHubBridgeClientWithRegistrationToken := newGitHubBridgeClient getGitHubRegistrationToken.
Definition newGitHubBridgeClientWithRemoveToken := newGitHubBridgeClient getGitHubRemoveToken.

(** ** Credentials *)

Definition tryGetGitHubTenantCredential (key : string) : method (option (ptr TenantCredential)) :=
  let^ credential := Get TenantCredentials githubTenantCredentials key in
  match credential with
  | None => returning (Done (Ok None))
  | Some credential =>
      match jwtExpiry (default "" (credential ≫= tc_Token)) with
      | Err _ => returning (Done (Ok None))
      | Ok expiry =>
          calling (let! now := call Now in
                   Ret (Done (Ok (if time_After expiry (now + Minute) then Some credential else None))))
      end
  end.

Definition RunnerEvent_string (e : RunnerEvent) : string :=
  match e with RunnerEventRegister => "register" | RunnerEventRemove => "remove" end.

Definition GetGitHubTenantCredential (repository : ptr GHRepository) (runnerEvent : RunnerEvent)
    : method (ptr TenantCredential) :=
  match repository with
  | None => failing "repository == nil"
  | Some _ =>
      let key := RunnerEvent_string runnerEvent ++ "@" ++ GetOwnerLogin repository ++ "/" ++
                 GetName repository in
      twice "tenantCredential" (tryGetGitHubTenantCredential key) id
        (let^ bridgeClient :=
           (match runnerEvent with
            | RunnerEventRegister => newGitHubBridgeClientWithRegistrationToken repository
            | RunnerEventRemove => newGitHubBridgeClientWithRemoveToken repository
            end) in
         let^ tenantCredential := calling (handled bridgeClient ("bridge-" ++ key)
           (call (CreateTenantCredential bridgeClient (RunnerEvent_string runnerEvent)
                    (GetHTMLURL repository)))) in
         let^ _ := modify (set_githubTenantCredentials (<[key := tenantCredential]>)) in
         returning (Done (Ok tenantCredential)))
  end.

(** [GitHub.Init]: the repository is stored in the facade when it succeeds. *)
Definition Init (repoOwner repoName : string) : method (ptr GHRepository) :=
  let^ _ := initGitHubClient in getGitHubRepository repoOwner repoName.
End facade.

(** ** Walking methods *)

Section walking.
Context `{P : Process} `{GL : GitHubLib}.
#[local] Abbreviation method A := (Method.method github globals A).

Lemma always_any {E A} (p : prog E A) (Q : trace E -> A -> Prop) :
  (forall tr a, Q tr a) -> always p Q.
Proof. intros H. apply always_runs. auto. Qed.

Lemma always_calling {A} (p : prog github (attempt A)) (g : globals) Q :
  always (calling p g) Q <-> always p (fun tr r => Q tr (r, g)).
Proof.
  unfold calling. rewrite always_bind. split; intros H; (eapply always_mono; [exact H|]);
    intros tr r; cbn; by rewrite app_nil_r.
Qed.

(** What stays true of a trace when it gets longer. *)
Definition lasting {A} (R : trace github -> A -> globals -> Prop) : Prop :=
  forall t1 t2 tr a g, R tr a g -> R (t1 ++ tr ++ t2)%list a g.

(** A method that keeps [I] and gives values of which [R] holds. *)
Definition gives {A} (I : globals -> Prop) (m : method A) (R : trace github -> A -> globals -> Prop) : Prop :=
  forall g, I g -> always (m g) (fun tr r =>
    I r.2 /\ match r.1 with Done (Ok a) => R tr a r.2 | _ => True end).

Lemma gives_andThen {A B} I (m : method A) (k : A -> method B) R R' :
  lasting R' -> gives I m R ->
  (forall a g tr, I g -> R tr a g ->
     always (k a g) (fun tr' r => I r.2 /\ match r.1 with Done (Ok b) => R' (tr ++ tr')%list b r.2 | _ => True end)) ->
  gives I (andThen m k) R'.
Proof.
  intros _ Hm Hk g Hg. apply always_andThen. eapply always_mono; [by apply Hm|].
  intros tr [[[a|e]|e] g1] [Hg1 Hr]; cbn in *; [|done..]. by apply Hk.
Qed.

Lemma gives_calling {A} I (p : prog github (attempt A)) (R : trace github -> A -> globals -> Prop) :
  (forall g, always p (fun tr r => match r with Done (Ok a) => R tr a g | _ => True end)) ->
  gives I (calling p) R.
Proof. intros H g Hg. apply always_calling. eapply always_mono; [apply (H g)|]. by intros tr r. Qed.

Lemma gives_counting I name hit : gives I (counting name hit) (fun _ _ _ => True).
Proof. apply gives_calling. intros g. by cbn. Qed.

(** Looking twice gives what looking gives, or what is done otherwise. *)
Lemma gives_twice {A V} I name (look : method (option V)) (found : V -> A) (otherwise : method A) R :
  lasting R ->
  gives I look (fun tr v g => match v with Some v => R tr (found v) g | None => True end) ->
  gives I otherwise R ->
  gives I (twice name look found otherwise) R.
Proof.
  intros HR Hlook Hother.
  assert (forall v g tr, I g -> R tr (found v) g ->
    always ((let^ _ := counting name true in returning (Done (Ok (found v)))) g) (fun tr' r =>
      I r.2 /\ match r.1 with Done (Ok b) => R (tr ++ tr')%list b r.2 | _ => True end)) as Hhit.
  { intros v g tr Hg Hr. cbn. intros []. split; [done|].
    apply (HR [] [IncGitHubCacheHit name true ↝ tt] tr (found v) g Hr). }
  unfold twice. eapply gives_andThen; [done|exact Hlook|].
  intros [v|] g tr Hg Hr; [by apply Hhit|].
  apply always_andThen. eapply always_mono; [by apply Hlook|].
  intros tr1 [[[[v|]|e]|e] g1] [Hg1 Hr1]; cbn in *; [| |done..].
  - intros []. split; [done|].
    apply (HR tr [IncGitHubCacheHit name true ↝ tt] tr1 (found v) g1 Hr1).
  - intros []. eapply always_mono; [by apply Hother|].
    intros tr2 [[[a|e]|e] g2] [Hg2 Hr2]; cbn in *; [|done..]. split; [done|].
    pose proof (HR (tr ++ tr1 ++ [IncGitHubCacheHit name false ↝ tt])%list [] tr2 a g2 Hr2) as H.
    by rewrite app_nil_r, <- !app_assoc in H.
Qed.

(** A handled answer is one that came without an error and with a good status. *)
Lemma handled_spec {A} c name (p : prog github (answer A)) (R : trace github -> A -> Prop) :
  (forall tr t a, R tr a -> R (tr ++ t)%list a) ->
  always p (fun tr r => forall a response, r = (a, Some response, None) -> isFailure response = false -> R tr a) ->
  always (handled c name p) (fun tr r => match r with Done (Ok a) => R tr a | _ => True end).
Proof.
  intros HR Hp. unfold handled. apply always_bind. eapply always_mono; [exact Hp|].
  intros tr [[a response] err] H. cbn in H. apply always_bind. unfold handleGitHubResponse.
  apply always_bind, always_any. intros tr1 [u|e]; cbn; [|done].
  destruct err as [e|]; cbn; [done|]. destruct response as [response|]; cbn; [|done].
  destruct (isFailure response) eqn:Hf; cbn; [done|]. apply HR. by eapply H.
Qed.

(** ** Repositories *)

(** Only repositories of an allowed owner and visibility are remembered. *)
Definition allowed (repository : ptr GHRepository) : Prop :=
  isAllowedOwner repository = true /\ isAllowedVisibility repository = true.
Definition admitted (g : globals) : Prop :=
  forall key repository, githubRepositories g !! key = Some repository -> allowed repository.

Lemma gives_Get {V} I cache (entries : globals -> gmap string V) key :
  gives I (Get cache entries key) (fun _ v g => forall v', v = Some v' -> entries g !! key = Some v').
Proof.
  intros g Hg. unfold Get, get, reading. apply always_calling. cbn. intros b. split; [done|].
  by destruct b.
Qed.

Lemma gives_getGitHubRepository owner name :
  gives admitted (getGitHubRepository owner name) (fun _ r _ => allowed r).
Proof.
  unfold getGitHubRepository. apply gives_twice; [by intros ? ? ? ? ?| |].
  - intros g Hg. eapply always_mono; [by apply (gives_Get admitted)|].
    intros tr [[[[r|]|e]|e] g1] [Hg1 H]; cbn in *; [|done..]. split; [done|].
    exact (Hg1 _ _ (H r eq_refl)).
  - intros g Hg. unfold withClient, get, reading. destruct (githubClient g) as [c|]; [|done].
    apply always_andThen, always_calling, always_any. intros tr [[r|e]|e]; cbn; [|done..].
    destruct (isAllowedOwner r) eqn:Ho; cbn; [|done].
    destruct (isAllowedVisibility r) eqn:Hv; cbn; [|done]. split; [|done].
    unfold admitted. cbn. intros key r' [[_ <-]|[_ H]]%lookup_insert_Some; [done|by eapply Hg].
Qed.

(** The token of an installation comes from a request that succeeded. *)
Definition granted (tr : trace github) (token : ptr Token) : Prop :=
  exists c id response, answered tr (CreateInstallationToken c id) (token, Some response, None) /\
    isFailure response = false.

Lemma granted_app t1 t2 token : granted t2 token -> granted (t1 ++ t2)%list token.
Proof.
  intros (c & id & response & H & Hf). exists c, id, response. split; [|done].
  apply elem_of_app. by right.
Qed.

Lemma getGitHubInstallationToken_spec c :
  always (getGitHubInstallationToken c) (fun tr r =>
    match r with Done (Ok token) => granted tr token | _ => True end).
Proof.
  unfold getGitHubInstallationToken. apply always_bind, always_any.
  intros t1 [[id|e]|e]; cbv beta iota; [|done..].
  eapply always_mono; [apply (handled_spec c "app" _ granted)|].
  - intros tr t a (c' & id' & response & H & Hf). exists c', id', response. split; [|done].
    apply elem_of_app. by left.
  - cbn. intros r a response -> Hf. exists c, id, response. split; [apply answered_here|done].
  - cbn. intros tr [[token|e]|e]; [apply granted_app|done..].
Qed.

(** Where the token of a new client comes from. *)
Definition clientToken : method (string * time) :=
  if bool_decide (githubPAT = "") then
    let^ appClient := resulting newGitHubAppClient in
    let^ githubIAT := calling (getGitHubInstallationToken appClient) in
    returning (Done (Ok (GetToken githubIAT, GetExpiresAt githubIAT)))
  else returning (Done (Ok (githubPAT, 0))).

Lemma clientToken_spec g : always (clientToken g) (fun tr r => r.2 = g /\
  match r.1 with
  | Done (Ok token) =>
      (githubPAT <> "" /\ token = (githubPAT, 0)) \/
      (githubPAT = "" /\ exists t, granted tr t /\ token = (GetToken t, GetExpiresAt t))
  | _ => True
  end).
Proof.
  unfold clientToken. case_bool_decide as Hpat; [|by cbn; eauto].
  apply always_andThen. unfold resulting. apply always_calling, always_any.
  intros t1 [[app|e]|e]; cbn [fst snd]; [|done..].
  apply always_andThen, always_calling. eapply always_mono; [apply getGitHubInstallationToken_spec|].
  intros t2 [[token|e]|e] H; cbn in *; [|done..]. split; [done|]. right. split; [done|].
  exists token. split; [|done]. rewrite app_nil_r. by apply granted_app.
Qed.

(** The client of a call: it never expires or is valid for another minute, or it
    has just been made. *)
Lemma initGitHubClient_spec g :
  always (initGitHubClient g) (fun tr r =>
    githubRepositories r.2 = githubRepositories g /\
    match r.1 with
    | Done (Ok _) =>
        (r.2 = g /\ is_Some (githubClient g) /\
           (githubClientExpiry g = 0 \/
            exists now, answered tr Now now /\ now + Minute < githubClientExpiry g)) \/
        (githubPAT <> "" /\ r.2 = set_githubClient (mkClient githubPAT "") 0 g) \/
        (githubPAT = "" /\ exists t, granted tr t /\
           r.2 = set_githubClient (mkClient (GetToken t) "") (GetExpiresAt t) g)
    | _ => r.2 = g
    end).
Proof.
  unfold initGitHubClient. apply always_bind.
  eapply (always_mono _ (fun tr current => current = true -> is_Some (githubClient g) /\
       (githubClientExpiry g = 0 \/ exists now, answered tr Now now /\ now + Minute < githubClientExpiry g))).
  { destruct (githubClient g) as [c|] eqn:Hc; [|done]. unfold time_IsZero.
    case_bool_decide as Hz; cbn; [eauto|]. intros now. unfold isCurrent, time_IsZero, time_After.
    rewrite Hc, bool_decide_eq_false_2 by done. cbn. intros H%bool_decide_eq_true.
    split; [by eexists|]. right. exists now. split; [apply answered_here|lia]. }
  intros tr0 [|] Hcur; [by cbn; rewrite app_nil_r; auto|]. clear Hcur.
  change (always ((let^ token := clientToken in
     let^ _ := calling (collectGitHubRateLimitMetrics (Some (mkClient token.1 "")) "") in
     modify (set_githubClient (mkClient token.1 "") token.2)) g) (fun tr r =>
    githubRepositories r.2 = githubRepositories g /\
    match r.1 with
    | Done (Ok _) =>
        (r.2 = g /\ is_Some (githubClient g) /\
           (githubClientExpiry g = 0 \/
            exists now, answered (tr0 ++ tr)%list Now now /\ now + Minute < githubClientExpiry g)) \/
        (githubPAT <> "" /\ r.2 = set_githubClient (mkClient githubPAT "") 0 g) \/
        (githubPAT = "" /\ exists t, granted (tr0 ++ tr)%list t /\
           r.2 = set_githubClient (mkClient (GetToken t) "") (GetExpiresAt t) g)
    | _ => r.2 = g
    end)).
  apply always_andThen. eapply always_mono; [apply clientToken_spec|].
  intros t1 [[[token|e]|e] g1] [Hg1 H]; cbn in Hg1, H; subst g1; cbn [fst snd]; [|done..].
  apply always_andThen, always_calling, always_any. intros t2 [[[]|e]|e]; cbn; [|done..].
  split; [done|]. right. destruct H as [[Hpat ->]|(Hpat & t & Ht & ->)]; [by left|].
  right. split; [done|]. exists t. split; [|done]. apply granted_app.
  destruct Ht as (c & id & response & Ha & Hf). exists c, id, response. split; [|done].
  apply elem_of_app. by left.
Qed.

(** The operator's client is renewed in time: when it succeeds, the client of
    the call never expires, or was valid for another minute when the clock was
    read, or has just been made, from the operator's own token without an expiry
    or, without such a token, from one that GitHub has granted the installation,
    with its expiry; when it does not succeed nothing has changed. *)
Theorem initGitHubClient_renews g tr out :
  runs (initGitHubClient g) tr out ->
  match out.1 with
  | Done (Ok _) =>
      (out.2 = g /\ is_Some (githubClient g) /\
         (githubClientExpiry g = 0 \/
          exists now, answered tr Now now /\ now + Minute < githubClientExpiry g)) \/
      (githubPAT <> "" /\ out.2 = set_githubClient (mkClient githubPAT "") 0 g) \/
      (githubPAT = "" /\ exists t, granted tr t /\
         out.2 = set_githubClient (mkClient (GetToken t) "") (GetExpiresAt t) g)
  | _ => out.2 = g
  end.
Proof. intros H. exact (proj2 (runs_always _ _ _ _ (initGitHubClient_spec g) H)). Qed.

Lemma gives_Init owner name : gives admitted (Init owner name) (fun _ r _ => allowed r).
Proof.
  intros g Hg. unfold Init. apply always_andThen. eapply always_mono; [apply initGitHubClient_spec|].
  intros t1 [[[[]|e]|e] g1] [Hr Ho]; cbn [fst snd] in *; [|by subst g1..].
  eapply always_mono; [apply gives_getGitHubRepository; unfold admitted; by rewrite Hr|].
  intros t2 [[[r|e]|e] g2] [Hg2 H]; cbn in *; done.
Qed.

(** The facade is only initialised with a repository the operator may serve.
    As long as the cache holds only repositories of an allowed owner and
    visibility it goes on to do so, and a repository that is returned, from the
    cache or from GitHub, whatever name it was asked for under, is one of them. *)
Theorem Init_allows owner name g tr out :
  admitted g ->
  runs (Init owner name g) tr out ->
  admitted out.2 /\ (forall r, out.1 = Done (Ok r) -> allowed r).
Proof.
  intros Hg Hrun. destruct (runs_always _ _ _ _ (gives_Init owner name g Hg) Hrun) as [Ha Hr].
  split; [done|]. intros r Hr'. by rewrite Hr' in Hr.
Qed.
End walking.

(** ** Tokens and credentials *)

Section tokens.
Context `{P : Process} `{GL : GitHubLib}.
#[local] Abbreviation method A := (Method.method github globals A).

#[export] Instance RunnerEvent_eq_dec : EqDecision RunnerEvent.
Proof. solve_decision. Defined.

(** The two kinds of tokens. *)
Definition entriesFor (e : RunnerEvent) : globals -> gmap string tokenContainer :=
  match e with RunnerEventRegister => githubRegistrationTokens | RunnerEventRemove => githubRemoveTokens end.
Definition setFor (e : RunnerEvent) :
    (gmap string tokenContainer -> gmap string tokenContainer) -> globals -> globals :=
  match e with
  | RunnerEventRegister => set_githubRegistrationTokens
  | RunnerEventRemove => set_githubRemoveTokens
  end.
Definition getTokenFor (e : RunnerEvent) : ptr GHRepository -> method (ptr Token) :=
  match e with
  | RunnerEventRegister => getGitHubRegistrationToken
  | RunnerEventRemove => getGitHubRemoveToken
  end.
Definition cacheFor (e : RunnerEvent) : cache_name :=
  match e with RunnerEventRegister => RegistrationTokens | RunnerEventRemove => RemoveTokens end.

(** A token of the kind that GitHub has created for a repository. *)
Definition created (e : RunnerEvent) (repository : ptr GHRepository) (tr : trace github)
    (token : ptr Token) : Prop :=
  let owner := GetOwnerLogin repository in
  let name := GetName repository in
  exists c response, isFailure response = false /\
    match e with
    | RunnerEventRegister => answered tr (CreateRegistrationToken c owner name) (token, Some response, None)
    | RunnerEventRemove => answered tr (CreateRemoveToken c owner name) (token, Some response, None)
    end.

(** It was valid for another minute when the clock was read. *)
Definition valid (tr : trace github) (expiry : time) : Prop :=
  exists now, answered tr Now now /\ now + Minute < expiry.

Definition token_key (repository : ptr GHRepository) : string :=
  GetOwnerLogin repository ++ "/" ++ GetName repository.

Lemma entriesFor_set e f g : entriesFor e (setFor e f g) = f (entriesFor e g).
Proof. by destruct e. Qed.

Lemma answered_mid (t1 tr t2 : trace github) o r :
  answered tr o r -> answered (t1 ++ tr ++ t2)%list o r.
Proof. unfold answered. rewrite !elem_of_app. auto. Qed.
Lemma answered_app_r (t1 tr : trace github) o r : answered tr o r -> answered (t1 ++ tr)%list o r.
Proof. unfold answered. rewrite elem_of_app. auto. Qed.
Lemma created_mid e repository t1 tr t2 token :
  created e repository tr token -> created e repository (t1 ++ tr ++ t2)%list token.
Proof.
  intros (c & response & Hf & H). exists c, response. split; [done|].
  destruct e; by apply answered_mid.
Qed.
Lemma valid_mid t1 tr t2 expiry : valid tr expiry -> valid (t1 ++ tr ++ t2)%list expiry.
Proof. intros (now & H & Hn). exists now. split; [by apply answered_mid|done]. Qed.

(** What using a token does to its container. *)
Definition used (c c' : tokenContainer) : Prop :=
  container_Token c' = container_Token c /\ Rate c' = (Rate c + 1) mod 2 ^ 64.

Ltac all_ops := cbn; repeat (apply List.Forall_cons; [by auto|]); apply List.Forall_nil.

Lemma tryGetToken_spec e key g :
  always (tryGetToken (cacheFor e) (entriesFor e) (setFor e) key g) (fun tr r =>
    Forall (fun o => o = Now \/ o = Cached (cacheFor e) key) (ops tr) /\
    exists v, r.1 = Done (Ok v) /\
      match v with
      | Some token => exists c c', entriesFor e g !! key = Some c /\ token = container_Token c /\
          entriesFor e r.2 !! key = Some c' /\ used c c' /\ Rate c' < 60 /\ valid tr (GetExpiresAt token)
      | None => entriesFor e r.2 !! key = entriesFor e g !! key \/
          exists c c', entriesFor e g !! key = Some c /\ entriesFor e r.2 !! key = Some c' /\ used c c'
      end).
Proof.
  unfold tryGetToken, Get, get, reading. apply always_andThen, always_calling. cbn. intros there.
  destruct there; cbn; [|split; [all_ops|exists None; auto]].
  destruct (entriesFor e g !! key) as [c|] eqn:Hc; cbn; [|split; [all_ops|exists None; auto]].
  assert (forall c', entriesFor e (setFor e <[key:=c']> g) !! key = Some c') as Hset
    by (intros c'; rewrite entriesFor_set; apply lookup_insert_eq).
  case_bool_decide as Hrate; cbn.
  - split; [all_ops|]. eexists. split; [done|]. right. exists c. eexists.
    split_and!; [done|apply Hset|done].
  - intros now. split; [all_ops|]. eexists. split; [done|].
    unfold time_After. case_bool_decide as Hnow.
    + exists c. eexists. split_and!; [done..|apply Hset|done|cbn; lia|].
      exists now. split; [solve [find_event]|lia].
    + right. exists c. eexists. split_and!; [done|apply Hset|done].
Qed.

Definition createFor (e : RunnerEvent) (c : Client) (owner name : string) : prog github (answer (ptr Token)) :=
  match e with
  | RunnerEventRegister => call (CreateRegistrationToken c owner name)
  | RunnerEventRemove => call (CreateRemoveToken c owner name)
  end.
Definition metricFor (e : RunnerEvent) : string :=
  match e with RunnerEventRegister => "registrationToken" | RunnerEventRemove => "removeToken" end.

Lemma getTokenFor_eq e repository :
  getTokenFor e repository =
  getToken (cacheFor e) (entriesFor e) (setFor e) (metricFor e) (createFor e) repository.
Proof. by destruct e, repository. Qed.

(** What a token that is handed out leaves behind. *)
Definition handed_out (e : RunnerEvent) (repository : ptr GHRepository) (g : globals)
    (tr : trace github) (token : ptr Token) (g' : globals) : Prop :=
  let key := token_key repository in
  created e repository tr token \/
  (valid tr (GetExpiresAt token) /\
   exists c c', entriesFor e g !! key = Some c /\ container_Token c = token /\
     entriesFor e g' !! key = Some c' /\ container_Token c' = token /\
     (0 <= Rate c < 60 -> Rate c < Rate c' < 60)).

Lemma used_rate c c' : used c c' -> 0 <= Rate c < 60 -> Rate c' = Rate c + 1.
Proof. intros [_ ->] H. apply Z.mod_small. lia. Qed.

Lemma getTokenFor_spec e repository g :
  always (getTokenFor e repository g) (fun tr r => forall token, r.1 = Done (Ok token) ->
    handed_out e repository g tr token r.2).
Proof.
  rewrite getTokenFor_eq. destruct repository as [repository|]; [|done]. unfold getToken, twice.
  fold (token_key (Some repository)). set (key := token_key (Some repository)).
  assert (forall (v : ptr Token) g1 (Q : trace github -> attempt (ptr Token) * globals -> Prop),
    (forall tr, Q tr (Done (Ok v), g1)) ->
    always ((let^ _ := counting (metricFor e) true in returning (Done (Ok (id v)))) g1) Q) as Hhit.
  { intros v g1 Q HQ. cbn. intros []. apply HQ. }
  apply always_andThen. eapply always_mono; [apply tryGetToken_spec|].
  intros t1 [o1 g1] (_ & v1 & Ho1 & H1). cbn in Ho1. subst o1. cbn [fst snd] in H1 |- *.
  destruct v1 as [token|].
  { apply Hhit. intros t2 token' [= <-]. right. destruct H1 as (c & c' & Hc & -> & Hc' & Hu & Hr & Hv).
    split; [apply (valid_mid [] t1 t2), Hv|]. exists c, c'. split_and!; [done..|by destruct Hu|].
    intros H. pose proof (used_rate _ _ Hu H). lia. }
  apply always_andThen. eapply always_mono; [apply tryGetToken_spec|].
  intros t2 [o2 g2] (_ & v2 & Ho2 & H2). cbn in Ho2. subst o2. cbn [fst snd] in H2 |- *.
  destruct v2 as [token|].
  { apply Hhit. intros t3 token' [= <-]. right. destruct H2 as (c & c' & Hc & -> & Hc' & Hu & Hr & Hv).
    split; [apply (valid_mid t1 t2 t3), Hv|].
    destruct H1 as [H1|(c0 & c1 & Hc0 & Hc1 & Hu0)].
    - exists c, c'. fold key. rewrite <- H1. split_and!; [done..|by destruct Hu|].
      intros H. pose proof (used_rate _ _ Hu H). lia.
    - rewrite Hc in Hc1. injection Hc1 as <-. exists c0, c'.
      split_and!; [done|by destruct Hu0|done|by destruct Hu, Hu0|].
      intros H. pose proof (used_rate _ _ Hu0 H) as Hr0.
      destruct (decide (Rate c < 60)) as [Hlt|].
      + pose proof (used_rate _ _ Hu ltac:(lia)). lia.
      + destruct Hu as [_ Hu]. rewrite Z.mod_small in Hu by lia. lia. }
  apply always_andThen. cbn. intros [].
  unfold withClient, get, reading. destruct (githubClient g2) as [c|]; [|done].
  apply always_andThen, always_calling.
  eapply always_mono; [apply (handled_spec c "entry" _ (created e (Some repository)))|].
  - intros tr t a H. apply (created_mid e _ [] tr t), H.
  - unfold createFor. destruct e; cbn; intros r a response -> Hf; exists c, response;
      (split; [done|apply answered_here]).
  - intros t3 [[token|e0]|e0] H; cbn; [|done..]. intros token' [= <-]. left.
    pose proof (created_mid e _ (t1 ++ t2 ++ [IncGitHubCacheHit (metricFor e) false ↝ tt])%list _ [] _ H) as H'.
    rewrite <- !app_assoc, !app_nil_r in *. exact H'.
Qed.

(** Tokens asked for one after the other. *)
Fixpoint getTokens (e : RunnerEvent) (repository : ptr GHRepository) (n : nat) : method (list (ptr Token)) :=
  match n with
  | O => returning (Done (Ok []))
  | S n =>
      let^ token := getTokenFor e repository in
      let^ tokens := getTokens e repository n in
      returning (Done (Ok (token :: tokens)))
  end.

Definition creates_token (o : sop github) : bool :=
  match o with CreateRegistrationToken _ _ _ | CreateRemoveToken _ _ _ => true | _ => false end.

Lemma created_creates e repository tr token :
  created e repository tr token -> filter (fun o => creates_token o = true) (ops tr) <> [].
Proof.
  intros (c & response & _ & H) Hnil.
  assert (exists o, o ∈ ops tr /\ creates_token o = true) as (o & Ho & Hc).
  { destruct e; apply answered_called in H; by eexists. }
  assert (o ∈ filter (fun o => creates_token o = true) (ops tr)) as Hin
    by (by apply list_elem_of_filter).
  rewrite Hnil in Hin. by apply not_elem_of_nil in Hin.
Qed.

(** [C36] A token is handed out at most sixty times, once when it is created and
    fifty-nine times from the cache: tokens that are handed out one after the
    other without GitHub creating one are all the token in the cache, were each
    valid for another minute when the clock was read, and are no more than what
    is left of sixty by the count the token had before. *)
Theorem token_uses_bounded e repository n g c tr tokens g' :
  entriesFor e g !! token_key repository = Some c -> 0 <= Rate c < 60 ->
  runs (getTokens e repository n g) tr (Done (Ok tokens), g') ->
  filter (fun o => creates_token o = true) (ops tr) = [] ->
  length tokens = n /\ Z.of_nat n + Rate c < 60 /\
  Forall (fun token => token = container_Token c /\ valid tr (GetExpiresAt token)) tokens.
Proof.
  revert g c tr tokens. induction n as [|n IH]; intros g c tr tokens Hc Hr Hrun Hno; cbn [getTokens] in Hrun.
  { destruct Hrun as [-> [= -> _]]. split_and!; [done|lia|constructor]. }
  apply runs_andThen_ok in Hrun as (t1 & token & g1 & t2 & -> & H1 & Hrun).
  apply runs_andThen_ok in Hrun as (t3 & tokens' & g2 & t4 & -> & H2 & [-> [= -> ->]]).
  rewrite !ops_app, !filter_app in Hno. apply app_eq_nil in Hno as [Hno1 [Hno2 _]%app_eq_nil].
  destruct (runs_always _ _ _ _ (getTokenFor_spec e repository g) H1 token eq_refl)
    as [Hcr|(Hv & c0 & c1 & Hc0 & Ht & Hc1 & Ht1 & Hrate)]; [by destruct (created_creates _ _ _ _ Hcr)|].
  rewrite Hc in Hc0. injection Hc0 as <-. specialize (Hrate Hr). cbn in Hc1.
  destruct (IH g1 c1 t3 tokens' Hc1 ltac:(lia) H2 Hno2) as (Hlen & Hn & Hall).
  split_and!; [cbn; by rewrite Hlen|lia|]. constructor.
  - split; [done|]. apply (valid_mid [] t1 _), Hv.
  - eapply Forall_impl; [exact Hall|]. intros token' [-> Hv']. split; [congruence|].
    apply (valid_mid t1 t3 []), Hv'.
Qed.

Lemma handed_out_mid e repository g t1 tr t2 token g' :
  handed_out e repository g tr token g' -> handed_out e repository g (t1 ++ tr ++ t2)%list token g'.
Proof.
  intros [H|[H Hc]]; [left; by apply created_mid|right]. split; [by apply valid_mid|done].
Qed.

Definition remembered (key : string) (g : globals) (tr : trace github) (credential : ptr TenantCredential) : Prop :=
  exists expiry, jwtExpiry (default "" (credential ≫= tc_Token)) = Ok expiry /\ valid tr expiry /\
    githubTenantCredentials g !! key = Some credential.

Lemma remembered_mid key g t1 tr t2 credential :
  remembered key g tr credential -> remembered key g (t1 ++ tr ++ t2)%list credential.
Proof.
  intros (expiry & H1 & H2 & H3). exists expiry. split_and!; [done|by apply valid_mid|done].
Qed.

Lemma tryGetGitHubTenantCredential_spec key g :
  always (tryGetGitHubTenantCredential key g) (fun tr r => r.2 = g /\ exists v, r.1 = Done (Ok v) /\
    forall credential, v = Some credential -> remembered key g tr credential).
Proof.
  unfold tryGetGitHubTenantCredential, Get, get, reading. apply always_andThen, always_calling. cbn.
  intros there. destruct there; [|cbn; split; [done|by exists None]].
  destruct (githubTenantCredentials g !! key) as [credential|] eqn:Hc; cbn; [|split; [done|by exists None]].
  destruct (jwtExpiry _) as [expiry|e] eqn:Hj; cbn; [|split; [done|by exists None]].
  intros now. split; [done|]. eexists. split; [done|]. unfold time_After. case_bool_decide; [|done].
  intros ? [= <-]. exists expiry. split_and!; [done| |done].
  exists now. split; [solve [find_event]|lia].
Qed.

(** A client for a token of the event's kind. *)
Lemma newGitHubBridgeClient_spec e repository g :
  always (match e with
          | RunnerEventRegister => newGitHubBridgeClientWithRegistrationToken repository
          | RunnerEventRemove => newGitHubBridgeClientWithRemoveToken repository
          end g) (fun tr r => forall c, r.1 = Done (Ok c) ->
    exists token g1, c = mkClient (GetToken token) "RemoteAuth" /\ handed_out e repository g tr token g1).
Proof.
  assert (always (newGitHubBridgeClient (getTokenFor e) repository g) (fun tr r => forall c,
    r.1 = Done (Ok c) -> exists token g1, c = mkClient (GetToken token) "RemoteAuth" /\
      handed_out e repository g tr token g1)) as H; [|by destruct e].
  unfold newGitHubBridgeClient. destruct repository as [repository|]; [|done].
  apply always_andThen. eapply always_mono; [apply getTokenFor_spec|].
  intros t1 [[[token|e0]|e0] g1] H; cbn [fst snd] in *; [|done..].
  apply always_andThen, always_calling, always_any. intros t2 [[[]|e0]|e0]; cbn; [|done..].
  intros c [= <-]. exists token, g1. split; [done|]. apply (handed_out_mid e _ g [] t1), H. done.
Qed.

(** A credential that GitHub has created in the run, for a client with a token of
    the event's kind. *)
Definition new_credential (e : RunnerEvent) (repository : ptr GHRepository) (g : globals)
    (tr : trace github) (credential : ptr TenantCredential) : Prop :=
  exists token response,
    answered tr (CreateTenantCredential (mkClient (GetToken token) "RemoteAuth") (RunnerEvent_string e)
                   (GetHTMLURL repository)) (credential, Some response, None) /\
    isFailure response = false /\ exists g1, handed_out e repository g tr token g1.
Definition credential_key (e : RunnerEvent) (repository : ptr GHRepository) : string :=
  RunnerEvent_string e ++ "@" ++ token_key repository.

Lemma GetGitHubTenantCredential_spec repository e g :
  always (GetGitHubTenantCredential repository e g) (fun tr r => forall credential,
    r.1 = Done (Ok credential) ->
    remembered (credential_key e repository) g tr credential \/ new_credential e repository g tr credential).
Proof.
  set (key := credential_key e repository).
  destruct repository as [repository|]; [|done]. unfold GetGitHubTenantCredential.
  change (RunnerEvent_string e ++ "@" ++ GetOwnerLogin (Some repository) ++ "/" ++ GetName (Some repository))
    with key. unfold twice.
  apply always_andThen. eapply always_mono; [apply tryGetGitHubTenantCredential_spec|].
  intros t1 [o1 g1] (Hg1 & v1 & Ho1 & H1). cbn in Hg1, Ho1. subst g1 o1. cbn [fst snd].
  destruct v1 as [c1|].
  { cbn. intros [] c [= <-]. left. apply (remembered_mid key g [] t1), H1. done. }
  apply always_andThen. eapply always_mono; [apply tryGetGitHubTenantCredential_spec|].
  intros t2 [o2 g2] (Hg2 & v2 & Ho2 & H2). cbn in Hg2, Ho2. subst g2 o2. cbn [fst snd].
  destruct v2 as [c2|].
  { cbn. intros [] c [= <-]. left. apply (remembered_mid key g t1 t2), H2. done. }
  apply always_andThen. unfold counting at 1. apply always_calling. cbn [bind call always]. intros [].
  apply always_andThen. eapply always_mono; [apply newGitHubBridgeClient_spec|].
  intros t3 [[[c|e0]|e0] g3] H3; cbn [fst snd] in *; [|done..].
  destruct (H3 c eq_refl) as (token & g4 & -> & Hout).
  apply always_andThen, always_calling.
  eapply always_mono; [apply (handled_spec _ _ _ (fun tr credential => exists response,
    isFailure response = false /\
    answered tr (CreateTenantCredential (mkClient (GetToken token) "RemoteAuth") (RunnerEvent_string e)
                    (GetHTMLURL (Some repository))) (credential, Some response, None)))|].
  - intros tr' t a (response & Hf & Ha). exists response. split; [done|]. apply (answered_mid [] tr' t), Ha.
  - cbn. intros r a response -> Hf. exists response. split; [done|apply answered_here].
  - intros t4 [[credential'|e0]|e0] H4; cbn [fst snd]; [|done..]. cbn [andThen modify returning bind always].
    cbn. intros c [= <-]. right. destruct H4 as (response & Hf & Ha). exists token, response.
    split_and!; [|done|exists g4].
    + apply (answered_mid (t1 ++ t2 ++ [IncGitHubCacheHit "tenantCredential" false ↝ tt] ++ t3)%list _ []) in Ha.
      rewrite <- !app_assoc in Ha. exact Ha.
    + apply (handed_out_mid e _ g (t1 ++ t2 ++ [IncGitHubCacheHit "tenantCredential" false ↝ tt])%list _ (t4 ++ []))
        in Hout. rewrite <- !app_assoc in Hout. exact Hout.
Qed.

(** ** What the caches hold

    Every token and every credential in the caches was created by GitHub, for the
    repository and the event of its key, at some time in the history of the
    operator. *)
Definition obtained (e : RunnerEvent) (repository : ptr GHRepository) (t : trace github)
    (credential : ptr TenantCredential) : Prop :=
  exists repository' token response,
    token_key repository' = token_key repository /\ isFailure response = false /\
    answered t (CreateTenantCredential (mkClient (GetToken token) "RemoteAuth")
                  (match e with RunnerEventRegister => "register" | RunnerEventRemove => "remove" end)
                  (GetHTMLURL repository')) (credential, Some response, None) /\
    exists repository'', token_key repository'' = token_key repository /\ created e repository'' t token.

Record accounted (t : trace github) (g : globals) : Prop := mkAccounted {
  tokens_accounted : forall e key c, entriesFor e g !! key = Some c ->
    exists repository, key = token_key repository /\ created e repository t (container_Token c);
  credentials_accounted : forall key credential, githubTenantCredentials g !! key = Some credential ->
    exists e repository, key = credential_key e repository /\ obtained e repository t credential;
}.

Lemma created_app e repository t t' token :
  created e repository t token -> created e repository (t ++ t')%list token.
Proof. apply (created_mid e repository [] t t'). Qed.
Lemma obtained_app e repository t t' credential :
  obtained e repository t credential -> obtained e repository (t ++ t')%list credential.
Proof.
  intros (r' & token & response & H1 & Hf & Ha & r'' & H2 & Hc). exists r', token, response.
  split_and!; [done..|by apply (answered_mid [] t t')|]. exists r''. split; [done|by apply created_app].
Qed.
Lemma accounted_app t t' g : accounted t g -> accounted (t ++ t')%list g.
Proof.
  intros [Ht Hc]. split.
  - intros e key c H. destruct (Ht e key c H) as (r & -> & Hr). exists r. split; [done|by apply created_app].
  - intros key c H. destruct (Hc key c H) as (e & r & -> & Hr). exists e, r. split; [done|by apply obtained_app].
Qed.

(** The events have different names, and the keys tell them and the repositories
    apart. *)
Lemma credential_key_inj e e' r r' :
  credential_key e r = credential_key e' r' -> e = e' /\ token_key r = token_key r'.
Proof. unfold credential_key. destruct e, e'; cbn; intros [= H]; done. Qed.

(** A method that keeps the account after the history [t], and gives values of
    which [R] holds. *)
Definition accounts {A} (t : trace github) (m : method A) (R : trace github -> A -> Prop) : Prop :=
  forall g, accounted t g -> always (m g) (fun tr r =>
    accounted (t ++ tr) r.2 /\ match r.1 with Done (Ok a) => R (t ++ tr)%list a | _ => True end).

Lemma accounts_andThen {A B} t (m : method A) (k : A -> method B) R R' :
  accounts t m R -> (forall a tr, R (t ++ tr)%list a -> accounts (t ++ tr)%list (k a) R') ->
  accounts t (andThen m k) R'.
Proof.
  intros Hm Hk g Hg. apply always_andThen. eapply always_mono; [by apply Hm|].
  intros tr [[[a|e]|e] g1] [Hg1 Hr]; cbn in *; [|done..].
  eapply always_mono; [by apply Hk|]. intros tr' r. by rewrite app_assoc.
Qed.

Lemma accounts_calling {A} t (p : prog github (attempt A)) (R : trace github -> A -> Prop) :
  always p (fun tr r => match r with Done (Ok a) => R (t ++ tr)%list a | _ => True end) ->
  accounts t (calling p) R.
Proof.
  intros H g Hg. apply always_calling. eapply always_mono; [exact H|].
  intros tr r Hr. split; [by apply accounted_app|done].
Qed.

Lemma accounts_returning {A} t (a : A) (R : trace github -> A -> Prop) :
  R t a -> accounts t (returning (Done (Ok a))) R.
Proof. intros H g Hg. cbn. by rewrite app_nil_r. Qed.

Lemma accounts_modify t f (R : trace github -> unit -> Prop) :
  (forall g, accounted t g -> accounted t (f g)) -> R t tt -> accounts t (modify f) R.
Proof. intros Hf H g Hg. cbn. rewrite app_nil_r. auto. Qed.

Lemma accounts_any {A} t (p : prog github (attempt A)) : accounts t (calling p) (fun _ _ => True).
Proof. apply accounts_calling, always_any. by intros tr [[]|]. Qed.

Lemma accounts_mono {A} t (m : method A) (R R' : trace github -> A -> Prop) :
  (forall t a, R t a -> R' t a) -> accounts t m R -> accounts t m R'.
Proof.
  intros HR Hm g Hg. eapply always_mono; [by apply Hm|].
  intros tr [[[a|e]|e] g1] [H1 H2]; (split; [done|]); [by apply HR|done..].
Qed.

Lemma accounts_twice {A V} t name (look : method (option V)) (found : V -> A) (otherwise : method A)
    (R : trace github -> A -> Prop) :
  (forall t t' a, R t a -> R (t ++ t')%list a) ->
  (forall t, accounts t look (fun t v => match v with Some v => R t (found v) | None => True end)) ->
  (forall t, accounts t otherwise R) ->
  accounts t (twice name look found otherwise) R.
Proof.
  intros HR Hlook Hother. unfold twice.
  assert (forall t v, R t (found v) ->
    accounts t (let^ _ := counting name true in returning (Done (Ok (found v)))) R) as Hhit.
  { intros t' v Hv. eapply accounts_andThen; [apply accounts_any|].
    intros [] tr _. by apply accounts_returning, HR. }
  eapply accounts_andThen; [apply Hlook|]. intros [v|] tr Hv; [by apply Hhit|].
  eapply accounts_andThen; [apply Hlook|]. intros [v'|] tr' Hv'; [by apply Hhit|].
  eapply accounts_andThen; [apply accounts_any|]. intros [] tr'' _. apply Hother.
Qed.
Lemma accounted_token t g e repository token rate :
  accounted t g -> created e repository t token ->
  accounted t (setFor e <[token_key repository := mkTokenContainer token rate]> g).
Proof.
  intros [Ht Hc] H. split; [|by destruct e].
  intros e' key c. destruct (decide (e' = e)) as [->|He].
  - rewrite entriesFor_set. intros [[<- <-]|[_ Hl]]%lookup_insert_Some; [by exists repository|by apply Ht].
  - intros Hl. apply Ht. by destruct e, e'.
Qed.

Lemma accounts_Get {V} t cache (entries : globals -> gmap string V) key :
  accounts t (Get cache entries key) (fun _ _ => True).
Proof. intros g Hg. unfold Get, get, reading. by apply accounts_any. Qed.

Lemma accounts_tryGetToken t e repository :
  accounts t (tryGetToken (cacheFor e) (entriesFor e) (setFor e) (token_key repository))
    (fun t v => match v with
                | Some token => exists r, token_key r = token_key repository /\ created e r t token
                | None => True
                end).
Proof.
  intros g Hg. unfold tryGetToken, Get, get, reading. apply always_andThen, always_calling. cbn.
  intros there. destruct there; cbn; [|split; [by apply accounted_app|done]].
  destruct (entriesFor e g !! token_key repository) as [c|] eqn:Hc; cbn; [|split; [by apply accounted_app|done]].
  destruct (tokens_accounted _ _ Hg _ _ _ Hc) as (r & Hr & Hcr).
  assert (forall t', accounted (t ++ t')%list
    (setFor e <[token_key repository := mkTokenContainer (container_Token c) ((Rate c + 1) mod 2 ^ 64)]> g))
    as Hset.
  { intros t'. rewrite Hr. apply accounted_token; [by apply accounted_app|by apply created_app]. }
  case_bool_decide; cbn; [split; [apply Hset|done]|].
  intros now. split; [apply Hset|]. destruct (time_After _ _); [|done].
  exists r. split; [done|by apply created_app].
Qed.

(** The answer of a handled call is accounted for by the call. *)
Lemma accounts_handled {A} t c name (p : prog github (answer A)) (R : trace github -> A -> Prop) :
  (forall t t' a, R t a -> R (t ++ t')%list a) ->
  always p (fun tr r => forall a response, r = (a, Some response, None) -> isFailure response = false ->
    R (t ++ tr)%list a) ->
  accounts t (calling (handled c name p)) R.
Proof.
  intros HR Hp. apply accounts_calling.
  eapply always_mono; [apply (handled_spec c name p (fun tr a => R (t ++ tr)%list a))|done].
  - intros tr t' a H. rewrite app_assoc. by apply HR.
  - exact Hp.
Qed.

Lemma accounts_withClient {A} t (k : Client -> method A) R :
  (forall c, accounts t (k c) R) -> accounts t (withClient k) R.
Proof.
  intros H g Hg. unfold withClient, get, reading. destruct (githubClient g) as [c|]; [by apply H|].
  cbn. by rewrite app_nil_r.
Qed.

Lemma accounts_getTokenFor t e repository :
  accounts t (getTokenFor e repository) (fun t token =>
    exists r, token_key r = token_key repository /\ created e r t token).
Proof.
  rewrite getTokenFor_eq. destruct repository as [repository|].
  2: { intros g Hg. cbn. by rewrite app_nil_r. }
  unfold getToken. fold (token_key (Some repository)).
  apply accounts_twice.
  - intros t1 t2 token (r & Hr & Hc). exists r. split; [done|by apply created_app].
  - intros t1. apply accounts_tryGetToken.
  - intros t1. apply accounts_withClient. intros c.
    eapply accounts_andThen; [apply (accounts_handled t1 c "entry" _
      (fun t token => created e (Some repository) t token))|].
    + intros. by apply created_app.
    + unfold createFor. destruct e; cbn; intros r a response -> Hf; exists c, response;
        (split; [done|apply answered_app_r, answered_here]).
    + intros token tr Hc. eapply accounts_andThen; [apply (accounts_modify _ _ (fun t _ => created e (Some repository) t token))|].
      * intros g Hg. by apply accounted_token.
      * done.
      * intros [] tr' Hc'. apply accounts_returning. by exists (Some repository).
Qed.

Lemma accounts_bridge t e repository :
  accounts t (match e with
              | RunnerEventRegister => newGitHubBridgeClientWithRegistrationToken repository
              | RunnerEventRemove => newGitHubBridgeClientWithRemoveToken repository
              end) (fun t c => exists token, c = mkClient (GetToken token) "RemoteAuth" /\
    exists r, token_key r = token_key repository /\ created e r t token).
Proof.
  assert (accounts t (newGitHubBridgeClient (getTokenFor e) repository) (fun t c => exists token,
    c = mkClient (GetToken token) "RemoteAuth" /\
    exists r, token_key r = token_key repository /\ created e r t token)) as H; [|by destruct e].
  unfold newGitHubBridgeClient. destruct repository as [repository|].
  2: { intros g Hg. cbn. by rewrite app_nil_r. }
  eapply accounts_andThen; [apply accounts_getTokenFor|]. intros token tr (r & Hr & Hc).
  eapply accounts_andThen; [apply accounts_any|]. intros [] tr' _. apply accounts_returning.
  exists token. split; [done|]. exists r. split; [done|by apply created_app].
Qed.

Lemma accounts_tryGetGitHubTenantCredential t e repository :
  accounts t (tryGetGitHubTenantCredential (credential_key e repository)) (fun t v =>
    match v with Some credential => obtained e repository t credential | None => True end).
Proof.
  intros g Hg. unfold tryGetGitHubTenantCredential, Get, get, reading.
  apply always_andThen, always_calling. cbn.
  intros there. destruct there; cbn; [|split; [by apply accounted_app|done]].
  destruct (githubTenantCredentials g !! _) as [c|] eqn:Hc; cbn; [|split; [by apply accounted_app|done]].
  destruct (credentials_accounted _ _ Hg _ _ Hc) as (e' & r & [-> Hr]%credential_key_inj & Hcr).
  destruct (jwtExpiry _); cbn; [|split; [by apply accounted_app|done]].
  intros now. split; [by apply accounted_app|]. destruct (time_After _ _); [|done].
  apply obtained_app. destruct Hcr as (r' & token & response & H1 & H). exists r', token, response.
  rewrite Hr. by split.
Qed.

Lemma accounted_credential t g e repository credential :
  accounted t g -> obtained e repository t credential ->
  accounted t (set_githubTenantCredentials <[credential_key e repository := credential]> g).
Proof.
  intros [Ht Hc] H. split; [by intros []; [apply (Ht RunnerEventRegister)|apply (Ht RunnerEventRemove)]|].
  intros key c. cbn. intros [[<- <-]|[_ Hl]]%lookup_insert_Some; [by exists e, repository|by apply Hc].
Qed.

Lemma accounts_GetGitHubTenantCredential t repository e :
  accounts t (GetGitHubTenantCredential repository e) (obtained e repository).
Proof.
  destruct repository as [repository|].
  2: { intros g Hg. cbn. by rewrite app_nil_r. }
  unfold GetGitHubTenantCredential.
  change (RunnerEvent_string e ++ "@" ++ GetOwnerLogin (Some repository) ++ "/" ++ GetName (Some repository))
    with (credential_key e (Some repository)).
  apply accounts_twice; [intros; by apply obtained_app|intros; apply accounts_tryGetGitHubTenantCredential|].
  intros t1. eapply accounts_andThen; [apply accounts_bridge|]. intros c tr (token & -> & r & Hr & Hc).
  eapply accounts_andThen; [apply (accounts_handled _ _ _ _ (obtained e (Some repository)))|].
  - intros. by apply obtained_app.
  - cbn. intros a credential response -> Hf. exists (Some repository), token, response.
    split_and!; [done..| |exists r; split; [done|by apply created_app]].
    apply answered_app_r. destruct e; apply answered_here.
  - intros credential tr' Ho.
    eapply accounts_andThen; [apply (accounts_modify _ _ (fun t _ => obtained e (Some repository) t credential))|].
    + intros g Hg. by apply accounted_credential.
    + done.
    + intros [] tr'' Ho'. by apply accounts_returning.
Qed.

Lemma accounts_Init t owner name : accounts t (Init owner name) (fun _ _ => True).
Proof.
  assert (forall t g g', accounted t g -> githubRegistrationTokens g' = githubRegistrationTokens g ->
    githubRemoveTokens g' = githubRemoveTokens g ->
    githubTenantCredentials g' = githubTenantCredentials g -> accounted t g') as Hsame.
  { intros t' g g' [Ht Hc] H1 H2 H3. split; [|by rewrite H3].
    intros []; cbn; [rewrite H1; apply (Ht RunnerEventRegister)|rewrite H2; apply (Ht RunnerEventRemove)]. }
  unfold Init. eapply (accounts_andThen _ _ _ (fun _ _ => True)).
  - intros g Hg. eapply always_mono; [apply initGitHubClient_spec|].
    intros tr [[[[]|e]|e] g1] [_ H]; cbn in *; [|subst g1; split; [by apply accounted_app|done]..].
    split; [|done]. apply accounted_app.
    by destruct H as [[-> _]|[[_ ->]|(_ & token & _ & ->)]]; [|apply (Hsame t g)..].
  - intros [] tr _. unfold getGitHubRepository. apply accounts_twice; [done| |].
    + intros t1. eapply accounts_mono; [|apply accounts_Get]. by intros t2 [r|].
    + intros t1. apply accounts_withClient. intros c.
      eapply accounts_andThen; [apply accounts_any|]. intros r tr1 _.
      destruct (isAllowedOwner r); cbn [negb].
      2: { intros g Hg. cbn. by rewrite app_nil_r. }
      destruct (isAllowedVisibility r); cbn [negb].
      2: { intros g Hg. cbn. by rewrite app_nil_r. }
      eapply accounts_andThen; [apply (accounts_modify _ _ (fun _ _ => True)); [|done]|].
      * intros g Hg. by apply (Hsame _ g).
      * intros [] tr2 _. by apply accounts_returning.
Qed.

(** The states the operator gets into, with what it has asked GitHub so far: it
    starts with empty caches, and initialises facades and obtains credentials in
    any order, whether they succeed or not. *)
Inductive history : trace github -> globals -> Prop :=
| history_start : history [] globals_zero
| history_Init t g owner name tr out :
    history t g -> runs (Init owner name g) tr out -> history (t ++ tr)%list out.2
| history_credential t g repository e tr out :
    history t g -> runs (GetGitHubTenantCredential repository e g) tr out -> history (t ++ tr)%list out.2.

Lemma history_accounted t g : history t g -> accounted t g.
Proof.
  induction 1 as [|t g owner name tr out _ IH Hrun|t g repository e tr out _ IH Hrun].
  - split; [by intros [] ? ?; cbn; rewrite lookup_empty|by intros ? ?; cbn; rewrite lookup_empty].
  - exact (proj1 (runs_always _ _ _ _ (accounts_Init t owner name g IH) Hrun)).
  - exact (proj1 (runs_always _ _ _ _ (accounts_GetGitHubTenantCredential t repository e g IH) Hrun)).
Qed.

(** [C16] A runner is registered and removed with credentials of its own.  Whatever
    the operator has done before, a credential it hands out for an event and a
    repository was created by GitHub, in this call or earlier, for that event and
    the URL of a repository of that owner and name, and asked for with a client
    that authenticates with a token which GitHub has created, for the same event,
    owner and name; one that was not created in this call is, by its own claims,
    valid for another minute when the clock was read. *)
Theorem credential_of_event t g repository e tr credential g' :
  history t g ->
  runs (GetGitHubTenantCredential repository e g) tr (Done (Ok credential), g') ->
  obtained e repository (t ++ tr) credential /\
  ((exists expiry, jwtExpiry (default "" (credential ≫= tc_Token)) = Ok expiry /\ valid tr expiry) \/
   (exists c response, answered tr (CreateTenantCredential c (RunnerEvent_string e) (GetHTMLURL repository))
                         (credential, Some response, None))).
Proof.
  intros Hg%history_accounted Hrun. split.
  - exact (proj2 (runs_always _ _ _ _ (accounts_GetGitHubTenantCredential t repository e g Hg) Hrun)).
  - destruct (runs_always _ _ _ _ (GetGitHubTenantCredential_spec repository e g) Hrun credential eq_refl)
      as [(expiry & H1 & H2 & _)|(token & response & H & _)]; [left|right]; by eauto.
Qed.
End tokens.

(** ** Keys *)

Section keys.
#[local] Abbreviation chars := String.list_ascii_of_string.

Lemma chars_app s t : chars (s ++ t) = (chars s ++ chars t)%list.
Proof. induction s as [|c s IH]; [done|]. rewrite string_cons_app. cbn. by rewrite IH. Qed.

(** A text of a label: no dashes and one line. *)
Definition plain (l : list ascii) : Prop := Forall (fun c => c <> "-"%char /\ c <> newline) l.
(** A text of base64: none of the characters that are dropped. *)
Definition body (l : list ascii) : Prop := Forall (fun c => c <> "-"%char /\ c <> newline /\ c <> " "%char) l.

Definition five : list ascii := chars "-----".

Lemma dashes_other c s : c <> "-"%char -> dashes (c :: s) = None.
Proof.
  intros Hc. cbn. destruct c as [[] [] [] [] [] [] [] []]; try done; by destruct Hc.
Qed.

Lemma marker_end_plain l rest : l <> [] -> plain l -> marker_end (l ++ five ++ rest) = Some rest.
Proof.
  induction l as [|c l IH]; [done|]. intros _ [[Hd Hn] Hl]%Forall_cons. cbn [marker_end app].
  rewrite bool_decide_eq_false_2 by done. destruct l as [|c' l]; [done|].
  assert (c' <> "-"%char) as Hc' by (by apply Forall_cons in Hl as [[? _] _]).
  change ((c' :: l) ++ five ++ rest)%list with (c' :: (l ++ five ++ rest))%list.
  rewrite (dashes_other c') by done. by apply IH.
Qed.

(** A marker is dropped, a line of base64 is kept, and its end is dropped; in each
    case there is fuel enough left for the rest. *)
Lemma strip_marker fuel l rest : l <> [] -> plain l ->
  (length (five ++ l ++ five ++ rest)%list <= fuel)%nat ->
  exists fuel', (length rest <= fuel')%nat /\
    strip_pem fuel (five ++ l ++ five ++ rest)%list = strip_pem fuel' rest.
Proof.
  intros Hl Hp Hf. rewrite !length_app in Hf.
  change (length five) with 5%nat in Hf. destruct fuel as [|fuel]; [lia|].
  exists fuel. split; [lia|].
  change (five ++ l ++ five ++ rest)%list with ("-" :: chars "----" ++ l ++ five ++ rest)%char%list.
  cbn [strip_pem]. cbn [dashes app chars mbind option_bind].
  by rewrite marker_end_plain.
Qed.

Lemma strip_body fuel l rest : body l -> (length (l ++ rest)%list <= fuel)%nat ->
  exists fuel', (length rest <= fuel')%nat /\
    strip_pem fuel (l ++ rest)%list = (l ++ strip_pem fuel' rest)%list.
Proof.
  revert fuel. induction l as [|c l IH]; intros fuel Hb Hf; [by exists fuel|].
  apply Forall_cons in Hb as [(Hd & Hn & Hs) Hb]. cbn in Hf. destruct fuel as [|fuel]; [lia|].
  destruct (IH fuel Hb ltac:(lia)) as (fuel' & Hf' & Heq). exists fuel'. split; [done|].
  cbn [app strip_pem]. rewrite dashes_other by done. cbn.
  rewrite !bool_decide_eq_false_2 by done. cbn. by rewrite Heq.
Qed.

Lemma strip_newline fuel rest : (length (newline :: rest) <= fuel)%nat ->
  exists fuel', (length rest <= fuel')%nat /\ strip_pem fuel (newline :: rest) = strip_pem fuel' rest.
Proof.
  intros Hf. cbn in Hf. destruct fuel as [|fuel]; [lia|]. exists fuel. split; [lia|done].
Qed.

(** The PEM text of lines of base64 under a label. *)
Definition end_line : string := String newline "".
Fixpoint pem_lines (lines : list string) : string :=
  match lines with
  | [] => ""
  | line :: lines => line ++ end_line ++ pem_lines lines
  end.
Definition pem (label : string) (lines : list string) : string :=
  "-----" ++ ("BEGIN " ++ label) ++ "-----" ++ end_line ++ pem_lines lines ++
  "-----" ++ ("END " ++ label) ++ "-----" ++ end_line.

Lemma strip_lines (ls : list (list ascii)) : forall fuel rest, Forall body ls ->
  (length (foldr (fun l text => l ++ newline :: text) rest ls)%list <= fuel)%nat ->
  exists fuel', (length rest <= fuel')%nat /\
    strip_pem fuel (foldr (fun l text => l ++ newline :: text) rest ls)%list =
    (concat ls ++ strip_pem fuel' rest)%list.
Proof.
  induction ls as [|l ls IH]; intros fuel rest Hls Hf; cbn [foldr] in *; [by exists fuel|].
  apply Forall_cons in Hls as [Hl Hls].
  destruct (strip_body _ l _ Hl Hf) as (f1 & Hf1 & ->).
  destruct (strip_newline _ _ Hf1) as (f2 & Hf2 & ->).
  destruct (IH _ rest Hls Hf2) as (f3 & Hf3 & ->). exists f3. split; [done|].
  cbn [concat]. by rewrite app_assoc.
Qed.

Lemma strip_text fuel m1 m2 (ls : list (list ascii)) :
  m1 <> [] -> plain m1 -> m2 <> [] -> plain m2 -> Forall body ls ->
  let text := (five ++ m1 ++ five ++ newline ::
    foldr (fun l text => l ++ newline :: text) (five ++ m2 ++ five ++ [newline]) ls)%list in
  (length text <= fuel)%nat -> strip_pem fuel text = concat ls.
Proof.
  intros Hn1 H1 Hn2 H2 Hls text Hf. unfold text in *.
  destruct (strip_marker _ m1 _ Hn1 H1 Hf) as (f1 & Hf1 & ->).
  destruct (strip_newline _ _ Hf1) as (f2 & Hf2 & ->).
  destruct (strip_lines ls _ _ Hls Hf2) as (f3 & Hf3 & ->).
  destruct (strip_marker _ m2 _ Hn2 H2 Hf3) as (f4 & Hf4 & ->).
  destruct (strip_newline _ _ Hf4) as (f5 & _ & ->). destruct f5; by rewrite app_nil_r.
Qed.

(** The base64 of a key is read back from its PEM text: whatever the label
    and however the text is broken into lines, what is left of it without the
    markers and the ends of lines is the lines of base64, one after the other. *)
Theorem pem2base64_pem label lines :
  plain (chars label) -> Forall (fun line => body (chars line)) lines ->
  pem2base64 (pem label lines) = foldr String.append "" lines.
Proof.
  intros Hlabel Hlines. unfold pem2base64.
  assert (chars (pem label lines) = (five ++ (chars "BEGIN " ++ chars label) ++ five ++ newline ::
    foldr (fun l text => l ++ newline :: text) (five ++ (chars "END " ++ chars label) ++ five ++ [newline])
      (map chars lines))%list) as ->.
  { unfold pem. rewrite !chars_app. do 5 f_equal. cbn [app chars end_line]. f_equal.
    clear. induction lines as [|line lines IH]; [done|]. cbn [pem_lines map foldr].
    rewrite !chars_app, <- !app_assoc. f_equal. cbn [chars end_line app]. f_equal. exact IH. }
  assert (forall word, plain (chars word) -> plain (chars word ++ chars label)%list) as Hword
    by (intros word Hw; by apply Forall_app).
  rewrite strip_text; [|done|by apply Hword, (bool_decide_unpack _)|done
    |by apply Hword, (bool_decide_unpack _)|by apply Forall_map|done].
  clear. induction lines as [|line lines IH]; [done|]. cbn [map concat foldr].
  rewrite <- IH. generalize (concat (map chars lines)). intros t.
  induction line as [|c line IHl]; [done|]. cbn. by rewrite string_cons_app, IHl.
Qed.
End keys.

(** ** Examples *)

Module GitHubExamples.
Import Demo.

(** An operator with a token of its own that serves the private repositories of
    one owner, and credentials that are valid until the hour 100. *)
#[export] Instance operator : Process := {|
  environ := {[ "KUBEACTIONS_GITHUB_PAT" := "pat"; "KUBEACTIONS_GITHUB_OWNERS" := "inloco,octocat";
                "KUBEACTIONS_GITHUB_VISIBILITIES" := "private" ]};
  OS := "linux"; Arch := "amd64"; Ver := "0.0.0" |}.
#[export] Instance github_lib : GitHubLib := {|
  ParsePKCS1PrivateKey _ := Err (EOther "no key");
  jwtExpiry _ := Ok (6000 * Minute)
|}.

Definition ok_response : Response := mkResponse 200 "200 OK" (Some ("GET", "https://api.github.com")).
Definition kube_actions : ptr GHRepository :=
  Some (mkGHRepository (Some "inloco") (Some "kube-actions") (Some true)
          (Some "https://github.com/inloco/kube-actions") None).
Definition a_token : ptr Token := Some (mkToken (Some "token") (Some (100 * Minute))).
Definition a_credential : ptr TenantCredential :=
  Some (mkTenantCredential (Some "header.payload.sig") (Some "https://pipelines")).

(** GitHub at the minute 5; the caches keep what they are given. *)
Definition serve_github (o : sop github) (s : unit) : sans github o * unit :=
  let good A (a : A) : answer A := (a, Some ok_response, None) in
  (match o return github_ans o with
   | Now => 5 * Minute
   | NewSigner _ => Ok tt
   | CompactSerialize _ _ _ _ => Ok "app"
   | ListInstallations _ => good _ [7]
   | CreateInstallationToken _ _ | CreateRegistrationToken _ _ _ | CreateRemoveToken _ _ _ =>
       good _ a_token
   | RateLimits _ => good _ (Some (5000, 4999))
   | GetRepository _ _ _ => good _ kube_actions
   | CreateTenantCredential _ _ _ => good _ a_credential
   | Cached _ _ => true
   | SetGitHubRateLimit _ _ _ | IncGitHubAPICalls _ _ _ | IncGitHubCacheHit _ _ => tt
   end, s).

Abbreviation initialised := (Init "inloco" "kube-actions" globals_zero).
Definition init_run := exec serve_github initialised tt.
Definition ready : globals := init_run.1.2.2.

Lemma Init_allows_witness :
  init_run.1.2.1 = Done (Ok kube_actions) /\ allowed kube_actions /\ admitted ready.
Proof.
  assert (admitted globals_zero) as H by (intros key r Hr; cbn in Hr; rewrite lookup_empty in Hr; discriminate Hr).
  destruct (Init_allows "inloco" "kube-actions" globals_zero _ _ H
    (exec_runs serve_github initialised tt)) as [H1 H2].
  assert (init_run.1.2.1 = Done (Ok kube_actions)) as Hr by (by vm_compute).
  split_and!; [exact Hr|exact (H2 _ Hr)|exact H1].
Defined.

Lemma initGitHubClient_renews_witness :
  exists g', (exec serve_github (initGitHubClient globals_zero) tt).1.2 = (Done (Ok tt), g') /\
    g' = set_githubClient (mkClient "pat" "") 0 globals_zero.
Proof.
  pose proof (initGitHubClient_renews globals_zero _ _
    (exec_runs serve_github (initGitHubClient globals_zero) tt)) as H.
  eexists. split; [by vm_compute|].
  assert ((exec serve_github (initGitHubClient globals_zero) tt).1.2.1 = Done (Ok tt)) as Ho by (by vm_compute).
  rewrite Ho in H. destruct H as [(_ & [c Hc] & _)|[(_ & H)|(Hpat & _)]];
    [discriminate Hc|symmetry; exact H|discriminate Hpat].
Defined.

(** A created token, and three uses of it. *)
Definition with_token : globals :=
  set_githubRegistrationTokens (<["inloco/kube-actions" := mkTokenContainer a_token 0]>) ready.
Definition three : prog github (attempt (list (ptr Token)) * globals) :=
  getTokens RunnerEventRegister kube_actions 3 with_token.
Definition three_run := exec serve_github three tt.
Lemma three_runs : runs three three_run.1.1 (Done (Ok [a_token; a_token; a_token]), three_run.1.2.2).
Proof.
  assert (Done (Ok [a_token; a_token; a_token]) = three_run.1.2.1) as -> by (by vm_compute).
  rewrite <- surjective_pairing. unfold three_run. apply exec_runs.
Qed.
Lemma token_uses_bounded_witness :
  Forall (fun token => token = a_token /\ valid three_run.1.1 (GetExpiresAt token)) [a_token; a_token; a_token].
Proof.
  refine (proj2 (proj2 (token_uses_bounded RunnerEventRegister kube_actions 3 with_token
    (mkTokenContainer a_token 0) _ _ _ _ _ three_runs _))).
  - by vm_compute.
  - cbn. lia.
  - by vm_compute.
Defined.

Definition registering : prog github (attempt (ptr TenantCredential) * globals) :=
  GetGitHubTenantCredential kube_actions RunnerEventRegister ready.
Definition registering_run := exec serve_github registering tt.
Lemma registering_runs : runs registering registering_run.1.1 (Done (Ok a_credential), registering_run.1.2.2).
Proof.
  assert (Done (Ok a_credential) = registering_run.1.2.1) as -> by (by vm_compute).
  rewrite <- surjective_pairing. unfold registering_run. apply exec_runs.
Qed.
Lemma ready_history : history init_run.1.1 ready.
Proof.
  exact (history_Init [] globals_zero "inloco" "kube-actions" _ _ history_start
    (exec_runs serve_github initialised tt)).
Qed.
Lemma credential_of_event_witness :
  obtained RunnerEventRegister kube_actions (init_run.1.1 ++ registering_run.1.1) a_credential.
Proof.
  exact (proj1 (credential_of_event _ _ kube_actions RunnerEventRegister _ _ _ ready_history registering_runs)).
Defined.

Lemma pem2base64_pem_witness :
  pem2base64 (pem "RSA PRIVATE KEY" ["MIIBOgIBAAJBAK"; "c2Vj+/=="]) = "MIIBOgIBAAJBAKc2Vj+/==".
Proof.
  refine (pem2base64_pem "RSA PRIVATE KEY" ["MIIBOgIBAAJBAK"; "c2Vj+/=="] _ _);
    apply (bool_decide_unpack _); by vm_compute.
Defined.
End GitHubExamples.
