(* ===== verification/Registration.v ===== *)
(** * A wire over the facade of GitHub: with which credentials runners are registered

    The two operations of a [Wire] that are methods of [facades/gh.go], implemented
    by [GitHub] on the globals and the field of the facade; and what follows for
    the registration at Azure DevOps. *)

From S2P Require Export Wire GitHub.
#[local] Open Scope string_scope.

(** [wire.ghFacade] and the package's variables *)
Record bridge : Type := mkBridge {
  gh_Repository : ptr GHRepository;
  gh_globals : globals;
}.

(** [r.GetGitCommitsURL()], [credential.GetURL()], [credential.GetToken()] *)
Definition GetGitCommitsURL (r : ptr GHRepository) : string := default "" (r ≫= gr_GitCommitsURL).
Definition GetURL (c : ptr TenantCredential) : string := default "" (c ≫= tc_URL).
Definition GetCredentialToken (c : ptr TenantCredential) : string := default "" (c ≫= tc_Token).

Section bridge.
Context {T : K8sTypes} {L : K8sLib} `{J : GoJQ} `{JL : JobLib} `{SL : StringsLib}.
Context `{P : Process} `{GL : GitHubLib}.

(** The outcome of a method, with what the facade answers of its value. *)
Definition answering {A B} (f : A -> B) (r : attempt A) : attempt B :=
  match r with
  | Done (Ok a) => Done (Ok (f a))
  | Done (Err e) => Done (Err e)
  | Panicked e => Panicked e
  end.

Definition serve_bridge (o : wire_op) (s : bridge) : prog (both wire github) (wire_ans o * bridge) :=
  match o return prog (both wire github) (wire_ans o * bridge) with
  | GitHub_Init owner name =>
      inject_r (let! r := GitHub.Init owner name (gh_globals s) in
                Ret (answering GetGitCommitsURL r.1,
                     mkBridge (match r.1 with Done (Ok repository) => repository
                               | _ => gh_Repository s end) r.2))
  | Wire.GetGitHubTenantCredential event =>
      inject_r (let! r := GitHub.GetGitHubTenantCredential (gh_Repository s) event (gh_globals s) in
                Ret (answering (fun c => (GetCredentialToken c, GetURL c)) r.1,
                     mkBridge (gh_Repository s) r.2))
  | o => Do (inl o : sop (both wire github)) (fun r => Ret (r, s))
  end.

(** ** The credentials leave the repositories alone *)

#[local] Abbreviation method A := (Method.method github globals A).

Definition spares {A} (m : method A) : Prop :=
  forall g, always (m g) (fun _ r => githubRepositories r.2 = githubRepositories g).

Lemma spares_andThen {A B} (m : method A) (k : A -> method B) :
  spares m -> (forall a, spares (k a)) -> spares (Method.andThen m k).
Proof.
  intros Hm Hk g. apply always_andThen. eapply always_mono; [apply Hm|].
  intros tr [[[a|e]|e] g1] Hg; cbn in *; [|done..].
  eapply always_mono; [apply Hk|]. intros tr' r Hr. cbn in Hr. congruence.
Qed.
Lemma spares_calling {A} (p : prog github (attempt A)) : spares (calling p).
Proof. intros g. apply always_calling, always_any. done. Qed.
Lemma spares_returning {A} (r : attempt A) : spares (returning r).
Proof. done. Qed.
Lemma spares_twice {A V} name (look : method (option V)) (found : V -> A) (otherwise : method A) :
  spares look -> spares otherwise -> spares (twice name look found otherwise).
Proof.
  intros Hl Ho. unfold twice, counting.
  repeat first [apply spares_andThen; [assumption || apply spares_calling|]; intros []
               | apply spares_returning | assumption | apply spares_calling].
Qed.

Lemma spares_modify (f : globals -> globals) :
  (forall g, githubRepositories (f g) = githubRepositories g) -> spares (modify f).
Proof. intros Hf g. apply Hf. Qed.
Lemma spares_get {A B} (f : globals -> A) (k : A -> method B) : (forall a, spares (k a)) -> spares (get f k).
Proof. intros Hk g. apply Hk. Qed.

Ltac sparing :=
  repeat first
    [ apply spares_andThen; [|intros ?] | apply spares_calling | apply spares_returning
    | apply spares_twice | apply spares_get; intros ?
    | apply spares_modify; by intros ? | progress case_match ].

Lemma spares_getToken e repository : spares (getTokenFor e repository).
Proof.
  destruct e; cbn; unfold getGitHubRegistrationToken, getGitHubRemoveToken, getToken, tryGetToken,
    withClient, Get; sparing.
Qed.
Lemma spares_credential repository e : spares (GitHub.GetGitHubTenantCredential repository e).
Proof.
  destruct repository as [repository|]; [|apply spares_returning].
  unfold GitHub.GetGitHubTenantCredential.
  apply spares_twice; [unfold tryGetGitHubTenantCredential, Get; sparing|].
  apply spares_andThen; [|intros c; sparing].
  destruct e; unfold newGitHubBridgeClientWithRegistrationToken, newGitHubBridgeClientWithRemoveToken,
    newGitHubBridgeClient; (apply spares_andThen; [|intros token; sparing]).
  - apply (spares_getToken RunnerEventRegister).
  - apply (spares_getToken RunnerEventRemove).
Qed.

(** ** What the facade's answers are *)

(** The events of GitHub among those of a composed trace. *)
Definition of_github (e : event (both wire github)) : option (event github) :=
  let (o, a) := e in
  match o return sans (both wire github) o -> option (event github) with
  | inl _ => fun _ => None
  | inr o => fun a => Some (Prelude.Event (E := github) o a)
  end a.

Lemma of_github_lifted (tr : trace github) : omap of_github (lift_event (E := wire) <$> tr) = tr.
Proof. induction tr as [|[o a] tr IH]; [done|]. cbn. by rewrite IH. Qed.

(** What the caches hold and what the facade has, after the history [t]. *)
Record upright (t : trace github) (s : bridge) : Prop := mkUpright {
  upright_accounted : accounted t (gh_globals s);
  upright_admitted : admitted (gh_globals s);
  upright_repository : gh_Repository s = None \/ allowed (gh_Repository s);
}.

(** A credential that GitHub created for the event and for an allowed repository. *)
Definition rightful (t : trace github) (e : RunnerEvent) (token url : string) : Prop :=
  exists repository credential, allowed repository /\ obtained e repository t credential /\
    token = GetCredentialToken credential /\ url = GetURL credential.

Lemma rightful_app t t' e token url : rightful t e token url -> rightful (t ++ t')%list e token url.
Proof.
  intros (r & c & Ha & Ho & H). exists r, c. split_and!; [done|by apply obtained_app|apply H..].
Qed.

(** What an event of the wire says of a credential. *)
Definition credential_in (ev : event wire) : option (RunnerEvent * string * string) :=
  let (o, a) := ev in
  match o return wire_ans o -> option (RunnerEvent * string * string) with
  | Wire.GetGitHubTenantCredential e => fun a =>
      match a with Done (Ok (token, url)) => Some (e, token, url) | _ => None end
  | _ => fun _ => None
  end a.

Lemma upright_app t t' s : upright t s -> upright (t ++ t')%list s.
Proof. intros [Hacc Hadm Hrep]. split; [by apply accounted_app|done..]. Qed.

(** GitHub's own operations register nobody. *)
Lemma lifted_quiet (tr : trace github) d l token url :
  inl (InitForCRUD d l token url) ∉ ops (lift_event (E := wire) <$> tr).
Proof.
  intros H. apply list_elem_of_fmap in H as (ev & Heq & Hev).
  apply list_elem_of_fmap in Hev as (ev' & -> & _). discriminate Heq.
Qed.

Lemma serve_bridge_upright o t s tr r s' :
  upright t s -> runs (serve_bridge o s) tr (r, s') ->
  upright (t ++ omap of_github tr)%list s' /\
  (forall d l token url, inl (InitForCRUD d l token url) ∈ ops tr -> o = InitForCRUD d l token url) /\
  (forall e token url, credential_in (Prelude.Event (E := wire) o r) = Some (e, token, url) ->
     rightful (t ++ omap of_github tr)%list e token url).
Proof.
  intros Hs Hrun. destruct o as [owner name|event| | | | | | | | | | | | | | | | | | | | ];
    try (destruct Hrun as (r0 & tr' & -> & -> & [= -> ->]); split; [by apply upright_app|];
         split; [|done]; intros d' l' token' url' [Heq|[]%elem_of_nil]%elem_of_cons;
         cbn in Heq; congruence).
  - apply runs_inject_r in Hrun as (tr0 & -> & Hrun). rewrite of_github_lifted.
    apply runs_bind in Hrun as (tr1 & [out g'] & tr2 & -> & Hrun & [-> [= -> ->]]). rewrite app_nil_r.
    destruct Hs as [Hacc Hadm Hrep].
    pose proof (runs_always _ _ _ _ (accounts_Init t owner name _ Hacc) Hrun) as [Hacc' _].
    pose proof (runs_always _ _ _ _ (gives_Init owner name _ Hadm) Hrun) as [Hadm' Hal]. cbn [fst snd] in *.
    split_and!; [split; [done..|destruct out as [[]|]; auto]|by intros ? ? ? ? ?%lifted_quiet|done].
  - apply runs_inject_r in Hrun as (tr0 & -> & Hrun). rewrite of_github_lifted.
    apply runs_bind in Hrun as (tr1 & [out g'] & tr2 & -> & Hrun & [-> [= -> ->]]). rewrite app_nil_r.
    destruct Hs as [Hacc Hadm Hrep].
    pose proof (runs_always _ _ _ _ (accounts_GetGitHubTenantCredential t (gh_Repository s) event _ Hacc) Hrun)
      as [Hacc' Hob].
    pose proof (runs_always _ _ _ _ (spares_credential (gh_Repository s) event (gh_globals s)) Hrun) as Hsame.
    cbn [fst snd] in *.
    split_and!; [split; [done| |done]; unfold admitted; cbn; by rewrite Hsame|by intros ? ? ? ? ?%lifted_quiet|].
    intros e token url Hc. destruct out as [[c|]|]; cbn in Hc; [|done..].
    injection Hc as <- <- <-. exists (gh_Repository s), c. split_and!; try done.
    destruct Hrep as [Hnone|]; [|done]. rewrite Hnone in Hrun. by destruct Hrun.
Qed.

(** Over a whole run of the wire. *)
Lemma implements_rightful tr' : forall t s tr s',
  upright t s -> implements serve_bridge s tr' tr s' ->
  upright (t ++ omap of_github tr)%list s' /\
  (forall d l token url, inl (InitForCRUD d l token url) ∈ ops tr -> InitForCRUD d l token url ∈ ops tr') /\
  (forall ev e token url, ev ∈ tr' -> credential_in ev = Some (e, token, url) ->
     rightful (t ++ omap of_github tr)%list e token url).
Proof.
  induction tr' as [|[o r] tr' IH]; intros t s tr s' Hs Hi.
  { destruct Hi as [-> ->]. cbn. rewrite app_nil_r.
    split_and!; [done|by intros ? ? ? ? ?%elem_of_nil|by intros ? ? ? ? ?%elem_of_nil]. }
  destruct Hi as (s1 & tr1 & tr2 & -> & Hrun & Hi).
  destruct (serve_bridge_upright o t s tr1 r s1 Hs Hrun) as (Hs1 & Ho & Hc).
  destruct (IH _ _ _ _ Hs1 Hi) as (Hs' & Ho' & Hc'). rewrite omap_app, app_assoc. split_and!; [done| |].
  - intros d l token url. unfold ops. rewrite fmap_app. intros [H|H]%elem_of_app.
    + cbn. apply elem_of_cons. left. symmetry. exact (Ho _ _ _ _ H).
    + right. exact (Ho' _ _ _ _ H).
  - intros ev e token url [->|Hev]%elem_of_cons Hin; [|by eapply Hc'].
    apply rightful_app. by apply Hc.
Qed.

(** ** The wire registers with what the facade gives it *)

(** Every registration of a run is with what an operation of the run answered that
    asked for a credential for an event of [E]. *)
Definition credits {A} (E : RunnerEvent -> Prop) (p : prog wire A) : Prop :=
  always p (fun tr _ => forall d l token url, InitForCRUD d l token url ∈ ops tr ->
    exists ev e, E e /\ ev ∈ tr /\ credential_in ev = Some (e, token, url)).

Lemma credits_ret {A} E (a : A) : credits E (Ret a).
Proof. by intros d l token url ?%elem_of_nil. Qed.

Lemma credits_bind {A B} E (p : prog wire A) (f : A -> prog wire B) :
  credits E p -> (forall a, credits E (f a)) -> credits E (bind p f).
Proof.
  intros Hp Hf. apply always_bind. eapply always_mono; [exact Hp|]. intros tr a H.
  eapply always_mono; [apply Hf|]. intros tr' b H' d l token url.
  unfold ops. rewrite fmap_app. intros [Hin|Hin]%elem_of_app.
  - destruct (H _ _ _ _ Hin) as (ev & e & He & Hev & Hc). exists ev, e. split_and!; [done| |done].
    apply elem_of_app. by left.
  - destruct (H' _ _ _ _ Hin) as (ev & e & He & Hev & Hc). exists ev, e. split_and!; [done| |done].
    apply elem_of_app. by right.
Qed.

Lemma credits_call E o : (forall d l token url, o <> InitForCRUD d l token url) -> credits E (call (E := wire) o).
Proof. intros Ho r d l token url [Heq|[]%elem_of_nil]%elem_of_cons.
  exfalso. exact (Ho _ _ _ _ (eq_sym Heq)). Qed.

Lemma credits_andThen {A B} E (m : Method.method wire Wire A) (k : A -> Method.method wire Wire B) w :
  credits E (m w) -> (forall a w, credits E (k a w)) -> credits E (Method.andThen m k w).
Proof. intros Hm Hk. apply credits_bind; [done|]. intros [[[a|e]|e] w']; [apply Hk|apply credits_ret..]. Qed.

Lemma credits_initADO (E : RunnerEvent -> Prop) event w : E event -> credits E (initADO event w).
Proof.
  intros HE. unfold initADO. cbn. intros [[[token url]|e]|e]; [|by intros d l t u [[=]|[]%elem_of_nil]%elem_of_cons..].
  unfold withDotFiles. cbn. destruct (w_DotFiles w) as [d|].
  - cbn. intros r d' l' token' url' [[=]|[Heq|[]%elem_of_nil]%elem_of_cons]%elem_of_cons.
    cbn in Heq. injection Heq as -> -> -> ->. eexists _, event. split_and!; [done|left|done].
  - by intros d l t u [[=]|[]%elem_of_nil]%elem_of_cons.
Qed.

Ltac crediting :=
  repeat first
    [ apply credits_initADO; done | apply credits_ret | apply credits_andThen; [|intros ? ?]
    | apply credits_call; by intros ? | apply credits_bind; [|intros ?] | progress case_match ].

Lemma credits_initGH E w : credits E (initGH w).
Proof. unfold initGH, calling, withDotFiles, modify. crediting. Qed.
Lemma credits_Destroy w : credits (fun e => e = RunnerEventRemove) (Destroy w).
Proof. unfold Destroy. apply credits_andThen; [apply credits_initGH|]. intros [] w1. unfold calling. crediting. Qed.
Lemma credits_init w : credits (fun e => e = RunnerEventRegister) (init w).
Proof.
  unfold init. apply credits_andThen; [unfold initDotFiles; crediting|]. intros [] w1.
  apply credits_andThen; [apply credits_initGH|]. intros [] w2. unfold calling, withDotFiles, modify. crediting.
Qed.
Lemma credits_any {A} E (p : prog wire A) : credits E p -> credits (fun _ => True) p.
Proof.
  intros Hp. eapply always_mono; [exact Hp|]. intros tr a H d l token url Hin.
  destruct (H _ _ _ _ Hin) as (ev & e & _ & Hev). by exists ev, e.
Qed.
Lemma credits_Init w : credits (fun _ => True) (Wire.Init w).
Proof.
  unfold Wire.Init. apply credits_bind; [eapply credits_any, credits_init|].
  intros [[[|]|] w1]; [apply credits_ret| |apply credits_ret].
  apply credits_bind; [eapply credits_any, credits_Destroy|]. unfold Close. intros r. crediting.
Qed.

(** [C12] No runner is registered but for a repository that the operator is allowed to
    serve, and only with a credential that GitHub created for that repository: in
    every run of a wire's [Init] over the facade of GitHub, from caches that hold
    what GitHub gave, each registration at Azure DevOps, whatever else fails, is
    with the token and at the address of a credential created for an allowed
    repository; and when the wire is initialised it is one for registering. *)
Theorem registered_rightfully t s w tr out w' s' :
  upright t s ->
  runs (interp serve_bridge (Wire.Init w) s) tr (out, w', s') ->
  upright (t ++ omap of_github tr)%list s' /\
  forall d l token url, inl (InitForCRUD d l token url) ∈ ops tr ->
    exists e, rightful (t ++ omap of_github tr)%list e token url /\
      (out = Done (Ok tt) -> e = RunnerEventRegister).
Proof.
  intros Hs (tr' & Hrun & Hi)%interp_runs.
  destruct (implements_rightful tr' t s tr s' Hs Hi) as (Hs' & Hops & Hr). split; [done|].
  intros d l token url Hin%Hops.
  destruct (runs_always _ _ _ _ (credits_Init w) Hrun d l token url Hin) as (ev & e & _ & Hev & Hc).
  destruct out as [[[]|err]|err].
  - destruct (runs_always _ _ _ _ (credits_init w) (Init_ok _ _ _ Hrun) d l token url Hin)
      as (ev' & e' & -> & Hev' & Hc').
    exists RunnerEventRegister. split; [by eapply Hr|done].
  - exists e. split; [by eapply Hr|done].
  - exists e. split; [by eapply Hr|done].
Qed.
End bridge.

(** ** Examples *)

Module RegistrationExamples.
Import Demo PolicyExamples WireExamples GitHubExamples.

(** GitHub that answers as in [GitHub]'s examples, Azure DevOps as in [Wire]'s. *)
Definition serve_all (o : sop (both wire github)) (s : servers) : sans (both wire github) o * servers :=
  match o return sans (both wire github) o * servers with
  | inl o => serve_wire o s
  | inr o => ((serve_github o tt).1, s)
  end.
Definition registering : prog (both wire github) (attempt unit * Wire * bridge) :=
  interp serve_bridge (Wire.Init new_wire) (mkBridge None globals_zero).
Definition registering_run := exec serve_all registering busy.

Lemma registered_rightfully_witness :
  exists d l, inl (InitForCRUD d l "header.payload.sig" "https://pipelines") ∈ ops registering_run.1.1 /\
    rightful (omap of_github registering_run.1.1) RunnerEventRegister "header.payload.sig" "https://pipelines".
Proof.
  assert (upright [] (mkBridge None globals_zero)) as Hs.
  { split; [exact (history_accounted _ _ history_start)| |by left].
    intros key r Hr. cbn in Hr. rewrite lookup_empty in Hr. discriminate Hr. }
  assert (registering_run.1.2.1.1 = Done (Ok tt)) as Hok by (by vm_compute).
  assert (runs registering registering_run.1.1
            (registering_run.1.2.1.1, registering_run.1.2.1.2, registering_run.1.2.2)) as Hrun.
  { rewrite <- !surjective_pairing. apply exec_runs. }
  destruct (registered_rightfully [] _ _ _ _ _ _ Hs Hrun) as [_ H].
  assert (exists d l, inl (InitForCRUD d l "header.payload.sig" "https://pipelines") ∈ ops registering_run.1.1)
    as (d & l & Hin).
  { let v := eval vm_compute in (ops registering_run.1.1) in
      assert (ops registering_run.1.1 = v) as -> by (by vm_compute).
    eexists _, _. repeat first [apply list_elem_of_here | apply list_elem_of_further]. }
  exists d, l. split; [exact Hin|]. destruct (H _ _ _ _ Hin) as (e & Hr & He). by rewrite (He Hok) in Hr.
Defined.
End RegistrationExamples.
