(* ===== verification/Metrics.v ===== *)
(** * metrics/metrics.go

    The operator's collectors.  The vectors of gauges and counters are those of
    the Prometheus client, of which only what it documents is assumed: a child of
    a vector is chosen by its label values and keeps its own value.  The calls
    that the controllers and the facades make are operations of their programs;
    here is what they do to the collectors. *)

From S2P Require Export RunnerReconciler GitHub Goroutines.
#[local] Open Scope string_scope.
#[local] Open Scope list_scope.

(** [prometheus.GaugeVec] and [prometheus.CounterVec], and their values, which
    are float64s of whole numbers below 2^53. *)
Class Prometheus : Type := {
  GaugeVec : Type;
  CounterVec : Type;
  gauge_value : GaugeVec -> list string -> Z;
  counter_value : CounterVec -> list string -> Z;
  gauge_Set : GaugeVec -> list string -> Z -> GaugeVec;
  counter_Inc : CounterVec -> list string -> CounterVec;
}.
Class PrometheusSpec (P : Prometheus) : Prop := {
  gauge_Set_spec : forall v l x l', gauge_value (gauge_Set v l x) l' = if decide (l' = l) then x else gauge_value v l';
  counter_Inc_spec : forall v l l',
    counter_value (counter_Inc v l) l' = counter_value v l' + (if decide (l' = l) then 1 else 0);
}.

Section metrics.
Context `{P : Prometheus}.

Record collectors : Type := mkCollectors {
  githubRateLimitCollector : GaugeVec;
  githubRateRemainingCollector : GaugeVec;
  githubAPICallsCollector : CounterVec;
  githubCacheHitCollector : CounterVec;
  githubActionsEventCounter : CounterVec;
  githubActionsJobAliveGauge : GaugeVec;
  githubActionsJobStartedTimestampGauge : GaugeVec;
  githubActionsJobFinishedTimestampGauge : GaugeVec;
}.

(** ** The functions *)

Definition FormatBool (b : bool) : string := if b then "true" else "false".
Definition set_alive (c : collectors) (alive started finished : GaugeVec) : collectors :=
  mkCollectors (githubRateLimitCollector c) (githubRateRemainingCollector c) (githubAPICallsCollector c)
    (githubCacheHitCollector c) (githubActionsEventCounter c) alive started finished.

Definition SetGitHubRateLimitCollector (clientName : string) (limit : Z) (c : collectors) : collectors :=
  mkCollectors (gauge_Set (githubRateLimitCollector c) [clientName] limit) (githubRateRemainingCollector c)
    (githubAPICallsCollector c) (githubCacheHitCollector c) (githubActionsEventCounter c)
    (githubActionsJobAliveGauge c) (githubActionsJobStartedTimestampGauge c)
    (githubActionsJobFinishedTimestampGauge c).
Definition SetGitHubRateRemainingCollector (clientName : string) (remaining : Z) (c : collectors) : collectors :=
  mkCollectors (githubRateLimitCollector c) (gauge_Set (githubRateRemainingCollector c) [clientName] remaining)
    (githubAPICallsCollector c) (githubCacheHitCollector c) (githubActionsEventCounter c)
    (githubActionsJobAliveGauge c) (githubActionsJobStartedTimestampGauge c)
    (githubActionsJobFinishedTimestampGauge c).
Definition IncGitHubAPICallsCollector (clientName request response : string) (c : collectors) : collectors :=
  mkCollectors (githubRateLimitCollector c) (githubRateRemainingCollector c)
    (counter_Inc (githubAPICallsCollector c) [clientName; request; response]) (githubCacheHitCollector c)
    (githubActionsEventCounter c) (githubActionsJobAliveGauge c) (githubActionsJobStartedTimestampGauge c)
    (githubActionsJobFinishedTimestampGauge c).
Definition IncGitHubCacheHitCollector (cacheName : string) (hit : bool) (c : collectors) : collectors :=
  mkCollectors (githubRateLimitCollector c) (githubRateRemainingCollector c) (githubAPICallsCollector c)
    (counter_Inc (githubCacheHitCollector c) [cacheName; FormatBool hit])
    (githubActionsEventCounter c) (githubActionsJobAliveGauge c) (githubActionsJobStartedTimestampGauge c)
    (githubActionsJobFinishedTimestampGauge c).
Definition IncActionsEventCounter (repository runner event : string) (c : collectors) : collectors :=
  mkCollectors (githubRateLimitCollector c) (githubRateRemainingCollector c) (githubAPICallsCollector c)
    (githubCacheHitCollector c) (counter_Inc (githubActionsEventCounter c) [repository; runner; event])
    (githubActionsJobAliveGauge c) (githubActionsJobStartedTimestampGauge c)
    (githubActionsJobFinishedTimestampGauge c).

(** The time is the clock's, in seconds. *)
Definition SetActionsJobAlive (now : Z) (repository job : string) (c : collectors) : collectors :=
  set_alive c (gauge_Set (githubActionsJobAliveGauge c) [repository; job] 1)
    (gauge_Set (githubActionsJobStartedTimestampGauge c) [repository; job] now)
    (githubActionsJobFinishedTimestampGauge c).
Definition SetActionsJobDone (now : Z) (repository job : string) (c : collectors) : collectors :=
  set_alive c (gauge_Set (githubActionsJobAliveGauge c) [repository; job] 0)
    (githubActionsJobStartedTimestampGauge c)
    (gauge_Set (githubActionsJobFinishedTimestampGauge c) [repository; job] now).

(** ** The operations of the programs *)

Context {T : K8sTypes} {L : K8sLib}.

Definition observe_operator (now : Z) (c : collectors) (o : operator_op) : collectors :=
  match o with
  | SetGitHubActionsJobAlive repository job => SetActionsJobAlive now repository job c
  | SetGitHubActionsJobDone repository job => SetActionsJobDone now repository job c
  | _ => c
  end.
Definition observe_wire (c : collectors) (o : wire_op) : collectors :=
  match o with
  | IncGitHubActionsEventCounter repository runner event => IncActionsEventCounter repository runner event c
  | _ => c
  end.
Definition observe_github (c : collectors) (o : github_op) : collectors :=
  match o with
  | SetGitHubRateLimit name limit remaining =>
      SetGitHubRateRemainingCollector name remaining (SetGitHubRateLimitCollector name limit c)
  | IncGitHubAPICalls name request response => IncGitHubAPICallsCollector name request response c
  | IncGitHubCacheHit name hit => IncGitHubCacheHitCollector name hit c
  | _ => c
  end.

(** A pass, during which the clock's second is [now]. *)
Definition observe (now : Z) (tr : trace operator) (c : collectors) : collectors :=
  foldl (observe_operator now) c (ops tr).

(** ** The gauge of the jobs *)

(** What a pass has done to a job: the labels of the job and whether it is there. *)
Definition job_event (ar : ActionsRunner) (e : event operator) : option (list string * bool) :=
  match ev_op e as o return operator_ans o -> option (list string * bool) with
  | Kube (Create (OActionsRunnerJob j)) => fun err =>
      match IgnoreAlreadyExists err with
      | None => Some ([repo_Name (Repository (Spec ar)); Name (arj_ObjectMeta j)], true)
      | Some _ => None
      end
  | Kube (Delete (OActionsRunnerJob j)) => fun err =>
      match IgnoreNotFound err with
      | None => Some ([repo_Name (Repository (Spec ar)); Name (arj_ObjectMeta j)], false)
      | Some _ => None
      end
  | _ => fun _ => None
  end (ev_ans e).
Definition runner_event (req : ObjectKey) (e : event operator) : option ActionsRunner :=
  match ev_op e as o return operator_ans o -> option ActionsRunner with
  | Kube (Controllers.Get KActionsRunner k) => fun r =>
      match r with Ok ar => Some (ar_clear_managed ar) | Err _ => None end
  | _ => fun _ => None
  end (ev_ans e).

(** The value of the gauge that the events of a pass call for. *)
Definition alive_after (req : ObjectKey) (tr : trace operator) (before : list string -> Z) (l : list string) : Z :=
  match head (omap (runner_event req) tr) with
  | Some ar =>
      match head (omap (job_event ar) tr) with
      | Some (l', b) => if decide (l = l') then (match b with true => 1 | false => 0 end) else before l
      | None => before l
      end
  | None => before l
  end.

(** Operations that neither write a job nor are counted, nor read a runner. *)
Definition quiet (o : operator_op) : Prop :=
  match o with
  | Kube (Create (OActionsRunnerJob _)) | Kube (Delete (OActionsRunnerJob _)) | Kube (Controllers.Get KActionsRunner _)
  | SetGitHubActionsJobAlive _ _ | SetGitHubActionsJobDone _ _ => False
  | _ => True
  end.

Lemma quiet_trace now req ar tr c : Forall quiet (ops tr) ->
  observe now tr c = c /\ omap (runner_event req) tr = [] /\ omap (job_event ar) tr = [].
Proof.
  unfold observe. induction tr as [|[o r] tr IH]; [done|]. intros [Ho Ht]%Forall_cons.
  destruct (IH Ht) as (H1 & H2 & H3).
  destruct o as [[[]| |[]| | |[]]| | | | | | | | | | |]; try done; cbn; by split_and!.
Qed.
Lemma observe_app now t1 t2 c : observe now (t1 ++ t2) c = observe now t2 (observe now t1 c).
Proof. unfold observe. by rewrite ops_app, foldl_app. Qed.

(** ** What the gauge shows *)

Context `{!PrometheusSpec P}.

Definition alive_gauge (c : collectors) : list string -> Z := gauge_value (githubActionsJobAliveGauge c).

(** What a pass does with a job, after a quiet beginning in which it read [ar]. *)
Definition shows (now : Z) (req : ObjectKey) (tr : trace operator) : Prop :=
  forall c l, alive_gauge (observe now tr c) l = alive_after req tr (alive_gauge c) l.

Lemma shows_quiet now req tr : Forall quiet (ops tr) -> shows now req tr.
Proof.
  intros Hq c l. destruct (quiet_trace now req ActionsRunner_zero tr c Hq) as (-> & H & _).
  unfold alive_after. by rewrite H.
Qed.

Lemma shows_job now scheme req ar0 w tr0 :
  Forall quiet (ops tr0) ->
  always (reconcileJob scheme req (ar_clear_managed ar0) w) (fun tr _ =>
    shows now req ((Kube (Controllers.Get KActionsRunner req) ↝ Ok ar0) :: tr0 ++ tr)).
Proof.
  intros Hq. set (ar := ar_clear_managed ar0).
  assert (forall tr, (forall c l, alive_gauge (observe now tr c) l =
      match head (omap (job_event ar) tr) with
      | Some (l', b) => if decide (l = l') then (match b with true => 1 | false => 0 end) else alive_gauge c l
      | None => alive_gauge c l
      end) -> shows now req ((Kube (Controllers.Get KActionsRunner req) ↝ Ok ar0) :: tr0 ++ tr)) as Hshow.
  { intros tr Htr c l. unfold alive_after. cbn [omap list_omap runner_event ev_op ev_ans head job_event].
    destruct (quiet_trace now req ar tr0 c Hq) as (H1 & H2 & H3).
    change (observe now ((Kube (Controllers.Get KActionsRunner req) ↝ Ok ar0) :: tr0 ++ tr) c)
      with (observe now (tr0 ++ tr) c).
    rewrite observe_app, H1, Htr. fold ar. by rewrite omap_app, H3. }
  eapply always_mono; [|intros tr out; apply Hshow].
  unfold reconcileJob. walk.
  all: intros c l; unfold observe, alive_gauge; cbn;
    repeat match goal with H : IgnoreAlreadyExists _ = _ |- _ => rewrite H end;
    repeat match goal with H : IgnoreNotFound _ = _ |- _ => rewrite H end; cbn.
  all: try done; by rewrite gauge_Set_spec.
Qed.

Lemma shows_read now req r tr : Forall quiet (ops tr) ->
  shows now req ((Kube (Controllers.Get KActionsRunner req) ↝ r) :: tr).
Proof.
  intros Hq c l. unfold alive_after. cbn [omap list_omap runner_event ev_op ev_ans].
  change (observe now (_ :: tr) c) with (observe now tr c).
  destruct r as [ar0|e].
  - destruct (quiet_trace now req (ar_clear_managed ar0) tr c Hq) as (-> & _ & H). cbn [head]. cbn.
    fold (omap (job_event (ar_clear_managed ar0)) tr). by rewrite H.
  - destruct (quiet_trace now req ActionsRunner_zero tr c Hq) as (-> & H & _).
    fold (omap (runner_event req) tr). by rewrite H.
Qed.

Lemma always_quiet_bind {A B} (p : prog operator A) (f : A -> prog operator B) tr0 Q :
  Forall quiet (ops tr0) -> only quiet p ->
  (forall a tr1, Forall quiet (ops tr1) -> always (f a) (fun tr b => Q (tr1 ++ tr) b)) ->
  always (bind p f) (fun tr b => Q (tr0 ++ tr) b).
Proof.
  intros H0 Hp Hf. apply always_bind. eapply always_mono; [apply only_always, Hp|].
  cbn. intros tr a Hq. eapply always_mono; [apply (Hf a (tr0 ++ tr))|].
  - rewrite ops_app. by apply Forall_app.
  - intros tr' b. by rewrite app_assoc.
Qed.

(** [C34] The gauge of the living jobs shows what the passes have done to them: a
    pass that creates the job of its runner, or finds that it exists already, sets
    the gauge of the runner's repository and the job's name to 1, one that deletes
    it, or finds it gone, to 0, and in every other run, whatever the API server and
    the wires answer, no gauge changes. *)
Theorem gauge_shows_jobs now gone scheme req reg tr out c l :
  runs (RunnerReconciler.Reconcile gone scheme req reg) tr out ->
  alive_gauge (observe now tr c) l = alive_after req tr (alive_gauge c) l.
Proof.
  intros Hrun. revert c l. change (shows now req tr). revert Hrun. revert tr out.
  apply always_runs. unfold RunnerReconciler.Reconcile. destruct gone; [by apply shows_quiet|].
  cbn [bind call]. intros r.
  assert (forall A (p : prog operator A), only quiet p ->
    always p (fun tr _ => shows now req ((Kube (Controllers.Get KActionsRunner req) ↝ r) :: tr))) as Hread.
  { intros A p Hp. eapply always_mono; [apply only_always, Hp|]. intros tr a. apply shows_read. }
  destruct r as [ar0|e].
  2: { apply Hread. destruct (IsNotFound e); [|done]. unfold TryDestroy, Collection_Destroy. repeat only_step. }
  destruct (IsBeingDeleted _); [by apply Hread|].
  set (Q := fun (tr : trace operator) (_ : outcome goerr * registry) =>
    shows now req ((Kube (Controllers.Get KActionsRunner req) ↝ Ok ar0) :: tr)).
  change (always _ _) with
    (always (let! s := next (getConfigMap req) (fun configMap =>
                    next (getSecret req) (fun secret => Ret (Continue (configMap, secret)))) in
          match s with
          | Return err => Ret (Done err, reg)
          | Continue (configMap, secret) =>
              let! w := WireFor (Some (ar_clear_managed ar0)) None reg in
              match w.1 with
              | Panicked e => Ret (Panicked e, w.2)
              | Done (Err e) => let! err := forget configMap secret e in Ret (Done err, w.2)
              | Done (Ok h) =>
                  let! err := reconcileWired scheme req (ar_clear_managed ar0) h configMap secret in
                  Ret (Done err, w.2)
              end
          end) (fun tr out => Q ([] ++ tr) out)).
  apply always_quiet_bind; [done|unfold next, getConfigMap, getSecret; repeat only_step|].
  intros [err|[cm sec]] tr1 H1; [by apply shows_read; rewrite app_nil_r|].
  apply always_quiet_bind; [done|unfold WireFor, GetWire, MakeWire, Collection_Destroy; repeat only_step|].
  intros [w reg'] tr2 H2. cbn [fst snd]. destruct w as [[h|e]|e].
  - apply always_bind.
    apply (always_mono _ (fun tr _ => shows now req ((Kube (Controllers.Get KActionsRunner req) ↝ Ok ar0) :: tr2 ++ tr)));
      [|intros tr err H; cbn; unfold Q; by rewrite app_nil_r].
    unfold reconcileWired.
    apply (always_quiet_bind _ _ tr2 (fun tr _ => shows now req ((Kube (Controllers.Get KActionsRunner req) ↝ Ok ar0) :: tr)));
      [done| |].
    + unfold writeDotFiles, reconcileBudget, createConfigMap, createSecret,
        writeConfigMap, writeSecret, create, getPodDisruptionBudget, next. repeat only_step.
    + intros s tr3 H3. destruct s as [err|[]]; [by apply shows_read; rewrite app_nil_r|].
      by apply shows_job.
  - apply always_bind. eapply always_mono; [apply (only_always quiet); unfold forget; repeat only_step|].
    intros tr err H. cbn. apply shows_read. rewrite app_nil_r, ops_app. by apply Forall_app.
  - by apply shows_read; rewrite app_nil_r.
Qed.
End metrics.

(** ** Examples *)

Module MetricsExamples.
Import Demo ConverterExamples RunnerExamples.

(** Vectors as maps from label values. *)
#[export] Instance vectors : Prometheus := {|
  GaugeVec := gmap (list string) Z;
  CounterVec := gmap (list string) Z;
  gauge_value v l := default 0 (v !! l);
  counter_value v l := default 0 (v !! l);
  gauge_Set v l x := <[l := x]> v;
  counter_Inc v l := <[l := default 0 (v !! l) + 1]> v;
|}.
#[export] Instance vectors_ok : PrometheusSpec vectors.
Proof.
  split; intros v l; [intros x l'|intros l']; cbn; case_decide as H; subst;
    rewrite ?lookup_insert_eq, ?lookup_insert_ne by done; cbn; lia.
Qed.

Definition none : collectors := mkCollectors ∅ ∅ ∅ ∅ ∅ ∅ ∅ ∅.
Definition labels : list string := ["kube-actions"; "r"].

(** The pass that creates the job, and the one that deletes it. *)
Definition born : collectors := observe 60 (performed asked_for_job) none.
Lemma gauge_shows_jobs_witness :
  alive_gauge born labels = 1 /\
  alive_gauge (observe 90 (performed job_failed) born) labels = 0.
Proof.
  pose proof (gauge_shows_jobs 60 _ _ _ _ _ _ none labels (pass_runs asked_for_job)) as H1.
  pose proof (gauge_shows_jobs 90 _ _ _ _ _ _ born labels (pass_runs job_failed)) as H2.
  split; (etransitivity; [first [exact H1|exact H2]|by vm_compute]).
Defined.
End MetricsExamples.
