(* ===== verification/Dind.v ===== *)
(** * src/dind: the Docker-in-Docker sidecar

    Two goroutines over one cache: the event loop of [docker.go], which follows
    the networks and containers of the Docker daemon and gives every subnet a
    range of loopback addresses, and the main loop of [main.go], which forwards
    those addresses with iptables and a proxy process per container port.  The
    daemon, the channels between the two, the processes and the part of the cache
    they share are operations of the signature [dind]. *)

From S2P Require Import Prelude Text.
From Stdlib Require Import Ascii.
#[local] Open Scope string_scope.

(** ** types.go *)

Record Subnet : Type := mkSubnet {
  DockerSubnet : string;
  HostProxySubnet : string;
  SecondOctet : nat;
}.
Record NetworkInfo : Type := mkNetworkInfo {
  ni_ID : string;
  ni_Action : Z;
  Subnets : list Subnet;
}.
Record Port : Type := mkPort { port_Proto : string; port_Port : Z }.
Record ContainerInfo : Type := mkContainerInfo {
  ci_ID : string;
  ci_Action : Z;
  Pid : Z;
  Ports : list Port;
  IPs : list string;
}.
(** [Networks] pairs the id of a network with the address in it. *)
(** What is read of a [types.ContainerJSON]: the pid, the ports with their protocols
    and the networks with the container's address, the maps in the order of their
    [range]. *)
Record ContainerJSON : Type := mkContainerJSON {
  State_Pid : Z;
  NetworkSettings_Ports : list (string * Z);
  NetworkSettings_Networks : list (string * string);
}.
Record ContainerInspectInfo : Type := mkContainerInspectInfo {
  inspect_Pid : Z;
  inspect_Ports : list Port;
  inspect_Networks : list (string * string);
}.

#[export] Instance Subnet_eq_dec : EqDecision Subnet.
Proof. solve_decision. Defined.
#[export] Instance NetworkInfo_eq_dec : EqDecision NetworkInfo.
Proof. solve_decision. Defined.
#[export] Instance ContainerInfo_eq_dec : EqDecision ContainerInfo.
Proof. assert (EqDecision Port) by solve_decision. solve_decision. Defined.

(** ** cache.go *)

Record Cache : Type := mkCache {
  networkInfoByID : gmap string NetworkInfo;
  containerInfoByID : gmap string ContainerInfo;
  proxyPortPIDsByContainerID : gmap string (list Z);
}.

Definition NewCache : Cache := mkCache ∅ ∅ ∅.

Definition AddNetworkInfo (c : Cache) (info : NetworkInfo) : Cache :=
  mkCache (<[ni_ID info := info]> (networkInfoByID c)) (containerInfoByID c)
    (proxyPortPIDsByContainerID c).
Definition GetNetworkInfo (c : Cache) (id : string) : option NetworkInfo :=
  networkInfoByID c !! id.
Definition DeleteNetworkInfo (c : Cache) (id : string) : Cache :=
  mkCache (delete id (networkInfoByID c)) (containerInfoByID c) (proxyPortPIDsByContainerID c).

Definition AddContainerInfo (c : Cache) (info : ContainerInfo) : Cache :=
  mkCache (networkInfoByID c) (<[ci_ID info := info]> (containerInfoByID c))
    (<[ci_ID info := []]> (proxyPortPIDsByContainerID c)).
Definition GetContainerInfo (c : Cache) (id : string) : option ContainerInfo :=
  containerInfoByID c !! id.
Definition DeleteContainerInfo (c : Cache) (id : string) : option ContainerInfo * Cache :=
  (containerInfoByID c !! id,
   mkCache (networkInfoByID c) (delete id (containerInfoByID c)) (proxyPortPIDsByContainerID c)).

(** A missing list is nil, to which [append] adds too. *)
Definition GetProxyPortPIDs (c : Cache) (id : string) : list Z :=
  default [] (proxyPortPIDsByContainerID c !! id).
Definition AddProxyPortPID (c : Cache) (id : string) (pid : Z) : Cache :=
  mkCache (networkInfoByID c) (containerInfoByID c)
    (<[id := GetProxyPortPIDs c id ++ [pid]]> (proxyPortPIDsByContainerID c))%list.
Definition DeleteProxyPortPIDs (c : Cache) (id : string) : Cache :=
  mkCache (networkInfoByID c) (containerInfoByID c) (<[id := []]> (proxyPortPIDsByContainerID c)).

(** ** docker.go: names and addresses *)

Definition resourceKindNetwork : Z := 0.
Definition resourceKindContainer : Z := 1.
Definition resourceActionCreate : Z := 2.
Definition resourceActionDestroy : Z := 3.
Definition resourceActionStart : Z := 4.
Definition resourceActionStop : Z := 5.

Definition resourceKindByString (s : string) : option Z :=
  if bool_decide (s = "network") then Some resourceKindNetwork
  else if bool_decide (s = "container") then Some resourceKindContainer
  else None.

Definition resourceActionByString (s : string) : option Z :=
  if bool_decide (s = "create") then Some resourceActionCreate
  else if bool_decide (s = "destroy") then Some resourceActionDestroy
  else if bool_decide (s = "start") then Some resourceActionStart
  else if bool_decide (s = "stop") then Some resourceActionStop
  else if bool_decide (s = "die") then Some resourceActionStop
  else None.

Definition hostProxySubnetFirstOctet : Z := 127.

(** [usedHostSecondOctet], an array of 256 flags. *)
Definition usedHostSecondOctet : list bool := replicate 256 false.

(** Up to [n] digits, as many as there are. *)
Fixpoint skip_digits (n : nat) (s : string) : nat * string :=
  match n, s with
  | S n, String c s' =>
      if is_digit c then let '(k, rest) := skip_digits n s' in (S k, rest) else (0%nat, s)
  | _, _ => (0%nat, s)
  end.

(** [dockerSubnetOctetReplRegex], [^[0-9]{1,3}\.[0-9]{1,3}], finds at most one
    match, at the start of the text, and each repetition takes as many digits as
    it can: the rest of the text behind the match. *)
Definition match_octets (s : string) : option string :=
  match skip_digits 3 s with
  | (S _, String c rest) =>
      if bool_decide (c = "."%char) then
        match skip_digits 3 rest with
        | (S _, rest) => Some rest
        | (O, _) => None
        end
      else None
  | _ => None
  end.

(** [dockerSubnetOctetReplRegex.ReplaceAllLiteralString(src, repl)] *)
Definition ReplaceAllLiteralString (src repl : string) : string :=
  match match_octets src with
  | Some rest => repl ++ rest
  | None => src
  end.

Definition hostProxyTwoOctets (octet : nat) : string :=
  pretty hostProxySubnetFirstOctet ++ "." ++ pretty octet.

(** The first flag that is not set, from an index on. *)
Fixpoint first_unset (i : nat) (used : list bool) : option nat :=
  match used with
  | [] => None
  | b :: used => if b then first_unset (S i) used else Some i
  end.

(** The scan starts at the second flag; without one that is unset it panics. *)
Definition markAndGetFirstAvailableHostSecondOctet (used : list bool)
    : outcome (nat * list bool) :=
  match first_unset 1 (drop 1 used) with
  | Some i => Done (i, <[i := true]> used)
  | None => Panicked (EOther "no available host proxy subnet")
  end.

(** The subnets of a new network, each with an octet of its own. *)
Fixpoint allocate (used : list bool) (dockerSubnets : list string)
    : outcome (list Subnet * list bool) :=
  match dockerSubnets with
  | [] => Done ([], used)
  | dockerSubnet :: dockerSubnets =>
      match markAndGetFirstAvailableHostSecondOctet used with
      | Panicked e => Panicked e
      | Done (octet, used) =>
          let subnet := mkSubnet dockerSubnet
            (ReplaceAllLiteralString dockerSubnet (hostProxyTwoOctets octet)) octet in
          match allocate used dockerSubnets with
          | Panicked e => Panicked e
          | Done (subnets, used) => Done (subnet :: subnets, used)
          end
      end
  end.

(** [usedHostSecondOctet[subnet.SecondOctet] = false] for every subnet. *)
Definition release (used : list bool) (subnets : list Subnet) : list bool :=
  foldl (fun used subnet => <[SecondOctet subnet := false]> used) used subnets.

(** ** The operations *)

(** What the event loop's [select] receives: an error (or the nil of a closed
    channel), or a message of a type, an action and an actor. *)
Inductive docker_event : Type :=
| EventError (err : goerr)
| EventMessage (type action id : string).

(** How [cmd.Wait] ends: without an error, with an exit status, or otherwise. *)
Inductive wait_result : Type := WaitOk | WaitStatus (status : Z) | WaitOther (e : error).

(** What the main loop's [select] receives; [None] from a channel is its end. *)
Inductive selected : Type :=
| CmdWait (err : wait_result)
| Networks (info : option NetworkInfo)
| Containers (info : option ContainerInfo).

Inductive dind_op : Type :=
(* os, os/exec, net, os/user, time *)
| Listen (network address : string)
| Accept
| CloseConn
| CloseListener
| Exit (code : Z)
| LookupUser (username : string)
| Chown (name : string) (uid gid : Z)
| Run (path : string) (args : list string)
| LookPath (file : string)
| Start (path : string) (args : list string)
| Kill (pid : Z)
| Sleep (d : Z)
(* docker.Client *)
| NewEnvClient
| ServerVersion
| Events
| NextEvent
| NetworkInspect (id : string)
| ContainerInspect (id : string)
(* iptables *)
| NewIPTables
| AppendUnique (table chain : string) (rulespec : list string)
| DeleteRule (table chain : string) (rulespec : list string)
(* the channels between the two loops *)
| SendNetwork (info : NetworkInfo)
| SendContainer (info : ContainerInfo)
| CloseChannels
| Select
(* the cache both loops share *)
| Cache_AddNetworkInfo (info : NetworkInfo)
| Cache_GetNetworkInfo (id : string)
| Cache_DeleteNetworkInfo (id : string)
| Cache_AddContainerInfo (info : ContainerInfo)
| Cache_DeleteContainerInfo (id : string)
| Cache_AddProxyPortPID (id : string) (pid : Z)
| Cache_GetProxyPortPIDs (id : string)
| Cache_DeleteProxyPortPIDs (id : string).

(** A user has a uid and a gid, as texts; a network the subnets of its IPAM
    configuration; a container its pid, its ports and its networks. *)
Definition dind_ans (o : dind_op) : Type :=
  match o with
  | Listen _ _ | Accept | CloseConn | CloseListener | Chown _ _ _ | Run _ _ | Kill _
  | NewEnvClient | ServerVersion | NewIPTables | AppendUnique _ _ _ | DeleteRule _ _ _ => option error
  | LookupUser _ => result (string * string)
  | LookPath _ => result string
  | Start _ _ => result Z
  | NextEvent => docker_event
  | NetworkInspect _ => result (list string)
  | ContainerInspect _ => result ContainerJSON
  | Select => selected
  | Cache_GetNetworkInfo _ => option NetworkInfo
  | Cache_DeleteContainerInfo _ => option ContainerInfo
  | Cache_GetProxyPortPIDs _ => list Z
  | Exit _ | Sleep _ | Events | SendNetwork _ | SendContainer _ | CloseChannels
  | Cache_AddNetworkInfo _ | Cache_DeleteNetworkInfo _ | Cache_AddContainerInfo _
  | Cache_AddProxyPortPID _ _ | Cache_DeleteProxyPortPIDs _ => unit
  end.

Canonical dind : signature := Sig dind_op dind_ans.

#[export] Instance dind_op_eq_dec : EqDecision dind_op.
Proof. solve_decision. Defined.
#[export] Instance dind_eq_dec : EqDecision (sop dind) := dind_op_eq_dec.

(** The operations on the cache, performed on a cache; the others are left. *)
Definition cached (o : dind_op) (c : Cache) : prog dind (dind_ans o * Cache) :=
  match o return prog dind (dind_ans o * Cache) with
  | Cache_AddNetworkInfo info => Ret (tt, AddNetworkInfo c info)
  | Cache_GetNetworkInfo id => Ret (GetNetworkInfo c id, c)
  | Cache_DeleteNetworkInfo id => Ret (tt, DeleteNetworkInfo c id)
  | Cache_AddContainerInfo info => Ret (tt, AddContainerInfo c info)
  | Cache_DeleteContainerInfo id => Ret (DeleteContainerInfo c id)
  | Cache_AddProxyPortPID id pid => Ret (tt, AddProxyPortPID c id pid)
  | Cache_GetProxyPortPIDs id => Ret (GetProxyPortPIDs c id, c)
  | Cache_DeleteProxyPortPIDs id => Ret (tt, DeleteProxyPortPIDs c id)
  | o => Do (o : sop dind) (fun r => Ret (r, c))
  end.

(** ** docker.go: the event loop *)

(** The subnets of a network that are not empty. *)
Definition getNetworkSubnets (id : string) : prog dind (result (list string)) :=
  let! r := call (NetworkInspect id) in
  Ret (match r with
       | Err e => Err e
       | Ok config => Ok (filter (fun subnet => subnet <> "") config)
       end).

(** A network that cannot be inspected is one without subnets. *)
Definition networkCreated (used : list bool) (id : string) : prog dind (outcome (list bool)) :=
  let! r := getNetworkSubnets id in
  match allocate used (value_or [] r) with
  | Panicked e => Ret (Panicked e)
  | Done (subnets, used) =>
      let networkInfo := mkNetworkInfo id resourceActionCreate subnets in
      let! _ := call (Cache_AddNetworkInfo networkInfo) in
      let! _ := call (SendNetwork networkInfo) in
      Ret (Done used)
  end.

Definition networkDestroyed (used : list bool) (id : string) : prog dind (list bool) :=
  let! info := call (Cache_GetNetworkInfo id) in
  match info with
  | None => Ret used
  | Some info =>
      let! _ := call (Cache_DeleteNetworkInfo id) in
      let! _ := call (SendNetwork (mkNetworkInfo (ni_ID info) resourceActionDestroy (Subnets info))) in
      Ret (release used (Subnets info))
  end.

(** The addresses of a container: one for each subnet of each of its networks. *)
Fixpoint proxyIPs (networks : list (string * string)) : prog dind (list string) :=
  match networks with
  | [] => Ret []
  | (id, ip) :: networks =>
      let! network := call (Cache_GetNetworkInfo id) in
      let! rest := proxyIPs networks in
      Ret (match network with
           | None => rest
           | Some network =>
               map (fun subnet => ReplaceAllLiteralString ip (hostProxyTwoOctets (SecondOctet subnet)))
                 (Subnets network) ++ rest
           end)%list
  end.

Definition getContainerInspectInfo (id : string) : prog dind (result ContainerInspectInfo) :=
  let! r := call (ContainerInspect id) in
  Ret (let? inspect := r in
       let ports := map (fun port => mkPort port.1 port.2) (NetworkSettings_Ports inspect) in
       let networks := map (fun endpoint => (endpoint.1, endpoint.2)) (NetworkSettings_Networks inspect) in
       Ok (mkContainerInspectInfo (State_Pid inspect) ports networks)).

Definition containerStarted (id : string) : prog dind unit :=
  let! r := getContainerInspectInfo id in
  match r with
  | Err _ => Ret tt
  | Ok inspectInfo =>
      let! ips := proxyIPs (inspect_Networks inspectInfo) in
      let containerInfo := mkContainerInfo id resourceActionStart (inspect_Pid inspectInfo)
                             (inspect_Ports inspectInfo) ips in
      let! _ := call (Cache_AddContainerInfo containerInfo) in
      call (SendContainer containerInfo)
  end.

Definition containerStopped (id : string) : prog dind unit :=
  let! info := call (Cache_DeleteContainerInfo id) in
  match info with
  | None => Ret tt
  | Some info =>
      call (SendContainer (mkContainerInfo (ci_ID info) resourceActionStop (Pid info) (Ports info)
                             (IPs info)))
  end.

(** One message; an action that does not belong to its kind does nothing. *)
Definition handleEvent (used : list bool) (type action id : string) : prog dind (outcome (list bool)) :=
  match resourceKindByString type, resourceActionByString action with
  | Some kind, Some action =>
      if bool_decide (kind = resourceKindNetwork) then
        if bool_decide (action = resourceActionCreate) then networkCreated used id
        else if bool_decide (action = resourceActionDestroy) then
          let! used := networkDestroyed used id in Ret (Done used)
        else Ret (Done used)
      else
        if bool_decide (action = resourceActionStart) then
          let! _ := containerStarted id in Ret (Done used)
        else if bool_decide (action = resourceActionStop) then
          let! _ := containerStopped id in Ret (Done used)
        else Ret (Done used)
  | _, _ => Ret (Done used)
  end.

(** How a loop ends without a panic: by itself, by the end of the process, or
    not within the fuel. *)
Inductive loop_end : Type := Stopped | Exited | OutOfFuel.

(** [GetResourcesInfoFromEvents]: an error other than the end of the stream
    subscribes anew; the end closes the channels.  Each received event takes one
    unit of fuel. *)
Fixpoint eventLoop (fuel : nat) (used : list bool) : prog dind (outcome loop_end * list bool) :=
  match fuel with
  | O => Ret (Done OutOfFuel, used)
  | S fuel =>
      let! ev := call NextEvent in
      match ev with
      | EventError err =>
          if bool_decide (err = Some (ESentinel ErrEOF)) || bool_decide (err = None) then
            let! _ := call CloseChannels in Ret (Done Stopped, used)
          else let! _ := call Events in eventLoop fuel used
      | EventMessage type action id =>
          let! r := handleEvent used type action id in
          match r with
          | Panicked e => Ret (Panicked e, used)
          | Done used => eventLoop fuel used
          end
      end
  end.

Definition GetResourcesInfoFromEvents (fuel : nat) : prog dind (outcome loop_end * list bool) :=
  let! _ := call Events in eventLoop fuel usedHostSecondOctet.

(** ** portproxy.go *)

Record AddPortProxyRequest : Type := mkAddPortProxyRequest {
  Proto : string;
  HostIP : string;
  HostPort : Z;
  ChildPID : Z;
  ChildPort : Z;
}.

(** The arguments of socat; a protocol other than the two leaves [cmd] nil, which
    the next line dereferences. *)
Definition createSocatCommand (request : AddPortProxyRequest) : outcome (list string) :=
  let listen name :=
    name ++ "-LISTEN:" ++ pretty (HostPort request) ++ ",bind=" ++ HostIP request ++
    ",reuseaddr,fork,rcvbuf=65536,sndbuf=65536" in
  let exec name :=
    "EXEC:" ++ quoted ("nsenter -U -n --preserve-credentials -t " ++ pretty (ChildPID request) ++
      " socat STDIN " ++ name ++ "4:127.0.0.1:" ++ pretty (ChildPort request)) ++ ",nofork" in
  if bool_decide (Proto request = "tcp") then Done ["socat"; listen "TCP"; exec "TCP"]
  else if bool_decide (Proto request = "udp") then Done ["socat"; listen "UDP"; exec "UDP"]
  else Panicked nil_dereference.

(** The goroutine sends either the pid or the error of the start. *)
Definition AddPortProxy (request : AddPortProxyRequest) : prog dind (outcome (result Z)) :=
  match createSocatCommand request with
  | Panicked e => Ret (Panicked e)
  | Done args => let! r := call (Start "socat" args) in Ret (Done r)
  end.

Definition RemovePortProxy (pid : Z) : prog dind goerr := call (Kill pid).

(** ** main.go: forwarding *)

Definition rulespec (subnet : Subnet) : list string :=
  ["-d"; DockerSubnet subnet; "-j"; "NETMAP"; "--to"; HostProxySubnet subnet].

Fixpoint setupNetworkPortForward (subnets : list Subnet) : prog dind goerr :=
  match subnets with
  | [] => Ret None
  | subnet :: subnets =>
      let! err := call (AppendUnique "nat" "OUTPUT" (rulespec subnet)) in
      match err with
      | Some e => Ret (Some e)
      | None => setupNetworkPortForward subnets
      end
  end.

Fixpoint setdownNetworkPortForward (subnets : list Subnet) : prog dind goerr :=
  match subnets with
  | [] => Ret None
  | subnet :: subnets =>
      let! err := call (DeleteRule "nat" "OUTPUT" (rulespec subnet)) in
      match err with
      | Some e => Ret (Some e)
      | None => setdownNetworkPortForward subnets
      end
  end.

(** The requests of a container: every port on every address. *)
Definition requests (info : ContainerInfo) : list AddPortProxyRequest :=
  ip ← IPs info; spec ← Ports info;
  [mkAddPortProxyRequest (port_Proto spec) ip (port_Port spec) (Pid info) (port_Port spec)].

Fixpoint addPortProxies (id : string) (rs : list AddPortProxyRequest) : prog dind (outcome goerr) :=
  match rs with
  | [] => Ret (Done None)
  | request :: rs =>
      let! r := AddPortProxy request in
      match r with
      | Panicked e => Ret (Panicked e)
      | Done (Err e) => Ret (Done (Some e))
      | Done (Ok pid) =>
          let! _ := call (Cache_AddProxyPortPID id pid) in addPortProxies id rs
      end
  end.

Definition setupContainerPortProxy (info : ContainerInfo) : prog dind (outcome goerr) :=
  addPortProxies (ci_ID info) (requests info).

Fixpoint removePortProxies (pids : list Z) : prog dind goerr :=
  match pids with
  | [] => Ret None
  | pid :: pids =>
      let! err := RemovePortProxy pid in
      match err with
      | Some e => Ret (Some e)
      | None => removePortProxies pids
      end
  end.

Definition setdownContainerPortProxy (info : ContainerInfo) : prog dind goerr :=
  let! pids := call (Cache_GetProxyPortPIDs (ci_ID info)) in
  let! err := removePortProxies pids in
  match err with
  | Some e => Ret (Some e)
  | None => let! _ := call (Cache_DeleteProxyPortPIDs (ci_ID info)) in Ret None
  end.

(** A network from the channel: only its setup can end the process. *)
Definition handleNetwork (info : NetworkInfo) : prog dind (outcome unit) :=
  if bool_decide (ni_Action info = resourceActionCreate) then
    let! err := setupNetworkPortForward (Subnets info) in
    Ret (match err with
         | Some e => Panicked (EWrap "error in network port-forward setup" e)
         | None => Done tt
         end)
  else if bool_decide (ni_Action info = resourceActionDestroy) then
    let! _ := setdownNetworkPortForward (Subnets info) in Ret (Done tt)
  else Ret (Done tt).

Definition handleContainer (info : ContainerInfo) : prog dind (outcome unit) :=
  if bool_decide (ci_Action info = resourceActionStart) then
    let! r := setupContainerPortProxy info in
    Ret (match r with
         | Panicked e => Panicked e
         | Done (Some e) => Panicked (EWrap "error in port-forward setup" e)
         | Done None => Done tt
         end)
  else if bool_decide (ci_Action info = resourceActionStop) then
    let! err := setdownContainerPortProxy info in
    Ret (match err with
         | Some e => Panicked (EWrap "error in port-forward setdown" e)
         | None => Done tt
         end)
  else Ret (Done tt).

(** The loop of [main]. *)
Fixpoint mainLoop (fuel : nat) : prog dind (outcome loop_end) :=
  match fuel with
  | O => Ret (Done OutOfFuel)
  | S fuel =>
      let! selected := call Select in
      match selected with
      | CmdWait WaitOk => Ret (Done Stopped)
      | CmdWait (WaitStatus status) => let! _ := call (Exit status) in Ret (Done Exited)
      | CmdWait (WaitOther e) => Ret (Panicked (EWrap "dockerd stopped with unknown status" e))
      | Networks None | Containers None => Ret (Done Stopped)
      | Networks (Some info) =>
          let! r := handleNetwork info in
          match r with Panicked e => Ret (Panicked e) | Done _ => mainLoop fuel end
      | Containers (Some info) =>
          let! r := handleContainer info in
          match r with Panicked e => Ret (Panicked e) | Done _ => mainLoop fuel end
      end
  end.

(** ** main.go: starting *)

(** [if err := ...; err != nil { logger.Panic(err) }] *)
Definition must {A} (p : prog dind goerr) (k : prog dind (outcome A)) : prog dind (outcome A) :=
  let! err := p in match err with Some e => Ret (Panicked e) | None => k end.
Definition must_get {A B} (r : result A) (k : A -> prog dind (outcome B)) : prog dind (outcome B) :=
  match r with Err e => Ret (Panicked e) | Ok a => k a end.

Fixpoint chown_all (dirs : list string) (uid gid : Z) : prog dind goerr :=
  match dirs with
  | [] => Ret None
  | dir :: dirs =>
      let! err := call (Chown dir uid gid) in
      match err with Some e => Ret (Some e) | None => chown_all dirs uid gid end
  end.
Definition PatchRuntimeDirs (uid gid : Z) : prog dind goerr :=
  chown_all ["/var/lib/docker"; "/home/rootless/.local/share/docker"] uid gid.

Definition removeRootlessUserPrivileges : prog dind goerr :=
  call (Run "/usr/sbin/usermod" ["/usr/sbin/usermod"; "-r"; "-G"; "wheel"; "rootless"]).

(** The attempts left; the error is the last one's. *)
Fixpoint waitForDockerd (attempts : nat) (err : goerr) : prog dind goerr :=
  match attempts with
  | O => Ret err
  | S attempts =>
      let! err := call ServerVersion in
      match err with
      | None => Ret None
      | Some _ => let! _ := call (Sleep Second) in waitForDockerd attempts err
      end
  end.
Definition WaitForDockerd : prog dind goerr := waitForDockerd 15 None.

(** The goroutine of [listenForInterrupt]. *)
Definition interrupt : prog dind (outcome loop_end) :=
  must (call Accept) (must (call CloseConn) (must (call CloseListener)
    (let! _ := call (Exit 0) in Ret (Done Exited)))).

(** The environment and the arguments of the process. *)
Section process.
Variables (env : gmap string string) (Args : list string).

Definition dockerHost : string := TrimSpace (default "" (env !! "DOCKER_HOST")).

Definition NewDockerClient : prog dind goerr :=
  if bool_decide (dockerHost = "") then Ret (Some (ENew "empty DOCKER_HOST"))
  else call NewEnvClient.

Definition preserved : string :=
  "--preserve-env=DOCKER_HOST,DOCKER_TLS_CERTDIR,DOCKERD_ROOTLESS_ROOTLESSKIT_NET,DOCKERD_ROOTLESS_ROOTLESSKIT_MTU,DOCKERD_ENTRYPOINT_ARGS".

Definition dockerdArgs (path : string) : list string :=
  (["/usr/bin/sudo"; preserved; "-u"; "rootless"] ++ [path] ++ drop 1 Args ++
   match env !! "DOCKERD_ENTRYPOINT_ARGS" with
   | Some args => Split args " "%char
   | None => []
   end)%list.

Definition StartDockerd : prog dind (result Z) :=
  let! r := call (LookPath "dockerd-entrypoint.sh") in
  match r with
  | Err e => Ret (Err e)
  | Ok path => call (Start "/usr/bin/sudo" (dockerdArgs path))
  end.

(** What [main] does before its loop: a daemon that does not start or answer is
    only logged. *)
Definition startup : prog dind (outcome unit) :=
  must (call (Listen "tcp" ":2378"))
  (must NewDockerClient
  (let! rootlessUser := call (LookupUser "rootless") in
  must_get rootlessUser (fun rootlessUser =>
  must_get (Atoi rootlessUser.1) (fun rootlessUid =>
  must_get (Atoi rootlessUser.2) (fun rootlessGid =>
  must (PatchRuntimeDirs rootlessUid rootlessGid)
  (must removeRootlessUserPrivileges
  (let! _ := StartDockerd in
   let! _ := WaitForDockerd in
   must (call NewIPTables) (Ret (Done tt))))))))).

Definition main (fuel : nat) : prog dind (outcome loop_end) :=
  let! r := startup in
  match r with
  | Panicked e => Ret (Panicked e)
  | Done _ => mainLoop fuel
  end.
End process.

(** ** Addresses *)

Section addresses.

(** An IPv4 address, and the range of loopback addresses its subnet is given. *)
Record IPv4 : Type := mkIPv4 { oct1 : nat; oct2 : nat; oct3 : nat; oct4 : nat }.
Definition ip_ok (ip : IPv4) : Prop :=
  (oct1 ip < 256 /\ oct2 ip < 256 /\ oct3 ip < 256 /\ oct4 ip < 256)%nat.
Definition dotted (ip : IPv4) : string :=
  pretty (oct1 ip) ++ "." ++ pretty (oct2 ip) ++ "." ++ pretty (oct3 ip) ++ "." ++ pretty (oct4 ip).
Definition translate (octet : nat) (ip : IPv4) : IPv4 := mkIPv4 127 octet (oct3 ip) (oct4 ip).

(** One to three digits. *)
Fixpoint all_digits (s : string) : bool :=
  match s with EmptyString => true | String c s => is_digit c && all_digits s end.
Definition octet_text (s : string) : bool :=
  all_digits s && bool_decide (1 <= String.length s <= 3)%nat.

Lemma octet_text_pretty o : (o < 256)%nat -> octet_text (pretty o) = true.
Proof.
  intros Ho. assert (forallb (fun o : nat => octet_text (pretty o)) (seq 0 256) = true) as H
    by (by vm_compute).
  rewrite forallb_forall in H. apply H, in_seq. lia.
Qed.

Lemma skip_digits_text s rest : octet_text s = true ->
  exists k, skip_digits 3 (s ++ "." ++ rest) = (S k, String "."%char rest).
Proof.
  rewrite string_cons_app, string_nil_app. unfold octet_text. intros [Hd [H1 H3]%bool_decide_eq_true]%andb_true_iff.
  destruct s as [|c1 [|c2 [|c3 [|c4 s]]]]; cbn in H1, H3; try lia; cbn in Hd;
    rewrite ?string_cons_app, ?string_nil_app;
    repeat match goal with H : _ && _ = true |- _ => apply andb_true_iff in H as [? ?] end;
    cbn [skip_digits]; repeat match goal with H : is_digit _ = true |- _ => rewrite H; clear H end;
    by eexists.
Qed.

(** [C37] The textual replacement is the translation of addresses: on the dotted
    text of an address, alone or with a prefix length behind it, it gives the
    dotted text of the address with its first two octets exchanged for 127 and
    the octet of the subnet. *)
Theorem replacement_translates ip octet suffix :
  ip_ok ip ->
  ReplaceAllLiteralString (dotted ip ++ suffix) (hostProxyTwoOctets octet) =
  dotted (translate octet ip) ++ suffix.
Proof.
  intros (H1 & H2 & _). unfold ReplaceAllLiteralString, match_octets, dotted, translate.
  cbn [oct1 oct2 oct3 oct4]. rewrite !string_app_assoc.
  destruct (skip_digits_text (pretty (oct1 ip)) (pretty (oct2 ip) ++ "." ++ pretty (oct3 ip) ++ "." ++
    pretty (oct4 ip) ++ suffix)) as [k ->]; [by apply octet_text_pretty|].
  rewrite bool_decide_eq_true_2 by done.
  destruct (skip_digits_text (pretty (oct2 ip)) (pretty (oct3 ip) ++ "." ++ pretty (oct4 ip) ++ suffix))
    as [k' ->]; [by apply octet_text_pretty|].
  unfold hostProxyTwoOctets. by rewrite !string_app_assoc.
Qed.

Lemma replacement_translates_witness :
  ReplaceAllLiteralString "172.18.0.0/16" (hostProxyTwoOctets 3) = "127.3.0.0/16".
Proof.
  exact (replacement_translates (mkIPv4 172 18 0 0) 3 "/16" ltac:(unfold ip_ok; cbn; lia)).
Defined.
End addresses.

(** ** Octets *)

Section octets.

Lemma first_unset_spec i used :
  match first_unset i used with
  | Some j => (i <= j)%nat /\ used !! (j - i)%nat = Some false /\
              forall k, (i <= k < j)%nat -> used !! (k - i)%nat = Some true
  | None => forall k, (k < length used)%nat -> used !! k = Some true
  end.
Proof.
  revert i. induction used as [|b used IH]; intros i; cbn; [intros k; cbn; lia|].
  destruct b.
  - specialize (IH (S i)). destruct (first_unset (S i) used) as [j|].
    + destruct IH as (Hij & Hj & Hk). split; [lia|].
      replace (j - i)%nat with (S (j - S i)) by lia. split; [done|].
      intros k Hik. destruct (decide (k = i)) as [->|].
      * by replace (i - i)%nat with 0%nat by lia.
      * replace (k - i)%nat with (S (k - S i)) by lia. apply Hk. lia.
    + intros [|k] Hk; [done|]. cbn. apply IH. cbn in Hk. lia.
  - replace (i - i)%nat with 0%nat by lia. split_and!; [lia|done|]. intros k. lia.
Qed.

(** The smallest free octet from 1 is taken, and it panics only without one. *)
Lemma mark_spec used :
  match markAndGetFirstAvailableHostSecondOctet used with
  | Done (i, used') =>
      (1 <= i)%nat /\ used !! i = Some false /\ used' = <[i := true]> used /\
      forall k, (1 <= k < i)%nat -> used !! k = Some true
  | Panicked _ => forall k, (1 <= k < length used)%nat -> used !! k = Some true
  end.
Proof.
  unfold markAndGetFirstAvailableHostSecondOctet.
  pose proof (first_unset_spec 1 (drop 1 used)) as H. destruct (first_unset 1 (drop 1 used)) as [i|].
  - destruct H as (Hi & Hf & Hk). rewrite lookup_drop in Hf. replace (1 + (i - 1))%nat with i in Hf by lia.
    split_and!; [done..|]. intros k Hik. specialize (Hk k Hik). rewrite lookup_drop in Hk.
    by replace (1 + (k - 1))%nat with k in Hk by lia.
  - intros k [Hk1 Hk2]. specialize (H (k - 1)%nat). rewrite length_drop, lookup_drop in H.
    replace (1 + (k - 1))%nat with k in H by lia. apply H. lia.
Qed.

(** The octets of a list of subnets. *)
Definition octets (subnets : list Subnet) : list nat := SecondOctet <$> subnets.

Lemma allocate_spec used dockerSubnets subnets used' :
  allocate used dockerSubnets = Done (subnets, used') ->
  DockerSubnet <$> subnets = dockerSubnets /\ NoDup (octets subnets) /\
  length used' = length used /\
  (forall o, o ∈ octets subnets -> (1 <= o)%nat /\ used !! o = Some false /\ used' !! o = Some true) /\
  (forall o, o ∉ octets subnets -> used' !! o = used !! o).
Proof.
  revert used subnets used'. induction dockerSubnets as [|d ds IH]; intros used subnets used'; cbn.
  { intros [= <- <-]. split_and!; [done|constructor|done|set_solver|done]. }
  pose proof (mark_spec used) as Hm.
  destruct (markAndGetFirstAvailableHostSecondOctet used) as [[i used1]|e]; [|done].
  destruct Hm as (Hi & Hfree & -> & _).
  destruct (allocate (<[i:=true]> used) ds) as [[rest used2]|e] eqn:Hrest; [|done].
  intros [= <- <-]. apply IH in Hrest as (Hds & Hnd & Hlen & Hin & Hout).
  rewrite length_insert in Hlen. assert (i < length used)%nat by (by eapply lookup_lt_Some).
  assert (i ∉ octets rest) as Hfresh.
  { intros Hi2. apply Hin in Hi2 as (_ & Hi2 & _). by rewrite list_lookup_insert_eq in Hi2. }
  cbn. split_and!; [by f_equal|by constructor|done| |].
  - intros o [->|Ho]%elem_of_cons.
    + split_and!; [done..|]. rewrite Hout by done. by apply list_lookup_insert_eq.
    + destruct (Hin o Ho) as (H1 & H2 & H3). split_and!; [done| |done].
      by rewrite list_lookup_insert_ne in H2 by (intros ->; done).
  - intros o [Hne Ho]%not_elem_of_cons. rewrite Hout by done. by apply list_lookup_insert_ne.
Qed.

Lemma release_spec used subnets :
  length (release used subnets) = length used /\
  (forall o, o ∉ octets subnets -> release used subnets !! o = used !! o).
Proof.
  unfold release. revert used. induction subnets as [|s subnets IH]; intros used; cbn; [done|].
  destruct (IH (<[SecondOctet s:=false]> used)) as [H1 H2]. rewrite length_insert in H1.
  split; [done|]. intros o [Hne Ho]%not_elem_of_cons. rewrite H2 by done.
  by apply list_lookup_insert_ne.
Qed.

(** Every subnet of a known network has an octet to itself, between 1 and 255,
    and no octet that is free. *)
Record separated (networks : gmap string NetworkInfo) (used : list bool) : Prop := mkSeparated {
  sep_length : length used = 256%nat;
  sep_id : forall id info, networks !! id = Some info -> ni_ID info = id;
  sep_own : forall id info, networks !! id = Some info ->
    NoDup (octets (Subnets info)) /\
    forall o, o ∈ octets (Subnets info) -> (1 <= o <= 255)%nat /\ used !! o = Some true;
  sep_other : forall id1 id2 info1 info2 o,
    networks !! id1 = Some info1 -> networks !! id2 = Some info2 ->
    o ∈ octets (Subnets info1) -> o ∈ octets (Subnets info2) -> id1 = id2;
}.

Lemma separated_create networks used id dockerSubnets subnets used' :
  separated networks used -> allocate used dockerSubnets = Done (subnets, used') ->
  separated (<[id := mkNetworkInfo id resourceActionCreate subnets]> networks) used'.
Proof.
  intros [Hlen Hid Hown Hother] (_ & Hnd & Hlen' & Hin & Hout)%allocate_spec.
  assert (forall id1 info1 o, networks !! id1 = Some info1 -> o ∈ octets (Subnets info1) ->
    o ∉ octets subnets) as Hdisj.
  { intros id1 info1 o H1 H2 Ho. apply Hin in Ho as (_ & H & _).
    destruct (Hown _ _ H1) as [_ H3]. destruct (H3 _ H2). congruence. }
  split.
  - congruence.
  - intros id1 info1 [[-> <-]|[_ H]]%lookup_insert_Some; [done|by apply Hid].
  - intros id1 info1 [[-> <-]|[_ H]]%lookup_insert_Some.
    + split; [done|]. cbn. intros o Ho. destruct (Hin o Ho) as (H1 & _ & H2).
      split; [|done]. apply lookup_lt_Some in H2. lia.
    + destruct (Hown _ _ H) as [Hnd1 H1]. split; [done|]. intros o Ho.
      destruct (H1 o Ho) as [H2 H3]. split; [done|]. rewrite Hout; [done|]. by eapply Hdisj.
  - intros id1 id2 info1 info2 o [[-> <-]|[_ H1]]%lookup_insert_Some
      [[-> <-]|[_ H2]]%lookup_insert_Some Ho1 Ho2; [done| | |by eapply Hother].
    + by destruct (Hdisj _ _ _ H2 Ho2).
    + by destruct (Hdisj _ _ _ H1 Ho1).
Qed.

Lemma separated_destroy networks used id info :
  separated networks used -> networks !! id = Some info ->
  separated (delete id networks) (release used (Subnets info)).
Proof.
  intros [Hlen Hid Hown Hother] Hinfo. destruct (release_spec used (Subnets info)) as [H1 H2].
  split.
  - congruence.
  - intros id1 info1 [_ H]%lookup_delete_Some. by apply Hid.
  - intros id1 info1 [Hne H]%lookup_delete_Some. destruct (Hown _ _ H) as [Hnd Ho].
    split; [done|]. intros o Hin. destruct (Ho o Hin) as [H3 H4]. split; [done|].
    rewrite H2; [done|]. intros Hin'. by destruct Hne; eapply Hother.
  - intros id1 id2 info1 info2 o [_ Ha]%lookup_delete_Some [_ Hb]%lookup_delete_Some.
    by eapply Hother.
Qed.
End octets.

(** ** The event loop over the cache *)

Section event_loop.

Lemma always_interp_bind {E F : signature} {S A B} (h : forall o : sop E, S -> prog F (sans E o * S))
    (p : prog E A) (f : A -> prog E B) s Q :
  always (interp h (bind p f) s) Q <->
  always (interp h p s) (fun tr r => always (interp h (f r.1) r.2) (fun tr' b => Q (tr ++ tr')%list b)).
Proof.
  revert s Q. induction p as [a|o k IH]; intros s Q; cbn; [by split|].
  rewrite !always_bind. split; intros H; (eapply always_mono; [exact H|]); cbn;
    intros tr [r s1] H'; cbn in *.
  - apply IH in H'. eapply always_mono; [exact H'|]. cbn. intros tr1 [a s2] H1.
    eapply always_mono; [exact H1|]. cbn. intros tr2 b. by rewrite app_assoc.
  - apply IH. eapply always_mono; [exact H'|]. cbn. intros tr1 [a s2] H1.
    eapply always_mono; [exact H1|]. cbn. intros tr2 b. by rewrite app_assoc.
Qed.

(** What the event loop tells the main loop. *)
Definition sent_networks (tr : trace dind) : list NetworkInfo :=
  omap (fun o => match o with SendNetwork info => Some info | _ => None end) (ops tr).
Definition sent_containers (tr : trace dind) : list ContainerInfo :=
  omap (fun o => match o with SendContainer info => Some info | _ => None end) (ops tr).

(** The registry a sequence of announcements describes: whatever ends is there,
    and is described as it was when it began. *)
Definition announces_network (live : gmap string NetworkInfo) (info : NetworkInfo)
    (live' : gmap string NetworkInfo) : Prop :=
  (ni_Action info = resourceActionCreate /\ live' = <[ni_ID info := info]> live) \/
  (exists begun, live !! ni_ID info = Some begun /\
     info = mkNetworkInfo (ni_ID info) resourceActionDestroy (Subnets begun) /\
     live' = delete (ni_ID info) live).
Definition announces_container (live : gmap string ContainerInfo) (info : ContainerInfo)
    (live' : gmap string ContainerInfo) : Prop :=
  (ci_Action info = resourceActionStart /\ live' = <[ci_ID info := info]> live) \/
  (exists begun, live !! ci_ID info = Some begun /\
     info = mkContainerInfo (ci_ID info) resourceActionStop (Pid begun) (Ports begun) (IPs begun) /\
     live' = delete (ci_ID info) live).

Fixpoint registry {I} (announces : gmap string I -> I -> gmap string I -> Prop)
    (live : gmap string I) (sends : list I) (live' : gmap string I) : Prop :=
  match sends with
  | [] => live' = live
  | info :: sends => exists live1, announces live info live1 /\ registry announces live1 sends live'
  end.

Lemma registry_app {I} announces (live live' : gmap string I) s1 s2 :
  registry announces live (s1 ++ s2) live' <->
  exists live1, registry announces live s1 live1 /\ registry announces live1 s2 live'.
Proof.
  revert live. induction s1 as [|i s1 IH]; intros live; cbn; [naive_solver|].
  setoid_rewrite IH. naive_solver.
Qed.

(** What is true of the cache and the flags at any time. *)
Record coherent (c : Cache) (used : list bool) : Prop := mkCoherent {
  coh_separated : separated (networkInfoByID c) used;
  coh_id : forall id info, containerInfoByID c !! id = Some info -> ci_ID info = id;
}.

(** A part of the loop: it keeps the coherence and what it announces is what it
    does to the cache. *)
Definition follows (c : Cache) (tr : trace dind) (c' : Cache) : Prop :=
  registry announces_network (networkInfoByID c) (sent_networks tr) (networkInfoByID c') /\
  registry announces_container (containerInfoByID c) (sent_containers tr) (containerInfoByID c').

Lemma follows_app c tr1 c1 tr2 c2 :
  follows c tr1 c1 -> follows c1 tr2 c2 -> follows c (tr1 ++ tr2)%list c2.
Proof.
  intros [H1 H2] [H3 H4]. unfold follows, sent_networks, sent_containers in *.
  rewrite ops_app, !omap_app, !registry_app. split; eexists; eauto.
Qed.

Lemma networkCreated_spec used id c : coherent c used ->
  always (interp cached (networkCreated used id) c) (fun tr r =>
    follows c tr r.2 /\ match r.1 with Done used' => coherent r.2 used' | Panicked _ => r.2 = c end).
Proof.
  intros [Hsep Hid]. unfold networkCreated, getNetworkSubnets. cbn. intros r.
  set (config := match r with Ok config => Ok (filter _ config) | Err e => Err e end).
  destruct (allocate used (value_or [] config)) as [[subnets used']|e] eqn:Ha; cbn; [|done].
  intros []. cbn. split; [split|].
  - cbn. eexists. split; [|done]. by left.
  - done.
  - split; [|done]. by eapply separated_create.
Qed.

Lemma networkDestroyed_spec used id c : coherent c used ->
  always (interp cached (networkDestroyed used id) c) (fun tr r =>
    follows c tr r.2 /\ coherent r.2 r.1).
Proof.
  intros [Hsep Hid]. unfold networkDestroyed. cbn. unfold GetNetworkInfo.
  destruct (networkInfoByID c !! id) as [info|] eqn:Hinfo; cbn; [|done].
  pose proof (sep_id _ _ Hsep _ _ Hinfo) as <-.
  intros []. cbn. split; [split|].
  - cbn. eexists. split; [|done]. right. by exists info.
  - done.
  - split; [|done]. by apply separated_destroy.
Qed.

(** Looking up the networks of a container changes nothing. *)
Lemma proxyIPs_spec networks c :
  always (interp cached (proxyIPs networks) c) (fun tr r => tr = [] /\ r.2 = c).
Proof.
  induction networks as [|[id ip] networks IH]; cbn; [done|].
  rewrite always_interp_bind. eapply always_mono; [exact IH|]. by intros tr r [-> ->].
Qed.

Lemma containerStarted_spec used id c : coherent c used ->
  always (interp cached (containerStarted id) c) (fun tr r => follows c tr r.2 /\ coherent r.2 used).
Proof.
  intros [Hsep Hid]. unfold containerStarted, getContainerInspectInfo. cbn. intros [info|e]; cbn; [|done].
  rewrite always_interp_bind. eapply always_mono; [apply proxyIPs_spec|].
  intros tr [ips c'] [-> Hc]. cbn in *. subst c'. intros []. cbn. split; [split|].
  - done.
  - cbn. eexists. split; [|done]. by left.
  - split; [done|]. cbn. intros id1 info1 [[-> <-]|[_ H]]%lookup_insert_Some; [done|by apply Hid].
Qed.

Lemma containerStopped_spec used id c : coherent c used ->
  always (interp cached (containerStopped id) c) (fun tr r => follows c tr r.2 /\ coherent r.2 used).
Proof.
  intros [Hsep Hid]. unfold containerStopped. cbn.
  assert (coherent (DeleteContainerInfo c id).2 used) as Hcoh.
  { split; [done|]. cbn. intros id1 info1 [_ H]%lookup_delete_Some. by apply Hid. }
  destruct (containerInfoByID c !! id) as [info|] eqn:Hinfo; cbn.
  - pose proof (Hid _ _ Hinfo) as <-. intros []. cbn. split; [split|done].
    + done.
    + cbn. eexists. split; [|done]. right. by exists info.
  - split; [split|done]; [done|]. cbn. by rewrite delete_id.
Qed.

Lemma handleEvent_spec used type action id c : coherent c used ->
  always (interp cached (handleEvent used type action id) c) (fun tr r =>
    follows c tr r.2 /\ match r.1 with Done used' => coherent r.2 used' | Panicked _ => r.2 = c end).
Proof.
  intros Hc. unfold handleEvent.
  destruct (resourceKindByString type); [|done]. destruct (resourceActionByString action); [|done].
  repeat case_bool_decide; try done; [by apply networkCreated_spec|..].
  all: rewrite always_interp_bind; eapply always_mono;
    [eauto using networkDestroyed_spec, containerStarted_spec, containerStopped_spec|].
  all: intros tr r Hr; cbn; by rewrite app_nil_r.
Qed.

Lemma eventLoop_spec fuel used c : coherent c used ->
  always (interp cached (eventLoop fuel used) c) (fun tr r =>
    follows c tr r.2 /\ coherent r.2 r.1.2).
Proof.
  revert used c. induction fuel as [|fuel IH]; intros used c Hc; cbn [eventLoop]; [done|].
  cbn [bind call interp cached always]. intros [err|type action id]; cbn [fst snd].
  - destruct (bool_decide _ || _); cbn; intros []; [done|]. cbn.
    eapply always_mono; [by apply IH|]. intros tr r Hr. exact Hr.
  - rewrite always_interp_bind. eapply always_mono; [by apply handleEvent_spec|].
    intros tr [[used'|e] c'] [Hf Hr]; cbn [fst snd] in *.
    + eapply always_mono; [by apply IH|]. intros tr' r [Hf' Hr']. split; [|done].
      by apply (follows_app c tr c' tr').
    + cbn. subst c'. rewrite app_nil_r. done.
Qed.

Lemma coherent_new : coherent NewCache usedHostSecondOctet.
Proof.
  split; [split|]; cbn.
  - done.
  - intros id info H. by rewrite lookup_empty in H.
  - intros id info H. by rewrite lookup_empty in H.
  - intros id1 id2 info1 info2 o H. by rewrite lookup_empty in H.
  - intros id info H. by rewrite lookup_empty in H.
Qed.

Lemma GetResourcesInfoFromEvents_spec fuel :
  always (interp cached (GetResourcesInfoFromEvents fuel) NewCache) (fun tr r =>
    follows NewCache tr r.2 /\ coherent r.2 r.1.2).
Proof.
  cbn. intros []. eapply always_mono; [apply eventLoop_spec, coherent_new|].
  intros tr r Hr. exact Hr.
Qed.

(** The ranges of loopback addresses of the networks never overlap: at any
    time, whatever events the daemon has sent and however often the stream was
    interrupted, each subnet of each known network has an octet between 1 and 255
    that no other subnet of any network has, and that is marked as used. *)
Theorem octets_separated fuel tr r c :
  runs (interp cached (GetResourcesInfoFromEvents fuel) NewCache) tr (r, c) ->
  separated (networkInfoByID c) r.2.
Proof. intros H. exact (coh_separated _ _ (proj2 (runs_always _ _ _ _ (GetResourcesInfoFromEvents_spec fuel) H))). Qed.

(** [C7] The event loop refines a registry.  Whatever messages the daemon sends,
    in whatever order, repeated or for unknown actors, what the main loop is told
    describes a registry of networks and one of containers: an end is only
    announced of what has begun and not ended, once, with the subnets, or the
    pid, ports and addresses, its beginning was announced with; and the cache
    holds exactly what has been announced and not ended. *)
Theorem event_loop_refines fuel tr r c :
  runs (interp cached (GetResourcesInfoFromEvents fuel) NewCache) tr (r, c) ->
  registry announces_network ∅ (sent_networks tr) (networkInfoByID c) /\
  registry announces_container ∅ (sent_containers tr) (containerInfoByID c).
Proof. intros H. exact (proj1 (runs_always _ _ _ _ (GetResourcesInfoFromEvents_spec fuel) H)). Qed.
End event_loop.

(** ** Forwarding *)

Section forwarding.

(** The rules of the chain, as the successful calls change them. *)
Definition rules := list (list string).
Fixpoint remove_first (r : list string) (rs : rules) : rules :=
  match rs with
  | [] => []
  | r' :: rs => if bool_decide (r' = r) then rs else r' :: remove_first r rs
  end.
Definition change_rules (rs : rules) (ev : event dind) : rules :=
  match ev_op ev as o return dind_ans o -> rules with
  | AppendUnique _ _ r => fun err =>
      match err with
      | None => if bool_decide (r ∈ rs) then rs else (rs ++ [r])%list
      | Some _ => rs
      end
  | DeleteRule _ _ r => fun err => match err with None => remove_first r rs | Some _ => rs end
  | _ => fun _ => rs
  end (ev_ans ev).
Definition rules_after : rules -> trace dind -> rules := foldl change_rules.

Lemma remove_first_app r rs rs' : r ∉ rs -> remove_first r (rs ++ r :: rs')%list = (rs ++ rs')%list.
Proof.
  induction rs as [|r' rs IH]; cbn.
  - intros _. by rewrite bool_decide_eq_true_2.
  - intros [Hne Hr]%not_elem_of_cons. rewrite bool_decide_eq_false_2 by done. by rewrite IH.
Qed.

Lemma setup_rules subnets : forall tr,
  runs (setupNetworkPortForward subnets) tr None ->
  forall rs, NoDup (rulespec <$> subnets) -> (forall r, r ∈ rulespec <$> subnets -> r ∉ rs) ->
  rules_after rs tr = (rs ++ (rulespec <$> subnets))%list.
Proof.
  induction subnets as [|s subnets IH]; cbn; intros tr Hrun rs Hnd Hin.
  - destruct Hrun as [-> _]. by rewrite app_nil_r.
  - destruct Hrun as ([e|] & tr' & -> & Hrun); cbn in Hrun; [by destruct Hrun|].
    apply NoDup_cons in Hnd as [Hs Hnd]. cbn.
    rewrite bool_decide_eq_false_2 by (apply Hin; left).
    rewrite (IH tr' Hrun), <- app_assoc; [done|done|].
    intros r Hr. rewrite not_elem_of_app, not_elem_of_cons. split_and!.
    + apply Hin. by right.
    + by intros ->.
    + apply not_elem_of_nil.
Qed.

Lemma setdown_rules subnets : forall tr,
  runs (setdownNetworkPortForward subnets) tr None ->
  forall rs, (forall r, r ∈ rulespec <$> subnets -> r ∉ rs) ->
  rules_after (rs ++ (rulespec <$> subnets))%list tr = rs.
Proof.
  induction subnets as [|s subnets IH]; cbn; intros tr Hrun rs Hin.
  - destruct Hrun as [-> _]. apply app_nil_r.
  - destruct Hrun as ([e|] & tr' & -> & Hrun); cbn in Hrun; [by destruct Hrun|].
    cbn. rewrite remove_first_app by (apply Hin; left). apply IH; [done|].
    intros r Hr. apply Hin. by right.
Qed.

(** The error of a call of iptables. *)
Definition rule_error (ev : event dind) : goerr :=
  match ev_op ev as o return dind_ans o -> goerr with
  | AppendUnique _ _ _ | DeleteRule _ _ _ => fun err => err
  | _ => fun _ => None
  end (ev_ans ev).

Lemma setdown_error subnets : always (setdownNetworkPortForward subnets) (fun tr err =>
  omap rule_error tr = match err with Some e => [e] | None => [] end).
Proof.
  induction subnets as [|s subnets IH]; cbn; [done|]. intros [e|]; cbn; [done|].
  eapply always_mono; [exact IH|]. by intros tr err ->.
Qed.

(** Forwarding a network and giving it up are inverse: when its rules are
    distinct and new, its creation, if it does not end the process, leaves the
    chain with its rules behind the others, one per subnet, and its destruction,
    if iptables deletes what it is asked to, leaves the chain as it was. *)
Theorem network_undone rs id subnets tr1 tr2 :
  NoDup (rulespec <$> subnets) -> (forall r, r ∈ rulespec <$> subnets -> r ∉ rs) ->
  runs (handleNetwork (mkNetworkInfo id resourceActionCreate subnets)) tr1 (Done tt) ->
  runs (handleNetwork (mkNetworkInfo id resourceActionDestroy subnets)) tr2 (Done tt) ->
  omap rule_error tr2 = [] ->
  rules_after rs tr1 = (rs ++ (rulespec <$> subnets))%list /\
  rules_after (rules_after rs tr1) tr2 = rs.
Proof.
  intros Hnd Hin (t1 & e1 & t2 & -> & H1 & [-> He1])%runs_bind
    (t3 & e2 & t4 & -> & H2 & [-> _])%runs_bind Herr.
  destruct e1 as [e|]; [done|]. rewrite !app_nil_r in *.
  pose proof (runs_always _ _ _ _ (setdown_error subnets) H2) as He2. cbv beta in He2.
  rewrite Herr in He2.
  destruct e2 as [e|]; [done|]. rewrite (setup_rules _ _ H1) by done. split; [done|].
  by apply setdown_rules.
Qed.

(** ** Port proxies *)

(** A start of a proxy and the pid it got. *)
Definition proxy_start (args : list string) (pid : Z) : event dind := Start "socat" args ↝ Ok pid.

(** The starts for a list of requests, each with its command. *)
Inductive started : list AddPortProxyRequest -> list Z -> trace dind -> Prop :=
| started_nil : started [] [] []
| started_cons request args pid rs pids tr :
    createSocatCommand request = Done args -> started rs pids tr ->
    started (request :: rs) (pid :: pids) (proxy_start args pid :: tr).

Lemma addPortProxies_spec id rs c :
  always (interp cached (addPortProxies id rs) c) (fun tr r => r.1 = Done None ->
    exists pids, started rs pids tr /\
      GetProxyPortPIDs r.2 id = (GetProxyPortPIDs c id ++ pids)%list).
Proof.
  revert c. induction rs as [|request rs IH]; intros c; cbn [addPortProxies].
  - cbn. intros _. exists []. rewrite app_nil_r. split; [constructor|done].
  - unfold AddPortProxy. destruct (createSocatCommand request) as [args|e] eqn:Hc; cbn; [|done].
    intros [pid|e]; cbn; [|done]. eapply always_mono; [apply IH|].
    intros tr [out c'] H Hout. destruct (H Hout) as (pids & Hs & Hp). exists (pid :: pids).
    split; [by constructor|]. cbn in Hp |- *. rewrite Hp. unfold GetProxyPortPIDs at 1. cbn.
    rewrite lookup_insert_eq. cbn. by rewrite <- app_assoc.
Qed.

Lemma removePortProxies_spec pids c :
  always (interp cached (removePortProxies pids) c) (fun tr r => r.2 = c /\
    (r.1 = None -> tr = (fun pid => (Kill pid : sop dind) ↝ None) <$> pids)).
Proof.
  induction pids as [|pid pids IH]; cbn; [done|]. intros [e|]; cbn; [done|].
  eapply always_mono; [exact IH|]. intros tr [err c'] [Hc H]. cbn in *. split; [done|].
  intros He. by rewrite H.
Qed.

(** A container that starts and stops, from when it is in the cache. *)
Definition container_life (id : string) (pid : Z) (ports : list Port) (ips : list string)
    : prog dind (outcome unit) :=
  let! r := handleContainer (mkContainerInfo id resourceActionStart pid ports ips) in
  match r with
  | Panicked e => Ret (Panicked e)
  | Done _ => handleContainer (mkContainerInfo id resourceActionStop pid ports ips)
  end.

(** The proxies of a container: if its start and its stop do not end the
    process, the start has run one socat for every port on every address, and the
    stop has killed exactly the processes that were started, in their order, and
    forgotten them. *)
Theorem proxies_killed id pid ports ips c tr c' :
  GetProxyPortPIDs c id = [] ->
  runs (interp cached (container_life id pid ports ips) c) tr (Done tt, c') ->
  exists pids starts,
    started (requests (mkContainerInfo id resourceActionStart pid ports ips)) pids starts /\
    tr = (starts ++ ((fun pid => (Kill pid : sop dind) ↝ None) <$> pids))%list /\
    GetProxyPortPIDs c' id = [].
Proof.
  intros Hc Hrun.
  assert (always (interp cached (container_life id pid ports ips) c) (fun tr r => r.1 = Done tt ->
    exists pids starts,
      started (requests (mkContainerInfo id resourceActionStart pid ports ips)) pids starts /\
      tr = (starts ++ ((fun pid => (Kill pid : sop dind) ↝ None) <$> pids))%list /\
      GetProxyPortPIDs r.2 id = [])) as H; [|exact (runs_always _ _ _ _ H Hrun eq_refl)].
  clear Hrun. unfold container_life. rewrite always_interp_bind.
  unfold handleContainer at 1. rewrite bool_decide_eq_true_2 by done.
  unfold setupContainerPortProxy. rewrite always_interp_bind.
  eapply always_mono; [apply addPortProxies_spec|]. intros t1 [[[e|]|e] c1] H1; [done| |done].
  destruct (H1 eq_refl) as (pids & Hs & Hp). cbn [ci_ID fst snd] in Hp. rewrite Hc in Hp.
  cbn -[handleContainer].
  unfold handleContainer. rewrite bool_decide_eq_false_2 by done.
  rewrite bool_decide_eq_true_2 by done. cbn. rewrite Hp. rewrite !always_interp_bind.
  eapply always_mono; [apply removePortProxies_spec|]. intros t2 [[e|] c2] [Hc2 H2]; cbn in *; [done|].
  subst c2. intros _. exists pids, t1. rewrite !app_nil_r. split_and!; [done|by rewrite H2|].
  unfold GetProxyPortPIDs. cbn. by rewrite lookup_insert_eq.
Qed.

(** A port of a protocol that is neither tcp nor udp ends the sidecar: no run
    of the start of a container that exposes such a port on any address ends
    without a panic. *)
Theorem other_protocols_panic info request tr out :
  ci_Action info = resourceActionStart ->
  request ∈ requests info -> Proto request <> "tcp" -> Proto request <> "udp" ->
  runs (handleContainer info) tr out -> exists e, out = Panicked e.
Proof.
  intros Ha Hin Htcp Hudp. unfold handleContainer. rewrite bool_decide_eq_true_2 by done.
  unfold setupContainerPortProxy. intros (t1 & r & t2 & -> & H & [_ ->])%runs_bind.
  assert (always (addPortProxies (ci_ID info) (requests info)) (fun _ r => r <> Done None)) as Hno.
  { clear -Hin Htcp Hudp. induction Hin as [request rs|request r rs Hin IH]; cbn [addPortProxies].
    - unfold AddPortProxy, createSocatCommand.
      rewrite !bool_decide_eq_false_2 by done. by cbn.
    - unfold AddPortProxy. destruct (createSocatCommand r); cbn; [|done].
      intros [pid|e]; cbn; [|done]. intros _. by apply IH. }
  pose proof (runs_always _ _ _ _ Hno H) as Hr. cbv beta in Hr.
  destruct r as [[e|]|e]; [by eexists|done|by eexists].
Qed.

(** The stop of a container whose information is added again, because it has been
    started again, between the announcement of the stop and its handling, kills
    nothing: adding the information resets the pids. *)
Lemma restart_loses_proxies c id pid ports ips info tr out :
  ci_ID info = id ->
  runs (interp cached (handleContainer (mkContainerInfo id resourceActionStop pid ports ips))
          (AddContainerInfo c info)) tr out ->
  tr = [].
Proof.
  intros <-. unfold handleContainer. rewrite bool_decide_eq_false_2 by done.
  rewrite bool_decide_eq_true_2 by done. cbn. unfold GetProxyPortPIDs. cbn.
  rewrite lookup_insert_eq. cbn. by intros [-> _].
Qed.
End forwarding.

(** ** Starting *)

Section starting.

(** [C40] Waiting for the daemon ends: it asks at most fifteen times, a second
    apart, and no longer than until the first answer; it fails exactly when no
    answer came, with the last error. *)
Theorem WaitForDockerd_ends tr err :
  runs WaitForDockerd tr err ->
  exists failed,
    tr = (flat_map (fun e => [ServerVersion ↝ Some e; Sleep Second ↝ tt]) failed ++
          match err with None => [ServerVersion ↝ None] | Some _ => [] end)%list /\
    match err with
    | None => (length failed < 15)%nat
    | Some e => length failed = 15%nat /\ last failed = Some e
    end.
Proof.
  assert (forall n err0 tr err, runs (waitForDockerd n err0) tr err ->
    exists failed,
      tr = (flat_map (fun e => [ServerVersion ↝ Some e; Sleep Second ↝ tt]) failed ++
            match err with None => if n is O then [] else [ServerVersion ↝ None] | Some _ => [] end)%list /\
      (if n is O then failed = [] /\ err = err0 else
       match err with
       | None => (length failed < n)%nat
       | Some e => length failed = n /\ last failed = Some e
       end)) as H.
  { intros n. induction n as [|n IH]; intros err0 tr0 err1 Hrun; cbn in Hrun.
    - destruct Hrun as [-> ->]. exists []. by destruct err0.
    - destruct Hrun as ([e|] & tr1 & -> & Hrun); cbn in Hrun.
      + destruct Hrun as ([] & tr2 & -> & Hrun). apply IH in Hrun as (failed & -> & Hf).
        exists (e :: failed). destruct n as [|n].
        * destruct Hf as [-> ->]. done.
        * cbn. destruct err1 as [e1|]; (split; [done|]).
          -- destruct Hf as [Hf Hl]. split; [by f_equal|]. by destruct failed.
          -- lia.
      + destruct Hrun as [-> ->]. exists []. cbn. split; [done|lia]. }
  intros Hrun. exact (H 15%nat None tr err Hrun).
Qed.

(** Operations that start no process. *)
Definition starts_nothing (tr : trace dind) : Prop :=
  Forall (fun o => match o with Start _ _ => False | _ => True end) (ops tr).

Lemma WaitForDockerd_starts_nothing : always WaitForDockerd (fun tr _ => starts_nothing tr).
Proof.
  unfold WaitForDockerd. generalize (None : goerr). generalize 15%nat.
  intros n. induction n as [|n IH]; intros err; cbn; [constructor|].
  intros [e|]; cbn; [|by repeat constructor]. intros []. eapply always_mono; [apply IH|].
  intros tr r H. by repeat constructor.
Qed.

Lemma not_started tr path args : starts_nothing tr -> Start path args ∉ ops tr.
Proof. unfold starts_nothing. rewrite Forall_forall. intros H Hin. exact (H _ Hin). Qed.

Lemma always_must {A} (p : prog dind goerr) (k : prog dind (outcome A)) Q :
  always (must p k) Q <->
  always p (fun tr e => match e with
    | Some e => Q tr (Panicked e)
    | None => always k (fun tr' r => Q (tr ++ tr')%list r)
    end).
Proof.
  unfold must. rewrite always_bind. split; intros H; (eapply always_mono; [exact H|]);
    intros tr [e|]; cbn; by rewrite ?app_nil_r.
Qed.

(** The daemon is started without privileges: if the startup gets as far as
    starting a process, the process is the daemon's entry point as the user
    rootless, the directories of the daemon have been given to that user, and the
    user has been taken out of the group that may become root. *)
Theorem dockerd_unprivileged env Args tr out path args :
  runs (startup env Args) tr out -> Start path args ∈ ops tr ->
  exists entrypoint uid gid,
    path = "/usr/bin/sudo" /\ args = dockerdArgs env Args entrypoint /\
    take 4 args = ["/usr/bin/sudo"; preserved; "-u"; "rootless"] /\
    answered tr (Run "/usr/sbin/usermod" ["/usr/sbin/usermod"; "-r"; "-G"; "wheel"; "rootless"]) None /\
    answered tr (Chown "/var/lib/docker" uid gid) None /\
    answered tr (Chown "/home/rootless/.local/share/docker" uid gid) None.
Proof.
  intros Hrun. walking Hrun. unfold startup. #[local] Opaque WaitForDockerd.
  apply always_must. cbn. intros [e|]; [set_solver|].
  unfold NewDockerClient. apply always_must. case_bool_decide; cbn; [set_solver|].
  intros [e|]; [set_solver|]. intros [[uid gid]|e]; cbn; [|set_solver].
  destruct (Atoi uid) as [u|e]; cbn; [|set_solver]. destruct (Atoi gid) as [g|e]; cbn; [|set_solver].
  intros [e|]; cbn; [set_solver|]. intros [e|]; cbn; [set_solver|].
  intros [e|]; cbn; [set_solver|]. intros [entrypoint|e]; cbn.
  1: intros r; cbn.
  all: apply always_bind; (eapply always_mono; [apply WaitForDockerd_starts_nothing|]);
    intros tr err Htr%(not_started _ path args); cbn; intros r'.
  all: destruct r' as [e'|]; cbn; rewrite fmap_app; intros Hin.
  all: repeat (apply elem_of_cons in Hin as [Hin|Hin]; [first [discriminate Hin | injection Hin as -> ->]|]).
  all: try (apply elem_of_app in Hin as [Hin|Hin]; [by destruct Htr|]; exfalso; set_solver).
  all: exists entrypoint, u, g; split_and!; [done|done|done|..]; solve [find_event].
Qed.
End starting.

(** ** Examples *)

Module DindExamples.

(** A daemon with a queue of events, whose networks have one subnet and whose
    container one port; processes start with the pid 100, but socat does not. *)
Definition serve_dind (o : sop dind) (s : list docker_event) : sans dind o * list docker_event :=
  match o return dind_ans o * list docker_event with
  | NextEvent =>
      match s with
      | [] => (EventError (Some (ESentinel ErrEOF)), s)
      | e :: s => (e, s)
      end
  | LookupUser _ => (Ok ("1000", "1000"), s)
  | LookPath file => (Ok ("/usr/local/bin/" ++ file), s)
  | Start path _ => (Ok 100, s)
  | NetworkInspect _ => (Ok ["172.18.0.0/16"; ""], s)
  | ContainerInspect _ =>
      (Ok (mkContainerJSON 42 [("tcp", 80); ("udp", 53)] [("n2", "172.19.0.2")]), s)
  | Select => (CmdWait WaitOk, s)
  | Cache_GetNetworkInfo _ => (None, s)
  | Cache_DeleteContainerInfo _ => (None, s)
  | Cache_GetProxyPortPIDs _ => ([], s)
  | Listen _ _ | Accept | CloseConn | CloseListener | Chown _ _ _ | Run _ _ | Kill _
  | NewEnvClient | ServerVersion | NewIPTables | AppendUnique _ _ _ | DeleteRule _ _ _ => (None, s)
  | Exit _ | Sleep _ | Events | SendNetwork _ | SendContainer _ | CloseChannels
  | Cache_AddNetworkInfo _ | Cache_DeleteNetworkInfo _ | Cache_AddContainerInfo _
  | Cache_AddProxyPortPID _ _ | Cache_DeleteProxyPortPIDs _ => (tt, s)
  end.

Definition day : list docker_event :=
  [EventMessage "network" "create" "n1"; EventMessage "network" "create" "n2";
   EventMessage "image" "pull" "x"; EventMessage "container" "start" "c";
   EventError (Some (EOther "connection reset")); EventMessage "network" "destroy" "n1";
   EventMessage "container" "die" "c"; EventMessage "container" "stop" "c"].
Abbreviation events := (interp cached (GetResourcesInfoFromEvents 20) NewCache).
Definition events_run := exec serve_dind events day.
Lemma events_runs : runs events events_run.1.1 (events_run.1.2.1, events_run.1.2.2).
Proof. rewrite <- surjective_pairing. unfold events_run. apply exec_runs. Qed.

Definition second_network : NetworkInfo :=
  mkNetworkInfo "n2" resourceActionCreate [mkSubnet "172.18.0.0/16" "127.2.0.0/16" 2].

Lemma octets_separated_witness :
  separated (networkInfoByID events_run.1.2.2) events_run.1.2.1.2 /\
  networkInfoByID events_run.1.2.2 !! "n2" = Some second_network.
Proof. split; [exact (octets_separated _ _ _ _ events_runs)|by vm_compute]. Defined.

(** The container that died is announced as stopped once. *)
Lemma event_loop_refines_witness :
  registry announces_container ∅ (sent_containers events_run.1.1) ∅ /\
  map (fun info => (ci_ID info, ci_Action info, IPs info)) (sent_containers events_run.1.1) =
    [("c", resourceActionStart, ["127.2.0.2"]); ("c", resourceActionStop, ["127.2.0.2"])].
Proof.
  split; [|by vm_compute].
  destruct (event_loop_refines _ _ _ _ events_runs) as [_ H].
  assert (containerInfoByID events_run.1.2.2 = ∅) as He by (by vm_compute).
  rewrite He in H. exact H.
Defined.

Definition forwarded (action : Z) : NetworkInfo := mkNetworkInfo "n2" action (Subnets second_network).
Definition created_run := exec serve_dind (handleNetwork (forwarded resourceActionCreate)) [].
Definition destroyed_run := exec serve_dind (handleNetwork (forwarded resourceActionDestroy)) [].
Definition other_rule : list string := ["-j"; "DOCKER_OUTPUT"].

Lemma network_undone_witness :
  rules_after [other_rule] created_run.1.1 =
    [other_rule; ["-d"; "172.18.0.0/16"; "-j"; "NETMAP"; "--to"; "127.2.0.0/16"]] /\
  rules_after (rules_after [other_rule] created_run.1.1) destroyed_run.1.1 = [other_rule].
Proof.
  refine (network_undone [other_rule] "n2" (Subnets second_network) created_run.1.1 destroyed_run.1.1
    _ _ _ _ _).
  - by apply (bool_decide_unpack _).
  - intros r [->|H]%elem_of_cons Hr; [|by apply not_elem_of_nil in H].
    apply list_elem_of_singleton in Hr. discriminate Hr.
  - exact (exec_runs serve_dind (handleNetwork (forwarded resourceActionCreate)) []).
  - exact (exec_runs serve_dind (handleNetwork (forwarded resourceActionDestroy)) []).
  - reflexivity.
Defined.

Definition living : prog dind (outcome unit * Cache) :=
  interp cached (container_life "c" 42 [mkPort "tcp" 80; mkPort "udp" 53] ["127.2.0.2"]) NewCache.
Definition living_run := exec serve_dind living [].
Lemma living_runs : runs living living_run.1.1 (Done tt, living_run.1.2.2).
Proof.
  assert (Done tt = living_run.1.2.1) as -> by (by vm_compute).
  rewrite <- surjective_pairing. unfold living_run. apply exec_runs.
Qed.

Lemma proxies_killed_witness :
  exists pids starts, length pids = 2%nat /\
    living_run.1.1 = (starts ++ ((fun pid => (Kill pid : sop dind) ↝ None) <$> pids))%list.
Proof.
  destruct (proxies_killed "c" 42 [mkPort "tcp" 80; mkPort "udp" 53] ["127.2.0.2"] NewCache _ _
    eq_refl living_runs) as (pids & starts & Hs & Htr & _).
  exists pids, starts. split; [|exact Htr].
  assert (forall rs pids tr, started rs pids tr -> length pids = length rs) as Hlen
    by (induction 1; cbn; congruence).
  rewrite (Hlen _ _ _ Hs). reflexivity.
Defined.

Definition sctp : ContainerInfo :=
  mkContainerInfo "c" resourceActionStart 42 [mkPort "tcp" 80; mkPort "sctp" 9899] ["127.2.0.2"].
Lemma other_protocols_panic_witness :
  (exec serve_dind (handleContainer sctp) []).1.2 = Panicked nil_dereference /\
  exists e, (exec serve_dind (handleContainer sctp) []).1.2 = Panicked e.
Proof.
  split; [reflexivity|].
  refine (other_protocols_panic sctp (mkAddPortProxyRequest "sctp" "127.2.0.2" 9899 42 9899)
    _ _ eq_refl _ _ _ (exec_runs serve_dind (handleContainer sctp) [])); [|discriminate..].
  cbn. apply list_elem_of_further, list_elem_of_here.
Defined.

Lemma WaitForDockerd_ends_witness :
  exists failed, (exec serve_dind WaitForDockerd []).1.1 =
    (flat_map (fun e => [ServerVersion ↝ Some e; Sleep Second ↝ tt]) failed ++ [ServerVersion ↝ None])%list /\
    (length failed < 15)%nat.
Proof. exact (WaitForDockerd_ends _ _ (exec_runs serve_dind WaitForDockerd [])). Defined.

Definition environment : gmap string string := {[ "DOCKER_HOST" := " unix:///run/docker.sock " ]}.
Abbreviation starting := (startup environment ["dind"; "--debug"]).
Definition dockerd : list string := dockerdArgs environment ["dind"; "--debug"] "/usr/local/bin/dockerd-entrypoint.sh".
Lemma dockerd_unprivileged_witness :
  exists uid gid, answered (exec serve_dind starting []).1.1 (Chown "/var/lib/docker" uid gid) None.
Proof.
  destruct (dockerd_unprivileged _ _ _ _ "/usr/bin/sudo" dockerd (exec_runs serve_dind starting []))
    as (entrypoint & uid & gid & _ & _ & _ & _ & H & _); [|exists uid, gid; exact H].
  apply list_elem_of_lookup. exists 7%nat. by vm_compute.
Defined.
End DindExamples.
