(* ===== verification/Sidecar.v ===== *)
(** * The sidecar's goroutines at once

    [main.go]'s loop, the goroutine of [GetResourcesInfoFromEvents] and the one
    of [listenForInterrupt], over the cache they share and the two unbuffered
    channels between the first two.  The theorem is about every schedule of
    them. *)

From S2P Require Export Prelude Dind Goroutines.
#[local] Open Scope string_scope.
#[local] Open Scope list_scope.

(** ** The process *)

Record dind_state : Type := mkDindState { cache : Cache; channelsClosed : bool }.

(** A send only happens when the main loop receives it; a closed channel is
    received from without an end; every other operation gets any answer, or the
    one of the cache. *)
Definition shares (o : dind_op) (s : dind_state) : dind_ans o -> dind_state -> Prop :=
  match o with
  | SendNetwork _ | SendContainer _ => fun _ _ => False
  | CloseChannels => fun _ s' => s' = mkDindState (cache s) true
  | Select => fun r s' => s' = s /\
      match r with
      | CmdWait _ => True
      | Networks info => info = None /\ channelsClosed s = true
      | Containers info => info = None /\ channelsClosed s = true
      end
  | o => fun r s' => channelsClosed s' = channelsClosed s /\
      exists tr, runs (cached o (cache s)) tr (r, cache s')
  end.

Definition meets (o : dind_op) (_ : dind_ans o) (o' : dind_op) : dind_ans o' -> Prop :=
  match o' with
  | Select => fun r =>
      match o with
      | SendNetwork info => r = Networks (Some info)
      | SendContainer info => r = Containers (Some info)
      | _ => False
      end
  | _ => fun _ => False
  end.

Section sidecar.
(** How many events, and how many messages, the two loops are followed for. *)
Variables fuel1 fuel2 : nat.

Definition eventGoroutine : prog dind unit := let! _ := GetResourcesInfoFromEvents fuel1 in Ret tt.
Definition mainGoroutine : prog dind unit := let! _ := mainLoop fuel2 in Ret tt.
Definition interruptGoroutine : prog dind unit := let! _ := interrupt in Ret tt.

Definition sidecar : process (E := dind) (A := unit) :=
  mkProcess (mkDindState NewCache false) [eventGoroutine; mainGoroutine; interruptGoroutine].
Abbreviation sidecar_schedule := (schedule (A := unit) shares (fun _ => []) meets).

(** ** What is announced *)

(** The subnets that are to be forwarded after a sequence of announcements. *)
Definition forward (fw : list Subnet) (info : NetworkInfo) : list Subnet :=
  if bool_decide (ni_Action info = resourceActionCreate) then (fw ++ Subnets info)%list
  else if bool_decide (ni_Action info = resourceActionDestroy) then
    filter (fun s => s ∉ Subnets info) fw
  else fw.
Definition forwarded : list NetworkInfo -> list Subnet := foldl forward [].

(** The range a subnet is translated into is the one of its octet. *)
Definition translated (s : Subnet) : Prop :=
  HostProxySubnet s = ReplaceAllLiteralString (DockerSubnet s) (hostProxyTwoOctets (SecondOctet s)).

(** At any time, no two subnets that are to be forwarded have the same octet. *)
Definition orderly (sends : list NetworkInfo) : Prop :=
  forall pre, pre `prefix_of` sends ->
    NoDup (octets (forwarded pre)) /\ Forall translated (forwarded pre).

Lemma forwarded_snoc sends info : forwarded (sends ++ [info]) = forward (forwarded sends) info.
Proof. unfold forwarded. by rewrite foldl_snoc. Qed.

Lemma prefix_snoc_cases {X} (l l2 : list X) x :
  l `prefix_of` l2 ++ [x] -> l = (l2 ++ [x])%list \/ l `prefix_of` l2.
Proof.
  intros [k Hk]. destruct k as [|y k _] using rev_ind; [left; by rewrite app_nil_r in Hk|right].
  rewrite app_assoc in Hk. apply app_inj_tail in Hk as [-> _]. by exists k.
Qed.

Lemma orderly_snoc sends info :
  orderly sends -> NoDup (octets (forwarded (sends ++ [info]))) ->
  Forall translated (forwarded (sends ++ [info])) -> orderly (sends ++ [info]).
Proof.
  intros Hs Hnd Ht pre [->|Hpre]%prefix_snoc_cases; [done|]. by apply Hs.
Qed.

(** ** The event loop *)

(** The networks in the cache and what has been announced, as the goroutine's
    operations change them. *)
Definition event_ghost (g : gmap string NetworkInfo * list NetworkInfo) (e : event dind)
    (g' : gmap string NetworkInfo * list NetworkInfo) : Prop :=
  match ev_op e as o return dind_ans o -> Prop with
  | Cache_AddNetworkInfo info => fun _ => g' = (<[ni_ID info := info]> g.1, g.2)
  | Cache_DeleteNetworkInfo id => fun _ => g' = (delete id g.1, g.2)
  | Cache_GetNetworkInfo id => fun r => r = g.1 !! id /\ g' = g
  | SendNetwork info => fun _ => g' = (g.1, g.2 ++ [info])%list
  | _ => fun _ => g' = g
  end (ev_ans e).
Definition announcing (g : gmap string NetworkInfo * list NetworkInfo) : Prop := orderly g.2.

(** Between two events: the subnets to forward hold their octets, and those of the
    known networks are among them. *)
Record reserved (used : list bool) (g : gmap string NetworkInfo * list NetworkInfo) : Prop := mkReserved {
  res_orderly : orderly g.2;
  res_separated : separated g.1 used;
  res_used : forall o, o ∈ octets (forwarded g.2) -> used !! o = Some true;
  res_known : forall id info s, g.1 !! id = Some info -> s ∈ Subnets info -> s ∈ forwarded g.2;
}.

Lemma orderly_now sends : orderly sends -> NoDup (octets (forwarded sends)) /\ Forall translated (forwarded sends).
Proof. intros H. by apply H. Qed.

Lemma same_octet fw s1 s2 :
  NoDup (octets fw) -> s1 ∈ fw -> s2 ∈ fw -> SecondOctet s1 = SecondOctet s2 -> s1 = s2.
Proof.
  unfold octets. induction fw as [|s fw IH]; cbn; [by intros _ H%not_elem_of_nil|].
  intros [Hs Hnd]%NoDup_cons [->|H1]%elem_of_cons [->|H2]%elem_of_cons Heq; [done| | |by apply IH].
  - destruct Hs. rewrite Heq. by apply list_elem_of_fmap_2.
  - destruct Hs. rewrite <- Heq. by apply list_elem_of_fmap_2.
Qed.

Lemma allocate_translated used dockerSubnets subnets used' :
  allocate used dockerSubnets = Done (subnets, used') -> Forall translated subnets.
Proof.
  revert used subnets used'. induction dockerSubnets as [|d ds IH]; intros used subnets used'; cbn;
    [by intros [= <- _]|].
  destruct (markAndGetFirstAvailableHostSecondOctet used) as [[i used1]|e]; [|done].
  destruct (allocate used1 ds) as [[rest used2]|e] eqn:Hrest; [|done]. intros [= <- _].
  constructor; [done|]. by eapply IH.
Qed.

Lemma reserved_create used g id dockerSubnets subnets used' :
  reserved used g -> allocate used dockerSubnets = Done (subnets, used') ->
  let info := mkNetworkInfo id resourceActionCreate subnets in
  reserved used' (<[id := info]> g.1, g.2 ++ [info])%list.
Proof.
  intros [Ho Hsep Hused Hknown] Ha info. pose proof (allocate_spec _ _ _ _ Ha) as (_ & Hnd & _ & Hin & Hout).
  destruct (orderly_now _ Ho) as [Hfw Htr].
  assert (forwarded (g.2 ++ [info]) = forwarded g.2 ++ subnets)%list as Hf by (by rewrite forwarded_snoc).
  split; cbn [fst snd].
  - apply orderly_snoc; [done| |]; rewrite Hf.
    + unfold octets in *. rewrite fmap_app. apply NoDup_app. split_and!; [done| |done].
      intros o H1 H2. apply Hused in H1. apply Hin in H2 as (_ & H2 & _). congruence.
    + apply Forall_app. split; [done|]. by eapply allocate_translated.
  - by eapply separated_create.
  - rewrite Hf. unfold octets. rewrite fmap_app. intros o [H|H]%elem_of_app.
    + destruct (decide (o ∈ octets subnets)) as [H2|H2]; [by apply Hin|]. rewrite Hout by done. by apply Hused.
    + by apply Hin.
  - intros id1 info1 s H Hs. rewrite Hf. apply elem_of_app.
    apply lookup_insert_Some in H as [[_ <-]|[_ H]]; [by right|left; by eapply Hknown].
Qed.

Lemma reserved_destroy used g id info :
  reserved used g -> g.1 !! id = Some info ->
  reserved (release used (Subnets info))
    (delete id g.1, g.2 ++ [mkNetworkInfo id resourceActionDestroy (Subnets info)])%list.
Proof.
  intros [Ho Hsep Hused Hknown] Hinfo.
  destruct (orderly_now _ Ho) as [Hfw Htr].
  set (sent := mkNetworkInfo id resourceActionDestroy (Subnets info)).
  assert (forwarded (g.2 ++ [sent]) = filter (fun s => s ∉ Subnets info) (forwarded g.2)) as Hf
    by (by rewrite forwarded_snoc).
  split; cbn [fst snd].
  - apply orderly_snoc; [done| |]; rewrite Hf.
    + unfold octets in *. eapply sublist_NoDup; [exact Hfw|]. apply fmap_sublist, sublist_filter.
    + rewrite Forall_forall in *. intros s [_ H]%list_elem_of_filter. by apply Htr.
  - by apply separated_destroy.
  - rewrite Hf. intros o (s & -> & [Hs Hin]%list_elem_of_filter)%list_elem_of_fmap.
    destruct (release_spec used (Subnets info)) as [_ Hr]. rewrite Hr.
    + apply Hused. by apply list_elem_of_fmap_2.
    + intros (s' & Heq & Hs')%list_elem_of_fmap. destruct Hs.
      rewrite (same_octet (forwarded g.2) s s'); [done..|by eapply Hknown|done].
  - intros id1 info1 s [Hne H]%lookup_delete_Some Hs. rewrite Hf. apply list_elem_of_filter.
    split; [|by eapply Hknown]. intros Hs'. destruct Hne.
    apply (sep_other _ _ Hsep id id1 info info1 (SecondOctet s)); [done..| |];
      by apply list_elem_of_fmap_2.
Qed.

Abbreviation orders p g Q := (abides event_ghost announcing p g Q).

Lemma orders_created used id g : reserved used g ->
  orders (networkCreated used id) g (fun r g' =>
    match r with Done used' => reserved used' g' | Panicked _ => True end).
Proof.
  intros Hg. pose proof (res_orderly _ _ Hg) as Ho. unfold networkCreated, getNetworkSubnets.
  cbn [bind call]. split; [done|]. intros r g' Hg'. cbn in Hg'. subst g'.
  destruct (allocate used _) as [[subnets used']|e] eqn:Ha; [|by split].
  pose proof (reserved_create _ _ id _ _ _ Hg Ha) as Hres.
  split; [done|]. intros [] g1 Hg1. cbn in Hg1. subst g1.
  split; [done|]. intros [] g2 Hg2. cbn in Hg2. subst g2.
  split; [by apply (res_orderly _ _ Hres)|done].
Qed.

Lemma orders_destroyed used id g : reserved used g ->
  orders (networkDestroyed used id) g (fun used' g' => reserved used' g').
Proof.
  intros Hg. pose proof (res_orderly _ _ Hg) as Ho. unfold networkDestroyed.
  cbn [bind call]. split; [done|]. intros r g' Hg'. cbn in Hg'. destruct Hg' as [-> ->].
  destruct (g.1 !! id) as [info|] eqn:Hinfo; [|by split].
  pose proof (reserved_destroy _ _ _ _ Hg Hinfo) as Hres.
  rewrite (sep_id _ _ (res_separated _ _ Hg) _ _ Hinfo).
  split; [done|]. intros [] g1 Hg1. cbn in Hg1. subst g1.
  split; [done|]. intros [] g2 Hg2. cbn in Hg2. subst g2.
  split; [by apply (res_orderly _ _ Hres)|done].
Qed.

(** The handling of containers looks at the networks, and announces none. *)
Definition looks (o : dind_op) : Prop :=
  match o with
  | Cache_AddNetworkInfo _ | Cache_DeleteNetworkInfo _ | SendNetwork _ => False
  | _ => True
  end.
Lemma orders_looks {A} (p : prog dind A) g : announcing g -> only looks p -> orders p g (fun _ g' => g' = g).
Proof.
  intros Hg. induction p as [a|o k IH]; [by split|]. intros [Ho Hk]. split; [done|]. intros r g' Hg'.
  assert (g' = g) as -> by (destruct o; try done; cbn in Hg'; by destruct_and?). by apply IH.
Qed.

Lemma looks_proxyIPs networks : only looks (proxyIPs networks).
Proof.
  induction networks as [|[id ip] networks IH]; [done|]. cbn [proxyIPs bind call]. split; [done|].
  intros r. apply only_bind; [done|]. intros a. done.
Qed.
Lemma looks_containerStarted id : only looks (containerStarted id).
Proof.
  unfold containerStarted, getContainerInspectInfo. cbn [bind call]. split; [done|]. intros [info|e]; [|done].
  apply only_bind; [apply looks_proxyIPs|]. intros ips. cbn. done.
Qed.
Lemma looks_containerStopped id : only looks (containerStopped id).
Proof. unfold containerStopped. cbn [bind call]. split; [done|]. intros [info|]; cbn; done. Qed.

Lemma orders_handleEvent used type action id g : reserved used g ->
  orders (handleEvent used type action id) g (fun r g' =>
    match r with Done used' => reserved used' g' | Panicked _ => True end).
Proof.
  intros Hg. pose proof (res_orderly _ _ Hg) as Ho. unfold handleEvent.
  assert (forall p : prog dind unit, only looks p ->
    orders (let! _ := p in Ret (Done used)) g (fun r g' =>
      match r with Done used' => reserved used' g' | Panicked _ => True end)) as Hlooks.
  { intros p Hp. eapply abides_bind; [by apply orders_looks|]. intros [] g' -> Hg'. by split. }
  destruct (resourceKindByString type); [|by split]. destruct (resourceActionByString action); [|by split].
  repeat case_bool_decide; try (by split); [by apply orders_created| | |].
  - eapply abides_bind; [by apply orders_destroyed|]. intros used' g' Hg' Hi. by split.
  - apply Hlooks, looks_containerStarted.
  - apply Hlooks, looks_containerStopped.
Qed.

Lemma orders_eventLoop fuel used g : reserved used g ->
  orders (eventLoop fuel used) g (fun _ _ => True).
Proof.
  revert used g. induction fuel as [|fuel IH]; intros used g Hg; pose proof (res_orderly _ _ Hg) as Ho.
  { by split. }
  cbn [eventLoop bind call]. split; [done|]. intros [err|type action id] g' Hg'; cbn in Hg'; subst g'.
  - destruct (bool_decide _ || _); (split; [done|]); intros [] g' Hg'; cbn in Hg'; subst g'; [by split|by apply IH].
  - eapply abides_bind; [by apply orders_handleEvent|]. intros [used'|e] g' Hg' Hi; [by apply IH|by split].
Qed.

Lemma reserved_new : reserved usedHostSecondOctet (∅, []).
Proof.
  split; cbn [fst snd].
  - intros pre Hpre%prefix_nil_inv. subst pre. split; constructor.
  - apply (coh_separated NewCache), coherent_new.
  - intros o H%not_elem_of_nil. done.
  - intros id info s H. by rewrite lookup_empty in H.
Qed.

Lemma orders_eventGoroutine : orders eventGoroutine (∅, []) (fun _ _ => True).
Proof.
  unfold eventGoroutine. eapply (abides_bind _ _ _ _ _ (fun _ _ => True)); [|by split].
  unfold GetResourcesInfoFromEvents. cbn [bind call].
  split; [apply (res_orderly _ _ reserved_new)|]. intros [] g' Hg'. cbn in Hg'. subst g'.
  apply orders_eventLoop, reserved_new.
Qed.
(** ** The main loop *)

(** The rules of the chain and what has been received.  A rule that iptables does
    not delete has no ghost state: it is assumed not to happen. *)
Definition main_ghost (g : rules * list NetworkInfo) (e : event dind) (g' : rules * list NetworkInfo) : Prop :=
  match ev_op e as o return dind_ans o -> Prop with
  | Select => fun r =>
      match r with
      | Networks (Some info) => g' = (g.1, g.2 ++ [info])%list
      | _ => g' = g
      end
  | DeleteRule _ _ _ => fun err => err = None /\ g' = (change_rules g.1 e, g.2)
  | _ => fun _ => g' = (change_rules g.1 e, g.2)
  end (ev_ans e).

(** The rules are distinct and of subnets that are to be forwarded... *)
Definition settled (g : rules * list NetworkInfo) : Prop :=
  NoDup g.1 /\ forall r, r ∈ g.1 -> r ∈ rulespec <$> forwarded g.2.
(** ... after what has been received, or before the last of it. *)
Definition followed (g : rules * list NetworkInfo) : Prop :=
  exists pre, pre `prefix_of` g.2 /\ settled (g.1, pre).

Lemma settled_followed g : settled g -> followed g.
Proof. intros H. exists g.2. split; [done|]. by destruct g. Qed.

Lemma remove_first_sublist r rs : remove_first r rs `sublist_of` rs.
Proof.
  induction rs as [|r' rs IH]; cbn; [done|].
  case_bool_decide; [by constructor|by constructor].
Qed.
Lemma remove_first_NoDup r rs : NoDup rs -> NoDup (remove_first r rs).
Proof. intros H. eapply sublist_NoDup; [done|apply remove_first_sublist]. Qed.
Lemma remove_first_elem r r' rs : NoDup rs -> r' ∈ remove_first r rs -> r' ∈ rs /\ r' <> r.
Proof.
  induction rs as [|x rs IH]; cbn; [by intros _ H%not_elem_of_nil|].
  intros [Hx Hnd]%NoDup_cons. case_bool_decide as Heq.
  - subst x. intros H. split; [by right|]. by intros ->.
  - intros [->|H]%elem_of_cons; [split; [by left|done]|].
    destruct (IH Hnd H). split; [by right|done].
Qed.

Abbreviation keeps p g Q := (abides main_ghost followed p g Q).

Lemma keeps_setup subnets g : settled g -> (forall s, s ∈ subnets -> s ∈ forwarded g.2) ->
  keeps (setupNetworkPortForward subnets) g (fun _ g' => settled g').
Proof.
  revert g. induction subnets as [|s subnets IH]; intros g Hg Hs; [by split; [apply settled_followed|]|].
  cbn [setupNetworkPortForward bind call]. split; [by apply settled_followed|].
  intros [e|] g' Hg'; cbn in Hg'; subst g'.
  - destruct g as [rs rc]. split; [by apply settled_followed|done].
  - destruct g as [rs rc], Hg as [Hnd Hin]; cbn in *. apply IH; cbn.
    + case_bool_decide as Hr; [done|]. split; cbn.
      * apply NoDup_app. split_and!; [done| |apply NoDup_singleton].
        intros r H ->%list_elem_of_singleton. done.
      * intros r [H| ->%list_elem_of_singleton]%elem_of_app; [by apply Hin|].
        apply list_elem_of_fmap_2, Hs. by left.
    + intros s' Hs'. apply Hs. by right.
Qed.

(** While the rules of a network are deleted: those that are left to delete. *)
Lemma keeps_setdown subnets pre info g :
  NoDup g.1 -> g.2 = (pre ++ [info])%list -> ni_Action info = resourceActionDestroy ->
  (forall r, r ∈ g.1 -> r ∈ rulespec <$> forwarded pre) ->
  (forall r, r ∈ g.1 -> r ∈ rulespec <$> forwarded g.2 \/ r ∈ rulespec <$> subnets) ->
  keeps (setdownNetworkPortForward subnets) g (fun _ g' => settled g').
Proof.
  revert g. induction subnets as [|s subnets IH]; intros [rs rc] Hnd Hrc Ha Hin Hleft; cbn in *;
    (split; [exists pre; split; [by rewrite Hrc; apply prefix_app_r|done]|]).
  - split; [done|]. intros r Hr. destruct (Hleft r Hr) as [H|H%not_elem_of_nil]; [done|done].
  - intros err g' [-> ->]. cbn. apply IH; cbn; [by apply remove_first_NoDup|done|done| |].
    + intros r [Hr _]%remove_first_elem; [by apply Hin|done].
    + intros r [Hr Hne]%remove_first_elem; [|done].
      destruct (Hleft r Hr) as [H|[->|H]%elem_of_cons]; [by left|done|by right].
Qed.

Lemma keeps_handleNetwork info rs rc : settled (rs, rc) ->
  keeps (handleNetwork info) (rs, rc ++ [info])%list (fun _ g' => settled g').
Proof.
  intros [Hnd Hin]. unfold handleNetwork. cbn [fst snd] in *.
  assert (forwarded (rc ++ [info]) = forward (forwarded rc) info) as Hfw by apply forwarded_snoc.
  unfold forward in Hfw. case_bool_decide as Hc; [|case_bool_decide as Hd].
  - eapply abides_bind; [apply keeps_setup|].
    + split; cbn; [done|]. intros r Hr. rewrite Hfw, fmap_app. apply elem_of_app. left. by apply Hin.
    + cbn. intros s Hs. rewrite Hfw. apply elem_of_app. by right.
    + intros r g Hg Hf. by split.
  - eapply abides_bind; [eapply (keeps_setdown _ rc info)|]; cbn [fst snd]; [done..| |].
    + intros r Hr. destruct (decide (r ∈ rulespec <$> Subnets info)) as [H|H]; [by right|left].
      apply Hin in Hr as (s & -> & Hs)%list_elem_of_fmap. rewrite Hfw.
      apply list_elem_of_fmap_2, list_elem_of_filter. split; [|done].
      intros Hs'. destruct H. by apply list_elem_of_fmap_2.
    + intros r g Hg Hf. by split.
  - assert (settled (rs, rc ++ [info])) as H by (split; [done|by cbn; rewrite Hfw]).
    split; [by apply settled_followed|done].
Qed.

(** The handling of containers changes no rule. *)
Definition proxies (o : dind_op) : Prop :=
  match o with Select | AppendUnique _ _ _ | DeleteRule _ _ _ => False | _ => True end.
Lemma keeps_proxies {A} (p : prog dind A) g : settled g -> only proxies p -> keeps p g (fun _ g' => settled g').
Proof.
  intros Hg. induction p as [a|o k IH]; [split; [by apply settled_followed|done]|]. intros [Ho Hk].
  split; [by apply settled_followed|]. intros r g' Hg'.
  assert (g' = g) as -> by (destruct o, g; try done; cbn in Hg'; by subst g'). by apply IH.
Qed.

Lemma proxies_addPortProxies id rs : only proxies (addPortProxies id rs).
Proof.
  induction rs as [|request rs IH]; [done|]. cbn [addPortProxies]. apply only_bind.
  - unfold AddPortProxy. destruct (createSocatCommand request); cbn; done.
  - intros [[pid|e]|e]; [|done|done]. cbn [bind call]. by split.
Qed.
Lemma proxies_removePortProxies pids : only proxies (removePortProxies pids).
Proof.
  induction pids as [|pid pids IH]; [done|]. cbn. split; [done|]. by intros [e|].
Qed.
Lemma proxies_handleContainer info : only proxies (handleContainer info).
Proof.
  unfold handleContainer. repeat case_bool_decide; [| |done].
  - apply only_bind; [apply proxies_addPortProxies|done].
  - apply only_bind; [|done]. unfold setdownContainerPortProxy. cbn [bind call]. split; [done|].
    intros pids. apply only_bind; [apply proxies_removePortProxies|]. intros [e|]; cbn; done.
Qed.

Lemma keeps_mainLoop fuel g : settled g -> keeps (mainLoop fuel) g (fun _ _ => True).
Proof.
  revert g. induction fuel as [|fuel IH]; intros g Hg; [split; [by apply settled_followed|done]|].
  cbn [mainLoop bind call]. split; [by apply settled_followed|].
  pose proof (settled_followed g Hg) as Hf. destruct g as [rs rc].
  intros [[|st|e]|[info|]|[info|]] g' Hg'; cbn in Hg'; subst g'; cbn [bind call].
  - by split.
  - split; [done|]. intros r g' Hg'. cbn in Hg'. subst g'. by split.
  - by split.
  - eapply abides_bind; [by apply keeps_handleNetwork|].
    intros [[]|e] g' H1 H2; [by apply IH|by split].
  - by split.
  - eapply abides_bind; [apply keeps_proxies, proxies_handleContainer; done|].
    intros [[]|e] g' H1 H2; [by apply IH|by split].
  - by split.
Qed.

Lemma keeps_mainGoroutine : keeps mainGoroutine ([], []) (fun _ _ => True).
Proof.
  unfold mainGoroutine. eapply (abides_bind _ _ _ _ _ (fun _ _ => True)).
  - apply keeps_mainLoop. split; [constructor|]. intros r H%not_elem_of_nil. done.
  - intros a g _ H. by split.
Qed.
(** ** Who does what *)

Definition by_events (o : dind_op) : Prop :=
  match o with Select | AppendUnique _ _ _ | DeleteRule _ _ _ => False | _ => True end.
Definition by_main (o : dind_op) : Prop :=
  match o with
  | Cache_AddNetworkInfo _ | Cache_DeleteNetworkInfo _ | SendNetwork _ | SendContainer _ => False
  | _ => True
  end.
Definition by_interrupt (o : dind_op) : Prop :=
  match o with Accept | CloseConn | CloseListener | Exit _ => True | _ => False end.

Lemma events_proxyIPs networks : only by_events (proxyIPs networks).
Proof.
  induction networks as [|[id ip] networks IH]; [done|]. cbn [proxyIPs bind call]. split; [done|].
  intros r. by apply only_bind.
Qed.
Lemma events_handleEvent used type action id : only by_events (handleEvent used type action id).
Proof.
  unfold handleEvent. destruct (resourceKindByString type); [|done].
  destruct (resourceActionByString action); [|done]. repeat case_bool_decide; try done.
  - unfold networkCreated, getNetworkSubnets. cbn [bind call]. split; [done|]. intros r.
    destruct (allocate used _) as [[subnets used']|e]; cbn; done.
  - apply only_bind; [|done]. unfold networkDestroyed. cbn [bind call]. split; [done|].
    intros [info|]; cbn; done.
  - apply only_bind; [|done]. unfold containerStarted, getContainerInspectInfo. cbn [bind call]. split; [done|].
    intros [info|e]; [|done]. apply only_bind; [apply events_proxyIPs|]. intros ips. cbn. done.
  - apply only_bind; [|done]. unfold containerStopped. cbn [bind call]. split; [done|].
    intros [info|]; cbn; done.
Qed.
Lemma events_eventGoroutine : only by_events eventGoroutine.
Proof.
  unfold eventGoroutine, GetResourcesInfoFromEvents. apply only_bind; [|done].
  cbn [bind call]. split; [done|]. intros _. generalize usedHostSecondOctet.
  induction fuel1 as [|fuel IH]; intros used; [done|]. cbn [eventLoop bind call]. split; [done|].
  intros [err|type action id].
  - destruct (bool_decide _ || _); split; done.
  - apply only_bind; [apply events_handleEvent|]. by intros [used'|e].
Qed.

Lemma main_mainGoroutine : only by_main mainGoroutine.
Proof.
  unfold mainGoroutine. apply only_bind; [|done].
  assert (forall subnets, only by_main (setupNetworkPortForward subnets)) as Hsetup.
  { induction subnets as [|s subnets IH]; [done|]. cbn. split; [done|]. by intros [e|]. }
  assert (forall subnets, only by_main (setdownNetworkPortForward subnets)) as Hsetdown.
  { induction subnets as [|s subnets IH]; [done|]. cbn. split; [done|]. by intros [e|]. }
  assert (forall id rs, only by_main (addPortProxies id rs)) as Hadd.
  { intros id. induction rs as [|r rs IH]; [done|]. cbn [addPortProxies]. apply only_bind.
    - unfold AddPortProxy. destruct (createSocatCommand r); cbn; done.
    - intros [[pid|e]|e]; [by split|done|done]. }
  assert (forall pids, only by_main (removePortProxies pids)) as Hremove.
  { induction pids as [|pid pids IH]; [done|]. cbn. split; [done|]. by intros [e|]. }
  induction fuel2 as [|fuel IH]; [done|]. cbn [mainLoop bind call]. split; [done|].
  intros [[|st|e]|[info|]|[info|]]; try done.
  - apply only_bind; [|by intros []]. unfold handleNetwork.
    repeat case_bool_decide; [by apply only_bind..|done].
  - apply only_bind; [|by intros []]. unfold handleContainer.
    repeat case_bool_decide; [apply only_bind; [apply Hadd|done]| |done].
    apply only_bind; [|done]. unfold setdownContainerPortProxy. cbn [bind call]. split; [done|].
    intros pids. apply only_bind; [done|]. by intros [e|].
Qed.

Lemma interrupt_interruptGoroutine : only by_interrupt interruptGoroutine.
Proof.
  unfold interruptGoroutine, interrupt, must. cbn [bind call].
  repeat (split; [done|]; intros [e|]; [done|]). by split.
Qed.

(** ** The goroutines together *)

(** A schedule in which iptables deletes what it is asked to. *)
Definition deleted (e : event dind) : Prop :=
  match ev_op e as o return dind_ans o -> Prop with
  | DeleteRule _ _ _ => fun err => err = None
  | _ => fun _ => True
  end (ev_ans e).

(** What the goroutines know of each other. *)
Record together (sched : list (nat * event dind)) (q : process (A := unit)) : Prop := mkTogether {
  to_threads : exists p0 p1 p2, threads q = [p0; p1; p2] /\
    only by_events p0 /\ only by_main p1 /\ only by_interrupt p2;
  to_ghosts : exists networks, networks = networkInfoByID (cache (shared q)) /\ exists sent,
    ghosts event_ghost (∅, []) (own 0 sched) (networks, sent) /\
    ghosts main_ghost ([], []) (own 1 sched) (rules_after [] sched.*2, sent);
}.

Lemma ghosts_snoc {G} (ghost : G -> event dind -> G -> Prop) g tr g1 e g2 :
  ghosts ghost g tr g1 -> ghost g1 e g2 -> ghosts ghost g (tr ++ [e])%list g2.
Proof. intros H1 H2. apply ghosts_app. exists g1. split; [done|]. by exists g2. Qed.

Lemma rules_after_app rs tr1 tr2 : rules_after rs (tr1 ++ tr2)%list = rules_after (rules_after rs tr1) tr2.
Proof. unfold rules_after. apply foldl_app. Qed.

(** A turn of one goroutine. *)
Lemma event_turn o s r s' networks sent :
  by_events o -> shares o s r s' -> networks = networkInfoByID (cache s) ->
  event_ghost (networks, sent) (Prelude.Event (E := dind) o r) (networkInfoByID (cache s'), sent) /\
  forall rs, change_rules rs (Prelude.Event (E := dind) o r) = rs.
Proof.
  intros Ho Hs ->. split; [|by destruct o].
  destruct o; cbn in Hs |- *; try done; try (destruct Hs as [_ (tr & Hr)]; cbn in Hr);
    try (by destruct Hr as [_ [= _ ->]]); try (by destruct Hr as (? & ? & _ & _ & [= _ ->])).
  - by subst s'.
  - by destruct Hr as [_ [= -> ->]].
Qed.

Lemma main_turn o s r s' rs sent :
  by_main o -> shares o s r s' -> deleted (Prelude.Event (E := dind) o r) ->
  networkInfoByID (cache s') = networkInfoByID (cache s) /\
  main_ghost (rs, sent) (Prelude.Event (E := dind) o r) (change_rules rs (Prelude.Event (E := dind) o r), sent).
Proof.
  intros Ho Hs Hd.
  destruct o; cbn in Hs, Hd |- *; try done; try (destruct Hs as [_ (tr & Hr)]; cbn in Hr);
    try (by destruct Hr as [_ [= _ ->]]); try (by destruct Hr as (? & ? & _ & _ & [= _ ->])).
  - by subst s'.
  - destruct Hs as [-> Hs]. split; [done|]. destruct r as [|[info|]|]; [done|by destruct Hs|done..].
Qed.

Lemma interrupt_turn o s r s' rs :
  by_interrupt o -> shares o s r s' ->
  networkInfoByID (cache s') = networkInfoByID (cache s) /\
  change_rules rs (Prelude.Event (E := dind) o r) = rs.
Proof.
  intros Ho Hs. destruct o; try done; destruct Hs as [_ (tr & Hr)]; cbn in Hr;
    destruct Hr as (? & ? & _ & _ & [= _ ->]); done.
Qed.

(** A network goes from one loop to the other; so does a container. *)
Lemma meeting o r o' r' networks rs sent :
  meets o r o' r' -> exists sent',
    event_ghost (networks, sent) (Prelude.Event (E := dind) o r) (networks, sent') /\
    main_ghost (rs, sent) (Prelude.Event (E := dind) o' r') (rs, sent') /\
    change_rules rs (Prelude.Event (E := dind) o r) = rs /\
    change_rules rs (Prelude.Event (E := dind) o' r') = rs.
Proof.
  intros Hm. destruct o'; try done. destruct o; try done; cbn in Hm; subst r'; cbn.
  - by exists (sent ++ [info])%list.
  - by exists sent.
Qed.

Lemma meets_who o r o' r' : meets o r o' r' ->
  (by_main o -> False) /\ (by_interrupt o -> False) /\ (by_events o' -> False) /\ (by_interrupt o' -> False).
Proof. intros Hm. destruct o'; try done. by destruct o. Qed.

Lemma together_start : together [] sidecar.
Proof.
  split.
  - exists eventGoroutine, mainGoroutine, interruptGoroutine. split; [done|].
    split_and!; [apply events_eventGoroutine|apply main_mainGoroutine|apply interrupt_interruptGoroutine].
  - exists ∅. split; [done|]. by exists [].
Qed.

Lemma together_turn sched q step q' :
  together sched q -> turn (A := unit) shares (fun _ => []) meets q step q' ->
  Forall deleted (sched ++ step).*2 -> together (sched ++ step)%list q'.
Proof.
  intros [(p0 & p1 & p2 & Hts & H0 & H1 & H2) (networks & Hnet & sent & He & Hm)] Hturn Hdel.
  rewrite fmap_app, Forall_app in Hdel. destruct Hdel as [_ Hdel].
  destruct Hturn as [s ts i o k r s' Hi Hs|s ts i j o k r o' k' r' Hne Hi Hj Hmeet]; cbn in *; subst ts.
  - apply Forall_cons in Hdel as [Hdel _]. cbn in Hdel. rewrite app_nil_r.
    destruct i as [|[|[|i]]]; cbn in Hi; [injection Hi as -> ..|done].
    + destruct H0 as [Ho H0]. destruct (event_turn _ _ _ _ networks sent Ho Hs Hnet) as [Hg Hr].
      split; cbn; [exists (k r), p1, p2; by split_and!|]. eexists. split; [done|]. exists sent.
      rewrite !own_app, fmap_app, rules_after_app. cbn. rewrite Hr, app_nil_r.
      split; [by eapply ghosts_snoc|done].
    + destruct H1 as [Ho H1].
      destruct (main_turn _ _ _ _ (rules_after [] sched.*2) sent Ho Hs Hdel) as [Hc Hg].
      split; cbn; [exists p0, (k r), p2; by split_and!|]. exists networks. split; [by rewrite Hc|]. exists sent.
      rewrite !own_app, fmap_app, rules_after_app. cbn. rewrite app_nil_r.
      split; [done|by eapply ghosts_snoc].
    + destruct H2 as [Ho H2].
      destruct (interrupt_turn _ _ _ _ (rules_after [] sched.*2) Ho Hs) as [Hc Hg].
      split; cbn; [exists p0, p1, (k r); by split_and!|]. exists networks. split; [by rewrite Hc|]. exists sent.
      rewrite !own_app, fmap_app, rules_after_app. cbn. by rewrite !app_nil_r, Hg.
  - destruct (meets_who _ _ _ _ Hmeet) as (Hm1 & Hm2 & Hm3 & Hm4).
    destruct i as [|[|[|i]]]; cbn in Hi; [injection Hi as -> |injection Hi as -> ; by destruct H1|
      injection Hi as -> ; by destruct H2|done].
    destruct j as [|[|[|j]]]; cbn in Hj; [done|injection Hj as -> |injection Hj as -> ; by destruct H2|done].
    destruct H0 as [Ho H0], H1 as [Ho' H1].
    destruct (meeting _ _ _ _ networks (rules_after [] sched.*2) sent Hmeet) as (sent' & Hg0 & Hg1 & Hr & Hr').
    split; cbn; [exists (k r), (k' r'), p2; by split_and!|]. exists networks. split; [done|]. exists sent'.
    rewrite !own_app, fmap_app, rules_after_app. cbn. rewrite Hr, Hr'.
    split; by eapply ghosts_snoc.
Qed.

Lemma schedule_together sched q :
  sidecar_schedule sidecar sched q -> Forall deleted sched.*2 -> together sched q.
Proof.
  induction 1 as [|sched q step q' Hs IH Hturn]; intros Hdel; [apply together_start|].
  eapply together_turn; [|exact Hturn|exact Hdel]. apply IH.
  rewrite fmap_app, Forall_app in Hdel. apply Hdel.
Qed.

(** [C9] Whatever the order in which the event loop, the main loop and the goroutine
    that waits for the interrupt go on, and whatever the daemon, iptables and the
    other programs answer, as long as iptables deletes the rules it is asked to
    delete: at any time the rules of the chain are distinct, and each of them
    forwards one of a list of subnets whose octets are distinct and whose ranges
    are those of their octets.  So no two networks are ever forwarded to one range. *)
Theorem rules_separated sched q :
  sidecar_schedule sidecar sched q -> Forall deleted sched.*2 ->
  NoDup (rules_after [] sched.*2) /\
  exists subnets, NoDup (octets subnets) /\ Forall translated subnets /\
    forall rule, rule ∈ rules_after [] sched.*2 -> rule ∈ rulespec <$> subnets.
Proof.
  intros Hs Hdel. destruct (schedule_together _ _ Hs Hdel) as [_ (networks & _ & sent & He & Hm)].
  destruct (schedule_own _ _ _ _ _ _ 0 eventGoroutine Hs eq_refl) as (p0 & _ & Hp0).
  destruct (schedule_own _ _ _ _ _ _ 1 mainGoroutine Hs eq_refl) as (p1 & _ & Hp1).
  pose proof (abides_now _ _ _ _ _ (abides_unfolds _ _ _ _ _ _ _ _ orders_eventGoroutine Hp0 He)) as Ho.
  destruct (abides_now _ _ _ _ _ (abides_unfolds _ _ _ _ _ _ _ _ keeps_mainGoroutine Hp1 Hm))
    as (pre & Hpre & Hnd & Hin).
  split; [exact Hnd|]. exists (forwarded pre). destruct (Ho pre Hpre) as [H1 H2]. by split_and!.
Qed.
End sidecar.

(** ** Examples *)

Module SidecarExamples.

(** What can have been done when a state is reached. *)
Definition reaches (tr : trace dind) (q : process (E := dind) (A := unit)) : Prop :=
  exists sched, schedule (A := unit) shares (fun _ => []) meets (sidecar 1 1) sched q /\ sched.*2 = tr.

Lemma reaches_alone i tr s ts o k r s' :
  reaches tr (mkProcess s ts) -> ts !! i = Some (Do o k) -> shares o s r s' ->
  reaches (tr ++ [o ↝ r]) (mkProcess s' (<[i := k r]> ts)).
Proof.
  intros (sched & Hs & <-) Hi Hr. exists (sched ++ [(i, o ↝ r)])%list. rewrite fmap_app. split; [|done].
  eapply schedule_turn; [exact Hs|]. rewrite <- (app_nil_r (<[i:=k r]> ts)).
  by apply (turn_alone shares (fun _ => []) meets).
Qed.
Lemma reaches_meeting i j tr s ts o k r o' k' r' :
  reaches tr (mkProcess s ts) -> i <> j -> ts !! i = Some (Do o k) -> ts !! j = Some (Do o' k') ->
  meets o r o' r' -> reaches (tr ++ [o ↝ r; o' ↝ r']) (mkProcess s (<[j := k' r']> (<[i := k r]> ts))).
Proof.
  intros (sched & Hs & <-) Hne Hi Hj Hm. exists (sched ++ [(i, o ↝ r); (j, o' ↝ r')])%list.
  rewrite fmap_app. split; [|done]. eapply schedule_turn; [exact Hs|]. by apply turn_meeting.
Qed.

Definition bridge : NetworkInfo :=
  mkNetworkInfo "n1" resourceActionCreate [mkSubnet "172.18.0.0/16" "127.1.0.0/16" 1].
Definition known : dind_state := mkDindState (mkCache {[ "n1" := bridge ]} ∅ ∅) false.

(** The daemon announces a network, and iptables installs its rule. *)
Definition announced : trace dind :=
  [Events ↝ tt; NextEvent ↝ EventMessage "network" "create" "n1";
   NetworkInspect "n1" ↝ Ok ["172.18.0.0/16"]; Cache_AddNetworkInfo bridge ↝ tt;
   SendNetwork bridge ↝ tt; Select ↝ Networks (Some bridge);
   AppendUnique "nat" "OUTPUT" ["-d"; "172.18.0.0/16"; "-j"; "NETMAP"; "--to"; "127.1.0.0/16"] ↝ None].

Ltac next_of ts i k :=
  let x := eval hnf in (ts !! i) in
  lazymatch x with Some ?p => let y := eval hnf in p in lazymatch y with Do ?o ?f => k o f end end.
(** A turn of a goroutine with an answer and a state of the cache, and a meeting. *)
Ltac alone H i ans s' :=
  lazymatch type of H with
  | reaches _ (mkProcess ?s ?ts) =>
      next_of ts i ltac:(fun o k => eapply (reaches_alone i _ s ts o k ans s') in H;
        [|reflexivity|by vm_compute; eauto 10])
  end.
Ltac meet H i j ans ans' :=
  lazymatch type of H with
  | reaches _ (mkProcess ?s ?ts) =>
      next_of ts i ltac:(fun o k => next_of ts j ltac:(fun o' k' =>
        eapply (reaches_meeting i j _ s ts o k ans o' k' ans') in H;
          [|done|reflexivity|reflexivity|by vm_compute]))
  end.

Lemma network_forwarded : exists q, reaches announced q.
Proof.
  assert (reaches [] (sidecar 1 1)) as H by (exists []; split; [apply schedule_start|done]).
  unfold sidecar in H. set (s := mkDindState NewCache false) in H.
  alone H 0%nat tt s. alone H 0%nat (EventMessage "network" "create" "n1") s.
  alone H 0%nat (Ok (A := list string) ["172.18.0.0/16"]) s. alone H 0%nat tt known.
  meet H 0%nat 1%nat tt (Networks (Some bridge)). alone H 1%nat (None (A := error)) known.
  eexists. exact H.
Qed.

Lemma rules_separated_witness : exists sched : list (nat * event dind),
  rules_after [] sched.*2 = [["-d"; "172.18.0.0/16"; "-j"; "NETMAP"; "--to"; "127.1.0.0/16"]] /\
  NoDup (rules_after [] sched.*2) /\
  exists subnets, NoDup (octets subnets) /\ Forall translated subnets /\
    forall rule, rule ∈ rules_after [] sched.*2 -> rule ∈ rulespec <$> subnets.
Proof.
  destruct network_forwarded as (q & sched & Hs & Htr). exists sched.
  split; [rewrite Htr; by vm_compute|].
  apply (rules_separated 1 1 sched q Hs). rewrite Htr. repeat constructor.
Defined.
End SidecarExamples.
