(* ===== verification/Runner.v ===== *)
(** * src/runner: the entry point of the runner's container

    The preparation of the container, done by four goroutines at once, the
    metrics, the runner process itself, and the request that ends the Docker
    sidecar.  Processes, clients, gauges and what the goroutines return are
    operations of the signature [runner]; the environment of the process is the
    state its methods work on. *)

From S2P Require Import Prelude Text Method Json.
From Stdlib Require Import Ascii.
#[local] Open Scope string_scope.

(** ** os.ExpandEnv *)

Definition isShellSpecialVar (c : ascii) : bool :=
  bool_decide (c ∈ ["*"; "#"; "$"; "@"; "!"; "?"; "-"]%char) || is_digit c.
Definition isAlphaNum (c : ascii) : bool :=
  let n := nat_of_ascii c in
  bool_decide (c = "_"%char) || is_digit c || bool_decide (65 <= n <= 90)%nat
  || bool_decide (97 <= n <= 122)%nat.

(** The text before the first closing brace, and how much was read with it. *)
Fixpoint to_brace (s : list ascii) : option (list ascii * list ascii) :=
  match s with
  | [] => None
  | c :: s =>
      if bool_decide (c = "}"%char) then Some ([], s)
      else match to_brace s with
           | Some (name, rest) => Some (c :: name, rest)
           | None => None
           end
  end.
Fixpoint alphaNums (s : list ascii) : list ascii * list ascii :=
  match s with
  | c :: s' => if isAlphaNum c then let '(name, rest) := alphaNums s' in (c :: name, rest) else ([], s)
  | [] => ([], [])
  end.

(** [getShellName] of what follows a dollar, which is not empty: the name, the
    rest of the text, and whether anything was read. *)
Definition getShellName (s : list ascii) : list ascii * list ascii * bool :=
  match s with
  | "{" :: s' =>
      match s' with
      | c :: "}" :: rest => if isShellSpecialVar c then ([c], rest, true)
                            else match to_brace s' with
                                 | Some (name, rest) => (name, rest, true)
                                 | None => ([], s', true)
                                 end
      | _ => match to_brace s' with
             | Some (name, rest) => (name, rest, true)
             | None => ([], s', true)
             end
      end
  | c :: s' =>
      if isShellSpecialVar c then ([c], s', true)
      else let '(name, rest) := alphaNums s in
           (name, rest, match name with [] => false | _ => true end)
  | [] => ([], [], false)
  end%char.

(** Fuel: the length of the text, since every step reads some of it. *)
Fixpoint expand (fuel : nat) (mapping : string -> string) (s : list ascii) : list ascii :=
  match fuel, s with
  | S fuel, c :: s' =>
      if bool_decide (c = "$"%char) && negb (bool_decide (s' = [])) then
        let '(name, rest, read) := getShellName s' in
        match name, read with
        | [], true => expand fuel mapping rest
        | [], false => c :: expand fuel mapping rest
        | _, _ => (String.list_ascii_of_string (mapping (String.string_of_list_ascii name)) ++
                   expand fuel mapping rest)%list
        end
      else c :: expand fuel mapping s'
  | _, _ => []
  end.
Definition Expand (s : string) (mapping : string -> string) : string :=
  let l := String.list_ascii_of_string s in
  String.string_of_list_ascii (expand (length l) mapping l).

(** ** The operations *)

(** The goroutines of [main], by the channels they answer on. *)
Inductive task : Type := UpdateCaCertificates | SetupGitCredentials | EnsureAwsAndDockerEnv | WaitForDocker.

(** [sts.GetCallerIdentityOutput] *)
Record CallerIdentity : Type := mkCallerIdentity {
  Account : ptr string;
  Arn : ptr string;
  UserId : ptr string;
}.

Inductive runner_op : Type :=
(* os/exec: cmd.Start(), and what cmd.Wait() gives *)
| StartCommand (command : string) (args : list string)
| WaitCommand
(* a send on a channel that nobody will receive from: no answer ever *)
| Block
(* async(f), and the receive from its channel *)
| Async (t : task)
| Receive (t : task)
| Setenv (k v : string)
| Sleep (d : Z)
(* the AWS clients *)
| GetRegion
| LoadDefaultConfig (region : string)
| GetCallerIdentity
(* the Docker client and the Docker configuration file *)
| NewEnvClient
| ServerVersion
| MkdirAll (path : string)
| Stat (path : string)
| OpenFile (path : string)
| LoadFile (path : string)
| LoadText (text : string)
| SaveConfig
(* the gauges and the push gateway *)
| SetRunning (v : Z) (repository job : string)
| SetStartedToCurrentTime (repository job : string)
| SetFinishedToCurrentTime (repository job : string)
| Push
| Dial (network address : string)
| CloseConn.

Definition runner_ans (o : runner_op) : Type :=
  match o with
  | Block => Empty_set
  | GetRegion => ptr string * goerr
  | GetCallerIdentity => ptr CallerIdentity * goerr
  | Dial _ _ => bool * goerr
  | StartCommand _ _ | WaitCommand | Receive _ | Setenv _ _ | LoadDefaultConfig _ | NewEnvClient
  | ServerVersion | MkdirAll _ | Stat _ | OpenFile _ | LoadFile _ | LoadText _ | SaveConfig | Push =>
      option error
  | Async _ | Sleep _ | SetRunning _ _ _ | SetStartedToCurrentTime _ _
  | SetFinishedToCurrentTime _ _ | CloseConn => unit
  end.
Canonical runner : signature := Sig runner_op runner_ans.

#[export] Instance runner_op_eq_dec : EqDecision runner_op.
Proof. assert (EqDecision task) by solve_decision. solve_decision. Defined.
#[export] Instance runner_eq_dec : EqDecision (sop runner) := runner_op_eq_dec.

(** The order in which a map is visited, and the directory of the Docker
    configuration, a clean path, to which [path.Join] only appends. *)
Class RunnerLib : Type := {
  range : gmap string string -> list (string * string);
  dockerConfigDir : string;
}.

(** [errors.Wrap]: nil stays nil. *)
Definition Wrap (err : goerr) (msg : string) : goerr :=
  match err with Some e => Some (EWrap msg e) | None => None end.

(** ** util.go *)

(** [<-run(command, args...)]: the error of a start is sent on the channel before
    it is returned to anybody who could receive from it. *)
Definition run (command : string) (args : list string) : prog runner goerr :=
  let! err := call (StartCommand command args) in
  match err with
  | Some _ => Do (Block : sop runner) (fun r : Empty_set => match r with end)
  | None => call WaitCommand
  end.

(** ** main.go *)

Definition gitHubActionsRunnerPath := "/opt/actions-runner/run.sh".

(** [if err := ...; err != nil { return errors.Wrap(err, msg) }] *)
Definition wrapping (p : prog runner goerr) (msg : string) (k : prog runner goerr) : prog runner goerr :=
  let! err := p in
  match err with Some e => Ret (Some (EWrap msg e)) | None => k end.

Definition updateCaCertificates : prog runner goerr :=
  wrapping (run "sudo" ["update-ca-certificates"]) "Error running update-ca-certificates" (Ret None).

Definition setupGitCredentials : prog runner goerr :=
  wrapping (run "sudo" ["git"; "config"; "--system"; "user.name"; "github-actions[bot]"])
    "Error setting system username for git"
  (wrapping (run "sudo" ["git"; "config"; "--system"; "user.email";
               "41898282+github-actions[bot]@users.noreply.github.com"])
    "Error setting system email for git" (Ret None)).

(** ** The constants *)

Definition awsAccountEnv : string := "AWS_ACCOUNT".
Definition awsCallerArnEnv : string := "AWS_CALLER_ARN".
Definition awsCallerIdEnv : string := "AWS_CALLER_ID".
Definition awsDefaultRegionEnv : string := "AWS_DEFAULT_REGION".
Definition awsRegionEnv : string := "AWS_REGION".
Definition dockerHostEnv : string := "DOCKER_HOST".
Definition dockerAuthsEnv : string := "DOCKER_AUTHS".
Definition dockerCredHelpersEnv : string := "DOCKER_CREDENTIAL_HELPERS".
Definition dockerPluginsEnv : string := "DOCKER_PLUGINS".
Definition dockerConfigAuthsKey : string := "auths".
Definition dockerConfigCredHelpersKey : string := "credHelpers".
Definition dockerConfigPluginsKey : string := "plugins".
Definition gitHubActionsRunnerArgsEnv : string := "GITHUB_ACTIONS_RUNNER_ARGS".

Section process.
Context `{RL : RunnerLib}.
(** The environment the process starts with. *)
Variable env : gmap string string.

Definition Getenv (k : string) : string := default "" (env !! k).
Definition arRepositoryOwner := Getenv "KUBEACTIONS_ACTIONSRUNNER_REPOSITORY_OWNER".
Definition arRepositoryName := Getenv "KUBEACTIONS_ACTIONSRUNNER_REPOSITORY_NAME".
Definition arRepository := arRepositoryOwner ++ "/" ++ arRepositoryName.
Definition arjName := Getenv "KUBEACTIONS_ACTIONSRUNNERJOB_NAME".
Definition hasDockerCapability : bool := bool_decide (is_Some (env !! dockerHostEnv)).

(** *** The environment of AWS *)

Definition detectAwsRegion (env : gmap string string) : prog runner string :=
  match env !! awsRegionEnv with
  | Some awsRegion => Ret awsRegion
  | None =>
      match env !! awsDefaultRegionEnv with
      | Some awsDefaultRegion => Ret awsDefaultRegion
      | None =>
          let! r := call GetRegion in
          Ret (default "us-east-1" (r : ptr string * goerr).1)
      end
  end.

(** The variables to set; what the caller's identity does not say is left out. *)
Definition insert_known (k : string) (v : ptr string) (vars : gmap string string) : gmap string string :=
  match v with Some v => <[k := v]> vars | None => vars end.
Definition awsVars (region : string) (identity : ptr CallerIdentity) : gmap string string :=
  let vars := {[awsRegionEnv := region]} in
  match identity with
  | None => vars
  | Some identity =>
      insert_known awsCallerIdEnv (UserId identity)
        (insert_known awsCallerArnEnv (Arn identity)
           (insert_known awsAccountEnv (Account identity) vars))
  end.

#[local] Abbreviation method A := (Method.method runner (gmap string string) A).

Fixpoint setenvs (vars : list (string * string)) : method unit :=
  match vars with
  | [] => returning (Done (Ok tt))
  | (k, v) :: vars =>
      let^ _ := erring (let! err := call (Setenv k v) in
                        Ret (Wrap err ("Error setting " ++ k ++ " to " ++ v))) in
      let^ _ := modify (<[k := v]>) in
      setenvs vars
  end.

Definition ensureAwsEnv : method unit :=
  get (fun env => env) (fun env =>
  let^ awsRegion := calling (let! r := detectAwsRegion env in Ret (Done (Ok r))) in
  let^ _ := erring (let! err := call (LoadDefaultConfig awsRegion) in
                    Ret (Wrap err "Error loading AWS Configuration with Region")) in
  let^ identity := calling (let! r := call GetCallerIdentity in
                            Ret (Done (Ok (r : ptr CallerIdentity * goerr).1))) in
  setenvs (range (awsVars awsRegion identity))).

(** *** Docker *)

(** The attempts left, and the last error. *)
Fixpoint pingDocker (attempts : nat) (err : goerr) : prog runner goerr :=
  match attempts with
  | O => Ret err
  | S attempts =>
      let! err := call ServerVersion in
      match err with
      | None => Ret None
      | Some _ => let! _ := call (Sleep Second) in pingDocker attempts err
      end
  end.

Definition waitForDocker : prog runner goerr :=
  if negb hasDockerCapability then Ret None
  else
    wrapping (call NewEnvClient) "Error creating docker client"
      (let! err := pingDocker 15 None in Ret (Wrap err "Timeout waiting for docker daemon")).

Definition wrapInJson (env : gmap string string) (key value : string) : string :=
  "{ " ++ quoted key ++ ": " ++ Expand value (fun k => default "" (env !! k)) ++ " }".

(** The text of one variable, when it is set. *)
Definition loadVariable (key name : string) : method unit :=
  get (fun env => env) (fun env =>
  match env !! name with
  | None => returning (Done (Ok tt))
  | Some value =>
      erring (let! err := call (LoadText (wrapInJson env key value)) in
              Ret (Wrap err ("Error reading config from " ++ name)))
  end).

Definition setupDockerConfig : method unit :=
  let path := dockerConfigDir ++ "/config.json" in
  let^ _ := erring (let! err := call (MkdirAll dockerConfigDir) in
                    Ret (Wrap err "Error assuring existence of docker config dir")) in
  let^ exists_ := calling (let! err := call (Stat path) in
                           Ret (Done (Ok (bool_decide (err = None))))) in
  let^ _ :=
    (if exists_ then
       let^ _ := erring (let! err := call (OpenFile path) in
                         Ret (Wrap err "Error opening docker config file")) in
       erring (let! err := call (LoadFile path) in Ret (Wrap err "Error reading docker config file"))
     else returning (Done (Ok tt))) in
  let^ _ := loadVariable dockerConfigAuthsKey dockerAuthsEnv in
  let^ _ := loadVariable dockerConfigCredHelpersKey dockerCredHelpersEnv in
  let^ _ := loadVariable dockerConfigPluginsKey dockerPluginsEnv in
  erring (let! err := call SaveConfig in Ret (Wrap err "Error writing new docker config to file")).

Definition ensureAwsAndDockerEnv : method unit :=
  let^ _ := ensureAwsEnv in setupDockerConfig.

(** *** The runner and what follows it *)

(** A push that fails panics instead of returning its error. *)
Definition pushMetrics : prog runner (outcome unit) :=
  let! err := call Push in
  Ret (match err with
       | Some e => Panicked (EWrap "Error pushing metrics to Prometheus' Push Gateway" e)
       | None => Done tt
       end).

Definition requestDindTermination : prog runner goerr :=
  if negb hasDockerCapability then Ret None
  else
    let! r := call (Dial "tcp" ":2378") in
    let '(conn, err) := r : bool * goerr in
    let! _ := (if conn : bool then call CloseConn else Ret tt) in
    Ret (Wrap err "Error dialing dind termination endpoint").

Definition gitHubActionsRunnerArgs : list string := ["--once"].
Definition getGitHubActionsRunnerArgs : list string :=
  match env !! gitHubActionsRunnerArgsEnv with
  | Some argsRaw => if bool_decide (argsRaw = "") then [] else Split argsRaw ","%char
  | None => gitHubActionsRunnerArgs
  end.

Definition runGitHubActionsRunner : prog runner goerr :=
  wrapping (run gitHubActionsRunnerPath getGitHubActionsRunnerArgs)
    "Error waiting for GitHub Actions Runner process" (Ret None).

(** [defer d]: what is deferred runs however the rest ends; its panic replaces
    the one of the rest. *)
Definition deferring (d p : prog runner (outcome unit)) : prog runner (outcome unit) :=
  let! r := p in
  let! r' := d in
  Ret (match r' with Panicked e => Panicked e | Done _ => r end).

Definition tasks : list task := [UpdateCaCertificates; SetupGitCredentials; EnsureAwsAndDockerEnv; WaitForDocker].
Fixpoint async_all (ts : list task) : prog runner unit :=
  match ts with
  | [] => Ret tt
  | t :: ts => let! _ := call (Async t) in async_all ts
  end.
(** The results are looked at in order; the first error panics. *)
Fixpoint receive_all (ts : list task) : prog runner (outcome unit) :=
  match ts with
  | [] => Ret (Done tt)
  | t :: ts =>
      let! err := call (Receive t) in
      match err with Some e => Ret (Panicked e) | None => receive_all ts end
  end.

Definition finishing : prog runner (outcome unit) :=
  let! _ := call (SetRunning 0 arRepository arjName) in
  let! _ := call (SetFinishedToCurrentTime arRepository arjName) in
  pushMetrics.
Definition terminating : prog runner (outcome unit) :=
  let! _ := requestDindTermination in Ret (Done tt).

Definition main : prog runner (outcome unit) :=
  let! _ := async_all tasks in
  let! r := receive_all tasks in
  match r with
  | Panicked e => Ret (Panicked e)
  | Done _ =>
      deferring terminating
        (let! _ := call (SetRunning 1 arRepository arjName) in
         let! _ := call (SetStartedToCurrentTime arRepository arjName) in
         let! r := pushMetrics in
         match r with
         | Panicked e => Ret (Panicked e)
         | Done _ =>
             deferring finishing
               (let! err := runGitHubActionsRunner in
                Ret (match err with Some e => Panicked e | None => Done tt end))
         end)
  end.
End process.

(** ** How the runner ends *)

Section ending.
Context `{RL : RunnerLib}.

Lemma run_spec command args : always (run command args) (fun tr err =>
  tr = [StartCommand command args ↝ None; WaitCommand ↝ err]).
Proof. unfold run. cbn. intros [e|]; cbn; [by intros []|done]. Qed.

(** A command is only waited for, and its caller only goes on, if it could be
    started: no run of [run] that ends has a start that failed. *)
Lemma run_needs_start command args tr err e :
  runs (run command args) tr err -> ~ answered tr (StartCommand command args) (Some e).
Proof.
  intros Hrun. rewrite (runs_always _ _ _ _ (run_spec command args) Hrun). unfold answered.
  intros Hin. apply elem_of_cons in Hin as [Hin|Hin]; [by apply event_inj in Hin|].
  apply elem_of_cons in Hin as [Hin|Hin]; [by apply (f_equal ev_op) in Hin|].
  by apply not_elem_of_nil in Hin.
Qed.

Lemma runGitHubActionsRunner_spec env : always (runGitHubActionsRunner env) (fun tr err =>
  exists waited, tr = [StartCommand gitHubActionsRunnerPath (getGitHubActionsRunnerArgs env) ↝ None;
                       WaitCommand ↝ waited] /\
    err = Wrap waited "Error waiting for GitHub Actions Runner process").
Proof.
  unfold runGitHubActionsRunner, wrapping. apply always_bind. eapply always_mono; [apply run_spec|].
  intros tr [e|] ->; cbn; eauto.
Qed.

Lemma terminating_spec env : always (terminating env) (fun tr out => out = Done tt /\
  if hasDockerCapability env
  then exists r post, tr = (Dial "tcp" ":2378" ↝ r) :: post /\ Forall (fun o => o = CloseConn) (ops post)
  else tr = []).
Proof.
  unfold terminating, requestDindTermination. destruct (hasDockerCapability env); cbn; [|done].
  intros [[] err]; cbn; (split; [done|]); do 2 eexists; (split; [done|]); by repeat constructor.
Qed.

Lemma receive_all_spec ts : always (receive_all ts) (fun tr out =>
  match out with
  | Done _ => tr = (fun t => (Receive t : sop runner) ↝ None) <$> ts
  | Panicked e => exists done t, tr = ((fun t => (Receive t : sop runner) ↝ None) <$> done) ++ [Receive t ↝ Some e]
  end)%list.
Proof.
  induction ts as [|t ts IH]; cbn; [done|]. intros [e|]; cbn; [by exists [], t|].
  eapply always_mono; [exact IH|]. intros tr [[]|e]; [by intros ->|].
  intros (done & t' & ->). by exists (t :: done), t'.
Qed.

(** The part of [main] under its first deferred function. *)
Definition working (env : gmap string string) : prog runner (outcome unit) :=
  let! _ := call (SetRunning 1 (arRepository env) (arjName env)) in
  let! _ := call (SetStartedToCurrentTime (arRepository env) (arjName env)) in
  let! r := pushMetrics in
  match r with
  | Panicked e => Ret (Panicked e)
  | Done _ =>
      deferring (finishing env)
        (let! err := runGitHubActionsRunner env in
         Ret (match err with Some e => Panicked e | None => Done tt end))
  end.

(** How it ends: the process only runs once the metrics could be pushed, and it
    is followed by the last push, whose failure, like that of the process, makes
    the rest end in a panic. *)
Definition worked (env : gmap string string) (tr : trace runner) (out : outcome unit) : Prop :=
  let repository := arRepository env in
  let job := arjName env in
  let before (pushed : goerr) : trace runner :=
    [SetRunning 1 repository job ↝ tt; SetStartedToCurrentTime repository job ↝ tt; Push ↝ pushed] in
  (exists e msg, tr = before (Some e) /\ out = Panicked (EWrap msg e)) \/
  (exists waited finished,
     tr = (before None ++
           [StartCommand gitHubActionsRunnerPath (getGitHubActionsRunnerArgs env) ↝ None;
            WaitCommand ↝ waited;
            SetRunning 0 repository job ↝ tt; SetFinishedToCurrentTime repository job ↝ tt;
            Push ↝ finished])%list /\
     (out = Done tt <-> waited = None /\ finished = None)).

Lemma working_spec env : always (working env) (worked env).
Proof.
  unfold working, pushMetrics. cbn -[deferring runGitHubActionsRunner].
  intros [] [] [e|]; cbn -[deferring runGitHubActionsRunner].
  { left. eauto. }
  unfold deferring. apply always_bind, always_bind. eapply always_mono; [apply runGitHubActionsRunner_spec|].
  intros tr err (waited & -> & ->). cbn. intros [] [] finished. cbn. right. exists waited, finished.
  split; [done|]. destruct waited, finished; cbn; split; [done|by intros [? ?]|done|by intros [? ?]|done|by intros [? ?]|done|done].
Qed.

(** [C17] How the runner's container ends.  If one of the four preparations fails,
    [main] panics with the error of the first in their order, and neither the
    runner process is started nor the sidecar told to end.  Otherwise, whatever
    goes wrong later, with the metrics or with the process itself, the last thing
    a container with a sidecar does is to tell it to end; the process has run and
    its end been pushed to the metrics before, unless the first push failed; and
    [main] returns normally exactly when nothing failed. *)
Theorem main_ends env tr out :
  runs (main env) tr out ->
  exists done_ rest, tr = (((fun t => (Async t : sop runner) ↝ tt) <$> tasks) ++
                         ((fun t => (Receive t : sop runner) ↝ None) <$> done_) ++ rest)%list /\
  ((exists t e, rest = [Receive t ↝ Some e] /\ out = Panicked e) \/
   (done_ = tasks /\ exists worked_ last_, rest = (worked_ ++ last_)%list /\
      worked env worked_ out /\
      if hasDockerCapability env
      then exists r post, last_ = (Dial "tcp" ":2378" ↝ r) :: post /\ Forall (fun o => o = CloseConn) (ops post)
      else last_ = [])).
Proof.
  intros Hrun. unfold main in Hrun. fold (working env) in Hrun.
  cbn [async_all tasks bind call] in Hrun.
  destruct Hrun as ([] & t1 & -> & [] & t2 & -> & [] & t3 & -> & [] & t4 & -> & Hrun).
  change (runs (let! r := receive_all tasks in
                match r with
                | Panicked e => Ret (Panicked e)
                | Done _ => deferring (terminating env) (working env)
                end) t4 out) in Hrun.
  apply runs_bind in Hrun as (t5 & r & t6 & -> & H1 & H2).
  pose proof (runs_always _ _ _ _ (receive_all_spec tasks) H1) as Hr. cbv beta in Hr.
  destruct r as [[]|e].
  - subst t5. exists tasks, t6. split; [done|]. right. split; [done|].
    apply runs_bind in H2 as (t7 & r & t8 & -> & H2 & H3).
    apply runs_bind in H3 as (t9 & r' & t10 & -> & H3 & [-> ->]).
    destruct (runs_always _ _ _ _ (terminating_spec env) H3) as [-> Ht].
    exists t7, t9. rewrite app_nil_r.
    split_and!; [done|exact (runs_always _ _ _ _ (working_spec env) H2)|done].
  - destruct Hr as (done_ & t & ->). destruct H2 as [-> ->]. exists done_, [Receive t ↝ Some e].
    rewrite app_nil_r. split; [done|]. left. by exists t, e.
Qed.
End ending.

(** ** The arguments of the runner *)

Section arguments.

Lemma Split_cons s sep : exists word words, Split s sep = word :: words.
Proof.
  destruct s as [|c s]; cbn; [eauto|]. case_bool_decide; [eauto|].
  destruct (Split s sep); eauto.
Qed.

Lemma join_Split s sep : join (String sep "") (Split s sep) = s.
Proof.
  induction s as [|c s IH]; cbn; [done|]. destruct (Split_cons s sep) as (word & words & Hs).
  rewrite Hs in *. case_bool_decide as Hc.
  - subst c. cbn in IH |- *. by rewrite IH.
  - cbn in IH |- *. destruct words; by rewrite <- IH.
Qed.

Lemma Split_no_sep s sep : Forall (fun word => sep ∉ String.list_ascii_of_string word) (Split s sep).
Proof.
  induction s as [|c s IH]; cbn; [by repeat constructor; apply not_elem_of_nil|].
  case_bool_decide as Hc; [constructor; [apply not_elem_of_nil|done]|].
  destruct (Split_cons s sep) as (word & words & Hs). rewrite Hs in *.
  apply Forall_cons in IH as [Hw IH]. constructor; [|done]. cbn. apply not_elem_of_cons. by split.
Qed.

(** The arguments of the runner process are what the variable says: joined
    with commas they are its text again, and none of them contains a comma; an
    empty text is no arguments at all, and without the variable the runner
    runs one job. *)
Theorem runner_arguments (env : gmap string string) :
  match env !! gitHubActionsRunnerArgsEnv with
  | None => getGitHubActionsRunnerArgs env = ["--once"]
  | Some raw =>
      join "," (getGitHubActionsRunnerArgs env) = raw /\
      Forall (fun arg => ","%char ∉ String.list_ascii_of_string arg) (getGitHubActionsRunnerArgs env) /\
      (raw = "" <-> getGitHubActionsRunnerArgs env = [])
  end.
Proof.
  unfold getGitHubActionsRunnerArgs. destruct (env !! _) as [raw|]; [|done].
  case_bool_decide as Hraw; [subst raw; by repeat constructor|].
  split_and!; [apply join_Split|apply Split_no_sep|]. split; [done|].
  destruct (Split_cons raw ","%char) as (word & words & ->). done.
Qed.
End arguments.

(** ** The environment of the container *)

Section environment.
Context `{RL : RunnerLib}.

(** The texts that are added to the Docker configuration. *)
Definition texts (tr : trace runner) : list string :=
  omap (fun o => match o with LoadText text => Some text | _ => None end) (ops tr).
Lemma texts_app tr1 tr2 : texts (tr1 ++ tr2) = (texts tr1 ++ texts tr2)%list.
Proof. unfold texts. by rewrite ops_app, omap_app. Qed.

Lemma setenvs_spec vars env : always (setenvs vars env) (fun tr r =>
  texts tr = [] /\
  match r.1 with
  | Done (Ok _) => r.2 = foldl (fun env kv => <[kv.1 := kv.2]> env) env vars
  | _ => True
  end).
Proof.
  revert env. induction vars as [|[k v] vars IH]; intros env; cbn [setenvs]; [done|].
  apply always_andThen. cbn. intros [e|]; cbn; [done|].
  eapply always_mono; [apply IH|]. by intros tr r [H1 H2].
Qed.

(** Setting every pair of a map, in any order, is its union. *)
Lemma foldl_insert_union (vars env : gmap string string) l :
  l ≡ₚ map_to_list vars -> foldl (fun env kv => <[kv.1 := kv.2]> env) env l = vars ∪ env.
Proof.
  intros Hl. assert (NoDup l.*1) as Hnd by (rewrite Hl; apply NoDup_fst_map_to_list).
  assert (list_to_map l = vars) as <- 
    by (by rewrite (list_to_map_proper l (map_to_list vars)), list_to_map_to_list).
  clear Hl. revert env. induction l as [|[k v] l IH]; intros env; cbn; [by rewrite (left_id_L ∅ _)|].
  apply NoDup_cons in Hnd as [Hk Hnd]. rewrite IH by done. rewrite insert_union_singleton_l.
  rewrite (insert_union_singleton_l (list_to_map l)), (assoc_L (∪)). f_equal.
  apply map_union_comm. apply map_disjoint_singleton_r_2. by apply not_elem_of_list_to_map_1.
Qed.

Lemma runs_erring (p : prog runner goerr) (env : gmap string string) tr env' :
  runs (erring p env) tr (Done (Ok tt), env') -> env' = env /\ runs p tr None.
Proof.
  unfold erring. intros [H ->]%runs_calling_ok. split; [done|].
  apply runs_bind in H as (t1 & [e|] & t2 & -> & H & [-> [=]]). by rewrite app_nil_r.
Qed.

Lemma loadVariable_spec key name env : always (loadVariable key name env) (fun tr r =>
  r.2 = env /\
  texts tr = match env !! name with Some value => [wrapInJson env key value] | None => [] end).
Proof.
  unfold loadVariable, get, reading. destruct (env !! name) as [value|]; [|done]. by cbn.
Qed.

(** The texts the three variables give. *)
Definition variable_texts (env : gmap string string) : list string :=
  omap (fun kn => (fun value => wrapInJson env kn.1 value) <$> env !! kn.2)
    [(dockerConfigAuthsKey, dockerAuthsEnv); (dockerConfigCredHelpersKey, dockerCredHelpersEnv); (dockerConfigPluginsKey, dockerPluginsEnv)].

Lemma setupDockerConfig_spec env tr env' :
  runs (setupDockerConfig env) tr (Done (Ok tt), env') ->
  env' = env /\ texts tr = variable_texts env.
Proof.
  intros (t1 & [] & e1 & t2 & -> & H1 & H)%runs_andThen_ok.
  apply runs_erring in H1 as [-> (r1 & t1' & -> & [-> _])].
  apply runs_andThen_ok in H as (t3 & exists_ & e2 & t4 & -> & H2 & H).
  assert (e2 = env /\ texts t3 = []) as [-> Ht3].
  { destruct H2 as (r & t & -> & H2). cbn in H2. by destruct H2 as [-> [= _ ->]]. }
  apply runs_andThen_ok in H as (t5 & [] & e3 & t6 & -> & H3 & H).
  assert (e3 = env /\ texts t5 = []) as [-> Ht5].
  { destruct exists_; [|by destruct H3 as [-> [= ->]]].
    destruct H3 as ([e|] & t & -> & H3); cbn in H3; [by destruct H3|].
    destruct H3 as ([e|] & t' & -> & H3); cbn in H3; [by destruct H3|]. by destruct H3 as [-> [= ->]]. }
  apply runs_andThen_ok in H as (t7 & [] & e4 & t8 & -> & H4 & H).
  destruct (runs_always _ _ _ _ (loadVariable_spec _ _ env) H4) as [He4 Ht7]. cbn in He4. subst e4.
  apply runs_andThen_ok in H as (t9 & [] & e5 & t10 & -> & H5 & H).
  destruct (runs_always _ _ _ _ (loadVariable_spec _ _ env) H5) as [He5 Ht9]. cbn in He5. subst e5.
  apply runs_andThen_ok in H as (t11 & [] & e6 & t12 & -> & H6 & H).
  destruct (runs_always _ _ _ _ (loadVariable_spec _ _ env) H6) as [He6 Ht11]. cbn in He6. subst e6.
  apply runs_erring in H as [-> (r12 & t12' & -> & [-> _])]. split; [done|].
  rewrite !texts_app, Ht3, Ht5, Ht7, Ht9, Ht11. unfold texts, variable_texts. cbn.
  destruct (env !! dockerAuthsEnv), (env !! dockerCredHelpersEnv), (env !! dockerPluginsEnv); done.
Qed.

(** The region, by the environment or by the instance's metadata. *)
Definition region_found (env : gmap string string) (tr : trace runner) (region : string) : Prop :=
  match env !! awsRegionEnv, env !! awsDefaultRegionEnv with
  | Some r, _ | None, Some r => region = r
  | None, None => exists r, answered tr GetRegion r /\ region = default "us-east-1" r.1
  end.

(** The credentials of the container's Docker client may refer to its AWS
    account: when the preparation of both succeeds, the environment has been
    extended by the region, which is the one it says, or the default one it says,
    or the instance's, or a fixed one, and by what the caller's identity says;
    and each of the three Docker variables that is set then has been added to the
    configuration, under its key, with the variables of the extended environment
    filled in. *)
Theorem docker_config_sees_aws env tr env' :
  (forall m, range m ≡ₚ map_to_list m) ->
  runs (ensureAwsAndDockerEnv env) tr (Done (Ok tt), env') ->
  exists region identity err, region_found env tr region /\
    answered tr GetCallerIdentity (identity, err) /\
    env' = awsVars region identity ∪ env /\
    texts tr = variable_texts env'.
Proof.
  intros Hrange (t1 & [] & e1 & t2 & -> & H1 & [-> Ht2]%setupDockerConfig_spec)%runs_andThen_ok.
  unfold ensureAwsEnv, get, reading in H1.
  apply runs_andThen_ok in H1 as (t3 & region & e2 & t4 & -> & H1 & H).
  apply runs_calling_ok in H1 as [H1 ->].
  apply runs_andThen_ok in H as (t5 & [] & e3 & t6 & -> & H2 & H).
  apply runs_erring in H2 as [-> (r2 & t2' & -> & [-> _])].
  apply runs_andThen_ok in H as (t7 & identity & e4 & t8 & -> & H3 & H).
  apply runs_calling_ok in H3 as [H3 ->]. destruct H3 as ([i err] & t & -> & H3).
  cbn in H3. destruct H3 as [-> [= ->]].
  destruct (runs_always _ _ _ _ (setenvs_spec _ _) H) as [Ht8 He]. cbn in He.
  rewrite (foldl_insert_union _ _ _ (Hrange _)) in He. subst e1.
  exists region, i, err. split_and!.
  - unfold region_found. unfold detectAwsRegion in H1.
    destruct (env !! awsRegionEnv) as [r|]; [by destruct H1 as [_ [= ->]]|].
    destruct (env !! awsDefaultRegionEnv) as [r|]; [by destruct H1 as [_ [= ->]]|].
    destruct H1 as (r & t & -> & H1). cbn in H1. destruct H1 as [_ [= ->]].
    exists r. split; [apply answered_here|done].
  - unfold answered. rewrite !elem_of_app. left. right. right. left. apply list_elem_of_here.
  - done.
  - rewrite !texts_app, Ht8, Ht2. cbn.
    assert (texts t3 = []) as ->; [|done].
    unfold detectAwsRegion in H1.
    destruct (env !! awsRegionEnv) as [r|]; [by destruct H1 as [-> _]|].
    destruct (env !! awsDefaultRegionEnv) as [r|]; [by destruct H1 as [-> _]|].
    destruct H1 as (r & t & -> & H1). cbn in H1. by destruct H1 as [-> _].
Qed.
End environment.

(** ** Examples *)

Module RunnerExamples.

#[export] Instance runner_lib : RunnerLib :=
  {| range := map_to_list; dockerConfigDir := "/root/.docker" |}.

Definition environment : gmap string string :=
  {[ "DOCKER_HOST" := "unix:///run/docker.sock";
     "DOCKER_AUTHS" := String.append (String.append "{" (quoted "${AWS_ACCOUNT}.ecr")) ": {}}";
     "GITHUB_ACTIONS_RUNNER_ARGS" := "--once,--labels" ]}.

(** A run computed from answers given for some of the operations: [Block] has
    none. *)
Section partial.
Context {E : signature}.
Variable answer : forall o : sop E, option (sans E o).

Fixpoint follow {A} (p : prog E A) : option (trace E * A) :=
  match p with
  | Ret a => Some ([], a)
  | Do o k =>
      match answer o with
      | Some r => match follow (k r) with
                  | Some (tr, a) => Some ((o ↝ r) :: tr, a)
                  | None => None
                  end
      | None => None
      end
  end.

Lemma follow_runs {A} (p : prog E A) tr a : follow p = Some (tr, a) -> runs p tr a.
Proof.
  revert tr. induction p as [a'|o k IH]; intros tr; cbn; [by intros [= <- <-]|].
  destruct (answer o) as [r|]; [|done]. destruct (follow (k r)) as [[t b]|] eqn:Hk; [|done].
  intros [= <- <-]. eauto.
Qed.
End partial.

(** Everything can be started and written; the process of the runner fails, and
    the caller's account is known, but not its region. *)
Definition serve_runner (o : sop runner) : option (sans runner o) :=
  match o return option (runner_ans o) with
  | Block => None
  | WaitCommand => Some (Some (EOther "exit status 1"))
  | GetRegion => Some (None, Some (EOther "no metadata"))
  | GetCallerIdentity =>
      Some (Some {| Account := Some "1234"; Arn := Some "arn:aws:iam::1234:role/runner"; UserId := None |},
            None)
  | Dial _ _ => Some (true, None)
  | Stat _ => Some (Some (EOther "no such file"))
  | StartCommand _ _ | Receive _ | Setenv _ _ | LoadDefaultConfig _ | NewEnvClient | ServerVersion
  | MkdirAll _ | OpenFile _ | LoadFile _ | LoadText _ | SaveConfig | Push => Some None
  | Async _ | Sleep _ | SetRunning _ _ _ | SetStartedToCurrentTime _ _
  | SetFinishedToCurrentTime _ _ | CloseConn => Some tt
  end.

Definition main_run : trace runner * outcome unit :=
  default ([], Done tt) (follow serve_runner (main environment)).
Example main_outcome : main_run.2 =
  Panicked (EWrap "Error waiting for GitHub Actions Runner process" (EOther "exit status 1")).
Proof. vm_compute. reflexivity. Qed.
Lemma main_runs : runs (main environment) main_run.1 main_run.2.
Proof.
  unfold main_run. destruct (follow serve_runner (main environment)) as [[tr out]|] eqn:H.
  - cbn. exact (follow_runs _ _ _ _ H).
  - exfalso. vm_compute in H. discriminate.
Qed.

Lemma main_ends_witness :
  exists done_ rest, main_run.1 = (((fun t => (Async t : sop runner) ↝ tt) <$> tasks) ++
                         ((fun t => (Receive t : sop runner) ↝ None) <$> done_) ++ rest)%list /\
  ((exists t e, rest = [Receive t ↝ Some e] /\ main_run.2 = Panicked e) \/
   (done_ = tasks /\ exists worked_ last_, rest = (worked_ ++ last_)%list /\
      worked environment worked_ main_run.2 /\
      if hasDockerCapability environment
      then exists r post, last_ = (Dial "tcp" ":2378" ↝ r) :: post /\ Forall (fun o => o = CloseConn) (ops post)
      else last_ = [])).
Proof. exact (main_ends environment _ _ main_runs). Defined.

Definition aws_run : trace runner * (outcome (result unit) * gmap string string) :=
  default ([], (Done (Ok tt), environment)) (follow serve_runner (ensureAwsAndDockerEnv environment)).
Lemma aws_runs : runs (ensureAwsAndDockerEnv environment) aws_run.1 (Done (Ok tt), aws_run.2.2).
Proof.
  assert (aws_run.2 = (Done (Ok tt), aws_run.2.2)) as <- by (by vm_compute).
  unfold aws_run. destruct (follow serve_runner (ensureAwsAndDockerEnv environment)) as [[tr out]|] eqn:H.
  - cbn. exact (follow_runs _ _ _ _ H).
  - exfalso. vm_compute in H. discriminate.
Qed.
Example aws_texts : texts aws_run.1 =
  [String.append (String.append "{ " (quoted "auths"))
     (String.append ": {" (String.append (quoted "1234.ecr") ": {}} }"))].
Proof. vm_compute. reflexivity. Qed.

Lemma docker_config_sees_aws_witness :
  exists region identity err, region_found environment aws_run.1 region /\
    answered aws_run.1 GetCallerIdentity (identity, err) /\
    aws_run.2.2 = awsVars region identity ∪ environment /\
    texts aws_run.1 = variable_texts aws_run.2.2.
Proof.
  exact (docker_config_sees_aws environment _ _ (fun m => reflexivity (map_to_list m)) aws_runs).
Defined.
End RunnerExamples.
