(* ===== verification/Signals.v ===== *)
(** * A command and its signals

    [util.go]'s [run] starts a command with two goroutines: one forwards the
    signals that the runner's process gets, the other waits for the command, sends
    its status to the caller and then ends the first.  The theorem is about every
    schedule of them, of the signals that arrive and of the end of the command. *)

From S2P Require Export Prelude Goroutines.
#[local] Open Scope string_scope.
#[local] Open Scope list_scope.

(** ** The operations *)

Definition signal : Type := Z.

Inductive signal_op : Type :=
(* cmd.Start(), with its error wrapped *)
| Start
(* go func() { ... }() *)
| GoForward
| GoWait
(* signals := make(chan os.Signal, 1); signal.Notify(signals) *)
| Notify
(* for sig := range signals *)
| ReceiveSignal
(* select { case <-running: return; default: break } *)
| PollRunning
| ProcessSignal (sig : signal)
(* cmd.Wait() *)
| Wait
(* ret <- err, and the receive of run's caller *)
| SendRet (err : goerr)
| ReceiveRet
(* running <- err: what is offered, and that it has been taken *)
| OfferRunning (err : goerr)
| RunningTaken
(* the system: a signal for the runner's process, and the end of the command *)
| Arrive (sig : signal)
| Exit (err : goerr).
Definition signal_ans (o : signal_op) : Type :=
  match o with
  | Start | Wait | ReceiveRet => option error
  | ReceiveSignal => signal
  | PollRunning => bool
  | _ => unit
  end.
Canonical signalling : signature := Sig signal_op signal_ans.
Abbreviation goroutine := (prog signalling goerr).

(** [run], and the receive from the channel that it returns; when the start fails,
    the error is sent to nobody. *)
Definition runCommand : goroutine :=
  let! err := call Start in
  match err with
  | Some e => let! _ := call (SendRet (Some e)) in call ReceiveRet
  | None =>
      let! _ := call GoForward in
      let! _ := call Notify in
      let! _ := call GoWait in
      call ReceiveRet
  end.

(** The two goroutines; the loop over the signals is followed for [fuel] of them. *)
Fixpoint forwarder (fuel : nat) : goroutine :=
  match fuel with
  | O => Ret None
  | S fuel =>
      let! sig := call ReceiveSignal in
      let! ended := call PollRunning in
      if ended : bool then Ret None
      else let! _ := call (ProcessSignal sig) in forwarder fuel
  end.
Definition waiter : goroutine :=
  let! err := call Wait in
  let! _ := call (SendRet err) in
  let! _ := call (OfferRunning err) in
  let! _ := call RunningTaken in
  Ret None.

(** The system: the signals that arrive once they are listened for, and the status
    the command ends with. *)
Fixpoint arrivals (sigs : list signal) : goroutine :=
  match sigs with
  | [] => Ret None
  | sig :: sigs => let! _ := call (Arrive sig) in arrivals sigs
  end.
Definition command (status : goerr) : goroutine := let! _ := call (Exit status) in Ret None.

(** ** What is shared *)

Inductive child_state : Type := NotStarted | Running | Ended (err : goerr).
Record signal_state : Type := mkSignalState {
  child : child_state;
  (** [signals] is listened to, and its buffer *)
  notified : bool;
  buffer : option signal;
  (** the send on [running] *)
  offered : bool;
  taken : bool;
  (** the signals the command has been sent while it was running *)
  delivered : list signal;
}.
Definition new_signal_state : signal_state := mkSignalState NotStarted false None false false [].

(** [signal.Notify] does not wait: a signal that finds the buffer full is dropped. *)
Definition shares (o : signal_op) (s : signal_state) : signal_ans o -> signal_state -> Prop :=
  let '(mkSignalState c n b f t d) := s in
  match o with
  | Start => fun err s' => s' = mkSignalState (match err with None => Running | Some _ => c end) n b f t d
  | GoForward | GoWait => fun _ s' => s' = s
  | Notify => fun _ s' => s' = mkSignalState c true b f t d
  | ReceiveSignal => fun sig s' => b = Some sig /\ s' = mkSignalState c n None f t d
  | PollRunning => fun r s' => r = f && negb t /\ s' = mkSignalState c n b f (t || f) d
  | ProcessSignal sig => fun _ s' =>
      s' = mkSignalState c n b f t (match c with Running => d ++ [sig] | _ => d end)
  | Wait => fun err s' => c = Ended err /\ s' = s
  | SendRet _ | ReceiveRet => fun _ _ => False
  | OfferRunning _ => fun _ s' => s' = mkSignalState c n b true t d
  | RunningTaken => fun _ s' => t = true /\ s' = s
  | Arrive sig => fun _ s' => n = true /\
      s' = mkSignalState c n (match b with Some _ => b | None => Some sig end) f t d
  | Exit err => fun _ s' => c = Running /\ s' = mkSignalState (Ended err) n b f t d
  end.
Definition meets (o : signal_op) (_ : signal_ans o) (o' : signal_op) : signal_ans o' -> Prop :=
  match o' with
  | ReceiveRet => fun r => match o with SendRet err => r = err | _ => False end
  | _ => fun _ => False
  end.

Section signals.
Variables (sigs : list signal) (status : goerr).

Definition starts (o : signal_op) : list goroutine :=
  match o with
  | GoForward => [forwarder (S (length sigs))]
  | GoWait => [waiter]
  | _ => []
  end.
Definition commanded : process (E := signalling) (A := goerr) :=
  mkProcess new_signal_state [runCommand; arrivals sigs; command status].
Abbreviation signal_turn := (turn (A := goerr) shares starts meets).
Abbreviation signal_schedule := (schedule (A := goerr) shares starts meets).

(** ** The phases of the goroutines *)

Inductive caller_phase : Type :=
| CStart | CFailed (e : error) | CForward | CNotify | CWait | CReceive | CDone (err : goerr).
Definition caller (c : caller_phase) : goroutine :=
  match c with
  | CStart => runCommand
  | CFailed e => let! _ := call (SendRet (Some e)) in call ReceiveRet
  | CForward => let! _ := call GoForward in let! _ := call Notify in let! _ := call GoWait in call ReceiveRet
  | CNotify => let! _ := call Notify in let! _ := call GoWait in call ReceiveRet
  | CWait => let! _ := call GoWait in call ReceiveRet
  | CReceive => call ReceiveRet
  | CDone err => Ret err
  end.

(** The forwarder: waiting, with a signal before the poll or after it, or gone. *)
Inductive forward_phase : Type := FWaiting | FPolling (sig : signal) | FSending (sig : signal) | FGone.
Definition forwarding (n : nat) (f : forward_phase) : goroutine :=
  match f with
  | FWaiting => forwarder n
  | FPolling sig =>
      let! ended := call PollRunning in
      if ended : bool then Ret None else let! _ := call (ProcessSignal sig) in forwarder n
  | FSending sig => let! _ := call (ProcessSignal sig) in forwarder n
  | FGone => Ret None
  end.
Definition in_hand (f : forward_phase) : list signal :=
  match f with FPolling sig | FSending sig => [sig] | _ => [] end.

Inductive wait_phase : Type := WWaiting | WSending (err : goerr) | WOffering (err : goerr) | WOffered | WDone.
Definition waiting (w : wait_phase) : goroutine :=
  match w with
  | WWaiting => waiter
  | WSending err => let! _ := call (SendRet err) in let! _ := call (OfferRunning err) in
                    let! _ := call RunningTaken in Ret None
  | WOffering err => let! _ := call (OfferRunning err) in let! _ := call RunningTaken in Ret None
  | WOffered => let! _ := call RunningTaken in Ret None
  | WDone => Ret None
  end.

(** ** The invariant *)

Definition started (c : caller_phase) : bool := match c with CStart | CFailed _ => false | _ => true end.
Definition forwards (c : caller_phase) : bool :=
  match c with CNotify | CWait | CReceive | CDone _ => true | _ => false end.
Definition waits (c : caller_phase) : bool := match c with CReceive | CDone _ => true | _ => false end.

Definition commanding (s : signal_state) : goroutine :=
  match child s with Ended _ => Ret None | _ => command status end.
Definition goroutines (s : signal_state) (c : caller_phase) (n : nat) (f : forward_phase) (w : wait_phase)
    (rest : list signal) : list goroutine :=
  caller c :: arrivals rest :: commanding s ::
  (if forwards c then [forwarding n f] else []) ++ (if waits c then [waiting w] else []).

(** What is known of the shared state in each phase. *)
Definition child_known (s : signal_state) (c : caller_phase) (w : wait_phase) : Prop :=
  match child s with
  | NotStarted => started c = false
  | Running => started c = true
  | Ended err => started c = true /\ err = status
  end /\
  match w with
  | WWaiting => offered s = false
  | WSending err | WOffering err => err = status /\ child s = Ended status /\ offered s = false
  | WOffered | WDone => child s = Ended status
  end /\
  match c with
  | CDone err => err = status /\ child s = Ended status /\ w <> WWaiting
  | CReceive => match w with WWaiting | WSending _ => True | _ => False end
  | _ => w = WWaiting
  end.
Definition signals_known (s : signal_state) (c : caller_phase) (n : nat) (f : forward_phase) (rest : list signal) : Prop :=
  (exists seen, sigs = seen ++ rest /\
     delivered s ++ in_hand f ++ option_list (buffer s) `sublist_of` seen) /\
  match f with
  | FGone => taken s = true /\ offered s = true
  | _ => taken s = false /\ (length rest + length (option_list (buffer s)) < n)%nat
  end /\
  (forwards c = false -> f = FWaiting /\ n = S (length sigs) /\ notified s = false /\ buffer s = None).

Definition known (q : process (E := signalling) (A := goerr) (S := signal_state)) : Prop :=
  exists c n f w rest, threads q = goroutines (shared q) c n f w rest /\
    child_known (shared q) c w /\ signals_known (shared q) c n f rest.

Lemma known_start : known commanded.
Proof.
  exists CStart, (S (length sigs)), FWaiting, WWaiting, sigs. split; [done|].
  split; [by repeat split|]. split; [|split; [split; [done|cbn; lia]|done]].
  exists []. split; [done|]. apply sublist_nil_l.
Qed.

(** The turns of each goroutine. *)
Definition turn_of (i : nat) (q : process (E := signalling) (A := goerr) (S := signal_state)) : Prop :=
  forall p step q', threads q !! i = Some p ->
    match p with
     | Do o k => exists r s', shares o (shared q) r s' /\ step = [(i, o ↝ r)] /\
                   q' = mkProcess s' (<[i := k r]> (threads q) ++ starts o)%list
     | Ret _ => False
     end -> known q'.

(** The goroutines after a turn are those of the new phases. *)
Ltac same_threads :=
  unfold goroutines; cbn; repeat match goal with H : ?b = true |- context [if ?b then _ else _] => rewrite H end;
  cbn; rewrite ?app_nil_r; reflexivity.

Lemma caller_turns q : known q -> turn_of 0 q.
Proof.
  intros (c & n & f & w & rest & Hts & Hc & Hs) p step q'. rewrite Hts. cbn [lookup goroutines list_lookup].
  intros [= <-]. destruct (shared q) as [ch nt bu off ta de].
  destruct c; cbn; try done; intros (r & s' & Hsh & _ & ->); cbn in Hsh.
  - subst s'. destruct Hc as (Hc1 & Hc2 & ->). cbn in *.
    destruct r as [e|].
    + exists (CFailed e), n, f, WWaiting, rest. split; [by destruct ch|]. done.
    + exists CForward, n, f, WWaiting, rest. split; [by destruct ch; try destruct Hc1|]. done.
  - done.
  - subst s'. destruct Hc as (Hc1 & Hc2 & ->). destruct Hs as (H1 & H2 & H3).
    destruct (H3 eq_refl) as (-> & -> & Hn & Hb).
    exists CNotify, (S (length sigs)), FWaiting, WWaiting, rest. split; [done|]. split; [done|]. split; [exact H1|]. by split.
  - subst s'. destruct Hc as (Hc1 & Hc2 & ->). destruct Hs as (H1 & H2 & H3).
    exists CWait, n, f, WWaiting, rest. split; [done|]. split; [done|]. split; [exact H1|]. by split.
  - subst s'. destruct Hc as (Hc1 & Hc2 & ->). destruct Hs as (H1 & H2 & H3).
    exists CReceive, n, f, WWaiting, rest. split; [done|]. split; [done|]. split; [exact H1|]. by split.
  - done.
Qed.

Lemma arrival_turns q : known q -> turn_of 1 q.
Proof.
  intros (c & n & f & w & rest & Hts & Hc & Hs) p step q'. rewrite Hts. cbn [lookup goroutines list_lookup].
  intros [= <-]. destruct (shared q) as [ch nt bu off ta de].
  destruct rest as [|sig rest]; cbn; [done|]. intros (r & s' & Hsh & _ & ->). cbn in Hsh.
  destruct Hsh as [-> ->]. destruct Hs as ((seen & Hseen & Hsub) & H2 & H3).
  exists c, n, f, w, rest. split; [same_threads|]. split; [done|]. cbn in *. split.
  - exists (seen ++ [sig]). split; [by rewrite <- app_assoc|]. destruct bu as [b|]; cbn in *.
    + by apply sublist_inserts_r.
    + rewrite app_nil_r in Hsub. rewrite app_assoc. by apply sublist_app.
  - split; [|by intros H; destruct (H3 H) as (_ & _ & ? & _)].
    destruct f; try done; (split; [apply H2|]); destruct H2 as [_ H2]; destruct bu; cbn in *; lia.
Qed.

Lemma command_turns q : known q -> turn_of 2 q.
Proof.
  intros (c & n & f & w & rest & Hts & Hc & Hs) p step q'. rewrite Hts. cbn [lookup goroutines list_lookup].
  intros [= <-]. destruct (shared q) as [ch nt bu off ta de].
  destruct ch; cbn; [|..]; try (intros (r & s' & Hsh & _ & ->); cbn in Hsh); [by destruct Hsh| |done].
  destruct Hsh as [_ ->]. exists c, n, f, w, rest. split; [same_threads|]. split; [|done].
  destruct Hc as (Hc1 & Hc2 & Hc3). split; [done|]. cbn in *. split; [|destruct c; naive_solver].
  destruct w; naive_solver.
Qed.

Lemma forwarder_turns q : known q -> turn_of 3 q.
Proof.
  intros (c & n & f & w & rest & Hts & Hc & Hs) p step q'. rewrite Hts. cbn [lookup goroutines list_lookup].
  destruct (forwards c) eqn:Hfw; cbn; [|by destruct c].
  intros [= <-]. destruct (shared q) as [ch nt bu off ta de].
  destruct Hs as ((seen & Hseen & Hsub) & H2 & H3). cbn in *.
  destruct f as [|sig|sig|]; [destruct H2 as [-> H2]; destruct n as [|n]; [lia|]| | |done];
    cbn; intros (r & s' & Hsh & _ & ->); cbn in Hsh.
  - destruct Hsh as [-> ->]. exists c, n, (FPolling r), w, rest. split; [same_threads|].
    split; [done|]. split; [by exists seen|]. split; [split; [done|cbn in *; lia]|by rewrite Hfw].
  - destruct Hsh as [-> ->], H2 as [-> H2]. rewrite andb_true_r. destruct off; cbn.
    + exists c, n, FGone, w, rest. split; [same_threads|]. split; [done|].
      split; [|split; [done|by rewrite Hfw]]. exists seen. split; [done|]. cbn in *.
      etransitivity; [|exact Hsub]. apply sublist_app; [done|]. by apply sublist_cons.
    + exists c, n, (FSending sig), w, rest. split; [same_threads|]. split; [done|].
      split; [by exists seen|]. split; [done|by rewrite Hfw].
  - subst s'. exists c, n, FWaiting, w, rest. split; [same_threads|]. split; [done|].
    split; [|split; [done|by rewrite Hfw]]. exists seen. split; [done|]. cbn in *.
    destruct ch; [| |]; cbn; rewrite <- ?app_assoc; cbn; [|done|];
      (etransitivity; [|exact Hsub]; apply sublist_app; [done|by apply sublist_cons]).
Qed.

Lemma waiter_turns q : known q -> turn_of 4 q.
Proof.
  intros (c & n & f & w & rest & Hts & Hc & Hs) p step q'. rewrite Hts. cbn [lookup goroutines list_lookup].
  destruct (waits c) eqn:Hw; [|by destruct c].
  assert (forwards c = true) as Hfw by by destruct c. rewrite Hfw. cbn.
  intros [= <-]. destruct (shared q) as [ch nt bu off ta de].
  destruct Hc as (Hc1 & Hc2 & Hc3). destruct Hs as (H1 & H2 & H3). cbn in *.
  destruct w as [|err|err| |]; cbn; try done; intros (r & s' & Hsh & _ & ->); cbn in Hsh; try done.
  - destruct Hsh as [-> ->]. destruct Hc1 as [Hc1 ->].
    exists c, n, f, (WSending status), rest. split; [same_threads|].
    split; [split; [done|split; [done|destruct c; naive_solver]]|done].
  - subst s'. destruct Hc2 as (-> & -> & ->).
    exists c, n, f, WOffered, rest. split; [same_threads|].
    split; [split; [done|split; [done|destruct c; naive_solver]]|].
    split; [done|]. split; [|done]. destruct f; naive_solver.
  - destruct Hsh as [-> ->]. subst ch.
    exists c, n, f, WDone, rest. split; [same_threads|].
    split; [split; [done|split; [done|destruct c; naive_solver]]|done].
Qed.

Lemma meeting_turns q : known q -> forall i j p p' q', i <> j ->
  threads q !! i = Some p -> threads q !! j = Some p' ->
  match p, p' with
  | Do o k, Do o' k' => exists r r', meets o r o' r' /\
      q' = mkProcess (shared q) (<[j := k' r']> (<[i := k r]> (threads q)))
  | _, _ => False
  end -> known q'.
Proof.
  intros (c & n & f & w & rest & Hts & Hc & Hs) i j p p' q' Hne. rewrite Hts. intros Hi Hj Hm.
  destruct j as [|[|[|j]]]; cbn in Hj.
  - injection Hj as <-. destruct c; cbn in Hm; try (by destruct p as [|o k]; [|destruct Hm as (? & ? & [] & _)]);
      try (by destruct p).
    destruct Hc as (Hc1 & Hc2 & Hc3).
    assert (i = 4%nat /\ exists err, w = WSending err) as [-> [err ->]].
    { destruct p as [|o k]; [done|]. destruct Hm as (r & r' & Hm & _). destruct o; try done.
      destruct i as [|[|[|[|[|i]]]]]; cbn in Hi; try done; [by destruct rest|..].
      - unfold commanding in Hi. by destruct (child (shared q)).
      - destruct f; cbn in Hi; try done. by destruct n.
      - split; [done|]. destruct w; cbn in Hi; try done. by eexists. }
    cbn in Hi. injection Hi as <-. destruct Hm as (r & r' & Hm & ->). cbn in Hm. subst r'.
    destruct Hc2 as (-> & Hch & Hoff). destruct (shared q) as [ch nt bu off ta de]. cbn in *. subst ch off.
    exists (CDone status), n, f, (WOffering status), rest. split; [same_threads|].
    split; [|done]. split; [by destruct Hc1|]. split; [done|]. done.
  - injection Hj as <-. destruct p as [|o k], rest; try done. by destruct Hm as (? & ? & ? & _).
  - injection Hj as <-. unfold commanding in Hm. destruct p as [|o k], (child (shared q)); try done;
      by destruct Hm as (? & ? & ? & _).
  - assert (p' = forwarding n f \/ p' = waiting w) as [->| ->].
    { apply list_elem_of_lookup_2 in Hj. apply elem_of_app in Hj as [Hj|Hj].
      - destruct (forwards c); [left; by apply list_elem_of_singleton in Hj|by apply not_elem_of_nil in Hj].
      - destruct (waits c); [right; by apply list_elem_of_singleton in Hj|by apply not_elem_of_nil in Hj]. }
    + destruct p as [|o k], f; try done; [destruct n; [done|]|..]; by destruct Hm as (? & ? & ? & _).
    + destruct p as [|o k], w; try done; by destruct Hm as (? & ? & ? & _).
Qed.

Lemma known_turn q step q' : known q -> signal_turn q step q' -> known q'.
Proof.
  intros Hq Ht. destruct q as [s ts]. apply turn_inv in Ht as [(i & p & Hi & Ht)|(i & j & p & p' & Hne & Hi & Hj & Ht)].
  - destruct i as [|[|[|[|[|i]]]]].
    + exact (caller_turns _ Hq _ step q' Hi Ht).
    + exact (arrival_turns _ Hq _ step q' Hi Ht).
    + exact (command_turns _ Hq _ step q' Hi Ht).
    + exact (forwarder_turns _ Hq _ step q' Hi Ht).
    + exact (waiter_turns _ Hq _ step q' Hi Ht).
    + destruct Hq as (c & n & f & w & rest & Hts & _). cbn in Hts. subst ts. exfalso.
      apply lookup_lt_Some in Hi. cbn in Hi. destruct c; cbn in Hi; lia.
  - refine (meeting_turns _ Hq i j p p' q' Hne Hi Hj _). destruct p as [|o k], p' as [|o' k']; try done.
    destruct Ht as (r & r' & Hm & _ & ->). by exists r, r'.
Qed.

Lemma known_schedule sched q : signal_schedule commanded sched q -> known q.
Proof. apply schedule_invariant; [apply known_turn|apply known_start]. Qed.

(** ** Progress *)

(** Turns of some of the goroutines alone lead to a state of [P]. *)
Definition leads (ids : list nat) (P : process (E := signalling) (A := goerr) (S := signal_state) -> Prop)
    (q : process (E := signalling) (A := goerr) (S := signal_state)) : Prop :=
  exists sched q', signal_schedule q sched q' /\ Forall (fun ie => ie.1 ∈ ids) sched /\ P q'.

Lemma leads_now ids P q : P q -> leads ids P q.
Proof. intros H. exists [], q. split; [constructor|]. by split. Qed.
Lemma leads_alone ids P s ts i o k r s' :
  ts !! i = Some (Do o k) -> shares o s r s' -> i ∈ ids ->
  leads ids P (mkProcess s' (<[i := k r]> ts ++ starts o)) -> leads ids P (mkProcess s ts).
Proof.
  intros Hi Hs Hids (sched & q' & H & Hby & HP). exists ([(i, o ↝ r)] ++ sched), q'.
  split; [|split; [by constructor|done]]. eapply schedule_cons; [|exact H]. by apply turn_alone.
Qed.
Lemma leads_meeting ids P s ts i j o k r o' k' r' :
  ts !! i = Some (Do o k) -> ts !! j = Some (Do o' k') -> meets o r o' r' -> i <> j -> i ∈ ids -> j ∈ ids ->
  leads ids P (mkProcess s (<[j := k' r']> (<[i := k r]> ts))) -> leads ids P (mkProcess s ts).
Proof.
  intros Hi Hj Hm Hne Hii Hij (sched & q' & H & Hby & HP). exists ([(i, o ↝ r); (j, o' ↝ r')] ++ sched), q'.
  split; [|split; [by repeat constructor|done]]. eapply schedule_cons; [|exact H]. by apply turn_meeting.
Qed.

(** Let a goroutine take a turn, whose answer is given. *)
Ltac takes i ans :=
  lazymatch goal with
  | |- leads _ _ (mkProcess ?s ?ts) =>
      let x := eval cbn in (ts !! i) in
      lazymatch x with
      | Some (Do ?o ?k) => eapply (leads_alone _ _ s ts i o k ans); [reflexivity|by cbn; auto|set_solver|]; cbn
      end
  end.

(** Once the command has ended, its status is the caller's, without anything else
    happening in between. *)
Definition received (q : process (E := signalling) (A := goerr) (S := signal_state)) : Prop :=
  threads q !! 0%nat = Some (Ret status).

Lemma status_arrives q : known q -> child (shared q) = Ended status -> leads [0; 4]%nat received q.
Proof.
  intros (c & n & f & w & rest & Hts & (Hc1 & Hc2 & Hc3) & _) Hch.
  destruct q as [[ch nt bu off ta de] ts]. cbn in Hts, Hc1, Hc2, Hc3, Hch. subst ts ch.
  destruct Hc1 as [Hc1 _]. unfold goroutines, commanding. cbn.
  assert (forall nt f w, match w with WWaiting => True | WSending err => err = status | _ => False end ->
    leads [0; 4]%nat received (mkProcess (mkSignalState (Ended status) nt bu off ta de)
      [caller CReceive; arrivals rest; Ret None; f; waiting w])) as Hreceive.
  { intros nt' f' w' Hw'. assert (leads [0; 4]%nat received (mkProcess (mkSignalState (Ended status) nt' bu off ta de)
      [caller CReceive; arrivals rest; Ret None; f'; waiting (WSending status)])) as Hsending.
    { eapply (leads_meeting _ _ _ _ 4 0 (SendRet status) _ tt ReceiveRet _ status); [reflexivity|reflexivity|by cbn|done|set_solver|set_solver|].
      by apply leads_now. }
    destruct w'; try done; [|by subst err]. takes 4%nat status. exact Hsending. }
  destruct c; try done; cbn.
  - takes 0%nat tt. takes 0%nat tt. takes 0%nat tt. by apply (Hreceive _ _ WWaiting).
  - takes 0%nat tt. takes 0%nat tt. by apply (Hreceive _ _ WWaiting).
  - takes 0%nat tt. by apply (Hreceive _ _ WWaiting).
  - apply Hreceive. destruct w; try done. by destruct Hc2.
  - apply leads_now. by destruct Hc3 as (-> & _).
Qed.

(** A signal that waits in the buffer while the command runs is forwarded to it,
    behind the one in hand, without anything else happening in between. *)
Lemma signal_arrives q sig : known q -> child (shared q) = Running -> buffer (shared q) = Some sig ->
  leads [3]%nat (fun q' => exists d, delivered (shared q') = delivered (shared q) ++ d ++ [sig]) q.
Proof.
  intros (c & n & f & w & rest & Hts & (Hc1 & Hc2 & Hc3) & (Hsub & Hf & Hearly)) Hch Hbuf.
  destruct q as [[ch nt bu off ta de] ts]. cbn in *. subst ts ch bu.
  assert (forwards c = true) as Hfw.
  { destruct (forwards c); [done|]. by destruct (Hearly eq_refl) as (_ & _ & _ & ?). }
  assert (off = false) as -> by (destruct w; naive_solver).
  unfold goroutines, commanding. cbn. rewrite Hfw. cbn.
  set (P := fun q' : process => _).
  assert (forall n tail d, (0 < n)%nat -> leads [3]%nat P (mkProcess (mkSignalState Running nt (Some sig) false false (de ++ d))
    (caller c :: arrivals rest :: command status :: forwarder n :: tail))) as Hwaiting.
  { intros [|n'] tail d; [lia|]. intros _. cbn [forwarder].
    takes 3%nat sig. takes 3%nat false. takes 3%nat tt. apply leads_now. exists d. cbn. by rewrite app_assoc. }
  destruct f as [|sig'|sig'|]; [..|by destruct Hf]; destruct Hf as [-> Hn].
  - rewrite <- (app_nil_r de) at 1. apply Hwaiting. lia.
  - cbn. takes 3%nat false. takes 3%nat tt. apply Hwaiting. lia.
  - cbn. takes 3%nat tt. apply Hwaiting. lia.
Qed.

(** [C18] A command that is run gets its signals, and its status gets to the caller,
    in whatever order the goroutines, the signals and the end of the command take
    turns.  The command is sent signals that have arrived, in their order and none
    twice, some of them perhaps left out.  The caller gets the status the command
    has ended with, no other and not before.  And nothing waits for what may not
    come: once the command has ended, turns of the caller and of the waiting
    goroutine alone lead to the caller having its status, however many signals
    are on their way; and while the command runs, turns of the forwarding
    goroutine alone lead to the signal in the buffer being sent. *)
Theorem signals_forwarded sched q : signal_schedule commanded sched q ->
  let s := shared q in
  delivered s `sublist_of` sigs /\
  (forall err, threads q !! 0%nat = Some (Ret err) -> err = status /\ child s = Ended status) /\
  (child s = Ended status -> leads [0; 4]%nat received q) /\
  (forall sig, child s = Running -> buffer s = Some sig ->
     leads [3]%nat (fun q' => exists d, delivered (shared q') = delivered s ++ d ++ [sig]) q).
Proof.
  intros Hq%known_schedule. cbn zeta. split_and!.
  - destruct Hq as (c & n & f & w & rest & _ & _ & (seen & Hseen & Hsub) & _).
    rewrite Hseen. etransitivity; [apply sublist_inserts_r; reflexivity|].
    etransitivity; [exact Hsub|]. by apply sublist_inserts_r.
  - intros err. destruct Hq as (c & n & f & w & rest & -> & (_ & _ & Hc) & _).
    destruct c; cbn; try done. intros [= <-]. by destruct Hc as (? & ? & _).
  - by apply status_arrives.
  - intros sig. by apply signal_arrives.
Qed.
End signals.

(** ** Examples *)

Module SignalsExamples.

(** A command that gets one of two signals, the second of which finds the buffer
    full, and ends with an error. *)
Definition killed : goerr := Some (EOther "signal: terminated").
Definition two_signals : list signal := [15; 2].
Abbreviation example_schedule := (schedule (A := goerr) shares (starts two_signals) meets).

(** Let a goroutine of the example take a turn. *)
Ltac goes H i ans :=
  lazymatch type of H with
  | schedule _ ?st _ _ _ (mkProcess ?s ?ts) =>
      let x := eval cbn in (ts !! i) in
      lazymatch x with
      | Some (Do ?o ?k) =>
          eapply schedule_turn in H;
            [|apply (turn_alone shares st meets s ts i o k ans); [reflexivity|by cbn; auto]]; cbn in H
      end
  end.
Lemma ended_reached : exists sched q, example_schedule (commanded two_signals killed) sched q /\
  child (shared q) = Ended killed /\ delivered (shared q) = [15].
Proof.
  pose proof (schedule_start shares (starts two_signals) meets (commanded two_signals killed)) as H.
  unfold commanded, runCommand in H. cbn [bind call] in H.
  goes H 0%nat (None : goerr). goes H 0%nat tt. goes H 0%nat tt. goes H 0%nat tt.
  goes H 1%nat tt. goes H 1%nat tt. goes H 3%nat 15. goes H 3%nat false. goes H 3%nat tt. goes H 2%nat tt.
  eexists _, _. split; [exact H|]. by split.
Qed.

Lemma signals_forwarded_witness : exists sched q,
  example_schedule (commanded two_signals killed) sched q /\ delivered (shared q) = [15] /\
  leads two_signals [0; 4]%nat (received killed) q.
Proof.
  destruct ended_reached as (sched & q & H & Hc & Hd). exists sched, q. split; [exact H|]. split; [exact Hd|].
  destruct (signals_forwarded two_signals killed sched q H) as (_ & _ & Hs & _). exact (Hs Hc).
Defined.

(** When no further signal arrives, both goroutines of a command that has ended,
    and whose status the caller has, stay for ever. *)
Lemma helpers_stay : exists sched q,
  schedule (A := goerr) shares (starts []) meets (commanded [] killed) sched q /\
  threads q !! 0%nat = Some (Ret killed) /\ threads q !! 3%nat = Some (forwarder 1) /\
  forall step q', ~ turn (A := goerr) shares (starts []) meets q step q'.
Proof.
  pose proof (schedule_start shares (starts []) meets (commanded [] killed)) as H.
  unfold commanded, runCommand in H. cbn [bind call] in H.
  goes H 0%nat (None : goerr). goes H 0%nat tt. goes H 0%nat tt. goes H 0%nat tt.
  goes H 2%nat tt. goes H 4%nat killed.
  eapply schedule_turn in H; [|eapply (turn_meeting shares (starts []) meets _ _ 4 0 (SendRet killed) _ tt ReceiveRet _ killed);
    [done|reflexivity|reflexivity|by cbn]]. cbn in H.
  goes H 4%nat tt.
  eexists _, _. split; [exact H|]. split_and!; [done..|].
  intros step q' [(i & p & Hi & Ht)|(i & j & p & p' & Hne & Hi & Hj & Ht)]%turn_inv.
  - destruct i as [|[|[|[|[|i]]]]]; cbn in Hi; try done; injection Hi as <-; try done;
      by destruct Ht as (r & s' & [? _] & _).
  - destruct j as [|[|[|[|[|j]]]]]; cbn in Hj; try done; injection Hj as <-; destruct p as [|o k]; try done;
      by destruct Ht as (r & r' & ? & _).
Qed.
End SignalsExamples.
