(* ===== verification/Operator.v ===== *)
(** * The operator's entry point

    [cmd/main.go], [constants/*.go], and the registrations of the controllers and
    the webhooks with the manager: [SetupWithManager] of the three reconcilers and
    [SetupWebhookWithManager] of the two types.  What a controller writes is
    compared with what it is registered to watch. *)

From S2P Require Export ReplicaSet JobReconciler RunnerReconciler Goroutines.
#[local] Open Scope string_scope.

(** ** Registrations *)

Section operator.
Context {T : K8sTypes} {L : K8sLib}.

(** What [ctrl.NewControllerManagedBy(mgr)] is told. *)
Record registration : Type := mkRegistration {
  For : kind;
  Owns : list kind;
  WatchesRawSource : bool;
  MaxConcurrentReconciles : Z;
  EventFilter : Event -> bool;
}.

(** The operations of the entry point on its libraries. *)
Inductive entry_op : Type :=
(* go http.ListenAndServe(...); flag; runtime *)
| GoListenAndServe (addr : string)
| NumCPU
| IntVar (name : string) (value : Z)
| StringVar (name value : string)
| BoolVar (name : string) (value : bool)
(* ctrl.NewManager(ctrl.GetConfigOrDie(), ...) *)
| NewManager (metrics probe : string) (leaderElect : bool) (leaderNamespace leaderId : string) (port : Z)
(* ctrl.NewWebhookManagedBy(mgr).For(r).Complete() *)
| CompleteWebhook (k : kind)
(* ctrl.NewControllerManagedBy(mgr)...Complete(r) *)
| CompleteController (r : registration)
(* r.wires.Init(), and the goroutine that waits for a signal *)
| WiresInit
| GoShutdown
(* mgr *)
| AddHealthzCheck (name : string)
| AddReadyzCheck (name : string)
| ManagerStart
(* os, time *)
| OsExit (code : Z)
| TimeSleep (d : Z).

Definition entry_ans (o : entry_op) : Type :=
  match o with
  | NumCPU | IntVar _ _ => Z
  | StringVar _ _ => string
  | BoolVar _ _ => bool
  | NewManager _ _ _ _ _ _ | CompleteWebhook _ | CompleteController _ | AddHealthzCheck _
  | AddReadyzCheck _ | ManagerStart => option error
  | GoListenAndServe _ | WiresInit | GoShutdown | OsExit _ | TimeSleep _ => unit
  end.
Canonical entry : signature := Sig entry_op entry_ans.

Definition ActionsRunnerReplicaSet_registration (n : Z) : registration :=
  mkRegistration KActionsRunnerReplicaSet [KActionsRunner] false n (fun _ => true).
Definition ActionsRunner_registration (n : Z) : registration :=
  mkRegistration KActionsRunner [KConfigMap; KSecret; KPodDisruptionBudget; KActionsRunnerJob] true n
    RunnerReconciler.eventFilter.
Definition ActionsRunnerJob_registration (n : Z) : registration :=
  mkRegistration KActionsRunnerJob [KPersistentVolumeClaim; KPod] false n JobReconciler.eventFilter.

Definition ReplicaSet_SetupWithManager (n : Z) : prog entry goerr :=
  call (CompleteController (ActionsRunnerReplicaSet_registration n)).
Definition Runner_SetupWithManager (n : Z) : prog entry goerr :=
  let! _ := call WiresInit in
  let! _ := call GoShutdown in
  call (CompleteController (ActionsRunner_registration n)).
Definition Job_SetupWithManager (n : Z) : prog entry goerr :=
  call (CompleteController (ActionsRunnerJob_registration n)).
Definition ActionsRunner_SetupWebhookWithManager : prog entry goerr := call (CompleteWebhook KActionsRunner).
Definition ActionsRunnerReplicaSet_SetupWebhookWithManager : prog entry goerr :=
  call (CompleteWebhook KActionsRunnerReplicaSet).

(** ** main *)

Inductive main_end : Type := MainReturns | MainExits (code : Z).

(** [if err := ...; err != nil { setupLog.Error(...); os.Exit(1) }] *)
Definition or_exit (p : prog entry goerr) (k : prog entry main_end) : prog entry main_end :=
  let! err := p in
  match err with
  | Some _ => let! _ := call (OsExit 1) in Ret (MainExits 1)
  | None => k
  end.

(** The variables of the flags have their values once [flag.Parse] has returned. *)
Definition main : prog entry main_end :=
  let! _ := call (GoListenAndServe ":6060") in
  let! cpus := call NumCPU in
  let! maxConcurrentReconciles := call (IntVar "max-concurrent-reconciles" cpus) in
  let! metricsBindAddress := call (StringVar "metrics-bind-address" ":8080") in
  let! healthProbeBindAddress := call (StringVar "health-probe-bind-address" ":8081") in
  let! leaderElect := call (BoolVar "leader-elect" false) in
  let! leaderElectionNamespace := call (StringVar "leader-election-namespace" "kube-actions") in
  let! leaderElectionId := call (StringVar "leader-election-id" "00000000.inloco.com.br") in
  or_exit (call (NewManager metricsBindAddress healthProbeBindAddress leaderElect leaderElectionNamespace
                   leaderElectionId 9443)) (
  or_exit ActionsRunnerReplicaSet_SetupWebhookWithManager (
  or_exit ActionsRunner_SetupWebhookWithManager (
  or_exit (ReplicaSet_SetupWithManager maxConcurrentReconciles) (
  or_exit (Runner_SetupWithManager maxConcurrentReconciles) (
  or_exit (Job_SetupWithManager maxConcurrentReconciles) (
  or_exit (call (AddHealthzCheck "healthz")) (
  or_exit (call (AddReadyzCheck "readyz")) (
  or_exit (call ManagerStart) (
  let! _ := call (TimeSleep 60000000000) in
  Ret MainReturns))))))))).

(** ** What main does *)

(** The errors of the steps that can fail, in order. *)
Definition step_error (e : event entry) : option goerr :=
  match ev_op e as o return entry_ans o -> option goerr with
  | NewManager _ _ _ _ _ _ | CompleteWebhook _ | CompleteController _ | AddHealthzCheck _
  | AddReadyzCheck _ | ManagerStart => fun err => Some err
  | _ => fun _ => None
  end (ev_ans e).
Definition step_errors : trace entry -> list goerr := omap step_error.

(** Where what is set up is told of: webhooks, then controllers. *)
Definition set_up (e : event entry) : option kind :=
  match ev_op e as o return entry_ans o -> option kind with
  | CompleteWebhook k => fun err => match err with None => Some k | Some _ => None end
  | CompleteController r => fun err => match err with None => Some (For r) | Some _ => None end
  | _ => fun _ => None
  end (ev_ans e).

Definition manager_runs (tr : trace entry) : bool :=
  existsb (fun e => match ev_op e with ManagerStart => true | _ => false end) tr.

(** [C35] The entry point takes nine steps that can fail -- the manager, two
    webhooks, three controllers, two checks, the manager's run -- and the first
    failure is the last: it ends the process with the status 1, and no later step
    is taken.  So the manager only runs when everything has been set up, each type's
    webhook before its controller; and main returns only after the manager has
    stopped without an error and the wires have had a minute to close. *)
Theorem main_sets_up tr out :
  runs main tr out ->
  exists n, (n <= 9)%nat /\
  ((out = MainReturns /\ n = 9%nat /\ step_errors tr = replicate n None /\
    last (ops tr) = Some (TimeSleep 60000000000)) \/
   (out = MainExits 1 /\ (n < 9)%nat /\ (exists e, step_errors tr = (replicate n None ++ [Some e])%list) /\
    last (ops tr) = Some (OsExit 1))) /\
  (manager_runs tr = true -> omap set_up tr =
    [KActionsRunnerReplicaSet; KActionsRunner; KActionsRunnerReplicaSet; KActionsRunner; KActionsRunnerJob]).
Proof.
  intros Hrun. walking Hrun. unfold main, or_exit, ReplicaSet_SetupWithManager, Runner_SetupWithManager,
    Job_SetupWithManager, ActionsRunner_SetupWebhookWithManager, ActionsRunnerReplicaSet_SetupWebhookWithManager.
  walk.
  (* n is the number of errors but the last one, when main exits *)
  all: lazymatch goal with
       | |- context [MainExits 1 = MainReturns /\ _ = _ /\ step_errors ?tr = _ /\ _] =>
           exists (pred (length (step_errors tr)))
       | |- context [step_errors ?tr = replicate _ None] => exists (length (step_errors tr))
       end.
  all: cbn; split_and!; [lia| |try discriminate; try reflexivity].
  all: first [left; by split_and!|right; split_and!; [done|lia|by eexists|done]].
Qed.

(** ** What the controllers watch *)

(** A change of the object wakes the controller: it reconciles the kind, or owns
    it, and its filter lets the event pass, as it does the deletion of what it
    owns. *)
Definition watches (r : registration) (o : object) : Prop :=
  (kind_of o = For r \/ kind_of o ∈ Owns r) /\
  (forall old, EventFilter r (UpdateEvent old (Some o)) = true) /\
  (kind_of o ∈ Owns r -> EventFilter r (DeleteEvent (Some o)) = true).
Definition watched (r : registration) (o : kube_op) : Prop :=
  match o with
  | Create o | Update o | StatusUpdate o | Delete o => watches r o
  | Get _ _ | List _ _ => True
  end.
Definition watched_runner (r : registration) (o : operator_op) : Prop :=
  match o with Kube o => watched r o | _ => True end.

Lemma watches_intro r o :
  (kind_of o = For r \/ kind_of o ∈ Owns r) ->
  (forall old, EventFilter r (UpdateEvent old (Some o)) = true) ->
  EventFilter r (DeleteEvent (Some o)) = true \/ kind_of o ∉ Owns r -> watches r o.
Proof. intros H1 H2 H3. split; [done|]. split; [done|]. by destruct H3. Qed.

Ltac watched_step :=
  first
    [ only_step
    | lazymatch goal with
      | |- watched_runner _ _ => cbn [watched_runner]
      | |- watched _ _ => apply watches_intro; [cbn; set_solver|done|first [by left|right; cbn; set_solver]]
      end ].

Lemma ReplicaSet_watched n scheme req :
  only (watched (ActionsRunnerReplicaSet_registration n)) (ReplicaSet.Reconcile scheme req).
Proof.
  assert (forall template ars, only (watched (ActionsRunnerReplicaSet_registration n)) (updateSpecs template ars)) as Hspecs.
  { intros template. induction ars as [|ar ars IH]; [done|]. cbn [updateSpecs]. repeat first [apply IH|watched_step]. }
  unfold ReplicaSet.Reconcile, reconcileReplicas, updateReplicas.
  repeat first [apply Hspecs|watched_step].
Qed.

Lemma Job_watched `{!Process} n scheme req :
  only (watched (ActionsRunnerJob_registration n)) (JobReconciler.Reconcile scheme req).
Proof.
  unfold JobReconciler.Reconcile, reconcileClaim, reconcilePod, getClaim, getPod, updateStatus, deleteObject.
  repeat watched_step.
Qed.

Lemma Runner_watched n gone scheme req reg :
  only (watched_runner (ActionsRunner_registration n)) (RunnerReconciler.Reconcile gone scheme req reg).
Proof.
  unfold RunnerReconciler.Reconcile, reconcileWired, reconcileJob, reconcileBudget, writeDotFiles,
    writeConfigMap, writeSecret, createConfigMap, createSecret, create, getConfigMap, getSecret,
    getPodDisruptionBudget, forget, WireFor, GetWire, MakeWire, TryDestroy, Collection_Destroy, next.
  repeat watched_step.
Qed.

(** What a controller writes wakes it up again.  In every run of a pass of each
    of the three controllers, every object that it creates, updates or deletes, or
    whose status it writes, is of the kind the controller is registered for or of a
    kind it is registered to own, and the controller's event filter lets through
    the events of its change and, if owned, of its deletion, whatever it was
    before: nothing a controller has made can change or go without another pass. *)
Theorem controllers_watch_writes `{!Process} n scheme req gone reg :
  (forall tr out, runs (ReplicaSet.Reconcile scheme req) tr out ->
     Forall (watched (ActionsRunnerReplicaSet_registration n)) (ops tr)) /\
  (forall tr out, runs (RunnerReconciler.Reconcile gone scheme req reg) tr out ->
     Forall (watched_runner (ActionsRunner_registration n)) (ops tr)) /\
  (forall tr out, runs (JobReconciler.Reconcile scheme req) tr out ->
     Forall (watched (ActionsRunnerJob_registration n)) (ops tr)).
Proof.
  split_and!; intros tr out Hrun; (eapply only_runs; [|exact Hrun]).
  - apply ReplicaSet_watched.
  - apply Runner_watched.
  - apply Job_watched.
Qed.
End operator.

(** ** Examples *)

Module OperatorExamples.
Import Demo.

(** An operator whose first controller cannot be created. *)
Definition serve_entry (o : sop entry) (s : unit) : sans entry o * unit :=
  (match o return entry_ans o with
   | NumCPU => 4
   | IntVar _ v => v
   | StringVar _ v => v
   | BoolVar _ v => v
   | CompleteController _ => Some (EOther "no such field")
   | NewManager _ _ _ _ _ _ | CompleteWebhook _ | AddHealthzCheck _ | AddReadyzCheck _ | ManagerStart => None
   | GoListenAndServe _ | WiresInit | GoShutdown | OsExit _ | TimeSleep _ => tt
   end, s).
Definition failed_start := exec serve_entry main tt.

Lemma main_sets_up_witness :
  failed_start.1.2 = MainExits 1 /\ step_errors failed_start.1.1 = [None; None; None; Some (EOther "no such field")] /\
  exists n, (n <= 9)%nat /\
  ((failed_start.1.2 = MainReturns /\ n = 9%nat /\ step_errors failed_start.1.1 = replicate n None /\
    last (ops failed_start.1.1) = Some (TimeSleep 60000000000)) \/
   (failed_start.1.2 = MainExits 1 /\ (n < 9)%nat /\
    (exists e, step_errors failed_start.1.1 = (replicate n None ++ [Some e])%list) /\
    last (ops failed_start.1.1) = Some (OsExit 1))).
Proof.
  split; [reflexivity|]. split; [reflexivity|].
  destruct (main_sets_up failed_start.1.1 failed_start.1.2 (exec_runs serve_entry main tt)) as (n & Hn & H & _).
  exists n. split; [exact Hn|exact H].
Defined.
End OperatorExamples.
