(* ===== verification/Lifecycle.v ===== *)
(** * The life of a runner and of its job

    What the passes of the controllers come to against an API server, and facades,
    that keep their promises and to which nobody else writes: the runner gets its
    objects and a wire that listens, and a job its claim, its Pod and their phases.
    At the end both controllers run on one cluster, from a request to the deletion
    of the job. *)

From S2P Require Export ReplicaSet JobReconciler RunnerReconciler.
#[local] Open Scope string_scope.

(** ** The job *)

(** The key of an object. *)
Definition key_of {T : K8sTypes} (o : object) : ObjectKey :=
  mkKey (Namespace (meta_of o)) (Name (meta_of o)).

(** The objects of the job at a server: the claim and the Pod are what was created,
    with a phase that the cluster sets and that is not beyond repair. *)
Section made.
Context {T : K8sTypes}.
Definition made_claim (desired actual : PersistentVolumeClaim) : Prop :=
  AccessModes actual = AccessModes desired /\ pvc_Resources actual = pvc_Resources desired /\
  DeletionTimestamp (pvc_ObjectMeta actual) = None /\
  pvc_Phase actual <> ClaimLost.
Definition made_pod (desired actual : Pod) : Prop :=
  pod_Spec actual = pod_Spec desired /\ DeletionTimestamp (pod_ObjectMeta actual) = None /\
  pod_Phase actual <> PodUnknown.
End made.

(** An API server that answers without faults, to which nobody else writes.  As long
    as [serves w], it stores the job [arj] with the status [status_of w] and the
    runner [ar], and perhaps a claim and a Pod. *)
Class JobServer {T : K8sTypes} {W : Type} (handle : forall o : sop kube, W -> sans kube o * W)
    (arj : ActionsRunnerJob) (ar : ActionsRunner) (req : ObjectKey) (serves : W -> Prop)
    (status_of : W -> ActionsRunnerJobStatus)
    (claim_of : W -> option PersistentVolumeClaim) (pod_of : W -> option Pod) : Prop := {
  js_job w : serves w -> handle (Get KActionsRunnerJob req) w = (Ok (arj_set_status arj (status_of w)), w);
  js_runner w : serves w -> handle (Get KActionsRunner req) w = (Ok ar, w);
  js_claim w : serves w -> exists e, IsNotFound e = true /\
    handle (Get KPersistentVolumeClaim req) w = (match claim_of w with Some c => Ok c | None => Err e end, w);
  js_pod w : serves w -> exists e, IsNotFound e = true /\
    handle (Get KPod req) w = (match pod_of w with Some p => Ok p | None => Err e end, w);
  js_create_claim w c : serves w -> key_of (OPersistentVolumeClaim c) = req -> claim_of w = None -> exists c' w',
    handle (Create (OPersistentVolumeClaim c)) w = (None, w') /\ serves w' /\ made_claim c c' /\
    claim_of w' = Some c' /\ pod_of w' = pod_of w /\ status_of w' = status_of w;
  js_create_pod w p : serves w -> key_of (OPod p) = req -> pod_of w = None -> exists p' w',
    handle (Create (OPod p)) w = (None, w') /\ serves w' /\ made_pod p p' /\
    pod_of w' = Some p' /\ claim_of w' = claim_of w /\ status_of w' = status_of w;
  js_status w s : serves w -> exists w',
    handle (StatusUpdate (OActionsRunnerJob (arj_set_status (arj_clear_managed arj) s))) w = (None, w') /\
    serves w' /\ status_of w' = s /\ claim_of w' = claim_of w /\ pod_of w' = pod_of w;
}.

Section job_settles.
Context {T : K8sTypes} {L : K8sLib} `{!K8sLibSpec L} `{!Process}.
Context {W : Type} (handle : forall o : sop kube, W -> sans kube o * W).
Context (arj : ActionsRunnerJob) (ar : ActionsRunner) (req : ObjectKey).
Context (serves : W -> Prop) (status_of : W -> ActionsRunnerJobStatus)
  (claim_of : W -> option PersistentVolumeClaim) (pod_of : W -> option Pod).
Context `{!JobServer handle arj ar req serves status_of claim_of pod_of}.
Context (scheme : ptr Scheme) (claim : option PersistentVolumeClaim) (pod : Pod).
Hypothesis arj_live : DeletionTimestamp (arj_ObjectMeta arj) = None.
Hypothesis ar_live : DeletionTimestamp (ar_ObjectMeta ar) = None.
Hypothesis ar_key : key_of (OActionsRunner ar) = req.
Hypothesis arj_key : key_of (OActionsRunnerJob arj) = req.
Hypothesis claim_desired :
  ToPersistentVolumeClaim (Some ar) (Some (arj_clear_managed arj)) scheme = Ok claim.
Hypothesis pod_desired : ToPod (Some ar) (Some (arj_clear_managed arj)) scheme = Ok pod.

Lemma pod_key : key_of (OPod pod) = req.
Proof.
  destruct scheme as [sch|]; [|done].
  destruct (ToPod_spec _ _ _ _ pod_desired) as (_ & Hname & Hns & _).
  unfold key_of. cbn [meta_of]. rewrite Hname, Hns.
  pose proof (f_equal key_Namespace ar_key) as H1. pose proof (f_equal key_Name arj_key) as H2.
  revert H1 H2. case req. cbn. congruence.
Qed.
Lemma claim_key c : claim = Some c -> key_of (OPersistentVolumeClaim c) = req.
Proof.
  intros Hc. pose proof claim_desired as Hd. rewrite Hc in Hd. destruct scheme as [sch|]; [|done].
  apply ToPersistentVolumeClaim_spec in Hd as (_ & Hname & Hns & _).
  unfold key_of in *. cbn in *. by rewrite Hname, Hns.
Qed.

Definition job_pass (w : W) : W := after handle (JobReconciler.Reconcile scheme req) w.

(** What is stored is what was desired, or not there yet. *)
Definition job_sound (w : W) : Prop :=
  serves w /\
  (forall c', claim_of w = Some c' -> exists c, claim = Some c /\ made_claim c c') /\
  (forall p', pod_of w = Some p' -> made_pod pod p').

(** The claim, if one is wanted, and the Pod are there, and the status shows their phases. *)
Definition claim_phase (w : W) : string := match claim_of w with Some c => pvc_Phase c | None => "" end.
Definition pod_phase (w : W) : string := match pod_of w with Some p => pod_Phase p | None => "" end.
Definition job_settled (w : W) : Prop :=
  match claim with
  | Some c => exists c', claim_of w = Some c' /\ made_claim c c'
  | None => claim_of w = None
  end /\
  (exists p', pod_of w = Some p' /\ made_pod pod p') /\
  status_of w = mkActionsRunnerJobStatus (claim_phase w) (pod_phase w).

(** How far it is: creating an object takes a step, and mirroring its phase one. *)
Definition claim_steps (w : W) : nat :=
  match claim_of w, claim with
  | None, Some _ => 2
  | _, _ => if bool_decide (PersistentVolumeClaimPhase (status_of w) = claim_phase w) then 0 else 1
  end.
Definition pod_steps (w : W) : nat :=
  match pod_of w with
  | None => 2
  | Some p => if bool_decide (PodPhase (status_of w) = pod_Phase p) then 0 else 1
  end.

Lemma job_sound_kept w w' :
  job_sound w -> serves w' -> claim_of w' = claim_of w -> pod_of w' = pod_of w -> job_sound w'.
Proof. intros (_ & Hc & Hp) Hs H1 H2. unfold job_sound. by rewrite H1, H2. Qed.

Lemma ToPod_status s : ToPod (Some ar) (Some (arj_clear_managed (arj_set_status arj s))) scheme = Ok pod.
Proof. rewrite <- pod_desired. reflexivity. Qed.
Lemma ToPersistentVolumeClaim_status s :
  ToPersistentVolumeClaim (Some ar) (Some (arj_clear_managed (arj_set_status arj s))) scheme = Ok claim.
Proof. rewrite <- claim_desired. reflexivity. Qed.

(** Up to the claim a pass only reads. *)
Lemma job_pass_starts w :
  serves w ->
  job_pass w = after handle (reconcileClaim scheme req ar (arj_clear_managed (arj_set_status arj (status_of w)))) w.
Proof.
  intros Hw. unfold job_pass, JobReconciler.Reconcile. cbn [bind call].
  rewrite (after_do _ _ _ _ _ _ (js_job w Hw)). cbn beta iota.
  assert (IsBeingDeleted (Some (OActionsRunnerJob (arj_clear_managed (arj_set_status arj (status_of w))))) = false) as ->
    by (cbn; by rewrite arj_live).
  cbn [bind call]. rewrite (after_do _ _ _ _ _ _ (js_runner w Hw)). cbn beta iota.
  assert (IsBeingDeleted (Some (OActionsRunner ar)) = false) as -> by (cbn; by rewrite ar_live).
  done.
Qed.

Lemma status_written w s s' :
  serves w ->
  let w' := after handle (updateStatus (arj_clear_managed (arj_set_status arj s)) s') w in
  status_of w' = s' /\ claim_of w' = claim_of w /\ pod_of w' = pod_of w /\ serves w'.
Proof.
  intros Hs. unfold updateStatus. cbn [bind call].
  destruct (js_status w s' Hs) as (w' & Hw & Hs' & H1 & H2 & H3).
  change (arj_set_status (arj_clear_managed (arj_set_status arj s)) s')
    with (arj_set_status (arj_clear_managed arj) s').
  rewrite (after_do _ _ _ _ _ _ Hw). cbn. done.
Qed.

#[local] Arguments ToPod : simpl never.
#[local] Arguments ToPersistentVolumeClaim : simpl never.
#[local] Arguments arj_clear_managed : simpl never.
#[local] Arguments updateStatus : simpl never.

Abbreviation read_job w := (arj_clear_managed (arj_set_status arj (status_of w))).

Lemma read_status w : arj_Status (read_job w) = status_of w.
Proof. done. Qed.

(** The second half of a pass. *)
Lemma pod_part w s :
  job_sound w -> s = status_of w ->
  let w' := after handle (reconcilePod scheme req ar (arj_clear_managed (arj_set_status arj s))) w in
  job_sound w' /\ claim_of w' = claim_of w /\
  PersistentVolumeClaimPhase (status_of w') = PersistentVolumeClaimPhase (status_of w) /\
  (pod_steps w = 0%nat -> w' = w) /\ (0 < pod_steps w -> pod_steps w' < pod_steps w)%nat.
Proof.
  intros Hs ->. pose proof Hs as (Hsv & Hc & Hp). unfold reconcilePod, getPod. cbn [bind call].
  destruct (js_pod w Hsv) as (e & He & Hget). rewrite (after_do _ _ _ _ _ _ Hget).
  unfold pod_steps. destruct (pod_of w) as [p|] eqn:Hpod.
  - destruct (Hp p eq_refl) as (Hspec & Hdel & Hph). cbn [bind]. cbn zeta. rewrite read_status.
    case_bool_decide as Hne.
    + destruct (status_written w (status_of w)
        (mkActionsRunnerJobStatus (PersistentVolumeClaimPhase (status_of w)) (pod_Phase p)) Hsv) as (H1 & H2 & H3 & H4).
      rewrite H1, H2, H3, Hpod. cbn. rewrite (bool_decide_eq_true_2 (pod_Phase p = pod_Phase p)) by done.
      split_and!; try done; [by apply (job_sound_kept w)|].
      rewrite bool_decide_eq_false_2 by done. lia.
    + assert (IsBeingDeleted (Some (OPod p)) = false) as -> by (cbn; by rewrite Hdel).
      rewrite (bool_decide_eq_false_2 (pod_Phase p = PodUnknown)) by done. cbn [after].
      rewrite Hpod, bool_decide_eq_true_2 by done. split_and!; try done; first [lia|by split; [|rewrite Hpod]].
  - cbn [bind]. rewrite He. rewrite ToPod_status. cbn [bind call].
    destruct (js_create_pod w pod Hsv pod_key Hpod) as (p' & w1 & Hcr & Hsv1 & Hmade & H1 & H2 & H3).
    rewrite (after_do _ _ _ _ _ _ Hcr). cbn [IgnoreAlreadyExists bind]. cbn zeta.
    rewrite read_status. change (pod_Phase Pod_zero) with "".
    assert (job_sound w1) as Hs1 by (unfold job_sound; rewrite H1, H2; split_and!; [done..|by intros ? [= <-]]).
    case_bool_decide as Hne.
    + destruct (status_written w1 (status_of w)
        (mkActionsRunnerJobStatus (PersistentVolumeClaimPhase (status_of w)) "") Hsv1) as (H4 & H5 & H6 & H7).
      rewrite H4, H5, H6, H1, H2. cbn. split_and!; try done; [by apply (job_sound_kept w1)|].
      case_bool_decide; lia.
    + change (IsBeingDeleted (Some (OPod Pod_zero))) with false. cbn beta iota.
      rewrite bool_decide_eq_false_2 by done. cbn [after]. rewrite H1, H2, H3. split_and!; try done.
      case_bool_decide; lia.
Qed.

Definition job_steps (w : W) : nat := claim_steps w + pod_steps w.
Definition progress (w w' : W) : Prop :=
  job_sound w' /\ (job_steps w = 0%nat -> w' = w) /\ (0 < job_steps w -> job_steps w' < job_steps w)%nat.

Lemma claim_steps_mirror w :
  (claim_of w = None -> claim = None) ->
  (PersistentVolumeClaimPhase (status_of w) = claim_phase w -> claim_steps w = 0%nat) /\
  (PersistentVolumeClaimPhase (status_of w) <> claim_phase w -> claim_steps w = 1%nat).
Proof.
  unfold claim_steps. destruct (claim_of w) as [c|]; intros Hcl; [|rewrite Hcl by done];
    split; intros; case_bool_decide; done.
Qed.

(** Once the claim is there, or none is wanted, its phase is mirrored; then comes the Pod. *)
Lemma claim_mirrored w :
  job_sound w -> (claim_of w = None -> claim = None) ->
  progress w (after handle
    (if bool_decide (PersistentVolumeClaimPhase (status_of w) <> claim_phase w)
     then updateStatus (read_job w) (mkActionsRunnerJobStatus (claim_phase w) (PodPhase (status_of w)))
     else reconcilePod scheme req ar (read_job w)) w).
Proof.
  intros Hs Hcl. pose proof Hs as [Hsv _]. unfold progress, job_steps. destruct (claim_steps_mirror w Hcl) as [Hsteps0 Hsteps1].
  case_bool_decide as Hne.
  - destruct (status_written w (status_of w)
      (mkActionsRunnerJobStatus (claim_phase w) (PodPhase (status_of w))) Hsv) as (H1 & H2 & H3 & H4).
    set (w' := after handle _ w) in *. rewrite (Hsteps1 Hne).
    assert (claim_phase w' = claim_phase w) as Hph by (unfold claim_phase; by rewrite H2).
    assert (claim_of w' = None -> claim = None) as Hcl' by by rewrite H2.
    destruct (claim_steps_mirror w' Hcl') as [-> _]; [|by rewrite H1, Hph].
    split_and!; [by apply (job_sound_kept w)|lia|].
    unfold pod_steps. rewrite H1, H3. destruct (pod_of w); cbn [PodPhase]; lia.
  - rewrite (Hsteps0 Hne). destruct (pod_part w _ Hs eq_refl) as (H1 & H2 & H3 & H4 & H5).
    set (w' := after handle _ w) in *.
    assert (claim_phase w' = claim_phase w) as Hph by (unfold claim_phase; by rewrite H2).
    assert (claim_of w' = None -> claim = None) as Hcl' by by rewrite H2.
    destruct (claim_steps_mirror w' Hcl') as [-> _]; [|by rewrite H3, Hph].
    split_and!; [done|intros ?; apply H4; lia|]. intros Hpos. apply H5. lia.
Qed.

(** A pass that creates the claim. *)
Lemma claim_created w w1 c c' :
  job_sound w -> serves w1 -> claim_of w = None -> claim = Some c -> made_claim c c' ->
  claim_of w1 = Some c' -> pod_of w1 = pod_of w -> status_of w1 = status_of w ->
  progress w (after handle
    (if bool_decide (PersistentVolumeClaimPhase (status_of w) <> "")
     then updateStatus (read_job w) (mkActionsRunnerJobStatus "" (PodPhase (status_of w)))
     else reconcilePod scheme req ar (read_job w)) w1).
Proof.
  intros (_ & _ & Hp) Hsv1 Hclaim Hcl Hmade H1 H2 H3. unfold progress, job_steps.
  assert (job_sound w1) as Hs1.
  { unfold job_sound. rewrite H1, H2, Hcl. split; [done|]. split; [|done]. intros ? [= <-]. by exists c. }
  assert (claim_steps w = 2%nat) as -> by (unfold claim_steps; by rewrite Hclaim, Hcl).
  assert (pod_steps w1 = pod_steps w) as Hps by (unfold pod_steps; by rewrite H2, H3).
  assert (forall w', claim_of w' = claim_of w1 -> claim_steps w' <= 1)%nat as Hone.
  { intros w' Hw'. unfold claim_steps. rewrite Hw', H1. case_bool_decide; lia. }
  case_bool_decide as Hne.
  - destruct (status_written w1 (status_of w)
      (mkActionsRunnerJobStatus "" (PodPhase (status_of w))) Hsv1) as (H4 & H5 & H6 & H7).
    set (w' := after handle _ w1) in *. specialize (Hone w' H5).
    split_and!; [by apply (job_sound_kept w1)|lia|]. intros _.
    assert (pod_steps w' = pod_steps w) as -> by (unfold pod_steps; by rewrite H4, H6, H2). lia.
  - destruct (pod_part w1 (status_of w) Hs1 ltac:(done)) as (H4 & H5 & _ & H7 & H8).
    set (w' := after handle _ w1) in *. assert (claim_steps w' <= 1)%nat by by apply Hone.
    split_and!; [done|lia|]. intros _.
    destruct (decide (pod_steps w1 = 0%nat)) as [Hz|Hz]; [rewrite (H7 Hz); specialize (Hone w1 eq_refl); lia|].
    assert (0 < pod_steps w1)%nat as Hpos by lia. specialize (H8 Hpos). lia.
Qed.

Lemma job_pass_progress w : job_sound w -> progress w (job_pass w).
Proof.
  intros Hs. pose proof Hs as (Hsv & Hc & Hp). rewrite job_pass_starts by done. unfold reconcileClaim, getClaim. cbn [bind call].
  destruct (js_claim w Hsv) as (e & He & Hget). rewrite (after_do _ _ _ _ _ _ Hget).
  pose proof (claim_mirrored w Hs) as Hmirror. unfold claim_phase in Hmirror.
  destruct (claim_of w) as [c'|] eqn:Hclaim.
  - destruct (Hc c' eq_refl) as (c & Hcl & _ & _ & Hdel & Hph). cbn [bind]. cbn zeta. rewrite read_status.
    assert (IsBeingDeleted (Some (OPersistentVolumeClaim c')) = false) as -> by (cbn; by rewrite Hdel).
    rewrite (bool_decide_eq_false_2 (pvc_Phase c' = ClaimLost)) by done. by apply Hmirror.
  - cbn [bind]. rewrite He, ToPersistentVolumeClaim_status.
    assert (exists o, claim = o) as [[c|] Hcl] by eauto; rewrite Hcl; cbn [bind call].
    + destruct (js_create_claim w c Hsv (claim_key c Hcl) Hclaim) as (c' & w1 & Hcr & Hsv1 & Hmade & H1 & H2 & H3).
      rewrite (after_do _ _ _ _ _ _ Hcr). cbn [IgnoreAlreadyExists bind]. cbn zeta. rewrite read_status.
      change (IsBeingDeleted (Some (OPersistentVolumeClaim PersistentVolumeClaim_zero))) with false.
      rewrite (bool_decide_eq_false_2 (pvc_Phase PersistentVolumeClaim_zero = ClaimLost)) by done.
      by apply (claim_created w w1 c c').
    + cbn zeta. rewrite read_status.
      change (IsBeingDeleted (Some (OPersistentVolumeClaim PersistentVolumeClaim_zero))) with false.
      rewrite (bool_decide_eq_false_2 (pvc_Phase PersistentVolumeClaim_zero = ClaimLost)) by done.
      by apply Hmirror.
Qed.

(** Nothing is left to do exactly when the job is settled. *)
Lemma steps_settled w : job_sound w -> job_steps w = 0%nat -> job_settled w.
Proof.
  intros (_ & Hc & Hp). unfold job_steps, claim_steps, pod_steps, job_settled, claim_phase, pod_phase.
  destruct (claim_of w) as [c'|] eqn:Hclaim, (pod_of w) as [p'|] eqn:Hpod;
    assert (exists o, claim = o) as [[c|] Hcl] by eauto; rewrite Hcl in *;
    repeat case_bool_decide; try lia; intros _.
  - destruct (Hc c' eq_refl) as (c0 & [= <-] & Hmade). split_and!; [by eauto|by eauto|].
    destruct (status_of w); cbn in *; by subst.
  - by destruct (Hc c' eq_refl) as (c0 & ? & _).
  - split_and!; [done|by eauto|]. destruct (status_of w); cbn in *; by subst.
Qed.

Lemma iter_stays {A} (f : A -> A) x n m : f (Nat.iter n f x) = Nat.iter n f x -> (n <= m)%nat ->
  Nat.iter m f x = Nat.iter n f x.
Proof. intros Hf. induction 1 as [|m _ IH]; [done|]. by rewrite Nat.iter_succ, IH. Qed.

(** Four steps are enough from anywhere. *)
Lemma steps_run_out w : job_sound w ->
  exists n, (n <= 4)%nat /\ job_sound (Nat.iter n job_pass w) /\ job_steps (Nat.iter n job_pass w) = 0%nat.
Proof.
  assert (forall k w, (job_steps w <= k)%nat -> job_sound w ->
    exists n, (n <= k)%nat /\ job_sound (Nat.iter n job_pass w) /\ job_steps (Nat.iter n job_pass w) = 0%nat) as Hmain.
  { induction k as [|k IH]; intros w' Hk Hs'.
    - exists 0%nat. cbn. split_and!; [lia|done|lia].
    - destruct (job_pass_progress w' Hs') as (Hs1 & H0 & H1).
      destruct (decide (job_steps w' = 0%nat)) as [Hz|Hz].
      + exists 0%nat. cbn. split_and!; [lia|done|done].
      + destruct (IH (job_pass w')) as (n & Hn & Hrest); [lia|done|].
        exists (S n). split; [lia|]. by rewrite Nat.iter_succ_r. }
  apply Hmain. unfold job_steps, claim_steps, pod_steps.
  destruct (claim_of w), (pod_of w), claim; repeat case_bool_decide; lia.
Qed.

(** [C13] A job gets what it needs.  Against an API server without faults, to which
    nobody else writes, that keeps the job and its runner, at most four passes over
    a live job of a live runner settle it: its Pod is there, as the converter
    describes it, and so is its claim if the runner's volume wants one, with the
    phases that the status of the job shows; and from then on a pass
    changes nothing.  It does not matter where it starts: with nothing there, or
    with a claim or a Pod of an earlier pass, whatever the status says. *)
Theorem Job_settles w :
  job_sound w ->
  exists n, (n <= 4)%nat /\ job_settled (Nat.iter n job_pass w) /\
    forall m, (n <= m)%nat -> Nat.iter m job_pass w = Nat.iter n job_pass w.
Proof.
  intros (n & Hn & Hs & Hz)%steps_run_out. exists n. split_and!; [done|by apply steps_settled|].
  intros m. apply iter_stays. by destruct (job_pass_progress _ Hs) as (_ & -> & _).
Qed.
End job_settles.

(** ** Examples *)

Module LifecycleExamples.
Import Demo ConverterExamples.

(** A server for one job: its status, its claim and its Pod.  It marks what it
    creates as pending. *)
Record job_world : Type := JobWorld {
  jw_status : ActionsRunnerJobStatus;
  jw_claim : option PersistentVolumeClaim;
  jw_pod : option Pod;
}.
Definition alive (m : ObjectMeta) : ObjectMeta :=
  mkObjectMeta (Name m) (GenerateName m) (Namespace m) (UID m) (ResourceVersion m) None (Labels m)
    (Annotations m) (OwnerReferences m) (ManagedFields m).
Definition pending_claim (c : PersistentVolumeClaim) : PersistentVolumeClaim :=
  mkPersistentVolumeClaim (pvc_TypeMeta c) (alive (pvc_ObjectMeta c)) (AccessModes c) (pvc_Resources c) "Pending".
Definition pending_pod (p : Pod) : Pod :=
  mkPod (pod_TypeMeta p) (alive (pod_ObjectMeta p)) (pod_Spec p) "Pending".
Definition found {A} (o : option A) : result A := match o with Some a => Ok a | None => not_found end.
Definition serve_job (o : sop kube) (w : job_world) : sans kube o * job_world :=
  match o return sans kube o * job_world with
  | Get k _ =>
      (match k return result (obj k) with
       | KActionsRunner => Ok (rich both)
       | KActionsRunnerJob => Ok (arj_set_status job (jw_status w))
       | KPersistentVolumeClaim => found (jw_claim w)
       | KPod => found (jw_pod w)
       | KActionsRunnerReplicaSet | KConfigMap | KSecret | KPodDisruptionBudget => not_found
       end, w)
  | Create (OPersistentVolumeClaim c) => (None, JobWorld (jw_status w) (Some (pending_claim c)) (jw_pod w))
  | Create (OPod p) => (None, JobWorld (jw_status w) (jw_claim w) (Some (pending_pod p)))
  | StatusUpdate (OActionsRunnerJob j) => (None, JobWorld (arj_Status j) (jw_claim w) (jw_pod w))
  | List _ _ => (Ok [], w)
  | Create _ | Update _ | StatusUpdate _ | Delete _ => (Some (EStatus ReasonNotFound), w)
  end.

#[export] Instance job_server :
  JobServer serve_job job (rich both) (key "r") (fun _ => True) jw_status jw_claim jw_pod.
Proof.
  split; intros w; [done|done| | | | |].
  - exists (EStatus ReasonNotFound). cbn. by destruct (jw_claim w).
  - exists (EStatus ReasonNotFound). cbn. by destruct (jw_pod w).
  - intros c _ _ _. exists (pending_claim c). eexists. split; [reflexivity|]. unfold made_claim, made_pod.
    split_and!; first [reflexivity|discriminate].
  - intros p _ _ _. exists (pending_pod p). eexists. split; [reflexivity|]. unfold made_claim, made_pod.
    split_and!; first [reflexivity|discriminate].
  - intros s. eexists. split; [reflexivity|]. by destruct s.
Qed.

(** A new job; and one whose Pod runs, its claim bound, since the last pass. *)
Definition new_job : job_world := JobWorld (mkActionsRunnerJobStatus "" "") None None.
Definition running_job : job_world :=
  JobWorld (mkActionsRunnerJobStatus "Pending" "Pending")
    (Some (mkPersistentVolumeClaim (pvc_TypeMeta claim) (pvc_ObjectMeta claim) (AccessModes claim)
             (pvc_Resources claim) "Bound"))
    (Some (mkPod (pod_TypeMeta (pod both)) (pod_ObjectMeta (pod both)) (pod_Spec (pod both)) "Running")).

Abbreviation pass := (job_pass serve_job (key "r") (Some scheme)).
Abbreviation sound := (job_sound (fun _ => True) jw_claim jw_pod (Some claim) (pod both)).
Abbreviation settled := (job_settled jw_status jw_claim jw_pod (Some claim) (pod both)).

Lemma claim_ok :
  ToPersistentVolumeClaim (Some (rich both)) (Some (arj_clear_managed job)) (Some scheme) = Ok (Some claim).
Proof. by vm_compute. Qed.
Lemma pod_made : ToPod (Some (rich both)) (Some (arj_clear_managed job)) (Some scheme) = Ok (pod both).
Proof. reflexivity. Qed.

Lemma Job_settles_witness :
  (jw_status (pass (pass (pass new_job))) = mkActionsRunnerJobStatus "Pending" "Pending") /\
  (exists n, (n <= 4)%nat /\ settled (Nat.iter n pass new_job)) /\
  exists n, (n <= 4)%nat /\ settled (Nat.iter n pass running_job).
Proof.
  assert (sound new_job) as H1 by (split; [exact I|split; discriminate]).
  assert (sound running_job) as H2.
  { split; [exact I|]. split; [intros c' [= <-]; exists claim; split; [reflexivity|]|intros p' [= <-]];
      unfold made_claim, made_pod; split_and!; first [reflexivity|discriminate]. }
  split_and!; [by vm_compute| |].
  - destruct (Job_settles serve_job job (rich both) (key "r") (fun _ => True) jw_status jw_claim jw_pod (Some scheme)
      (Some claim) (pod both) eq_refl eq_refl eq_refl eq_refl claim_ok pod_made new_job H1) as (n & Hn & H & _). by exists n.
  - destruct (Job_settles serve_job job (rich both) (key "r") (fun _ => True) jw_status jw_claim jw_pod (Some scheme)
      (Some claim) (pod both) eq_refl eq_refl eq_refl eq_refl claim_ok pod_made running_job H2) as (n & Hn & H & _). by exists n.
Defined.
End LifecycleExamples.
