(* ===== verification/Serving.v ===== *)
(** * A request is served

    The two controllers on one cluster.  A pass of the ActionsRunner controller
    against an API server and a wire that keep their promises puts everything a
    runner needs in its place, and turns a request into a job; the passes of the
    job's controller then give it its Pod; and when the Pod has finished the job
    is deleted and the wire listens again. *)

From S2P Require Export Lifecycle.
#[local] Open Scope string_scope.

(** ** Programs against a server *)

Section finishes.
Context {E : signature} {W : Type} (handle : forall o : sop E, W -> sans E o * W).

(** What a program returns, and the state it leaves. *)
Fixpoint finishes {A} (p : prog E A) (w : W) : A * W :=
  match p with
  | Ret a => (a, w)
  | Do o k => finishes (k (handle o w).1) (handle o w).2
  end.

Lemma finishes_do {A} o (k : sans E o -> prog E A) w r w' :
  handle o w = (r, w') -> finishes (Do o k) w = finishes (k r) w'.
Proof. cbn. by intros ->. Qed.
Lemma finishes_bind {A B} (p : prog E A) (f : A -> prog E B) w a w' :
  finishes p w = (a, w') -> finishes (bind p f) w = finishes (f a) w'.
Proof.
  revert w. induction p as [a'|o k IH]; intros w; cbn; [by intros [= -> ->]|]. apply IH.
Qed.
Lemma finishes_after {A} (p : prog E A) w : (finishes p w).2 = after handle p w.
Proof. revert w. induction p as [a|o k IH]; intros w; cbn; [done|]. apply IH. Qed.
End finishes.

(** ** The cluster *)

Section cluster.
Context {T : K8sTypes} {L : K8sLib} `{!Process}.

(** The objects of one name, and the wire of the runner of that name. *)
Record cluster : Type := mkCluster {
  cl_ConfigMap : option ConfigMap;
  cl_Secret : option Secret;
  cl_Budget : option PodDisruptionBudget;
  cl_Job : option ActionsRunnerJob;
  cl_Claim : option PersistentVolumeClaim;
  cl_Pod : option Pod;
  cl_requested : bool;
  cl_listening : bool;
}.

Definition stored (ar : ActionsRunner) (c : cluster) (k : kind) : option (obj k) :=
  match k with
  | KActionsRunner => Some ar
  | KActionsRunnerJob => cl_Job c
  | KActionsRunnerReplicaSet => None
  | KConfigMap => cl_ConfigMap c
  | KSecret => cl_Secret c
  | KPodDisruptionBudget => cl_Budget c
  | KPersistentVolumeClaim => cl_Claim c
  | KPod => cl_Pod c
  end.
Definition put (o : object) (c : cluster) : cluster :=
  let '(mkCluster cm s b j pvc p r l) := c in
  match o with
  | OConfigMap cm => mkCluster (Some cm) s b j pvc p r l
  | OSecret s => mkCluster cm (Some s) b j pvc p r l
  | OPodDisruptionBudget b => mkCluster cm s (Some b) j pvc p r l
  | OActionsRunnerJob j => mkCluster cm s b (Some j) pvc p r l
  | OPersistentVolumeClaim pvc => mkCluster cm s b j (Some pvc) p r l
  | OPod p => mkCluster cm s b j pvc (Some p) r l
  | OActionsRunner _ | OActionsRunnerReplicaSet _ => c
  end.
Definition set_job (j : option ActionsRunnerJob) (c : cluster) : cluster :=
  mkCluster (cl_ConfigMap c) (cl_Secret c) (cl_Budget c) j (cl_Claim c) (cl_Pod c) (cl_requested c) (cl_listening c).
Definition set_requested (r : bool) (c : cluster) : cluster :=
  mkCluster (cl_ConfigMap c) (cl_Secret c) (cl_Budget c) (cl_Job c) (cl_Claim c) (cl_Pod c) r (cl_listening c).
Definition set_cl_listening (l : bool) (c : cluster) : cluster :=
  mkCluster (cl_ConfigMap c) (cl_Secret c) (cl_Budget c) (cl_Job c) (cl_Claim c) (cl_Pod c) (cl_requested c) l.

(** What the server makes of an object it is asked to store: it keeps its key and its
    contents, and does not delete it. *)
Definition contents (o o' : object) : Prop :=
  match o, o' with
  | OConfigMap a, OConfigMap b => BinaryData b = BinaryData a
  | OSecret a, OSecret b => Data b = Data a
  | OPodDisruptionBudget a, OPodDisruptionBudget b => pdb_Spec b = pdb_Spec a
  | OActionsRunnerJob a, OActionsRunnerJob b => arj_Status b = arj_Status a
  | OPersistentVolumeClaim a, OPersistentVolumeClaim b => made_claim a b
  | OPod a, OPod b => made_pod a b
  | OActionsRunner _, OActionsRunner _ | OActionsRunnerReplicaSet _, OActionsRunnerReplicaSet _ => True
  | _, _ => False
  end.
Definition made (o o' : object) : Prop :=
  contents o o' /\ DeletionTimestamp (meta_of o') = None /\ key_of o' = key_of o.

Definition found_at {A} (o : option A) (r : result A) : Prop :=
  match o with
  | Some a => r = Ok a
  | None => exists e, r = Err e /\ IsNotFound e = true
  end.

(** An API server and a wire without faults, that nobody else uses. *)
Class Cluster {W : Type} (serve : forall o : sop operator, W -> sans operator o * W) (view : W -> cluster)
    (ar : ActionsRunner) (req : ObjectKey) (h : handle) (d : ptr Files) : Prop := {
  c_get w k : exists r, serve (Kube (Get k req)) w = (r, w) /\ found_at (stored ar (view w) k) r;
  c_create w o : key_of o = req -> stored ar (view w) (kind_of o) = None -> exists o' w',
    serve (Kube (Create o)) w = (None, w') /\ made o o' /\ view w' = put o' (view w);
  c_update w o : key_of o = req -> stored ar (view w) (kind_of o) <> None -> exists o' w',
    serve (Kube (Update o)) w = (None, w') /\ made o o' /\ view w' = put o' (view w);
  c_status w j s : cl_Job (view w) = Some j -> exists w',
    serve (Kube (StatusUpdate (OActionsRunnerJob (arj_set_status (arj_clear_managed j) s)))) w = (None, w') /\
    view w' = set_job (Some (arj_set_status j s)) (view w);
  c_delete w j : cl_Job (view w) = Some j -> exists j' w',
    serve (Kube (Delete (OActionsRunnerJob j))) w = (None, w') /\ view w' = set_job j' (view w) /\
    match j' with Some j' => IsBeingDeleted (Some (OActionsRunnerJob j')) = true | None => True end;
  c_valid w : serve (WireValid h) w = (true, w);
  c_init w : serve (WireInit (ar_clear_managed ar) None) w = (Done (Ok h), w);
  c_dotFiles w : serve (WireDotFiles h) w = (d, w);
  c_receive w : exists w', serve (ReceiveJobRequest h) w = (cl_requested (view w), w') /\
    view w' = set_requested false (view w);
  c_listening w : serve (WireListening h) w = (cl_listening (view w), w);
  c_listen w : exists w', serve (WireListen h) w = (tt, w') /\ view w' = set_cl_listening true (view w);
  c_alive w a b : exists w', serve (SetGitHubActionsJobAlive a b) w = (tt, w') /\ view w' = view w;
  c_done w a b : exists w', serve (SetGitHubActionsJobDone a b) w = (tt, w') /\ view w' = view w;
}.
End cluster.

#[local] Arguments ToConfigMap : simpl never.
#[local] Arguments ToSecret : simpl never.
#[local] Arguments ToPodDisruptionBudget : simpl never.
#[local] Arguments ToActionsRunnerJob : simpl never.
#[local] Arguments ar_clear_managed : simpl never.
#[local] Arguments IsBeingDeleted : simpl never.
#[local] Arguments IsZero : simpl never.
#[local] Arguments completed : simpl never.

(** ** A pass of the runner's controller *)

Section serving.
Context {T : K8sTypes} {L : K8sLib} `{!K8sLibSpec L} {Pr : Process}.
Context {W : Type} (serve : forall o : sop operator, W -> sans operator o * W) (view : W -> cluster).
Context (ar : ActionsRunner) (req : ObjectKey) (h : handle) (d : ptr Files) (scheme : ptr Scheme).
Context `{!Cluster serve view ar req h d}.
Context (cm : ConfigMap) (sec : Secret) (pdb : PodDisruptionBudget) (arj : ActionsRunnerJob).
Hypothesis ar_key : key_of (OActionsRunner ar) = req.
Hypothesis named : key_Name req <> "".
Hypothesis ar_live : DeletionTimestamp (ar_ObjectMeta ar) = None.
Hypothesis cm_desired : ToConfigMap d (Some (ar_clear_managed ar)) scheme = Ok cm.
Hypothesis sec_desired : ToSecret d (Some (ar_clear_managed ar)) scheme = Ok sec.
Hypothesis pdb_desired : ToPodDisruptionBudget (Some (ar_clear_managed ar)) scheme = Ok pdb.
Hypothesis arj_desired : ToActionsRunnerJob (Some (ar_clear_managed ar)) scheme = Ok arj.

(** An object of the runner that is there is not on its way out. *)
Definition lives (o : option object) : Prop :=
  match o with
  | Some o => DeletionTimestamp (meta_of o) = None /\ key_of o = req
  | None => True
  end.
Record sane (c : cluster) : Prop := mkSane {
  sane_ConfigMap : lives (OConfigMap <$> cl_ConfigMap c);
  sane_Secret : lives (OSecret <$> cl_Secret c);
  sane_Budget : lives (OPodDisruptionBudget <$> cl_Budget c);
}.

(** The runner has what it needs. *)
Definition equipped (c : cluster) : Prop :=
  (exists o, cl_ConfigMap c = Some o /\ made (OConfigMap cm) (OConfigMap o)) /\
  (exists o, cl_Secret c = Some o /\ made (OSecret sec) (OSecret o)) /\
  (exists o, cl_Budget c = Some o /\ contents (OPodDisruptionBudget pdb) (OPodDisruptionBudget o) /\
     DeletionTimestamp (pdb_ObjectMeta o) = None /\ key_of (OPodDisruptionBudget o) = req).

(** What does not concern them. *)
Definition jobs_of (c : cluster) := (cl_Job c, cl_Claim c, cl_Pod c, cl_requested c, cl_listening c).

(** *** Keys *)

Lemma desired_keys :
  key_of (OConfigMap cm) = req /\ key_of (OSecret sec) = req /\
  key_of (OPodDisruptionBudget pdb) = req /\ key_of (OActionsRunnerJob arj) = req.
Proof.
  rewrite <- ar_key. revert cm_desired sec_desired pdb_desired arj_desired.
  unfold ToConfigMap, ToSecret, ToPodDisruptionBudget, ToActionsRunnerJob. intros H1 H2 H3 H4.
  destruct d as [f|]; [|done]. destruct scheme as [sch|]; [|done]. cbn [not_nil result_bind] in *.
  repeat (destruct (SetControllerReference _ _ _ _) eqn:Hm in *; try discriminate;
    apply SetControllerReference_spec in Hm as [? ->]; cbn [result_bind] in *).
  simplify_eq. done.
Qed.

Lemma keyed_not_zero o : key_of o = req -> IsZero (Some o) = false.
Proof. intros H. apply IsZero_named. by rewrite <- H in named. Qed.

Lemma live_not_deleted o : DeletionTimestamp (meta_of o) = None -> IsBeingDeleted (Some o) = false.
Proof. intros H. unfold IsBeingDeleted. by rewrite H. Qed.

(** *** The steps of a pass *)

Abbreviation fin p w := (finishes serve p w).

Ltac server H := rewrite (finishes_do _ _ _ _ _ _ H); cbn beta iota.

Lemma getConfigMap_fin w : lives (OConfigMap <$> cl_ConfigMap (view w)) ->
  fin (getConfigMap req) w = (Continue (default ConfigMap_zero (cl_ConfigMap (view w))), w).
Proof.
  intros Hl. unfold getConfigMap. cbn [bind call]. destruct (c_get w KConfigMap) as (r & Hr & Hf). server Hr.
  cbn [stored] in Hf. destruct (cl_ConfigMap (view w)) as [o|].
  - cbn in Hf. subst r. cbn [err_of IgnoreNotFound value_or default finishes]. by rewrite live_not_deleted by (by destruct Hl).
  - destruct Hf as (e & -> & He). cbn [err_of IgnoreNotFound value_or default]. rewrite He.
    by rewrite (IsBeingDeleted_zero KConfigMap : IsBeingDeleted (Some (OConfigMap ConfigMap_zero)) = false).
Qed.
Lemma getSecret_fin w : lives (OSecret <$> cl_Secret (view w)) ->
  fin (getSecret req) w = (Continue (default Secret_zero (cl_Secret (view w))), w).
Proof.
  intros Hl. unfold getSecret. cbn [bind call]. destruct (c_get w KSecret) as (r & Hr & Hf). server Hr.
  cbn [stored] in Hf. destruct (cl_Secret (view w)) as [o|].
  - cbn in Hf. subst r. cbn [err_of IgnoreNotFound value_or default finishes]. by rewrite live_not_deleted by (by destruct Hl).
  - destruct Hf as (e & -> & He). cbn [err_of IgnoreNotFound value_or default]. rewrite He.
    by rewrite (IsBeingDeleted_zero KSecret : IsBeingDeleted (Some (OSecret Secret_zero)) = false).
Qed.
Lemma getBudget_fin w : lives (OPodDisruptionBudget <$> cl_Budget (view w)) ->
  fin (getPodDisruptionBudget req) w = (Continue (default PodDisruptionBudget_zero (cl_Budget (view w))), w).
Proof.
  intros Hl. unfold getPodDisruptionBudget. cbn [bind call].
  destruct (c_get w KPodDisruptionBudget) as (r & Hr & Hf). server Hr.
  cbn [stored] in Hf. destruct (cl_Budget (view w)) as [o|].
  - cbn in Hf. subst r. cbn [err_of IgnoreNotFound value_or default finishes]. by rewrite live_not_deleted by (by destruct Hl).
  - destruct Hf as (e & -> & He). cbn [err_of IgnoreNotFound value_or default]. rewrite He.
    by rewrite (IsBeingDeleted_zero KPodDisruptionBudget :
      IsBeingDeleted (Some (OPodDisruptionBudget PodDisruptionBudget_zero)) = false).
Qed.

Lemma create_fin o w : key_of o = req -> stored ar (view w) (kind_of o) = None ->
  exists o' w', fin (create o) w = (Continue tt, w') /\ made o o' /\ view w' = put o' (view w).
Proof.
  intros Hk Hn. destruct (c_create w o Hk Hn) as (o' & w' & Hw & Hm). exists o', w'. split; [|done].
  unfold create. cbn [bind call]. server Hw. done.
Qed.

Lemma next_fin {A B} (p : prog operator (step A)) (k : A -> prog operator (step B)) w a w' :
  fin p w = (Continue a, w') -> fin (next p k) w = fin (k a) w'.
Proof. intros H. unfold next. by rewrite (finishes_bind _ _ _ _ _ _ H). Qed.

(** *** The dot files *)

(** A ConfigMap, or a Secret, is created where it is missing and then updated. *)
Lemma createConfigMap_fin w : lives (OConfigMap <$> cl_ConfigMap (view w)) ->
  exists w', fin (createConfigMap scheme (ar_clear_managed ar) d (default ConfigMap_zero (cl_ConfigMap (view w)))) w =
      (Continue tt, w') /\
    is_Some (cl_ConfigMap (view w')) /\ cl_Secret (view w') = cl_Secret (view w) /\
    cl_Budget (view w') = cl_Budget (view w) /\ jobs_of (view w') = jobs_of (view w).
Proof.
  intros Hl. unfold createConfigMap. destruct desired_keys as (Hk & _).
  destruct (cl_ConfigMap (view w)) as [o|] eqn:Ho; cbn [default].
  - destruct Hl as [_ Hl]. rewrite keyed_not_zero by done. exists w. by rewrite Ho.
  - rewrite (IsZero_zero KConfigMap : IsZero (Some (OConfigMap ConfigMap_zero)) = true), cm_desired.
    destruct (create_fin (OConfigMap cm) w Hk Ho) as (o' & w' & Hw & [Hc _] & Hv). exists w'. split; [exact Hw|].
    rewrite Hv. destruct o'; try done. unfold jobs_of. by destruct (view w).
Qed.
Lemma createSecret_fin w : lives (OSecret <$> cl_Secret (view w)) ->
  exists w', fin (createSecret scheme (ar_clear_managed ar) d (default Secret_zero (cl_Secret (view w)))) w =
      (Continue tt, w') /\
    is_Some (cl_Secret (view w')) /\ cl_ConfigMap (view w') = cl_ConfigMap (view w) /\
    cl_Budget (view w') = cl_Budget (view w) /\ jobs_of (view w') = jobs_of (view w).
Proof.
  intros Hl. unfold createSecret. destruct desired_keys as (_ & Hk & _).
  destruct (cl_Secret (view w)) as [o|] eqn:Ho; cbn [default].
  - destruct Hl as [_ Hl]. rewrite keyed_not_zero by done. exists w. by rewrite Ho.
  - rewrite (IsZero_zero KSecret : IsZero (Some (OSecret Secret_zero)) = true), sec_desired.
    destruct (create_fin (OSecret sec) w Hk Ho) as (o' & w' & Hw & [Hc _] & Hv). exists w'. split; [exact Hw|].
    rewrite Hv. destruct o'; try done. unfold jobs_of. by destruct (view w).
Qed.
Lemma writeConfigMap_fin w : is_Some (cl_ConfigMap (view w)) ->
  exists o w', fin (writeConfigMap scheme (ar_clear_managed ar) d) w = (Continue tt, w') /\
    cl_ConfigMap (view w') = Some o /\ made (OConfigMap cm) (OConfigMap o) /\
    cl_Secret (view w') = cl_Secret (view w) /\
    cl_Budget (view w') = cl_Budget (view w) /\ jobs_of (view w') = jobs_of (view w).
Proof.
  intros [o Ho]. unfold writeConfigMap. rewrite cm_desired. destruct desired_keys as (Hk & _).
  destruct (c_update w (OConfigMap cm) Hk) as (o' & w' & Hw & Hm & Hv); [cbn; by rewrite Ho|].
  destruct Hm as (Hc & Hd & Hk'). destruct o' as [| | |o'| | | |]; try done. exists o', w'. cbn [bind call].
  split; [by server Hw|]. rewrite Hv. unfold jobs_of. by destruct (view w).
Qed.
Lemma writeSecret_fin w : is_Some (cl_Secret (view w)) ->
  exists o w', fin (writeSecret scheme (ar_clear_managed ar) d) w = (Continue tt, w') /\
    cl_Secret (view w') = Some o /\ made (OSecret sec) (OSecret o) /\
    cl_ConfigMap (view w') = cl_ConfigMap (view w) /\
    cl_Budget (view w') = cl_Budget (view w) /\ jobs_of (view w') = jobs_of (view w).
Proof.
  intros [o Ho]. unfold writeSecret. rewrite sec_desired. destruct desired_keys as (_ & Hk & _).
  destruct (c_update w (OSecret sec) Hk) as (o' & w' & Hw & Hm & Hv); [cbn; by rewrite Ho|].
  destruct Hm as (Hc & Hd & Hk'). destruct o' as [| | | |o'| | |]; try done. exists o', w'. cbn [bind call].
  split; [by server Hw|]. rewrite Hv. unfold jobs_of. by destruct (view w).
Qed.

Lemma writeDotFiles_fin w : sane (view w) ->
  exists w', fin (writeDotFiles scheme (ar_clear_managed ar) h (default ConfigMap_zero (cl_ConfigMap (view w)))
      (default Secret_zero (cl_Secret (view w)))) w = (Continue tt, w') /\
    (exists o, cl_ConfigMap (view w') = Some o /\ made (OConfigMap cm) (OConfigMap o)) /\
    (exists o, cl_Secret (view w') = Some o /\ made (OSecret sec) (OSecret o)) /\
    cl_Budget (view w') = cl_Budget (view w) /\ jobs_of (view w') = jobs_of (view w).
Proof.
  intros [Hcm Hsec _]. unfold writeDotFiles. cbn [bind call]. server (c_dotFiles w).
  destruct (createConfigMap_fin w Hcm) as (w1 & H1 & Hcm1 & Hsec1 & Hb1 & Hj1).
  rewrite (next_fin _ _ _ _ _ H1), <- Hsec1. rewrite <- Hsec1 in Hsec.
  destruct (createSecret_fin w1 Hsec) as (w2 & H2 & Hsec2 & Hcm2 & Hb2 & Hj2). rewrite (next_fin _ _ _ _ _ H2).
  destruct (writeConfigMap_fin w2) as (o & w3 & H3 & Hcm3 & Hm3 & Hsec3 & Hb3 & Hj3); [by rewrite Hcm2|].
  rewrite (next_fin _ _ _ _ _ H3).
  destruct (writeSecret_fin w3) as (o' & w4 & H4 & Hsec4 & Hm4 & Hcm4 & Hb4 & Hj4); [by rewrite Hsec3|].
  exists w4. split; [exact H4|]. split_and!; [exists o; by rewrite Hcm4|by exists o'|congruence|congruence].
Qed.

(** *** The budget *)

Lemma reconcileBudget_fin w : lives (OPodDisruptionBudget <$> cl_Budget (view w)) ->
  exists w', fin (reconcileBudget scheme req (ar_clear_managed ar)) w = (Continue tt, w') /\
    (exists o, cl_Budget (view w') = Some o /\ contents (OPodDisruptionBudget pdb) (OPodDisruptionBudget o) /\
       DeletionTimestamp (pdb_ObjectMeta o) = None /\ key_of (OPodDisruptionBudget o) = req) /\
    cl_ConfigMap (view w') = cl_ConfigMap (view w) /\ cl_Secret (view w') = cl_Secret (view w) /\
    jobs_of (view w') = jobs_of (view w).
Proof.
  intros Hl. unfold reconcileBudget. rewrite (next_fin _ _ _ _ _ (getBudget_fin w Hl)), pdb_desired.
  destruct desired_keys as (_ & _ & Hk & _). unfold CalculateReconciliationAction.
  rewrite (keyed_not_zero _ Hk). destruct (cl_Budget (view w)) as [o|] eqn:Ho; cbn [default].
  - destruct Hl as [Hd Ho']. unfold id. rewrite (keyed_not_zero (OPodDisruptionBudget o)) by done. cbn [andb negb].
    case_bool_decide as Hspec; [exists w; split; [done|]; split; [by exists o|done]|].
    destruct (c_update w (OPodDisruptionBudget pdb) Hk) as (o' & w' & Hw & (Hc & Hd' & Hk') & Hv);
      [cbn; by rewrite Ho|]. destruct o' as [| | | | |o'| |]; try done. exists w'. cbn [bind call].
    split; [by server Hw|]. rewrite Hv. unfold jobs_of. rewrite Hk in Hk'.
    destruct (view w). split; [by exists o'|done].
  - rewrite (IsZero_zero KPodDisruptionBudget : IsZero (Some (OPodDisruptionBudget PodDisruptionBudget_zero)) = true).
    cbn [andb negb].
    destruct (create_fin (OPodDisruptionBudget pdb) w Hk Ho) as (o' & w' & Hw & (Hc & Hd' & Hk') & Hv).
    destruct o' as [| | | | |o'| |]; try done. exists w'. split; [exact Hw|]. rewrite Hv. unfold jobs_of.
    rewrite Hk in Hk'. destruct (view w). split; [by exists o'|done].
Qed.

(** *** The job *)

(** What a pass does about the job: one that has finished is deleted, and one that
    has not is left alone; when there is none, a request becomes one, and without
    a request the wire listens. *)
Definition attended (c c' : cluster) : Prop :=
  cl_Claim c' = cl_Claim c /\ cl_Pod c' = cl_Pod c /\
  match cl_Job c with
  | Some j =>
      cl_requested c' = cl_requested c /\ cl_listening c' = cl_listening c /\
      if negb (IsBeingDeleted (Some (OActionsRunnerJob j))) && completed j
      then match cl_Job c' with
           | Some j' => IsBeingDeleted (Some (OActionsRunnerJob j')) = true
           | None => True
           end
      else cl_Job c' = Some j
  | None =>
      cl_requested c' = false /\
      if cl_requested c
      then cl_listening c' = cl_listening c /\
           exists j, cl_Job c' = Some j /\ made (OActionsRunnerJob arj) (OActionsRunnerJob j)
      else cl_listening c' = true /\ cl_Job c' = None
  end.
Definition files_of (c : cluster) := (cl_ConfigMap c, cl_Secret c, cl_Budget c).

Lemma reconcileJob_fin w :
  exists w', fin (reconcileJob scheme req (ar_clear_managed ar) h) w = (None, w') /\
    attended (view w) (view w') /\ files_of (view w') = files_of (view w).
Proof.
  unfold reconcileJob. cbn [bind call]. destruct (c_get w KActionsRunnerJob) as (r & Hr & Hf). server Hr.
  cbn [stored] in Hf. unfold attended, files_of. destruct (cl_Job (view w)) as [j|] eqn:Hj; cbn [found_at] in Hf.
  - subst r. destruct (IsBeingDeleted _) eqn:Hd; [by exists w|]. destruct (completed j); [|by exists w]. cbn [negb andb].
    destruct (c_delete w j Hj) as (j' & w1 & Hw1 & Hv1 & Hj'). server Hw1. cbn [IgnoreNotFound bind call].
    destruct (c_done w1 (repo_Name (Repository (Spec (ar_clear_managed ar)))) (Name (arj_ObjectMeta j)))
      as (w2 & Hw2 & Hv2).
    server Hw2. exists w2. split; [done|]. rewrite Hv2, Hv1. cbn. by split_and!.
  - destruct Hf as (e & -> & He). rewrite He. cbn [bind call].
    destruct (c_receive w) as (w1 & Hw1 & Hv1). server Hw1. destruct (cl_requested (view w)) eqn:Hreq.
    + rewrite arj_desired. destruct desired_keys as (_ & _ & _ & Hk).
      destruct (c_create w1 (OActionsRunnerJob arj) Hk) as (o' & w2 & Hw2 & Hm & Hv2); [cbn; by rewrite Hv1|].
      pose proof Hm as [Hc _]. destruct o' as [|j| | | | | |]; try done. cbn [bind call]. server Hw2. cbn [IgnoreAlreadyExists bind call].
      destruct (c_alive w2 (repo_Name (Repository (Spec (ar_clear_managed ar)))) (Name (arj_ObjectMeta arj)))
        as (w3 & Hw3 & Hv3).
      server Hw3. exists w3. split; [done|]. rewrite Hv3, Hv2, Hv1. destruct (view w). cbn. cbn in Hj. subst.
      split_and!; try done. by exists j.
    + cbn [bind call]. server (c_listening w1). destruct (cl_listening (view w1)) eqn:Hl; cbn [negb].
      * exists w1. split; [done|]. rewrite Hv1 in *. cbn in *. by split_and!.
      * cbn [bind call]. destruct (c_listen w1) as (w2 & Hw2 & Hv2). server Hw2. exists w2. split; [done|].
        rewrite Hv2, Hv1. cbn. by split_and!.
Qed.

(** *** The whole pass *)

Lemma attended_jobs c c0 c' : jobs_of c0 = jobs_of c -> attended c0 c' -> attended c c'.
Proof. unfold jobs_of, attended. intros [= -> -> -> -> ->]. done. Qed.

Lemma reconcileWired_fin w : sane (view w) ->
  exists w', fin (reconcileWired scheme req (ar_clear_managed ar) h (default ConfigMap_zero (cl_ConfigMap (view w)))
      (default Secret_zero (cl_Secret (view w)))) w = (None, w') /\
    equipped (view w') /\ attended (view w) (view w').
Proof.
  intros Hs. unfold reconcileWired. destruct (writeDotFiles_fin w Hs) as (w1 & H1 & Hcm & Hsec & Hb1 & Hj1).
  destruct (reconcileBudget_fin w1) as (w2 & H2 & Hb & Hcm2 & Hsec2 & Hj2); [rewrite Hb1; apply (sane_Budget _ Hs)|].
  rewrite (finishes_bind _ _ _ _ (Continue tt) w2).
  - destruct (reconcileJob_fin w2) as (w3 & H3 & Ha & Hf). exists w3. split; [exact H3|]. injection Hf as Hf1 Hf2 Hf3.
    unfold equipped. rewrite Hf1, Hf2, Hf3, Hcm2, Hsec2. split; [done|].
    eapply attended_jobs; [|exact Ha]. congruence.
  - by rewrite (next_fin _ _ _ _ _ H1).
Qed.

Definition wired (reg : registry) : Prop := reg !! req = None \/ reg !! req = Some h.

Lemma runner_key_req : runner_key (ar_clear_managed ar) = req.
Proof. rewrite <- ar_key. done. Qed.

Lemma WireFor_fin reg w : wired reg ->
  fin (WireFor (Some (ar_clear_managed ar)) None reg) w = ((Done (Ok h), <[req := h]> reg), w).
Proof.
  intros Hreg. unfold WireFor, GetWire, MakeWire. rewrite runner_key_req. destruct Hreg as [-> | Hr].
  - cbn [bind call]. by server (c_init w).
  - rewrite Hr. cbn [bind call]. server (c_valid w). cbn [bind]. by rewrite insert_id.
Qed.

Lemma Reconcile_fin w reg : sane (view w) -> wired reg ->
  exists w', fin (RunnerReconciler.Reconcile false scheme req reg) w = ((Done None, <[req := h]> reg), w') /\
    equipped (view w') /\ attended (view w) (view w').
Proof.
  intros Hs Hreg. unfold RunnerReconciler.Reconcile. cbn [bind call].
  destruct (c_get w KActionsRunner) as (r & Hr & Hf). server Hr. cbn in Hf. subst r.
  rewrite live_not_deleted by done.
  rewrite (finishes_bind _ _ _ _ (Continue (default ConfigMap_zero (cl_ConfigMap (view w)),
    default Secret_zero (cl_Secret (view w)))) w).
  - rewrite (finishes_bind _ _ _ _ _ _ (WireFor_fin reg w Hreg)). cbn [fst snd].
    destruct (reconcileWired_fin w Hs) as (w' & Hw & He & Ha). exists w'. split; [|done].
    rewrite (finishes_bind _ _ _ _ _ _ Hw). done.
  - rewrite (next_fin _ _ _ _ _ (getConfigMap_fin w (sane_ConfigMap _ Hs))).
    by rewrite (next_fin _ _ _ _ _ (getSecret_fin w (sane_Secret _ Hs))).
Qed.

(** What a pass over a live runner comes to.  Against an API server and a wire
    without faults, wherever it starts from and whatever is there already, the pass
    ends without an error with the runner's wire registered; the ConfigMap and the
    Secret are there with the dot files of the wire, and the budget as described;
    a job that has finished is gone or on its way out, and one that has not is as
    it was; and if there is no job, a request that was received has become one, as
    the converter describes it, and otherwise the wire listens. *)
Theorem runner_pass_serves w reg : sane (view w) -> wired reg ->
  exists w', finishes serve (RunnerReconciler.Reconcile false scheme req reg) w =
      ((Done None, <[req := h]> reg), w') /\
    equipped (view w') /\ attended (view w) (view w').
Proof. apply Reconcile_fin. Qed.

(** ** From a request to its Pod *)

(** The API server alone, as the job's controller uses it. *)
Definition serve_kube (o : sop kube) (w : W) : sans kube o * W := serve (Kube o) w.

Definition job_status (w : W) : ActionsRunnerJobStatus :=
  default (mkActionsRunnerJobStatus "" "") (arj_Status <$> cl_Job (view w)).
(** The job [j], with whatever status, and the runner's objects as in [files]. *)
Definition keeps (j : ActionsRunnerJob) files (w : W) : Prop :=
  cl_Job (view w) = Some (arj_set_status j (job_status w)) /\ files_of (view w) = files.

Lemma job_server j files :
  JobServer serve_kube j ar req (keeps j files) job_status (fun w => cl_Claim (view w)) (fun w => cl_Pod (view w)).
Proof.
  assert (forall w w' (c : cluster), keeps j files w -> view w' = c -> cl_Job c = cl_Job (view w) ->
    files_of c = files_of (view w) -> keeps j files w' /\ job_status w' = job_status w) as Hkeeps.
  { intros w w' c [H1 H2] Hv Hj Hf. unfold keeps, job_status. rewrite Hv, Hj, Hf. by rewrite H1. }
  assert (forall A (o : option A) r, found_at o r -> exists e, IsNotFound e = true /\
    r = match o with Some a => Ok a | None => Err e end) as Hfound.
  { intros A [a|] r Hr; [|naive_solver]. exists (EStatus ReasonNotFound). by cbn in Hr. }
  split; unfold serve_kube.
  - intros w [Hw _]. destruct (c_get w KActionsRunnerJob) as (r & -> & Hf). cbn in Hf. rewrite Hw in Hf.
    cbn in Hf. by subst.
  - intros w _. destruct (c_get w KActionsRunner) as (r & -> & Hf). cbn in Hf. by subst.
  - intros w _. destruct (c_get w KPersistentVolumeClaim) as (r & -> & (e & He & ->)%Hfound). by exists e.
  - intros w _. destruct (c_get w KPod) as (r & -> & (e & He & ->)%Hfound). by exists e.
  - intros w c Hw Hk Hc. destruct (c_create w (OPersistentVolumeClaim c) Hk Hc) as (o & w' & Hw' & [Hm _] & Hv).
    destruct o as [| | | | | |c'|]; try done. exists c', w'. split; [exact Hw'|].
    destruct (Hkeeps w w' _ Hw Hv) as [H1 H2]; [by destruct (view w)..|].
    rewrite H2, Hv. split; [done|]. split; [done|]. by destruct (view w).
  - intros w p Hw Hk Hc. destruct (c_create w (OPod p) Hk Hc) as (o & w' & Hw' & [Hm _] & Hv).
    destruct o as [| | | | | | |p']; try done. exists p', w'. split; [exact Hw'|].
    destruct (Hkeeps w w' _ Hw Hv) as [H1 H2]; [by destruct (view w)..|].
    rewrite H2, Hv. split; [done|]. split; [done|]. by destruct (view w).
  - intros w s [Hw Hf]. destruct (c_status w _ s Hw) as (w' & Hw' & Hv). exists w'. split; [exact Hw'|].
    unfold keeps, job_status. rewrite Hv. unfold files_of in *. by cbn.
Qed.

(** [C2] A request is served.  On a cluster without faults, let the wire have a
    request for a job, and let there be no job yet, nor anything of one.  Then a
    pass of the runner's controller and at most four of the job's lead from the
    request to the Pod that serves it: the job is there, and the request is not
    received again; the Pod is there, as the converter describes it, and its claim
    if the runner wants one; so are the ConfigMap, the Secret and the budget, of
    which the Pod mounts the first two; and the job shows the phases of the Pod
    and of the claim. *)
Theorem request_served w reg :
  sane (view w) -> wired reg ->
  cl_Job (view w) = None -> cl_Claim (view w) = None -> cl_Pod (view w) = None -> cl_requested (view w) = true ->
  exists w1 j, finishes serve (RunnerReconciler.Reconcile false scheme req reg) w =
      ((Done None, <[req := h]> reg), w1) /\
    cl_Job (view w1) = Some j /\ made (OActionsRunnerJob arj) (OActionsRunnerJob j) /\ cl_requested (view w1) = false /\
    forall claim pod,
      ToPersistentVolumeClaim (Some ar) (Some (arj_clear_managed j)) scheme = Ok claim ->
      ToPod (Some ar) (Some (arj_clear_managed j)) scheme = Ok pod ->
      exists n, (n <= 4)%nat /\
        let w2 := Nat.iter n (job_pass serve_kube req scheme) w1 in
        equipped (view w2) /\ cl_Job (view w2) = Some (arj_set_status j (job_status w2)) /\
        job_settled job_status (fun w => cl_Claim (view w)) (fun w => cl_Pod (view w)) claim pod w2.
Proof.
  intros Hs Hreg Hj Hc Hp Hreq. destruct (Reconcile_fin w reg Hs Hreg) as (w1 & Hw1 & He & Hcl & Hpod & Ha).
  rewrite Hj, Hreq in Ha. destruct Ha as (Hreq' & _ & j & Hj' & Hm). exists w1, j. split_and!; [done..|].
  intros claim pod Hclaim Hpod'. pose proof Hm as (_ & Hlive & Hkey).
  destruct desired_keys as (_ & _ & _ & Hk). rewrite Hk in Hkey.
  pose proof (job_server j (files_of (view w1))) as Hserver.
  assert (job_sound (keeps j (files_of (view w1))) (fun w => cl_Claim (view w)) (fun w => cl_Pod (view w)) claim pod w1)
    as Hsound.
  { split; [|by rewrite Hcl, Hpod, Hc, Hp]. split; [|done]. unfold job_status. rewrite Hj'. by destruct j. }
  destruct (steps_run_out serve_kube j ar req _ _ _ _ scheme claim pod Hlive ar_live ar_key Hkey Hclaim Hpod' w1 Hsound)
    as (n & Hn & Hs2 & Hz). exists n. split; [done|]. cbn zeta.
  pose proof Hs2 as ((Hj2 & Hf2) & _). split_and!; [|done|by eapply steps_settled].
  injection Hf2 as Hf21 Hf22 Hf23. unfold equipped. by rewrite Hf21, Hf22, Hf23.
Qed.
End serving.

(** ** Examples *)

Module ServingExamples.
Import Demo ConverterExamples LifecycleExamples.

(** A cluster in memory; a job that is deleted is gone at once. *)
Definition kept_object (o : object) : object :=
  match o with
  | OConfigMap o => OConfigMap (mkConfigMap (cm_TypeMeta o) (alive (cm_ObjectMeta o)) (BinaryData o) (cm_rest o))
  | OSecret o => OSecret (mkSecret (sec_TypeMeta o) (alive (sec_ObjectMeta o)) (Data o) (sec_rest o))
  | OPodDisruptionBudget o =>
      OPodDisruptionBudget (mkPodDisruptionBudget (pdb_TypeMeta o) (alive (pdb_ObjectMeta o)) (pdb_Spec o) (pdb_rest o))
  | OActionsRunnerJob o => OActionsRunnerJob (mkActionsRunnerJob (arj_TypeMeta o) (alive (arj_ObjectMeta o)) (arj_Status o))
  | OPersistentVolumeClaim o => OPersistentVolumeClaim (pending_claim o)
  | OPod o => OPod (pending_pod o)
  | OActionsRunner o => OActionsRunner (mkActionsRunner (ar_TypeMeta o) (alive (ar_ObjectMeta o)) (Spec o))
  | OActionsRunnerReplicaSet o =>
      OActionsRunnerReplicaSet (mkActionsRunnerReplicaSet (arrs_TypeMeta o) (alive (arrs_ObjectMeta o)) (arrs_Spec o) (arrs_Status o))
  end.
Definition there (c : cluster) (o : object) : bool :=
  match stored (rich both) c (kind_of o) with Some _ => true | None => false end.
Definition serve_cluster (o : sop operator) (c : cluster) : sans operator o * cluster :=
  match o return operator_ans o * cluster with
  | Kube o =>
      match o return kube_ans o * cluster with
      | Get k _ => (found (stored (rich both) c k), c)
      | List _ _ => (Ok [], c)
      | Create o => if there c o then (Some (EStatus ReasonAlreadyExists), c) else (None, put (kept_object o) c)
      | Update o => if there c o then (None, put (kept_object o) c) else (Some (EStatus ReasonNotFound), c)
      | StatusUpdate (OActionsRunnerJob j) =>
          (None, set_job ((fun o => arj_set_status o (arj_Status j)) <$> cl_Job c) c)
      | Delete (OActionsRunnerJob _) => (None, set_job None c)
      | StatusUpdate _ | Delete _ => (Some (EStatus ReasonNotFound), c)
      end
  | WireValid _ => (true, c)
  | WireInit _ _ => (Done (Ok 1%positive), c)
  | WireClose _ | WireDestroy _ => (Done (Ok tt), c)
  | WireDotFiles _ => (Some dotFiles, c)
  | ReceiveJobRequest _ => (cl_requested c, set_requested false c)
  | WireListening _ => (cl_listening c, c)
  | WireListen _ => (tt, set_cl_listening true c)
  | CloseEventChannel => (Done tt, c)
  | SetGitHubActionsJobAlive _ _ | SetGitHubActionsJobDone _ _ => (tt, c)
  end.

Lemma kept_made o : made o (kept_object o) /\ kind_of (kept_object o) = kind_of o.
Proof.
  split; [|by destruct o]. split; [|split; [by destruct o|by destruct o]].
  destruct o; try done; cbn; unfold made_claim, made_pod; split_and!; first [reflexivity|discriminate].
Qed.

#[export] Instance memory_cluster :
  Cluster serve_cluster (fun c => c) (rich both) (key "r") 1%positive (Some dotFiles).
Proof.
  split; try (intros; cbn; by eauto).
  - intros c k. eexists. split; [reflexivity|]. destruct (stored (rich both) c k); cbn; [done|by eexists].
  - intros c o _ Hn. exists (kept_object o), (put (kept_object o) c). cbn. unfold there. rewrite Hn.
    split; [done|]. split; [apply kept_made|done].
  - intros c o _ Hn. exists (kept_object o), (put (kept_object o) c). cbn. unfold there.
    destruct (stored (rich both) c (kind_of o)); [|done]. split; [done|]. split; [apply kept_made|done].
  - intros c j s Hj. eexists. split; [reflexivity|]. by rewrite Hj.
  - intros c j Hj. exists None. eexists. by split.
Qed.

(** The wire of a new runner has a request. *)
Definition asked : cluster := mkCluster None None None None None None true false.

Definition made_cm : ConfigMap := value ConfigMap_zero (ToConfigMap (Some dotFiles) (Some (rich both)) (Some scheme)).
Definition made_sec : Secret := value Secret_zero (ToSecret (Some dotFiles) (Some (rich both)) (Some scheme)).
Definition made_pdb : PodDisruptionBudget :=
  value PodDisruptionBudget_zero (ToPodDisruptionBudget (Some (rich both)) (Some scheme)).
Definition made_job : ActionsRunnerJob := value job (ToActionsRunnerJob (Some (rich both)) (Some scheme)).
Definition first_pass := finishes serve_cluster (RunnerReconciler.Reconcile false (Some scheme) (key "r") ∅).

Lemma runner_pass_serves_witness :
  cl_listening (first_pass (mkCluster None None None None None None false false)).2 = true /\
  exists w', first_pass asked = ((Done None, {[key "r" := 1%positive]}), w') /\
    is_Some (cl_Job w') /\ is_Some (cl_ConfigMap w').
Proof.
  split; [by vm_compute|].
  destruct (runner_pass_serves serve_cluster (fun c => c) (rich both) (key "r") 1%positive (Some dotFiles) (Some scheme)
    made_cm made_sec made_pdb made_job eq_refl ltac:(done) eq_refl eq_refl eq_refl eq_refl eq_refl asked ∅
    ltac:(by split) ltac:(by left)) as (w' & Hw & ((o & Ho & _) & _) & (_ & _ & Ha)).
  exists w'. split; [exact Hw|]. cbn in Ha. destruct Ha as (_ & _ & j & Hj & _). split; [by exists j|by exists o].
Defined.

Lemma request_served_witness : exists w1 n, (n <= 4)%nat /\ first_pass asked = ((Done None, {[key "r" := 1%positive]}), w1) /\
  is_Some (cl_Pod (Nat.iter n (job_pass (serve_kube serve_cluster) (key "r") (Some scheme)) w1)).
Proof.
  destruct (request_served serve_cluster (fun c => c) (rich both) (key "r") 1%positive (Some dotFiles) (Some scheme)
    made_cm made_sec made_pdb made_job eq_refl ltac:(done) eq_refl eq_refl eq_refl eq_refl eq_refl asked ∅
    ltac:(by split) ltac:(by left) eq_refl eq_refl eq_refl eq_refl) as (w1 & j & Hw & Hj & _ & _ & H).
  assert (j = made_job) as ->.
  { assert (cl_Job (first_pass asked).2 = Some made_job) as Hmade by (by vm_compute).
    rewrite (Hw : first_pass asked = _) in Hmade. cbn [snd] in Hmade. rewrite Hj in Hmade. by injection Hmade. }
  destruct (H (Some claim) (pod both) ltac:(by vm_compute) ltac:(by vm_compute)) as (n & Hn & _ & _ & _ & (p & Hp & _) & _).
  exists w1, n. split; [exact Hn|]. split; [exact Hw|]. by exists p.
Defined.

(** A whole life: the request becomes a job, the job gets its claim and its Pod, the
    Pod succeeds, the job is deleted -- its Pod and claim before it, since the
    deletion is a foreground one -- and the wire listens again. *)
Definition runner_pass (c : cluster) : cluster :=
  (finishes serve_cluster (RunnerReconciler.Reconcile false (Some scheme) (key "r") {[key "r" := 1%positive]}) c).2.
Definition job_passes (n : nat) : cluster -> cluster :=
  Nat.iter n (job_pass (serve_kube serve_cluster) (key "r") (Some scheme)).
Definition succeed (c : cluster) : cluster :=
  match cl_Pod c with
  | Some p => put (OPod (mkPod (pod_TypeMeta p) (pod_ObjectMeta p) (pod_Spec p) PodSucceeded)) c
  | None => c
  end.
Definition collect (c : cluster) : cluster :=
  match cl_Job c with
  | None => mkCluster (cl_ConfigMap c) (cl_Secret c) (cl_Budget c) None None None (cl_requested c) (cl_listening c)
  | Some _ => c
  end.
Example whole_life :
  let c1 := job_passes 4 (first_pass asked).2 in
  let c2 := job_passes 2 (succeed c1) in
  let c3 := collect (runner_pass c2) in
  let c4 := runner_pass c3 in
  arj_Status <$> cl_Job c1 = Some (mkActionsRunnerJobStatus "Pending" "Pending") /\
  arj_Status <$> cl_Job c2 = Some (mkActionsRunnerJobStatus "Pending" PodSucceeded) /\
  (cl_Job c3, cl_Pod c3, cl_listening c3) = (None, None, false) /\
  (cl_Job c4, cl_Pod c4, cl_listening c4) = (None, None, true).
Proof. by vm_compute. Qed.
End ServingExamples.
